(* ===== verification/_CoqProject ===== *)
-Q . S2P
Prelude.v
Memory.v
Endian.v
Crc32.v
Gpt.v
GptSpec.v
GptTheorems.v
Fat.v
FatSpec.v
FatRep.v
FatCreate.v
FatSuper.v
FatFrame.v
FatCopy.v
FatTheorems.v
Disk.v
DiskTheorems.v
ProgTheorems.v
Url.v
Malloc.v
MallocRep.v
MallocSpec.v
MallocHeap.v
MallocArena.v
MallocFree.v
MallocTheorems.v
MallocClient.v
MallocClaims.v
MallocRoom.v
Boot.v
BootDisk.v
BootLoad.v
BootBz.v
BootTheorems.v
DiskBoot.v
DiskBootElf.v
UserStart.v
ElfTools.v
ElfTheorems.v
Devices.v
AptList.v
AptSet.v
AptListTheorems.v
AptRecords.v
Apt.v
AptDeps.v
AptTheorems.v
AptMain.v
Http.v
HttpRead.v
HttpServe.v
HttpTheorems.v
HttpSession.v
HttpKeep.v
HttpTogether.v
HttpDaemon.v
HttpPool.v
HttpClients.v
HttpNet.v
Resources.v
HttpTests.v
Node.v
NodeTheorems.v
NodeMalloc.v
Blockdev.v
