(* ===== verification/Prelude.v ===== *)
(** * Verification of linux-util: disk, boot, memory and package tools

    linux-util is a set of small system programs: [src/gpt] builds bootable disks
    (GUID partition table, FAT32 volume, image builder, installer, extractor),
    [src/bootloader] boots a kernel from such a disk and prepares its files,
    [src/tlibc] has a memory allocator and owning pointers, [src/device] two
    character devices and [src/apt] a package client with a URL parser and an HTTP
    library.

    ** How the code is modelled

    C integers are [Z]; an operation that can leave the range of its type is
    followed by [u8], [u16], [u32] or [u64].  Code that uses memory is a [cmd] over
    an explicit state: it returns ([Done]), stops in a failed assertion, [abort] or
    uncaught exception ([AssertFail]), does something the language leaves undefined
    ([Fault]: an access outside the buffer, a null pointer, an uninitialised byte),
    or has used up its fuel ([Diverged]).  [wp] is its weakest precondition, total
    in all three.  A buffer, a disk or a memory is an [image] (Memory.v), a packed
    struct a [layout] from which offsets and widths are computed.  System calls and
    devices are environments or interfaces (type classes with the laws of their
    documentation): [Host] (byte order), [Os] (mmap), [Ports] and [AtaDisk] (port
    I/O and the disk behind it), [UserAccess] (copy_to_user), [Downloads] with
    [DownloadLaws] (wget, md5sum), [SocketOps] with [SocketLaws] (a connection),
    [NetOps] with [NetLaws] (descriptors and the TLS library), [NodeAlloc] with
    [NodeAllocLaws] (two allocators), [MapOps] with [MapLaws] (mappings).  Each
    interface has an instance that the witnesses run.

    ** Files

    - Prelude.v, Memory.v: integers, outcomes, commands and their rules; images,
      little-endian loads and stores, layouts.
    - Endian.v: [gpt/endian.h].  Crc32.v, Gpt.v: [gpt/gpt.c], [gpt.h]; GptSpec.v
      has the bytes that its parts write, GptTheorems.v the table as a whole.
    - Fat.v: [gpt/fat.c], [fat.h].  FatSpec.v and FatRep.v have the abstract volume,
      a list of files, and a reader; FatCreate.v, FatSuper.v, FatFrame.v, FatCopy.v
      prove formatting, the super block, frames and copying, FatTheorems.v the
      theorems.
    - Disk.v: [mkgpt.c] (module Mkgpt), [installer.c] (Installer), [readgpt.c]
      (Readgpt); DiskTheorems.v and ProgTheorems.v compose table and volume.
    - Url.v: [apt/url.c], [url.h] and the theorems about them.
    - Malloc.v: [tlibc/malloc.c].  MallocRep.v and MallocSpec.v have the abstract
      heap and the contracts, MallocHeap.v, MallocArena.v, MallocFree.v,
      MallocTheorems.v the functions, MallocClient.v a client that runs any
      sequence of calls, MallocClaims.v the theorems.
    - Boot.v: [bootloader/serial.h], [mbr.c], [vmlinux.c], [bzimage.c], and the
      structs of [bz_image.h] and [elf.h].  BootDisk.v has the interface of the
      disk and [read_disk], BootLoad.v the ELF segments, BootBz.v the bzImage,
      BootTheorems.v the theorems.
    - DiskBoot.v: the disk of [mkgpt] (and of [installer]) under the boot sector and the
      bzImage loader; DiskBootElf.v the same with the ELF loader.  UserStart.v:
      [gpt/init.c], and the names that the programs of the start pass on.
    - ElfTools.v: [gettext.c], [getpayload.c]; ElfTheorems.v.
    - Devices.v: [device/zero/init.c], [device/null/init.c] and their theorems.
    - AptList.v: [apt/aptlist.cpp], [aptlist.h].  AptSet.v has the sets of packages
      and the meaning of expressions, AptListTheorems.v the dependency parser,
      AptRecords.v the records.  Apt.v: [apt/apt.cpp]; AptDeps.v the resolution of
      dependencies, AptTheorems.v sources and downloads, AptMain.v the program: its
      operations, the child process of [update], the handler that saves a body.
    - Http.v: [apt/libhttpd/httpd.h] and [httpd.cpp]: head reader, parser, stream,
      request handling, client, file pages.  HttpRead.v has the laws of a socket
      and reading from it, HttpServe.v the parts of the server and of the client,
      HttpTheorems.v the theorems and a socket that delivers pieces.
    - HttpDaemon.v: the queue between the listener and the four workers of
      [HttpDaemon::run], as labelled steps, with its invariant and termination.
    - HttpSession.v: a connection that is kept for several requests, HttpKeep.v its
      client.  HttpPool.v: the workers with their connections, which composes
      HttpDaemon.v and HttpSession.v.
    - HttpTogether.v: a client and a server at the two ends of a connection; HttpClients.v
      the daemon with a client at the end of every connection.
    - HttpNet.v: the functions of [httpd.cpp] and [https-ext.cpp] that make and
      release descriptors, TLS contexts and TLS connections.
    - Resources.v: the constructors and destructors of [httpd.h] and [https-ext.h],
      the TLS socket, and [apt/buf.h], [defer.h] and [debug.h].
    - Blockdev.v: [gpt/blockdev.c].
    - HttpTests.v: [httpd-test.cpp]: the sockets and handlers of the tests, the tests
      that need no network, and their runner.
    - Node.v: [tlibc/node.cc], programs over owning pointers and their meaning;
      NodeTheorems.v.  NodeMalloc.v has the allocator of Malloc.v behind them, and
      [tlibc/mem.cc]; MallocRoom.v bounds the pages that the allocator maps.

    Definitions keep the names of the code; a loop that is a definition of its own
    has the name of its function and a suffix.

    ** What is shown

    - Disks: [GPTGenerate] leaves exactly MBR, entries and two valid headers,
      partitions are disjoint, [GPTParse] reads the table back; the table-driven
      CRC is the bitwise one; [createFAT32] and [FAT32Copyin] refine the list of
      files, a reader finds every file, errors leave the volume alone; [mkgpt],
      [installer] and [readgpt] compose them.  Accesses do not depend on the byte
      order of the host.
    - Allocator: an invariant of the heap that every function keeps; fresh, aligned
      objects that do not overlap and keep their bytes, under every sequence of
      calls within the contracts.
    - Boot: with a disk that answers, [read_disk] reads the sector; the ELF loader
      has every segment in place when it jumps, the bzImage loader both parts and
      the boot parameters, or it halts.  [gettext] refines the slices of the file
      that are executable, and always exits; [getpayload] writes the payload.
    - From the builder to the kernel: for input files that are what they should be,
      the disk that [mkgpt] writes boots, on every machine with an ATA disk that
      holds it: boot sector, second stage and kernel find one another by sector
      numbers that are written out in four programs, and the first programs of the
      running system are on the disk by the names they are called.  The disk of
      [installer] boots with the size 128 MiB and with no other.
    - Devices: a read of zero fills the buffer.
    - URLs: accepted strings, parts, errors, totality.
    - Packages: the dependency parser is total and a left-to-right parser of the
      fields; the lists read back; the tables are well formed; the resolution of
      dependencies ends with a closed set; what [apt download-dep] leaves is verified,
      and the other operations leave the working directory alone.
    - Owning pointers: a program over nodes refines the program over values, over every
      allocator with the laws and over the one of Malloc.v; nothing is freed twice,
      used after it is freed, or lost.
    - HTTP: the head that is parsed does not depend on how [read] cuts the bytes;
      requests are answered with exactly the bytes of the handler, bad ones with
      exactly the 400 response; the client gets exactly the announced body, and the
      bytes of a file that the server renders; [xwrite] and the stream deliver what
      they are given.  The worker pool loses no connection and no wakeup, ends in a
      bounded number of steps, and is stuck only when [run] has returned; every
      connection has then got exactly the responses to its requests, for every
      interleaving.  Listening sockets and TLS contexts are not leaked on errors;
      refused addresses and TLS connections leak their descriptors.  What the client sends
      is what the server accepts, and the two agree on a whole conversation, also with
      the daemon and a client for each of its connections; providers,
      readers and clients give back what they own.

    ** Bounds and fuel

    Loops that the code bounds are recursions on the bound.  The others have fuel:
    [FAT32Copyin] and [FAT32SuperInit] (the clusters of the volume), [readfile_loop]
    and [xfcopy_loop] (the bytes to copy), [tokenize] (the characters), the loops of
    the allocator (pages and blocks), [sweep] and [saturate] (arguments and names in
    the tables), [wait_disk] ([max_wait] of the disk), the loops of the HTTP
    library (lines, fields and bytes of a message).  The theorems show that with
    this fuel no [Diverged] is left; [parse_args] of the installer and
    [skip_options] of the client can run forever in the code and do so here.

    ** Not modelled

    The assembly but the entry of the second stage, the BIOS, messages and usage
    texts, the shell script of [apt update], the debug log of [apt]. Of the HTTP
    library: name resolution, time-outs, the log, and the tests that reach the
    internet.  HttpSession.v and HttpKeep.v have a peer that sends a message when it
    has the answer to the one before; bytes of a request that arrive with an earlier
    head are lost in the code, and so in Http.v.

    ** State

    Every operation that changes the state of a program is a definition, but for the
    assembly and the texts named above.  Of [elf.h], a copy of the system's header,
    the structs and constants that the programs use are modelled; of
    [httpd-test.cpp] the tests that start processes or reach the internet are not.
    *)
From Stdlib Require Import ZArith Lia Ascii String.
From stdpp Require Import base tactics list numbers list_numbers strings.

#[export] Set Default Goal Selector "!".
Open Scope Z_scope.

(** ** Machine integers

    A [w]-bit unsigned integer is a [Z] in [[0, 2^w)]; every C operation whose
    result can leave that range is followed by the wrap-around of its type. *)

Definition wrap (w x : Z) : Z := x `mod` 2 ^ w.
Definition u8 (x : Z) : Z := wrap 8 x.
Definition u16 (x : Z) : Z := wrap 16 x.
Definition u32 (x : Z) : Z := wrap 32 x.
Definition u64 (x : Z) : Z := wrap 64 x.

Definition is_u (w x : Z) : Prop := 0 <= x < 2 ^ w.
Definition is_byte (x : Z) : Prop := 0 <= x < 256.

Lemma wrap_small w x : 0 <= x < 2 ^ w -> wrap w x = x.
Proof. intros. unfold wrap. by apply Z.mod_small. Qed.

Lemma wrap_range w x : 0 <= w -> 0 <= wrap w x < 2 ^ w.
Proof. intros. unfold wrap. apply Z.mod_pos_bound. lia. Qed.

Lemma u8_id x : 0 <= x < 256 -> u8 x = x.
Proof. intros. apply wrap_small. lia. Qed.
Lemma u16_id x : 0 <= x < 65536 -> u16 x = x.
Proof. intros. apply wrap_small. lia. Qed.
Lemma u32_id x : 0 <= x < 4294967296 -> u32 x = x.
Proof. intros. apply wrap_small. lia. Qed.
Lemma u64_id x : 0 <= x < 18446744073709551616 -> u64 x = x.
Proof. intros. apply wrap_small. lia. Qed.

Lemma u8_range x : 0 <= u8 x < 256.
Proof. apply (wrap_range 8). lia. Qed.
Lemma u16_range x : 0 <= u16 x < 65536.
Proof. apply (wrap_range 16). lia. Qed.
Lemma u32_range x : 0 <= u32 x < 4294967296.
Proof. apply (wrap_range 32). lia. Qed.
Lemma u64_range x : 0 <= u64 x < 18446744073709551616.
Proof. apply (wrap_range 64). lia. Qed.

(** The ranges of the machine integers, and their wrap-arounds that are
    identities, as hint databases. *)
Create HintDb ranges.
#[export] Hint Resolve u8_range u16_range u32_range u64_range wrap_range : ranges.
Create Rewrite HintDb wraps.
#[export] Hint Rewrite u8_id u16_id u32_id u64_id wrap_small using lia : wraps.

(** Remove the wrap-arounds that [lia] can show to be identities. *)
Ltac nowrap :=
  repeat match goal with
  | |- context [u8 ?x] => rewrite (u8_id x) by lia
  | |- context [u16 ?x] => rewrite (u16_id x) by lia
  | |- context [u32 ?x] => rewrite (u32_id x) by lia
  | |- context [u64 ?x] => rewrite (u64_id x) by lia
  end.

Ltac nowrap_in H :=
  repeat match type of H with
  | context [u8 ?x] => rewrite (u8_id x) in H by lia
  | context [u16 ?x] => rewrite (u16_id x) in H by lia
  | context [u32 ?x] => rewrite (u32_id x) in H by lia
  | context [u64 ?x] => rewrite (u64_id x) in H by lia
  end.

(** Fields packed into an integer do not overlap. *)
Lemma lor_shiftl_add a b k : 0 <= k -> 0 <= a < 2 ^ k -> Z.lor a (Z.shiftl b k) = a + 2 ^ k * b.
Proof.
  intros Hk Ha. rewrite <-Z.add_nocarry_lor; [by rewrite Z.shiftl_mul_pow2, (Z.mul_comm b)|].
  apply Z.bits_inj'. intros n Hn. rewrite Z.land_spec, Z.shiftl_spec, Z.bits_0 by done.
  destruct (Z.ltb_spec n k).
  - rewrite (Z.testbit_neg_r b) by lia. apply andb_false_r.
  - rewrite <-(Z.mod_small a (2 ^ k)) by done. by rewrite Z.mod_pow2_bits_high by lia.
Qed.

(** Division and remainder facts for [lia]. *)
Ltac dlia := Z.div_mod_to_equations; lia.

(** Split every boolean test in the goal or the context into its cases. *)
Ltac split_ifs :=
  repeat (first
  [ progress simplify_eq
  | match goal with
    | |- context [if ?b then _ else _] =>
        lazymatch type of b with
        | bool => let E := fresh "E" in destruct b eqn:E
        | _ => case_decide
        end
    | H : context [if ?b then _ else _] |- _ =>
        lazymatch type of b with
        | bool => let E := fresh "E" in destruct b eqn:E
        | _ => case_decide
        end
    end ]).

(** ** Lists *)

Lemma nth_zeros (n k : nat) : nth k (replicate n 0) 0 = 0.
Proof. revert k. induction n as [|n IH]; intros [|k]; simpl; auto. Qed.

(** A list of bytes, by evaluation. *)
Lemma bytes_check l : forallb (fun b => (0 <=? b) && (b <? 256)) l = true -> Forall is_byte l.
Proof.
  intros H. apply Forall_forall. intros b Hb%list_elem_of_In. rewrite forallb_forall in H. specialize (H b Hb).
  apply andb_true_iff in H as [H1%Z.leb_le H2%Z.ltb_lt]. done.
Qed.

(** The bytes of a string literal. *)
Definition c_str (s : string) : list Z :=
  (fun a => Z.of_nat (Ascii.nat_of_ascii a)) <$> String.list_ascii_of_string s.

(** ** Outcomes of C code

    A call returns ([Done]), stops in a failed [assert] ([AssertFail]), performs
    an access the C standard leaves undefined, such as one outside its buffer or
    a division by zero ([Fault]), or has used up the fuel given to a loop that
    the code does not bound ([Diverged]). *)

Inductive outcome (A : Type) : Type :=
| Done (a : A)
| AssertFail
| Fault
| Diverged.
Arguments Done {A} a.
Arguments AssertFail {A}.
Arguments Fault {A}.
Arguments Diverged {A}.

(** A command over a state [S]. *)
Definition cmd (S A : Type) : Type := S -> outcome (A * S).

#[export] Instance cmd_ret {S} : MRet (cmd S) := fun A a s => Done (a, s).
#[export] Instance cmd_bind {S} : MBind (cmd S) := fun A B f c s =>
  match c s with
  | Done (a, s') => f a s'
  | AssertFail => AssertFail
  | Fault => Fault
  | Diverged => Diverged
  end.

Section Commands.
Context {S : Type}.

Definition c_assert (b : bool) : cmd S unit :=
  fun s => if b then Done (tt, s) else AssertFail.

Definition c_fault {A} : cmd S A := fun _ => Fault.

(** [abort()], and a loop that has used up its fuel. *)
Definition c_abort {A} : cmd S A := fun _ => AssertFail.
Definition c_diverge {A} : cmd S A := fun _ => Diverged.

(** A null pointer is [None]; using it as an address faults. *)
Definition c_deref {A} (o : option A) : cmd S A :=
  match o with Some a => mret a | None => c_fault end.

(** Unsigned division; the divisor zero is undefined. *)
Definition c_div (a b : Z) : cmd S Z :=
  if b =? 0 then c_fault else mret (a `div` b).
Definition c_mod (a b : Z) : cmd S Z :=
  if b =? 0 then c_fault else mret (a `mod` b).

(** [for (i = start; count more iterations; i++) body(i)] *)
Fixpoint c_for (n : nat) (i : Z) (body : Z -> cmd S unit) : cmd S unit :=
  match n with
  | O => mret tt
  | Datatypes.S n' => body i ;; c_for n' (i + 1) body
  end.

(** The same loop over the elements of a list. *)
Fixpoint c_foreach {A} (l : list A) (i : Z) (body : Z -> A -> cmd S unit) : cmd S unit :=
  match l with
  | [] => mret tt
  | x :: l' => body i x ;; c_foreach l' (i + 1) body
  end.

(** *** Weakest preconditions

    [wp c Q s]: from [s] the command [c] returns, and its result and final state
    satisfy [Q].  It excludes failed assertions, faults and divergence. *)
Definition wp {A} (c : cmd S A) (Q : A -> S -> Prop) (s : S) : Prop :=
  match c s with Done (a, s') => Q a s' | _ => False end.

Lemma wp_done {A} (c : cmd S A) Q s :
  wp c Q s <-> exists a s', c s = Done (a, s') /\ Q a s'.
Proof.
  unfold wp. split.
  - destruct (c s) as [[a s']| | |]; naive_solver.
  - intros (a & s' & -> & HQ). done.
Qed.

Lemma wp_ret {A} (a : A) (Q : A -> S -> Prop) s : Q a s -> wp (mret a) Q s.
Proof. done. Qed.

Lemma wp_bind {A B} (c : cmd S A) (k : A -> cmd S B) Q s :
  wp c (fun a => wp (k a) Q) s -> wp (c ≫= k) Q s.
Proof. unfold wp, mbind, cmd_bind. destruct (c s) as [[a s']| | |]; naive_solver. Qed.

(** The value of a sequence whose first command returns. *)
Lemma bind_done {A B} (c : cmd S A) (k : A -> cmd S B) s a s' :
  c s = Done (a, s') -> (c ≫= k) s = k a s'.
Proof. unfold mbind, cmd_bind. by intros ->. Qed.

(** Regroup a sequence. *)
Lemma wp_assoc {A B C} (c : cmd S A) (d : cmd S B) (f : cmd S C) (Q : C -> S -> Prop) s :
  wp (c ;; d) (fun _ => wp f Q) s -> wp (c ;; d ;; f) Q s.
Proof.
  unfold wp, mbind, cmd_bind. destruct (c s) as [[a t]| | |]; [|done..].
  destruct (d t) as [[b t']| | |]; done.
Qed.

Lemma wp_mono {A} (c : cmd S A) (Q Q' : A -> S -> Prop) s :
  wp c Q s -> (forall a s', Q a s' -> Q' a s') -> wp c Q' s.
Proof. unfold wp. destruct (c s) as [[a s']| | |]; naive_solver. Qed.

Lemma wp_eq {A} (c : cmd S A) (Q : A -> S -> Prop) s a s' :
  c s = Done (a, s') -> Q a s' -> wp c Q s.
Proof. unfold wp. intros ->. done. Qed.

Lemma wp_assert (b : bool) (Q : unit -> S -> Prop) s :
  b = true -> Q tt s -> wp (c_assert b) Q s.
Proof. unfold wp, c_assert. intros ->. done. Qed.

Lemma wp_deref {A} (a : A) (Q : A -> S -> Prop) s : Q a s -> wp (c_deref (Some a)) Q s.
Proof. done. Qed.

Lemma wp_div a b (Q : Z -> S -> Prop) s :
  b <> 0 -> Q (a `div` b) s -> wp (c_div a b) Q s.
Proof.
  intros Hb HQ. unfold c_div. rewrite (proj2 (Z.eqb_neq b 0) Hb). by apply wp_ret.
Qed.

Lemma wp_mod a b (Q : Z -> S -> Prop) s :
  b <> 0 -> Q (a `mod` b) s -> wp (c_mod a b) Q s.
Proof.
  intros Hb HQ. unfold c_mod. rewrite (proj2 (Z.eqb_neq b 0) Hb). by apply wp_ret.
Qed.

(** The loop rule: [I k] holds before iteration [k]. *)
Lemma wp_for (I : Z -> S -> Prop) n i body (Q : unit -> S -> Prop) s :
  I i s ->
  (forall k s', i <= k < i + Z.of_nat n -> I k s' -> wp (body k) (fun _ => I (k + 1)) s') ->
  (forall s', I (i + Z.of_nat n) s' -> Q tt s') ->
  wp (c_for n i body) Q s.
Proof.
  revert i s. induction n as [|n IH]; intros i s HI Hbody HQ; simpl.
  - apply wp_ret, HQ. by replace (i + Z.of_nat 0) with i by lia.
  - apply wp_bind. eapply wp_mono.
    + apply Hbody; [lia | done].
    + intros [] s' HI'. simpl in HI'. apply IH; [done | |].
      * intros k s'' Hk. apply Hbody. lia.
      * intros s'' HI''. apply HQ. by replace (i + Z.of_nat (Datatypes.S n)) with (i + 1 + Z.of_nat n) by lia.
Qed.

(** The rule for a loop over a list: before element number [k] the prefix of
    length [k] has been processed. *)
Lemma wp_foreach {A} (I : list A -> S -> Prop) (l : list A) i body (Q : unit -> S -> Prop) s :
  I [] s ->
  (forall p x q s', l = p ++ x :: q -> I p s' ->
    wp (body (i + Z.of_nat (length p)) x) (fun _ => I (p ++ [x])) s') ->
  (forall s', I l s' -> Q tt s') ->
  wp (c_foreach l i body) Q s.
Proof.
  revert i I s. induction l as [|x l IH]; intros i I s HI Hbody HQ; simpl.
  - by apply wp_ret, HQ.
  - apply wp_bind. eapply wp_mono.
    + specialize (Hbody [] x l s eq_refl HI). simpl in Hbody.
      replace (i + Z.of_nat 0) with i in Hbody by lia. exact Hbody.
    + intros [] s' HI'. simpl in HI'. apply (IH (i + 1) (fun p => I (x :: p))); [done | | done].
      intros p y q s'' -> Hp.
      specialize (Hbody (x :: p) y q s'' eq_refl Hp). simpl in Hbody.
      by replace (i + 1 + Z.of_nat (length p)) with (i + Z.of_nat (Datatypes.S (length p))) by lia.
Qed.
End Commands.

(** Reading off the value of a command from its weakest precondition. *)
Lemma wp_run {S A} (c : cmd S A) (Q : A -> S -> Prop) s :
  wp c Q s -> exists a s', c s = Done (a, s') /\ Q a s'.
Proof. apply wp_done. Qed.

(** A command whose postcondition fixes the result and the state. *)
Lemma wp_exact {S A} (c : cmd S A) s a s' :
  wp c (fun r t => r = a /\ t = s') s -> c s = Done (a, s').
Proof. intros (r & t & -> & -> & ->)%wp_run. done. Qed.

(** A command whose postcondition fixes the result and describes the state. *)
Lemma wp_result {S A} (c : cmd S A) s a (P : S -> Prop) :
  wp c (fun r t => r = a /\ P t) s -> exists t, c s = Done (a, t) /\ P t.
Proof. intros (r & t & -> & -> & HP)%wp_run. eauto. Qed.

(** A triple: from [s] the command [c] returns some [r] in some state [t] with [P]. *)
Declare Scope cmd_scope.
Delimit Scope cmd_scope with cmd.
Notation "⟪ s ⟫ c ⟪ r , t | P ⟫" := (wp c (fun r t => P) s)
  (at level 0, c at level 100, r name, t name, P at level 200,
   format "⟪  s  ⟫  c  ⟪  r ,  t  |  P  ⟫") : cmd_scope.

(** One step of the weakest precondition of a command: a sequence, a result, an
    assertion that is true or a pointer that is not null. *)
Ltac wp_step :=
  lazymatch goal with
  | |- wp (mbind _ _) _ _ => apply wp_bind
  | |- wp (mret _) _ _ => apply wp_ret
  | |- wp (c_assert true) _ _ => apply wp_assert; [reflexivity|]
  | |- wp (c_deref (Some _)) _ _ => apply wp_deref
  end.
