(* ===== verification/Memory.v ===== *)
(** * The disk image in memory

    [gpt.c] and [fat.c] build a disk in a buffer [uint8_t *buf].  An [image] is
    such a buffer: its size and its bytes.  A pointer into the buffer is its
    offset from [buf], so an access is a [cmd image] that faults when it leaves
    [[0, isize)].  Packed C structs are [layout]s, from which the offset and the
    width of a field are computed. *)
From Stdlib Require Import ZArith Lia.
From stdpp Require Import base tactics list numbers list_numbers strings.
From S2P Require Import Prelude.
Open Scope Z_scope.

(** ** Images *)

Record image : Type := Img { isize : Z; ibyte : Z -> Z }.

(** The image is made of bytes. *)
Definition image_wf (m : image) : Prop := forall i, is_byte (ibyte m i).

(** Replace the [n] bytes at [a] by [f 0], ..., [f (n-1)]. *)
Definition splice (m : image) (a n : Z) (f : Z -> Z) : image :=
  Img (isize m) (fun x => if (a <=? x) && (x <? a + n) then f (x - a) else ibyte m x).

Definition fill (m : image) (a n v : Z) : image := splice m a n (fun _ => v).

Definition wr (m : image) (a : Z) (bs : list Z) : image :=
  let n := Z.of_nat (length bs) in
  splice m a n (fun i => nth (Z.to_nat i) bs 0).

Definition copy (m : image) (d s n : Z) : image := splice m d n (fun i => ibyte m (s + i)).

(** The [n] bytes at [a]. *)
Definition rd (m : image) (a n : Z) : list Z := ibyte m <$> seqZ a n.

Definition in_range (m : image) (a n : Z) : bool :=
  (0 <=? a) && (0 <=? n) && (a + n <=? isize m).

#[global] Arguments ibyte : simpl never.
#[global] Arguments splice : simpl never.
#[global] Arguments fill : simpl never.
#[global] Arguments wr : simpl never.
#[global] Arguments copy : simpl never.
#[global] Arguments rd : simpl never.

(** Two images are the same when their sizes and their bytes agree. *)
#[export] Instance image_equiv : Equiv image :=
  fun m1 m2 => isize m1 = isize m2 /\ forall i, ibyte m1 i = ibyte m2 i.

#[export] Instance image_equivalence : Equivalence (≡@{image}).
Proof.
  split.
  - by intros m.
  - intros m1 m2 [Hs Hb]. split; [done | intros i; by rewrite Hb].
  - intros m1 m2 m3 [Hs Hb] [Hs' Hb']. split; [congruence | intros i; by rewrite Hb, Hb'].
Qed.

#[export] Instance ibyte_proper : Proper ((≡) ==> (=) ==> (=)) ibyte.
Proof. intros m1 m2 [_ Hb] a b ->. apply Hb. Qed.
#[export] Instance isize_proper : Proper ((≡) ==> (=)) isize.
Proof. intros m1 m2 [Hs _]. done. Qed.
#[export] Instance rd_proper : Proper ((≡) ==> (=) ==> (=) ==> (=)) rd.
Proof. intros m1 m2 [_ Hb] a a' -> n n' ->. unfold rd. apply list_fmap_ext. auto. Qed.
#[export] Instance splice_proper :
  Proper ((≡) ==> (=) ==> (=) ==> (pointwise_relation Z (=)) ==> (≡)) splice.
Proof.
  intros m1 m2 [Hs Hb] a a' -> n n' -> f f' Hf. split; [done|].
  intros i. unfold splice, ibyte at 1 3. rewrite Hb, (Hf (i - a')). done.
Qed.
#[export] Instance wr_proper : Proper ((≡) ==> (=) ==> (=) ==> (≡)) wr.
Proof. intros m1 m2 Hm a a' -> l l' ->. unfold wr. by rewrite Hm. Qed.
#[export] Instance fill_proper : Proper ((≡) ==> (=) ==> (=) ==> (=) ==> (≡)) fill.
Proof. intros m1 m2 Hm a a' -> n n' -> v v' ->. unfold fill. by rewrite Hm. Qed.

(** *** Bytes of a spliced image *)

Lemma ibyte_splice m a n f x :
  ibyte (splice m a n f) x =
  if (a <=? x) && (x <? a + n) then f (x - a) else ibyte m x.
Proof. done. Qed.

Lemma ibyte_splice_in m a n f x : a <= x < a + n -> ibyte (splice m a n f) x = f (x - a).
Proof.
  intros. rewrite ibyte_splice.
  by rewrite (proj2 (Z.leb_le _ _)), (proj2 (Z.ltb_lt _ _)) by lia.
Qed.

Lemma ibyte_splice_out m a n f x :
  x < a \/ a + n <= x -> ibyte (splice m a n f) x = ibyte m x.
Proof.
  intros H. rewrite ibyte_splice.
  destruct (Z.leb_spec a x), (Z.ltb_spec x (a + n)); simpl; done || lia.
Qed.

Lemma ibyte_wr_in m a bs x :
  a <= x < a + Z.of_nat (length bs) -> ibyte (wr m a bs) x = nth (Z.to_nat (x - a)) bs 0.
Proof. intros. unfold wr. by rewrite ibyte_splice_in. Qed.

Lemma ibyte_wr_out m a bs x :
  x < a \/ a + Z.of_nat (length bs) <= x -> ibyte (wr m a bs) x = ibyte m x.
Proof. intros. unfold wr. by rewrite ibyte_splice_out. Qed.

Lemma ibyte_fill_in m a n v x : a <= x < a + n -> ibyte (fill m a n v) x = v.
Proof. intros. unfold fill. by rewrite ibyte_splice_in. Qed.

Lemma ibyte_fill_out m a n v x : x < a \/ a + n <= x -> ibyte (fill m a n v) x = ibyte m x.
Proof. intros. unfold fill. by rewrite ibyte_splice_out. Qed.

Lemma ibyte_copy_in m d s n x : d <= x < d + n -> ibyte (copy m d s n) x = ibyte m (s + (x - d)).
Proof. intros. unfold copy. by rewrite ibyte_splice_in. Qed.

Lemma ibyte_copy_out m d s n x : x < d \/ d + n <= x -> ibyte (copy m d s n) x = ibyte m x.
Proof. intros. unfold copy. by rewrite ibyte_splice_out. Qed.

Lemma isize_splice m a n f : isize (splice m a n f) = isize m.
Proof. done. Qed.
Lemma isize_wr m a bs : isize (wr m a bs) = isize m.
Proof. done. Qed.
Lemma isize_fill m a n v : isize (fill m a n v) = isize m.
Proof. done. Qed.
Lemma isize_copy m d s n : isize (copy m d s n) = isize m.
Proof. done. Qed.

Lemma image_wf_splice m a n f :
  image_wf m -> (forall i, 0 <= i < n -> is_byte (f i)) -> image_wf (splice m a n f).
Proof.
  intros Hm Hf x. rewrite ibyte_splice.
  destruct (Z.leb_spec a x), (Z.ltb_spec x (a + n)); simpl; try apply Hm.
  apply Hf. lia.
Qed.

Lemma image_wf_wr m a bs : image_wf m -> Forall is_byte bs -> image_wf (wr m a bs).
Proof.
  intros Hm Hbs. apply image_wf_splice; [done|]. intros i Hi.
  eapply Forall_forall; [exact Hbs|]. apply list_elem_of_In, nth_In. lia.
Qed.

Lemma image_wf_fill m a n v : image_wf m -> is_byte v -> image_wf (fill m a n v).
Proof. intros. by apply image_wf_splice. Qed.

Lemma image_wf_copy m d s n : image_wf m -> image_wf (copy m d s n).
Proof. intros Hm. apply image_wf_splice; [done|]. intros. apply Hm. Qed.

(** *** Reading ranges *)

Lemma length_rd m a n : length (rd m a n) = Z.to_nat n.
Proof. unfold rd. by rewrite length_fmap, length_seqZ. Qed.

Lemma rd_ext m m' a a' n :
  (forall i, 0 <= i < n -> ibyte m (a + i) = ibyte m' (a' + i)) -> rd m a n = rd m' a' n.
Proof.
  intros H. apply list_eq. intros i. unfold rd. rewrite !list_lookup_fmap.
  destruct (decide (Z.of_nat i < n)) as [Hi|Hi].
  - rewrite !lookup_seqZ_lt by lia. simpl. f_equal. apply H. lia.
  - by rewrite !lookup_seqZ_ge by lia.
Qed.

Lemma rd_lookup m a n i : 0 <= i < n -> nth (Z.to_nat i) (rd m a n) 0 = ibyte m (a + i).
Proof.
  intros H. apply nth_lookup_Some. unfold rd.
  rewrite list_lookup_fmap, lookup_seqZ_lt by lia. simpl. f_equal. f_equal. lia.
Qed.

Lemma rd_first m a : nth 0 (rd m a 1) 0 = ibyte m a.
Proof. change 0%nat with (Z.to_nat 0). rewrite rd_lookup by lia. f_equal. lia. Qed.

Lemma rd_const m a n v :
  (forall i, 0 <= i < n -> ibyte m (a + i) = v) -> rd m a n = replicate (Z.to_nat n) v.
Proof.
  intros H. apply list_eq. intros i. unfold rd. rewrite list_lookup_fmap.
  destruct (decide (Z.of_nat i < n)) as [Hi|Hi].
  - rewrite lookup_seqZ_lt by lia. simpl. rewrite H by lia.
    symmetry. apply lookup_replicate. lia.
  - rewrite lookup_seqZ_ge by lia. simpl. symmetry.
    apply lookup_ge_None. rewrite length_replicate. lia.
Qed.

Lemma rd_bytes m a n : image_wf m -> Forall is_byte (rd m a n).
Proof. intros Hm. unfold rd. apply Forall_fmap, Forall_true. intros. apply Hm. Qed.

Lemma rd_app m a n k : 0 <= n -> 0 <= k -> rd m a (n + k) = rd m a n ++ rd m (a + n) k.
Proof. intros. unfold rd. by rewrite seqZ_app, fmap_app by lia. Qed.

Lemma rd_wr_same m a bs n : n = Z.of_nat (length bs) -> rd (wr m a bs) a n = bs.
Proof.
  intros ->. apply list_eq. intros i. unfold rd. rewrite list_lookup_fmap.
  destruct (decide (i < length bs)%nat) as [Hi|Hi].
  - rewrite lookup_seqZ_lt by lia. simpl. rewrite ibyte_wr_in by lia.
    replace (Z.to_nat (a + Z.of_nat i - a)) with i by lia.
    symmetry. destruct (nth_lookup_or_length bs i 0); [done | lia].
  - rewrite lookup_seqZ_ge by lia. simpl. symmetry. apply lookup_ge_None. lia.
Qed.

Lemma rd_splice_out m a n f b k :
  b + k <= a \/ a + n <= b -> rd (splice m a n f) b k = rd m b k.
Proof. intros H. apply rd_ext. intros i Hi. apply ibyte_splice_out. lia. Qed.

Lemma rd_wr_out m a bs b k :
  b + k <= a \/ a + Z.of_nat (length bs) <= b -> rd (wr m a bs) b k = rd m b k.
Proof. intros H. by apply rd_splice_out. Qed.

Lemma rd_fill_out m a n v b k : b + k <= a \/ a + n <= b -> rd (fill m a n v) b k = rd m b k.
Proof. intros H. by apply rd_splice_out. Qed.

Lemma rd_copy_out m d s n b k : b + k <= d \/ d + n <= b -> rd (copy m d s n) b k = rd m b k.
Proof. intros H. by apply rd_splice_out. Qed.

Lemma rd_fill_in m a n v b k : a <= b -> b + k <= a + n -> rd (fill m a n v) b k = replicate (Z.to_nat k) v.
Proof. intros. apply rd_const. intros. apply ibyte_fill_in. lia. Qed.

Lemma rd_copy_in m d s n b k :
  d <= b -> b + k <= d + n -> rd (copy m d s n) b k = rd m (s + (b - d)) k.
Proof.
  intros. apply rd_ext. intros i Hi. rewrite ibyte_copy_in by lia. f_equal. lia.
Qed.

(** ** Little-endian integers *)

Definition le (n v : Z) : list Z := Z_to_little_endian n 8 v.
Definition unle (bs : list Z) : Z := little_endian_to_Z 8 bs.
#[global] Arguments le : simpl never.
#[global] Arguments unle : simpl never.

Lemma length_le n v : 0 <= n -> Z.of_nat (length (le n v)) = n.
Proof. intros. by apply length_Z_to_little_endian. Qed.

Lemma unle_le n v : 0 <= n -> unle (le n v) = wrap (8 * n) v.
Proof.
  intros. unfold unle, le. rewrite little_endian_to_Z_to_little_endian by lia.
  unfold wrap. by rewrite (Z.mul_comm n).
Qed.

Lemma le_unle n bs : n = Z.of_nat (length bs) -> Forall is_byte bs -> le n (unle bs) = bs.
Proof. intros -> H. unfold le, unle. apply Z_to_little_endian_to_Z; [done | lia | done]. Qed.

Lemma le_bytes n v : 0 <= n -> Forall is_byte (le n v).
Proof. intros. apply (Z_to_little_endian_bound n 8); lia. Qed.

Lemma unle_range bs :
  Forall is_byte bs -> 0 <= unle bs < 2 ^ (8 * Z.of_nat (length bs)).
Proof.
  intros H. rewrite (Z.mul_comm 8). apply little_endian_to_Z_bound; [lia | done].
Qed.

Lemma unle_zeros n : unle (replicate n 0) = 0.
Proof. unfold unle. induction n as [|n IH]; [done|]. cbn. by rewrite IH. Qed.

(** Only the low [8 n] bits are encoded. *)
Lemma le_wrap n v : 0 <= n -> le n (wrap (8 * n) v) = le n v.
Proof.
  intros. rewrite <-(unle_le n v) by done. apply le_unle.
  - by rewrite length_le.
  - by apply le_bytes.
Qed.

(** The little-endian integer in the [n] bytes at [a]. *)
Definition ld (n : Z) (m : image) (a : Z) : Z := unle (rd m a n).

#[export] Instance ld_proper n : Proper ((≡) ==> (=) ==> (=)) (ld n).
Proof. intros m1 m2 Hm a a' ->. unfold ld. by rewrite Hm. Qed.

Lemma ld_range n m a : 0 <= n -> image_wf m -> 0 <= ld n m a < 2 ^ (8 * n).
Proof.
  intros Hn Hm. unfold ld.
  pose proof (unle_range (rd m a n) (rd_bytes m a n Hm)) as H.
  rewrite length_rd, Z2Nat.id in H by done. done.
Qed.

Lemma ld_wr_le n m a v : 0 <= n -> ld n (wr m a (le n v)) a = wrap (8 * n) v.
Proof.
  intros. unfold ld. rewrite rd_wr_same by (by rewrite length_le). by apply unle_le.
Qed.

Lemma ld_zero n m a : (forall i, 0 <= i < n -> ibyte m (a + i) = 0) -> ld n m a = 0.
Proof. intros H. unfold ld. rewrite (rd_const _ _ _ 0) by done. apply unle_zeros. Qed.

(** ** Access commands *)

Definition load_bytes (a n : Z) : cmd image (list Z) :=
  fun m => if in_range m a n then Done (rd m a n, m) else Fault.

Definition store_bytes (a : Z) (bs : list Z) : cmd image unit :=
  fun m => if in_range m a (Z.of_nat (length bs)) then Done (tt, wr m a bs) else Fault.

Definition memset (a v n : Z) : cmd image unit :=
  fun m => if in_range m a n then Done (tt, fill m a n (u8 v)) else Fault.

(** [memcpy] inside one buffer; overlapping operands are undefined. *)
Definition memcpy (d s n : Z) : cmd image unit :=
  fun m =>
    if in_range m d n && in_range m s n && ((d + n <=? s) || (s + n <=? d) || (n =? 0))
    then Done (tt, copy m d s n) else Fault.

Lemma in_range_true m a n : 0 <= a -> 0 <= n -> a + n <= isize m -> in_range m a n = true.
Proof. intros. unfold in_range. rewrite !andb_true_iff, !Z.leb_le. lia. Qed.

Lemma in_range_inv m a n : in_range m a n = true -> 0 <= a /\ 0 <= n /\ a + n <= isize m.
Proof. unfold in_range. rewrite !andb_true_iff, !Z.leb_le. lia. Qed.

Lemma wp_load_bytes a n (Q : list Z -> image -> Prop) m :
  0 <= a -> 0 <= n -> a + n <= isize m -> Q (rd m a n) m -> wp (load_bytes a n) Q m.
Proof. intros. unfold wp, load_bytes. by rewrite in_range_true. Qed.

Lemma wp_store_bytes a bs (Q : unit -> image -> Prop) m :
  0 <= a -> a + Z.of_nat (length bs) <= isize m -> Q tt (wr m a bs) -> wp (store_bytes a bs) Q m.
Proof. intros. unfold wp, store_bytes. rewrite in_range_true by lia. done. Qed.

Lemma wp_memset a v n (Q : unit -> image -> Prop) m :
  0 <= a -> 0 <= n -> a + n <= isize m -> Q tt (fill m a n (u8 v)) -> wp (memset a v n) Q m.
Proof. intros. unfold wp, memset. by rewrite in_range_true. Qed.

Lemma wp_memcpy d s n (Q : unit -> image -> Prop) m :
  0 <= d -> 0 <= s -> 0 <= n -> d + n <= isize m -> s + n <= isize m ->
  d + n <= s \/ s + n <= d -> Q tt (copy m d s n) -> wp (memcpy d s n) Q m.
Proof.
  intros. unfold wp, memcpy. rewrite !in_range_true by lia. simpl.
  assert ((d + n <=? s) || (s + n <=? d) || (n =? 0) = true) as ->; [|done].
  rewrite !orb_true_iff, !Z.leb_le. lia.
Qed.

(** ** Packed structs *)

(** The fields of a packed struct in declaration order, with their sizes. *)
Definition layout : Type := list (string * Z).

Fixpoint sizeof (l : layout) : Z :=
  match l with [] => 0 | (_, n) :: l' => n + sizeof l' end.

(** Offset and size of a field; a name the struct does not have has size 0. *)
Record field : Type := Field { f_off : Z; f_size : Z }.

Fixpoint find_field (l : layout) (name : string) (off : Z) : field :=
  match l with
  | [] => Field off 0
  | (f, n) :: l' => if String.eqb f name then Field off n else find_field l' name (off + n)
  end.

Definition fld (l : layout) (name : string) : field := find_field l name 0.
Definition offsetof (l : layout) (name : string) : Z := f_off (fld l name).
Definition sizeof_field (l : layout) (name : string) : Z := f_size (fld l name).

(** Every field lies inside its struct. *)
Lemma find_field_bounds l name off :
  Forall (fun p => 0 <= p.2) l ->
  off <= f_off (find_field l name off) /\
  f_off (find_field l name off) + f_size (find_field l name off) <= off + sizeof l /\
  0 <= f_size (find_field l name off).
Proof.
  revert off. induction l as [|[f n] l IH]; intros off Hl; simpl; [lia|].
  apply Forall_cons in Hl as [Hn Hl]. simpl in Hn.
  assert (0 <= sizeof l) by (specialize (IH 0 Hl); lia).
  destruct (String.eqb f name); simpl; [lia|].
  specialize (IH (off + n) Hl). lia.
Qed.

(** Evaluate the field computations of the goal. *)
Ltac eval_layout :=
  repeat match goal with
  | |- context [offsetof ?L ?s] =>
      let v := eval vm_compute in (offsetof L s) in change (offsetof L s) with v
  | |- context [sizeof_field ?L ?s] =>
      let v := eval vm_compute in (sizeof_field L s) in change (sizeof_field L s) with v
  | |- context [sizeof ?L] =>
      let v := eval vm_compute in (sizeof L) in change (sizeof L) with v
  end.

(** ** Normalising reads of updated images *)

Lemma rd_at m a b n k : a = b -> n = k -> rd m a n = rd m b k.
Proof. by intros -> ->. Qed.

Lemma rd_0 m a : rd m a 0 = [].
Proof. done. Qed.

Lemma rd_wr_at m a bs b k : b = a -> k = Z.of_nat (length bs) -> rd (wr m a bs) b k = bs.
Proof. intros ->. apply rd_wr_same. Qed.

Lemma rd_wr_le_at m a n v b k : 0 <= n -> b = a -> k = n -> rd (wr m a (le n v)) b k = le n v.
Proof. intros ? -> ->. apply rd_wr_same. by rewrite length_le. Qed.

Lemma rd_wr_le_out m a n v b k :
  0 <= n -> b + k <= a \/ a + n <= b -> rd (wr m a (le n v)) b k = rd m b k.
Proof. intros ? H. apply rd_wr_out. by rewrite length_le. Qed.

Lemma ibyte_wr_le_out m a n v x :
  0 <= n -> x < a \/ a + n <= x -> ibyte (wr m a (le n v)) x = ibyte m x.
Proof. intros ? H. apply ibyte_wr_out. by rewrite length_le. Qed.

(** An image whose only difference to [m0] is the range that holds [bs]. *)
Lemma wr_intro m m0 a bs :
  isize m = isize m0 ->
  (forall x, x < a \/ a + Z.of_nat (length bs) <= x -> ibyte m x = ibyte m0 x) ->
  rd m a (Z.of_nat (length bs)) = bs -> m ≡ wr m0 a bs.
Proof.
  intros Hs Hout Hin. split; [done|]. intros x.
  destruct (decide (a <= x < a + Z.of_nat (length bs))) as [Hx|Hx].
  - rewrite ibyte_wr_in by done.
    pose proof (rd_lookup m a (Z.of_nat (length bs)) (x - a)) as Hr. rewrite Hin in Hr.
    rewrite Hr by lia. f_equal. lia.
  - rewrite ibyte_wr_out by lia. apply Hout. lia.
Qed.

Lemma wr_wr_app m a l1 l2 :
  wr (wr m a l1) (a + Z.of_nat (length l1)) l2 ≡ wr m a (l1 ++ l2).
Proof.
  apply wr_intro; [done| |].
  - intros x Hx. rewrite length_app in Hx. rewrite !ibyte_wr_out by lia. done.
  - rewrite length_app, Nat2Z.inj_add, rd_app by lia.
    rewrite rd_wr_out by lia. by rewrite !rd_wr_same.
Qed.

Lemma wr_nil m a : wr m a [] ≡ m.
Proof. split; [done|]. intros x. apply ibyte_wr_out. simpl. lia. Qed.

(** Concatenation of consecutive blocks of [n] bytes. *)
Lemma rd_blocks (m : image) (a n : Z) (bss : list (list Z)) :
  0 <= n ->
  (forall (i : nat) bs, bss !! i = Some bs -> rd m (a + n * Z.of_nat i) n = bs) ->
  rd m a (n * Z.of_nat (length bss)) = concat bss.
Proof.
  intros Hn. revert a. induction bss as [|bs bss IH]; intros a H.
  - simpl. by rewrite Z.mul_0_r.
  - change (length (bs :: bss)) with (S (length bss)).
    rewrite Nat2Z.inj_succ, Z.mul_succ_r, Z.add_comm, rd_app by lia. simpl. f_equal.
    + rewrite <-(H 0%nat bs) by done. f_equal. lia.
    + apply IH. intros i bs' Hi. rewrite <-(H (S i) bs') by done. f_equal. lia.
Qed.

Lemma length_le_nat n v : 0 <= n -> length (le n v) = Z.to_nat n.
Proof. intros. pose proof (length_le n v). lia. Qed.

(** [lia] with the lengths of list literals. *)
Ltac llia := first [lia | cbn [length]; lia].

(** Rewrite the reads of an updated image to reads of the original one; the
    operands are separated by [lia]. *)
Ltac rd_step :=
  match goal with
  | |- context [rd ?m ?a 0] => rewrite (rd_0 m a)
  | |- context [rd (wr ?m ?a (le ?n ?v)) ?b ?k] =>
      first [ rewrite (rd_wr_le_out m a n v b k) by lia
            | rewrite (rd_wr_le_at m a n v b k) by lia ]
  | |- context [rd (wr ?m ?a ?bs) ?b ?k] =>
      first [ rewrite (rd_wr_out m a bs b k) by llia
            | rewrite (rd_wr_at m a bs b k) by llia ]
  | |- context [rd (fill ?m ?a ?n ?v) ?b ?k] =>
      first [ rewrite (rd_fill_out m a n v b k) by lia
            | rewrite (rd_fill_in m a n v b k) by lia ]
  | |- context [rd (copy ?m ?d ?s ?n) ?b ?k] =>
      first [ rewrite (rd_copy_out m d s n b k) by lia
            | rewrite (rd_copy_in m d s n b k) by lia ]
  | |- context [ibyte (wr ?m ?a (le ?n ?v)) ?x] => rewrite (ibyte_wr_le_out m a n v x) by lia
  | |- context [ibyte (wr ?m ?a ?bs) ?x] => rewrite (ibyte_wr_out m a bs x) by llia
  | |- context [ibyte (fill ?m ?a ?n ?v) ?x] =>
      first [ rewrite (ibyte_fill_out m a n v x) by lia
            | rewrite (ibyte_fill_in m a n v x) by lia ]
  | |- context [ibyte (copy ?m ?d ?s ?n) ?x] =>
      first [ rewrite (ibyte_copy_out m d s n x) by lia
            | rewrite (ibyte_copy_in m d s n x) by lia ]
  end.
Ltac rd_simpl := repeat rd_step.

(** Evaluate the wrap-around of a literal. *)
Ltac eval_wrap :=
  repeat match goal with
  | |- context [wrap ?w Z0] => change (wrap w Z0) with 0
  | |- context [wrap ?w (Zpos ?p)] =>
      let v := eval vm_compute in (wrap w (Zpos p)) in change (wrap w (Zpos p)) with v
  end.

(** Evaluate the first load of the goal that reads a stored integer. *)
Ltac ld_step :=
  match goal with
  | |- context [ld ?n ?m ?a] =>
      let H := fresh "Hld" in
      eassert (ld n m a = _) as H by (unfold ld; rd_simpl; rewrite unle_le by lia; reflexivity);
      rewrite H; clear H; eval_wrap
  end.

(** The read of a struct is the concatenation of the reads of its fields. *)
Fixpoint rd_fields (m : image) (a : Z) (l : layout) : list (list Z) :=
  match l with
  | [] => []
  | (_, n) :: l' => rd m a n :: rd_fields m (a + n) l'
  end.

Lemma rd_struct m a l :
  Forall (fun p => 0 <= p.2) l -> rd m a (sizeof l) = concat (rd_fields m a l).
Proof.
  intros H. revert a. induction H as [|[f n] l Hn Hl IH]; intros a; [done|].
  simpl. simpl in Hn. pose proof (find_field_bounds l "" 0 Hl).
  rewrite rd_app by lia. by rewrite IH.
Qed.

Lemma rd_struct_intro m a l n bs :
  n = sizeof l -> forallb (fun p => 0 <=? p.2) l = true ->
  concat (rd_fields m a l) = bs -> rd m a n = bs.
Proof.
  intros -> Hl <-. apply rd_struct. rewrite forallb_forall in Hl.
  apply Forall_forall. intros p Hp. by apply Z.leb_le, Hl, list_elem_of_In.
Qed.

(** Add up the literal offsets of the addresses in the goal. *)
Ltac norm_addr :=
  repeat match goal with
  | |- context [rd ?m (?a + Zpos ?p + Zpos ?q) ?n] =>
      let v := eval vm_compute in (Zpos p + Zpos q) in
      replace (a + Zpos p + Zpos q) with (a + v) by lia
  end.

(** Prove what a struct holds field by field. *)
Ltac rd_layout l :=
  apply (rd_struct_intro _ _ l); [reflexivity | reflexivity |];
  cbn [rd_fields l concat]; rd_simpl; rewrite ?app_nil_r; norm_addr.

(** Reading off the fields of a struct whose bytes are known. *)
Lemma rd_app_inv m a n l1 l2 :
  rd m a n = l1 ++ l2 ->
  rd m a (Z.of_nat (length l1)) = l1 /\
  rd m (a + Z.of_nat (length l1)) (n - Z.of_nat (length l1)) = l2.
Proof.
  intros H. assert (Z.to_nat n = length l1 + length l2)%nat as Hn.
  { rewrite <-length_app, <-H. by rewrite length_rd. }
  destruct (decide (n <= 0)) as [Hneg|Hpos].
  - assert (l1 = [] /\ l2 = []) as [-> ->].
    { split; apply nil_length_inv; lia. }
    simpl. split; [done|]. unfold rd. by rewrite seqZ_nil by lia.
  - replace n with (Z.of_nat (length l1) + Z.of_nat (length l2)) in H |- * by lia.
    rewrite rd_app in H by lia.
    apply app_inj_1 in H as [H1 H2]; [|rewrite length_rd; lia].
    split; [done|]. by replace (Z.of_nat (length l1) + Z.of_nat (length l2) - Z.of_nat (length l1))
      with (Z.of_nat (length l2)) by lia.
Qed.

Lemma ld_of_rd n m a v : rd m a n = le n v -> 0 <= n -> ld n m a = wrap (8 * n) v.
Proof. intros H Hn. unfold ld. rewrite H. by apply unle_le. Qed.

Lemma ibyte_of_rd m a n bs i :
  rd m a n = bs -> 0 <= i < n -> ibyte m (a + i) = nth (Z.to_nat i) bs 0.
Proof. intros <- Hi. by rewrite rd_lookup. Qed.

(** Split the known bytes of a struct, [H : rd m a n = l1 ++ ... ++ lk], into one
    hypothesis per field; the lengths that are not literal come from the context. *)
Ltac split_fields H :=
  repeat match type of H with
  | rd _ _ _ = ?l1 ++ ?l2 => let R := fresh "R" in apply rd_app_inv in H as [R H]
  end;
  repeat match goal with
  | R : context [Z.of_nat (length (le ?n ?v))] |- _ => rewrite (length_le n v) in R by lia
  | R : context [Z.of_nat (length ?l)], E : length ?l = ?n |- _ => rewrite E in R
  end;
  repeat match goal with
  | R : context [Z.of_nat (S ?n)] |- _ =>
      let v := eval vm_compute in (Z.of_nat (S n)) in change (Z.of_nat (S n)) with v in R
  end;
  repeat match goal with R : rd _ (_ + _ + _) _ = _ |- _ => rewrite <-!Z.add_assoc in R end;
  repeat match goal with
  | R : rd _ (_ + ?o) _ = _ |- _ =>
      progress (let v := eval vm_compute in o in
                lazymatch v with Zpos _ => change o with v in R end)
  | R : rd _ _ ?k = _ |- _ =>
      progress (let v := eval vm_compute in k in
                lazymatch v with Zpos _ => change k with v in R end)
  end.
