(* ===== verification/Endian.v ===== *)
(** * Byte order: [src/gpt/endian.h]

    On-disk integers are little-endian whatever the machine that writes them.
    The order of the machine is the class [Host]; [endian.h] finds it out at run
    time and swaps the bytes of an integer when the machine is big-endian.  The
    theorems show that the accessors built this way do not depend on the host. *)
From Stdlib Require Import ZArith Lia.
From stdpp Require Import base tactics list numbers list_numbers strings.
From S2P Require Import Prelude Memory.
Open Scope Z_scope.

(** The order in which the machine stores the bytes of an integer. *)
Inductive byte_order : Type := LittleEndian | BigEndian.
Class Host : Type := host_order : byte_order.

#[export] Instance byte_order_eq_dec : EqDecision byte_order.
Proof. solve_decision. Defined.

Section WithHost.
Context {host : Host}.

(** Object representation of an [n]-byte unsigned integer on this machine. *)
Definition native (n v : Z) : list Z :=
  match host_order with LittleEndian => le n v | BigEndian => rev (le n v) end.

Definition of_native (bs : list Z) : Z :=
  match host_order with LittleEndian => unle bs | BigEndian => unle (rev bs) end.

(** Plain C accesses [*p] and [*p = v] at an integer type of [n] bytes. *)
Definition load_native (n a : Z) : cmd image Z :=
  bs ← load_bytes a n; mret (of_native bs).
Definition store_native (n a v : Z) : cmd image unit :=
  store_bytes a (native n v).

(** Whether the first byte of the [int] 1 is 1. *)
Definition __little_endian : bool := nth 0 (native 4 1) 0 =? 1.

Definition __swap_16 (val : list Z) : Z :=
  of_native [nth 1 val 0; nth 0 val 0].

Definition __swap_32 (val : list Z) : Z :=
  of_native [nth 3 val 0; nth 2 val 0; nth 1 val 0; nth 0 val 0].

(** The loop [dst[i] = src[7 - i]]. *)
Definition __swap_64 (val : list Z) : Z :=
  of_native ((fun i => nth (7 - i) val 0) <$> seq 0 8).

(** [__load_leN] on the bytes [src] points to. *)
Definition le16_of_bytes (src : list Z) : Z :=
  if __little_endian then of_native src else __swap_16 src.
Definition le32_of_bytes (src : list Z) : Z :=
  if __little_endian then of_native src else __swap_32 src.
Definition le64_of_bytes (src : list Z) : Z :=
  if __little_endian then of_native src else __swap_64 src.

Definition __load_le16 (src : Z) : cmd image Z := bs ← load_bytes src 2; mret (le16_of_bytes bs).
Definition __load_le32 (src : Z) : cmd image Z := bs ← load_bytes src 4; mret (le32_of_bytes bs).
Definition __load_le64 (src : Z) : cmd image Z := bs ← load_bytes src 8; mret (le64_of_bytes bs).

Definition __store_le16 (dst val : Z) : cmd image unit :=
  if __little_endian then store_native 2 dst val
  else store_native 2 dst (__swap_16 (native 2 val)).
Definition __store_le32 (dst val : Z) : cmd image unit :=
  if __little_endian then store_native 4 dst val
  else store_native 4 dst (__swap_32 (native 4 val)).
Definition __store_le64 (dst val : Z) : cmd image unit :=
  if __little_endian then store_native 8 dst val
  else store_native 8 dst (__swap_64 (native 8 val)).

(** The macros switch on [sizeof(attr)]; the address and the size of the
    attribute are the first two arguments. *)
Definition _generic_store_le (attr size val : Z) : cmd image unit :=
  match size with
  | 1 => store_bytes attr [u8 val]
  | 2 => __store_le16 attr (u16 val)
  | 4 => __store_le32 attr (u32 val)
  | 8 => __store_le64 attr (u64 val)
  | _ => c_assert false
  end.

Definition _generic_load_le (attr size : Z) : cmd image Z :=
  match size with
  | 1 => bs ← load_bytes attr 1; mret (nth 0 bs 0)
  | 2 => __load_le16 attr
  | 4 => __load_le32 attr
  | 8 => __load_le64 attr
  | _ => c_assert false ;; mret 0
  end.

(** Access to the field [f] of a packed struct at [base]. *)
Definition put (l : layout) (base : Z) (f : string) (val : Z) : cmd image unit :=
  _generic_store_le (base + offsetof l f) (sizeof_field l f) val.
Definition get (l : layout) (base : Z) (f : string) : cmd image Z :=
  _generic_load_le (base + offsetof l f) (sizeof_field l f).

(** A plain assignment [p->f = val] and a plain use of [p->f]. *)
Definition put_native (l : layout) (base : Z) (f : string) (val : Z) : cmd image unit :=
  store_native (sizeof_field l f) (base + offsetof l f) val.
Definition get_native (l : layout) (base : Z) (f : string) : cmd image Z :=
  load_native (sizeof_field l f) (base + offsetof l f).

(** The integer widths the macros accept. *)
Definition is_width (n : Z) : Prop := n = 1 \/ n = 2 \/ n = 4 \/ n = 8.

(** ** The detection and the swaps *)

Lemma little_endian_detects :
  __little_endian = bool_decide (host_order = LittleEndian).
Proof. unfold __little_endian, native. destruct host_order; vm_compute; reflexivity. Qed.

Lemma length_native n v : 0 <= n -> Z.of_nat (length (native n v)) = n.
Proof. intros. unfold native. destruct host_order; rewrite ?length_rev; by apply length_le. Qed.

Lemma of_native_native n v : 0 <= n -> of_native (native n v) = wrap (8 * n) v.
Proof.
  intros. unfold of_native, native.
  destruct host_order; rewrite ?rev_involutive; by apply unle_le.
Qed.

(** A swap is the reversal of the object representation. *)
Lemma swap_16_rev bs : length bs = 2%nat -> __swap_16 bs = of_native (rev bs).
Proof. intros. by destruct bs as [|b0 [|b1 [|]]]. Qed.
Lemma swap_32_rev bs : length bs = 4%nat -> __swap_32 bs = of_native (rev bs).
Proof. intros. by destruct bs as [|b0 [|b1 [|b2 [|b3 [|]]]]]. Qed.
Lemma swap_64_rev bs : length bs = 8%nat -> __swap_64 bs = of_native (rev bs).
Proof. intros. by destruct bs as [|? [|? [|? [|? [|? [|? [|? [|? [|]]]]]]]]]. Qed.

Lemma native_of_native n bs :
  n = Z.of_nat (length bs) -> Forall is_byte bs -> native n (of_native bs) = bs.
Proof.
  intros -> H. unfold native, of_native. destruct host_order.
  - by apply le_unle.
  - rewrite le_unle, rev_involutive; [done | by rewrite length_rev | by apply Forall_rev].
Qed.

Lemma le16_of_bytes_unle bs : length bs = 2%nat -> le16_of_bytes bs = unle bs.
Proof.
  intros. unfold le16_of_bytes. rewrite little_endian_detects, swap_16_rev by done.
  unfold of_native. destruct host_order; simpl; by rewrite ?rev_involutive.
Qed.
Lemma le32_of_bytes_unle bs : length bs = 4%nat -> le32_of_bytes bs = unle bs.
Proof.
  intros. unfold le32_of_bytes. rewrite little_endian_detects, swap_32_rev by done.
  unfold of_native. destruct host_order; simpl; by rewrite ?rev_involutive.
Qed.
Lemma le64_of_bytes_unle bs : length bs = 8%nat -> le64_of_bytes bs = unle bs.
Proof.
  intros. unfold le64_of_bytes. rewrite little_endian_detects, swap_64_rev by done.
  unfold of_native. destruct host_order; simpl; by rewrite ?rev_involutive.
Qed.

Lemma native_swapped n v sw :
  0 <= n -> sw (native n v) = of_native (rev (native n v)) ->
  native n (if __little_endian then v else sw (native n v)) = le n v.
Proof.
  intros Hn Hsw. rewrite Hsw, little_endian_detects. unfold native, of_native.
  destruct host_order; simpl; [done|].
  rewrite !rev_involutive.
  rewrite le_unle; [by rewrite rev_involutive | by rewrite length_rev, length_le | ].
  by apply Forall_rev, le_bytes.
Qed.

(** ** The accessors do not depend on the host *)

Lemma generic_load_le_eq a n m :
  is_width n -> in_range m a n = true ->
  _generic_load_le a n m = Done (ld n m a, m).
Proof.
  intros Hn Hr. pose proof (length_rd m a n) as Hl.
  assert (forall f, f (rd m a n) = unle (rd m a n) ->
    (bs ← load_bytes a n; mret (f bs)) m = Done (ld n m a, m)) as Hload.
  { intros f Hf. unfold mbind, cmd_bind, load_bytes, mret, cmd_ret. rewrite Hr, Hf. done. }
  destruct Hn as [->|[->|[->| ->]]]; apply Hload; clear Hload.
  - destruct (rd m a 1) as [|b [|]]; simpl in *; try done.
    unfold unle. simpl. by rewrite Z.shiftl_0_l, Z.lor_0_r.
  - by apply le16_of_bytes_unle.
  - by apply le32_of_bytes_unle.
  - by apply le64_of_bytes_unle.
Qed.

Lemma store_swapped n a v m sw :
  0 <= n -> in_range m a n = true -> sw (native n v) = of_native (rev (native n v)) ->
  (if __little_endian then store_native n a v else store_native n a (sw (native n v))) m
  = Done (tt, wr m a (le n v)).
Proof.
  intros Hn Hr Hsw.
  transitivity (store_native n a (if __little_endian then v else sw (native n v)) m).
  { by destruct __little_endian. }
  unfold store_native. rewrite native_swapped by done.
  unfold store_bytes. by rewrite length_le, Hr.
Qed.

Lemma generic_store_le_eq a n v m :
  is_width n -> in_range m a n = true ->
  _generic_store_le a n v m = Done (tt, wr m a (le n v)).
Proof.
  intros Hn Hr. rewrite <-(le_wrap n v) by (unfold is_width in Hn; lia).
  assert (Hlen : forall k w, 0 <= k -> length (native k w) = Z.to_nat k).
  { intros. apply Nat2Z.inj. rewrite length_native; lia. }
  destruct Hn as [->|[->|[->| ->]]].
  - replace (le 1 (wrap (8 * 1) v)) with [u8 v].
    { change (_generic_store_le a 1 v m)
        with (if in_range m a 1 then Done (tt, wr m a [u8 v]) else Fault). by rewrite Hr. }
    rewrite le_wrap by done. unfold le. rewrite (Z_to_little_endian_succ 0) by done.
    unfold u8, wrap. by rewrite Z.land_ones.
  - apply store_swapped; [done..|]. apply swap_16_rev. by apply Hlen.
  - apply store_swapped; [done..|]. apply swap_32_rev. by apply Hlen.
  - apply store_swapped; [done..|]. apply swap_64_rev. by apply Hlen.
Qed.

Lemma wp_load_le a n (Q : Z -> image -> Prop) m :
  is_width n -> 0 <= a -> a + n <= isize m ->
  Q (ld n m a) m -> wp (_generic_load_le a n) Q m.
Proof.
  intros Hn ? ? HQ. eapply wp_eq; [|exact HQ].
  apply generic_load_le_eq; [done|]. apply in_range_true; unfold is_width in Hn; lia.
Qed.

Lemma wp_store_le a n v (Q : unit -> image -> Prop) m :
  is_width n -> 0 <= a -> a + n <= isize m ->
  Q tt (wr m a (le n v)) -> wp (_generic_store_le a n v) Q m.
Proof.
  intros Hn ? ? HQ. eapply wp_eq; [|exact HQ].
  apply generic_store_le_eq; [done|]. apply in_range_true; unfold is_width in Hn; lia.
Qed.

(** Rules for the fields of a struct; [off] and [n] come from its layout. *)
Lemma wp_put l base f v (Q : unit -> image -> Prop) m off n :
  fld l f = Field off n -> is_width n -> 0 <= base + off -> base + off + n <= isize m ->
  Q tt (wr m (base + off) (le n v)) -> wp (put l base f v) Q m.
Proof.
  intros Hf. unfold put, offsetof, sizeof_field. rewrite Hf. simpl. apply wp_store_le.
Qed.

Lemma wp_get l base f (Q : Z -> image -> Prop) m off n :
  fld l f = Field off n -> is_width n -> 0 <= base + off -> base + off + n <= isize m ->
  Q (ld n m (base + off)) m -> wp (get l base f) Q m.
Proof.
  intros Hf. unfold get, offsetof, sizeof_field. rewrite Hf. simpl. apply wp_load_le.
Qed.

(** A plain access agrees with the little-endian one on a little-endian host. *)
Lemma wp_put_native l base f v (Q : unit -> image -> Prop) m off n :
  host_order = LittleEndian ->
  fld l f = Field off n -> 0 <= n -> 0 <= base + off -> base + off + n <= isize m ->
  Q tt (wr m (base + off) (le n v)) -> wp (put_native l base f v) Q m.
Proof.
  intros Hh Hf Hn ? ? HQ. unfold put_native, offsetof, sizeof_field, store_native, native.
  rewrite Hf, Hh. simpl. apply wp_store_bytes; rewrite ?length_le; done.
Qed.

Lemma wp_get_native l base f (Q : Z -> image -> Prop) m off n :
  host_order = LittleEndian ->
  fld l f = Field off n -> 0 <= n -> 0 <= base + off -> base + off + n <= isize m ->
  Q (ld n m (base + off)) m -> wp (get_native l base f) Q m.
Proof.
  intros Hh Hf Hn ? ? HQ. unfold get_native, offsetof, sizeof_field, load_native, of_native.
  rewrite Hf, Hh. simpl. apply wp_bind, wp_load_bytes; [done..|]. by apply wp_ret.
Qed.
End WithHost.

(** C19: an integer stored with [_generic_store_le] on one machine is read back with
    [_generic_load_le] on any other, truncated to the width of the attribute,
    and no other byte changes. *)
Theorem generic_le_portable (writer reader : Host) (a n v : Z) (m : image) :
  is_width n -> in_range m a n = true ->
  exists m', _generic_store_le (host := writer) a n v m = Done (tt, m') /\
    _generic_load_le (host := reader) a n m' = Done (wrap (8 * n) v, m') /\
    forall x, x < a \/ a + n <= x -> ibyte m' x = ibyte m x.
Proof.
  intros Hn Hr. assert (0 <= n) by (unfold is_width in Hn; lia).
  exists (wr m a (le n v)). split_and!.
  - by apply (generic_store_le_eq (host := writer)).
  - rewrite (generic_load_le_eq (host := reader)) by done. by rewrite ld_wr_le.
  - intros x Hx. by apply ibyte_wr_le_out.
Qed.

Lemma generic_le_portable_witness : exists m',
  _generic_store_le (host := BigEndian) 3 4 0x1122334455 (Img 16 (fun _ => 0)) = Done (tt, m') /\
  _generic_load_le (host := LittleEndian) 3 4 m' = Done (0x22334455, m').
Proof.
  destruct (generic_le_portable BigEndian LittleEndian 3 4 0x1122334455 (Img 16 (fun _ => 0))
    ltac:(unfold is_width; lia) eq_refl) as (m' & H1 & H2 & _).
  exists m'. split; [exact H1 | exact H2].
Defined.

(** Side conditions of the access rules: sizes of updated images, then [lia]. *)
Ltac side :=
  repeat first [rewrite isize_wr | rewrite isize_fill | rewrite isize_copy];
  rewrite ?length_le by lia; unfold is_width, is_byte; try llia.

(** One step of a proof about a command. *)
Ltac wp_step :=
  lazymatch goal with
  | |- wp (mbind _ _) _ _ => apply wp_bind
  | |- wp (mret _) _ _ => apply wp_ret
  | |- wp (c_assert _) _ _ => apply wp_assert
  | |- wp (c_deref (Some _)) _ _ => apply wp_deref
  | |- wp (c_div _ _) _ _ => apply wp_div; [side|]
  | |- wp (c_mod _ _) _ _ => apply wp_mod; [side|]
  | |- wp (load_bytes _ _) _ _ => apply wp_load_bytes; [side..|]
  | |- wp (store_bytes _ _) _ _ => apply wp_store_bytes; [side..|]
  | |- wp (memset _ _ _) _ _ => apply wp_memset; [side..|]
  | |- wp (memcpy _ _ _) _ _ => apply wp_memcpy; [side..|]
  | |- wp (_generic_store_le _ _ _) _ _ => apply wp_store_le; [side..|]
  | |- wp (_generic_load_le _ _) _ _ => apply wp_load_le; [side..|]
  | |- wp (put ?l ?b ?f ?v) _ _ =>
      let x := eval vm_compute in (fld l f) in
      lazymatch x with
      | Field ?o ?n => apply (wp_put l b f v _ _ o n); [reflexivity | side..|]
      end
  | |- wp (get ?l ?b ?f) _ _ =>
      let x := eval vm_compute in (fld l f) in
      lazymatch x with
      | Field ?o ?n => apply (wp_get l b f _ _ o n); [reflexivity | side..|]
      end
  | |- wp (put_native ?l ?b ?f ?v) _ _ =>
      let x := eval vm_compute in (fld l f) in
      lazymatch x with
      | Field ?o ?n => apply (wp_put_native l b f v _ _ o n); [assumption | reflexivity | side..|]
      end
  | |- wp (get_native ?l ?b ?f) _ _ =>
      let x := eval vm_compute in (fld l f) in
      lazymatch x with
      | Field ?o ?n => apply (wp_get_native l b f _ _ o n); [assumption | reflexivity | side..|]
      end
  end.

(** Run a command symbolically, evaluating the loads of stored integers. *)
Ltac wp_go := repeat (wp_step; try ld_step).
