(* ===== verification/Crc32.v ===== *)
(** * CRC-32: [__efi_crc32] and [crc32] of [src/gpt/gpt.c]

    The GPT header and the partition array are protected by a table-driven
    CRC-32.  The file shows that the table is the one of the reflected
    polynomial 0xEDB88320, that the table-driven loop computes the bitwise CRC,
    and that a corrupted byte is always detected. *)
From Stdlib Require Import ZArith Lia.
From stdpp Require Import base tactics list numbers list_numbers.
From S2P Require Import Prelude Memory.
Open Scope Z_scope.

Definition crc32_tab : list Z :=
  [
   0x00000000; 0x77073096; 0xee0e612c; 0x990951ba; 0x076dc419; 0x706af48f;
   0xe963a535; 0x9e6495a3; 0x0edb8832; 0x79dcb8a4; 0xe0d5e91e; 0x97d2d988;
   0x09b64c2b; 0x7eb17cbd; 0xe7b82d07; 0x90bf1d91; 0x1db71064; 0x6ab020f2;
   0xf3b97148; 0x84be41de; 0x1adad47d; 0x6ddde4eb; 0xf4d4b551; 0x83d385c7;
   0x136c9856; 0x646ba8c0; 0xfd62f97a; 0x8a65c9ec; 0x14015c4f; 0x63066cd9;
   0xfa0f3d63; 0x8d080df5; 0x3b6e20c8; 0x4c69105e; 0xd56041e4; 0xa2677172;
   0x3c03e4d1; 0x4b04d447; 0xd20d85fd; 0xa50ab56b; 0x35b5a8fa; 0x42b2986c;
   0xdbbbc9d6; 0xacbcf940; 0x32d86ce3; 0x45df5c75; 0xdcd60dcf; 0xabd13d59;
   0x26d930ac; 0x51de003a; 0xc8d75180; 0xbfd06116; 0x21b4f4b5; 0x56b3c423;
   0xcfba9599; 0xb8bda50f; 0x2802b89e; 0x5f058808; 0xc60cd9b2; 0xb10be924;
   0x2f6f7c87; 0x58684c11; 0xc1611dab; 0xb6662d3d; 0x76dc4190; 0x01db7106;
   0x98d220bc; 0xefd5102a; 0x71b18589; 0x06b6b51f; 0x9fbfe4a5; 0xe8b8d433;
   0x7807c9a2; 0x0f00f934; 0x9609a88e; 0xe10e9818; 0x7f6a0dbb; 0x086d3d2d;
   0x91646c97; 0xe6635c01; 0x6b6b51f4; 0x1c6c6162; 0x856530d8; 0xf262004e;
   0x6c0695ed; 0x1b01a57b; 0x8208f4c1; 0xf50fc457; 0x65b0d9c6; 0x12b7e950;
   0x8bbeb8ea; 0xfcb9887c; 0x62dd1ddf; 0x15da2d49; 0x8cd37cf3; 0xfbd44c65;
   0x4db26158; 0x3ab551ce; 0xa3bc0074; 0xd4bb30e2; 0x4adfa541; 0x3dd895d7;
   0xa4d1c46d; 0xd3d6f4fb; 0x4369e96a; 0x346ed9fc; 0xad678846; 0xda60b8d0;
   0x44042d73; 0x33031de5; 0xaa0a4c5f; 0xdd0d7cc9; 0x5005713c; 0x270241aa;
   0xbe0b1010; 0xc90c2086; 0x5768b525; 0x206f85b3; 0xb966d409; 0xce61e49f;
   0x5edef90e; 0x29d9c998; 0xb0d09822; 0xc7d7a8b4; 0x59b33d17; 0x2eb40d81;
   0xb7bd5c3b; 0xc0ba6cad; 0xedb88320; 0x9abfb3b6; 0x03b6e20c; 0x74b1d29a;
   0xead54739; 0x9dd277af; 0x04db2615; 0x73dc1683; 0xe3630b12; 0x94643b84;
   0x0d6d6a3e; 0x7a6a5aa8; 0xe40ecf0b; 0x9309ff9d; 0x0a00ae27; 0x7d079eb1;
   0xf00f9344; 0x8708a3d2; 0x1e01f268; 0x6906c2fe; 0xf762575d; 0x806567cb;
   0x196c3671; 0x6e6b06e7; 0xfed41b76; 0x89d32be0; 0x10da7a5a; 0x67dd4acc;
   0xf9b9df6f; 0x8ebeeff9; 0x17b7be43; 0x60b08ed5; 0xd6d6a3e8; 0xa1d1937e;
   0x38d8c2c4; 0x4fdff252; 0xd1bb67f1; 0xa6bc5767; 0x3fb506dd; 0x48b2364b;
   0xd80d2bda; 0xaf0a1b4c; 0x36034af6; 0x41047a60; 0xdf60efc3; 0xa867df55;
   0x316e8eef; 0x4669be79; 0xcb61b38c; 0xbc66831a; 0x256fd2a0; 0x5268e236;
   0xcc0c7795; 0xbb0b4703; 0x220216b9; 0x5505262f; 0xc5ba3bbe; 0xb2bd0b28;
   0x2bb45a92; 0x5cb36a04; 0xc2d7ffa7; 0xb5d0cf31; 0x2cd99e8b; 0x5bdeae1d;
   0x9b64c2b0; 0xec63f226; 0x756aa39c; 0x026d930a; 0x9c0906a9; 0xeb0e363f;
   0x72076785; 0x05005713; 0x95bf4a82; 0xe2b87a14; 0x7bb12bae; 0x0cb61b38;
   0x92d28e9b; 0xe5d5be0d; 0x7cdcefb7; 0x0bdbdf21; 0x86d3d2d4; 0xf1d4e242;
   0x68ddb3f8; 0x1fda836e; 0x81be16cd; 0xf6b9265b; 0x6fb077e1; 0x18b74777;
   0x88085ae6; 0xff0f6a70; 0x66063bca; 0x11010b5c; 0x8f659eff; 0xf862ae69;
   0x616bffd3; 0x166ccf45; 0xa00ae278; 0xd70dd2ee; 0x4e048354; 0x3903b3c2;
   0xa7672661; 0xd06016f7; 0x4969474d; 0x3e6e77db; 0xaed16a4a; 0xd9d65adc;
   0x40df0b66; 0x37d83bf0; 0xa9bcae53; 0xdebb9ec5; 0x47b2cf7f; 0x30b5ffe9;
   0xbdbdf21c; 0xcabac28a; 0x53b39330; 0x24b4a3a6; 0xbad03605; 0xcdd70693;
   0x54de5729; 0x23d967bf; 0xb3667a2e; 0xc4614ab8; 0x5d681b02; 0x2a6f2b94;
   0xb40bbe37; 0xc30c8ea1; 0x5a05df1b; 0x2d02ef8d
  ].

(** One round of the loop of [__efi_crc32]. *)
Definition crc_byte (crc32val b : Z) : Z :=
  Z.lxor (nth (Z.to_nat (Z.land (Z.lxor crc32val b) 0xff)) crc32_tab 0)
         (Z.shiftr crc32val 8).

Fixpoint __efi_crc32 (s : list Z) (seed : Z) : Z :=
  match s with
  | [] => seed
  | b :: s' => __efi_crc32 s' (crc_byte seed b)
  end.

(** [~0L] is truncated to the 32-bit seed; the final exclusive or is computed at
    64 bits and truncated by the return type. *)
Definition crc32 (buf : list Z) : Z :=
  u32 (Z.lxor (__efi_crc32 buf (u32 (Z.lnot 0))) (Z.lnot 0)).

(** ** The bitwise reference *)

Definition crc_poly : Z := 0xEDB88320.

(** Divide by the polynomial, one bit at a time, least significant bit first. *)
Definition crc_bit (c : Z) : Z :=
  if Z.odd c then Z.lxor (Z.shiftr c 1) crc_poly else Z.shiftr c 1.

Fixpoint crc_bits (n : nat) (c : Z) : Z :=
  match n with O => c | S n' => crc_bits n' (crc_bit c) end.

Fixpoint crc32_ref_from (s : list Z) (c : Z) : Z :=
  match s with
  | [] => c
  | b :: s' => crc32_ref_from s' (crc_bits 8 (Z.lxor c b))
  end.

Definition crc32_ref (buf : list Z) : Z :=
  Z.lxor (crc32_ref_from buf 0xFFFFFFFF) 0xFFFFFFFF.

(** ** Linearity of the polynomial division *)

Lemma crc_bit_lxor a b : crc_bit (Z.lxor a b) = Z.lxor (crc_bit a) (crc_bit b).
Proof.
  unfold crc_bit. rewrite <-!Z.bit0_odd, Z.lxor_spec, Z.shiftr_lxor.
  apply Z.bits_inj'. intros i Hi.
  destruct (Z.testbit a 0), (Z.testbit b 0); simpl; rewrite ?Z.lxor_spec;
  destruct (Z.testbit (Z.shiftr a 1) i), (Z.testbit (Z.shiftr b 1) i), (Z.testbit crc_poly i); done.
Qed.

Lemma crc_bits_lxor n a b : crc_bits n (Z.lxor a b) = Z.lxor (crc_bits n a) (crc_bits n b).
Proof. revert a b. induction n as [|n IH]; intros a b; simpl; [done|]. by rewrite crc_bit_lxor, IH. Qed.

Lemma crc_bits_add n k c : crc_bits (n + k) c = crc_bits k (crc_bits n c).
Proof. revert c. induction n as [|n IH]; intros c; simpl; [done|]. apply IH. Qed.

(** Zero bits are shifted out. *)
Lemma crc_bit_double x : crc_bit (2 * x) = x.
Proof.
  unfold crc_bit. rewrite Z.odd_mul, andb_false_l, Z.shiftr_div_pow2 by lia.
  change (2 ^ 1) with 2. by rewrite Z.mul_comm, Z.div_mul.
Qed.

Lemma crc_bits_shiftl n x : crc_bits n (Z.shiftl x (Z.of_nat n)) = x.
Proof.
  revert x. induction n as [|n IH]; intros x; [apply Z.shiftl_0_r|].
  cbn [crc_bits]. rewrite Nat2Z.inj_succ, <-Z.add_1_r, <-Z.shiftl_shiftl by lia.
  rewrite (Z.shiftl_mul_pow2 _ 1), Z.mul_comm by lia.
  change (2 ^ 1) with 2. by rewrite crc_bit_double.
Qed.

Lemma split_low_byte x : x = Z.lxor (Z.land x 0xff) (Z.shiftl (Z.shiftr x 8) 8).
Proof.
  apply Z.bits_inj'. intros i Hi. rewrite Z.lxor_spec, Z.land_spec.
  change 0xff with (Z.ones 8). destruct (decide (i < 8)).
  - rewrite Z.ones_spec_low, Z.shiftl_spec_low by lia. by rewrite andb_true_r, xorb_false_r.
  - rewrite Z.ones_spec_high, andb_false_r, xorb_false_l by lia.
    rewrite Z.shiftl_spec, Z.shiftr_spec by lia. f_equal. lia.
Qed.

Lemma byte_shiftr_8 b : is_byte b -> Z.shiftr b 8 = 0.
Proof. intros [? ?]. rewrite Z.shiftr_div_pow2 by done. by apply Z.div_small. Qed.

(** ** The table *)

Lemma crc32_tab_spec i : 0 <= i < 256 -> nth (Z.to_nat i) crc32_tab 0 = crc_bits 8 i.
Proof.
  intros Hi.
  assert (forallb (fun k => nth (Z.to_nat k) crc32_tab 0 =? crc_bits 8 k) (seqZ 0 256) = true)
    as H by (vm_compute; reflexivity).
  rewrite forallb_forall in H. apply Z.eqb_eq, H, list_elem_of_In, elem_of_seqZ. lia.
Qed.

Lemma low_byte_range x : 0 <= Z.land x 0xff < 256.
Proof. change 0xff with (Z.ones 8). rewrite Z.land_ones by done. by apply Z.mod_pos_bound. Qed.

(** The table-driven round is eight rounds of the bitwise division. *)
Lemma crc_byte_bits c b : is_byte b -> crc_byte c b = crc_bits 8 (Z.lxor c b).
Proof.
  intros Hb. unfold crc_byte. rewrite crc32_tab_spec by apply low_byte_range.
  rewrite (split_low_byte (Z.lxor c b)) at 2.
  rewrite crc_bits_lxor, (crc_bits_shiftl 8), Z.shiftr_lxor, (byte_shiftr_8 b) by done.
  by rewrite Z.lxor_0_r.
Qed.

Lemma efi_crc32_ref s c : Forall is_byte s -> __efi_crc32 s c = crc32_ref_from s c.
Proof.
  intros H. revert c. induction H as [|b s Hb _ IH]; intros c; simpl; [done|].
  by rewrite crc_byte_bits, IH.
Qed.

(** ** Range *)

Lemma lxor_u32 a b : is_u 32 a -> is_u 32 b -> is_u 32 (Z.lxor a b).
Proof.
  intros [Ha Ha'] [Hb Hb']. split; [apply Z.lxor_nonneg; lia|].
  destruct (decide (Z.lxor a b = 0)) as [->|Hn]; [done|].
  assert (0 <= Z.lxor a b) by (apply Z.lxor_nonneg; lia).
  apply Z.log2_lt_pow2; [lia|].
  eapply Z.le_lt_trans; [by apply Z.log2_lxor|].
  apply Z.max_lub_lt.
  - destruct (decide (a = 0)) as [->|]; [done|]. apply Z.log2_lt_pow2; lia.
  - destruct (decide (b = 0)) as [->|]; [done|]. apply Z.log2_lt_pow2; lia.
Qed.

Lemma shiftr_u32 a : is_u 32 a -> 0 <= Z.shiftr a 1 < 2 ^ 31.
Proof. unfold is_u. intros. rewrite Z.shiftr_div_pow2 by done. dlia. Qed.

Lemma crc_bit_u32 c : is_u 32 c -> is_u 32 (crc_bit c).
Proof.
  intros H. pose proof (shiftr_u32 c H). unfold crc_bit.
  destruct (Z.odd c); [apply lxor_u32|]; unfold is_u, crc_poly; lia.
Qed.

Lemma crc_bits_u32 n c : is_u 32 c -> is_u 32 (crc_bits n c).
Proof. revert c. induction n as [|n IH]; intros c H; simpl; [done|]. by apply IH, crc_bit_u32. Qed.

Lemma crc32_ref_from_u32 s c : Forall is_byte s -> is_u 32 c -> is_u 32 (crc32_ref_from s c).
Proof.
  intros H. revert c. induction H as [|b s Hb _ IH]; intros c Hc; [done|].
  apply IH, crc_bits_u32, lxor_u32; [done|]. unfold is_u, is_byte in *. lia.
Qed.

(** ** The code computes the bitwise CRC *)

Lemma u32_lxor_lnot x : is_u 32 x -> u32 (Z.lxor x (Z.lnot 0)) = Z.lxor x 0xFFFFFFFF.
Proof.
  intros H. unfold u32, wrap. rewrite <-Z.land_ones by done.
  apply Z.bits_inj'. intros i Hi. rewrite Z.land_spec, !Z.lxor_spec.
  change 0xFFFFFFFF with (Z.ones 32). change (Z.lnot 0) with (-1). rewrite Z.bits_m1 by done.
  destruct (decide (i < 32)).
  - by rewrite Z.ones_spec_low, andb_true_r by lia.
  - rewrite Z.ones_spec_high, andb_false_r by lia.
    rewrite xorb_false_r. symmetry. destruct (decide (x = 0)) as [->|]; [apply Z.bits_0|].
    apply Z.bits_above_log2; [destruct H; lia|].
    apply Z.lt_le_trans with 32; [|lia]. apply Z.log2_lt_pow2; destruct H; lia.
Qed.

Lemma crc32_ref_eq buf : Forall is_byte buf -> crc32 buf = crc32_ref buf.
Proof.
  intros H. unfold crc32, crc32_ref. rewrite efi_crc32_ref by done.
  change (u32 (Z.lnot 0)) with 0xFFFFFFFF.
  apply u32_lxor_lnot, crc32_ref_from_u32; [done | done].
Qed.

Lemma crc32_range buf : Forall is_byte buf -> 0 <= crc32 buf < 4294967296.
Proof. intros. apply u32_range. Qed.

(** ** Error detection *)

(** Division of a whole message in one go. *)
Lemma crc32_ref_from_bits s c :
  Forall is_byte s -> crc32_ref_from s c = crc_bits (8 * length s) (Z.lxor c (unle s)).
Proof.
  intros H. revert c. induction H as [|b s Hb Hs IH]; intros c.
  - simpl. by rewrite Z.lxor_0_r.
  - change (length (b :: s)) with (S (length s)). cbn [crc32_ref_from].
    rewrite IH. replace (8 * S (length s))%nat with (8 + 8 * length s)%nat by lia.
    rewrite crc_bits_add. f_equal.
    rewrite <-(crc_bits_shiftl 8 (unle s)) at 1.
    rewrite <-crc_bits_lxor. f_equal. rewrite Z.lxor_assoc. f_equal.
    change (unle (b :: s)) with (Z.lor b (Z.shiftl (unle s) 8)).
    symmetry. change (Z.of_nat 8) with 8.
    apply Z.bits_inj'. intros i Hi. rewrite Z.lor_spec, Z.lxor_spec.
    destruct (decide (i < 8)).
    + rewrite Z.shiftl_spec_low by lia. by destruct (Z.testbit b i).
    + replace (Z.testbit b i) with false; [done|].
      replace i with (i - 8 + 8) by lia. rewrite <-Z.shiftr_spec by lia.
      by rewrite byte_shiftr_8, Z.bits_0.
Qed.

(** Bit 31 of a division step is the bit that was divided out. *)
Lemma crc_bit_top c : is_u 32 c -> Z.testbit (crc_bit c) 31 = Z.odd c.
Proof.
  intros H. pose proof (shiftr_u32 c H) as Hs. unfold crc_bit.
  assert (Z.testbit (Z.shiftr c 1) 31 = false) as Hf.
  { rewrite <-(Z.mod_small (Z.shiftr c 1) (2 ^ 31)) by lia. by apply Z.mod_pow2_bits_high. }
  destruct (Z.odd c); [|done]. by rewrite Z.lxor_spec, Hf.
Qed.

Lemma crc_bit_inj a b : is_u 32 a -> is_u 32 b -> crc_bit a = crc_bit b -> a = b.
Proof.
  intros Ha Hb H.
  assert (Z.odd a = Z.odd b) as Ho by (by rewrite <-!crc_bit_top, H).
  assert (Z.shiftr a 1 = Z.shiftr b 1) as Hs.
  { unfold crc_bit in H. rewrite Ho in H. destruct (Z.odd b); [|done].
    apply (f_equal (fun x => Z.lxor x crc_poly)) in H.
    by rewrite !Z.lxor_assoc, Z.lxor_nilpotent, !Z.lxor_0_r in H. }
  rewrite (Z.div2_odd a), (Z.div2_odd b), Ho, !Z.div2_spec. congruence.
Qed.

Lemma crc_bits_inj n a b : is_u 32 a -> is_u 32 b -> crc_bits n a = crc_bits n b -> a = b.
Proof.
  revert a b. induction n as [|n IH]; intros a b Ha Hb H; [done|].
  apply crc_bit_inj; [done..|]. apply IH; [by apply crc_bit_u32..|done].
Qed.

Lemma lxor_cancel_l c a b : Z.lxor c a = Z.lxor c b -> a = b.
Proof.
  intros H. apply (f_equal (Z.lxor c)) in H.
  by rewrite <-!Z.lxor_assoc, Z.lxor_nilpotent, !Z.lxor_0_l in H.
Qed.
Lemma lxor_cancel_r c a b : Z.lxor a c = Z.lxor b c -> a = b.
Proof. rewrite !(Z.lxor_comm _ c). apply lxor_cancel_l. Qed.

(** The state after a message determines the state before it. *)
Lemma crc32_ref_from_inj s a b :
  Forall is_byte s -> is_u 32 a -> is_u 32 b ->
  crc32_ref_from s a = crc32_ref_from s b -> a = b.
Proof.
  intros H. revert a b. induction H as [|x s Hx _ IH]; intros a b Ha Hb Heq; [done|].
  assert (is_u 32 x) by (unfold is_u, is_byte in *; lia).
  apply IH in Heq; [|by apply crc_bits_u32, lxor_u32..].
  apply crc_bits_inj in Heq; [|by apply lxor_u32..]. by apply lxor_cancel_r in Heq.
Qed.

Lemma crc32_ref_from_app p s c :
  crc32_ref_from (p ++ s) c = crc32_ref_from s (crc32_ref_from p c).
Proof. revert c. induction p as [|b p IH]; intros c; simpl; [done|]. apply IH. Qed.

Lemma unle_inj a b :
  length a = length b -> Forall is_byte a -> Forall is_byte b -> unle a = unle b -> a = b.
Proof.
  intros Hl Ha Hb H. rewrite <-(le_unle (Z.of_nat (length a)) a) by done.
  rewrite H, Hl. by apply le_unle.
Qed.

Lemma unle_u32 a : (length a <= 4)%nat -> Forall is_byte a -> is_u 32 (unle a).
Proof.
  intros Hl Ha. pose proof (unle_range a Ha) as [H1 H2]. split; [done|].
  eapply Z.lt_le_trans; [exact H2|]. apply Z.pow_le_mono_r; lia.
Qed.

(** C15: on every byte string the table-driven [crc32] of [gpt.c] equals the CRC
    computed bit by bit with the reflected polynomial 0xEDB88320, initial value
    and final exclusive or 0xFFFFFFFF. *)
Theorem crc32_is_bitwise_crc (buf : list Z) :
  Forall is_byte buf -> crc32 buf = crc32_ref buf.
Proof. apply crc32_ref_eq. Qed.

(** The check value of CRC-32: the nine ASCII digits 1 to 9. *)
Lemma crc32_is_bitwise_crc_witness :
  crc32 (seqZ 49 9) = crc32_ref (seqZ 49 9) /\ crc32 (seqZ 49 9) = 0xCBF43926.
Proof.
  split; [|vm_compute; reflexivity].
  apply crc32_is_bitwise_crc. repeat (constructor; [split; vm_compute; congruence|]). constructor.
Defined.

(** Two messages of the same length that differ only inside one burst of at
    most four consecutive bytes have different checksums, so such a corruption
    of a GPT header or of the partition array is always detected. *)
Theorem crc32_detects_burst (p x y s : list Z) :
  Forall is_byte (p ++ x ++ s) -> Forall is_byte y ->
  length x = length y -> (length x <= 4)%nat -> x <> y ->
  crc32 (p ++ x ++ s) <> crc32 (p ++ y ++ s).
Proof.
  rewrite !Forall_app. intros (Hp & Hx & Hs) Hy Hl H4 Hne Heq.
  rewrite !crc32_ref_eq in Heq by (rewrite !Forall_app; auto).
  apply lxor_cancel_r in Heq. rewrite !crc32_ref_from_app in Heq.
  assert (is_u 32 (crc32_ref_from p 0xFFFFFFFF)) as Hu by by apply crc32_ref_from_u32.
  apply crc32_ref_from_inj in Heq; [|done|by apply crc32_ref_from_u32..].
  rewrite (crc32_ref_from_bits x), (crc32_ref_from_bits y), <-Hl in Heq by done.
  apply crc_bits_inj in Heq; [|apply lxor_u32; [done|apply unle_u32; [lia|done]]..].
  apply lxor_cancel_l in Heq. by apply unle_inj in Heq.
Qed.

Lemma crc32_detects_burst_witness : crc32 [1; 2; 3; 4; 5] <> crc32 [1; 9; 9; 9; 5].
Proof.
  apply (crc32_detects_burst [1] [2; 3; 4] [9; 9; 9] [5]);
    [repeat (constructor; [split; vm_compute; congruence|]); constructor..
    | reflexivity | simpl; lia | discriminate].
Defined.
