(* ===== verification/Gpt.v ===== *)
(** * GUID partition tables: [src/gpt/gpt.h] and [src/gpt/gpt.c]

    The on-disk structs are packed layouts; [GPTGenerate] writes a protective
    MBR, the partition entry array and the two GPT headers into the image, and
    [GPTParse] reads them back. *)
From Stdlib Require Import ZArith Lia.
From stdpp Require Import base tactics list numbers list_numbers strings.
From S2P Require Import Prelude Memory Endian Crc32.
Open Scope Z_scope.

(** ** Data *)

Definition GPT_SECTOR_SIZE : Z := 512.
Definition BLOCK_SIZE : Z := GPT_SECTOR_SIZE.
Definition GPT_SIGNATURE : Z := 0xAA55.
Definition UINT32_MAX : Z := 0xFFFFFFFF.
Definition EINVAL : Z := 22.
Definition ENOMEM : Z := 12.

Record GUID : Type := MkGUID {
  timeLow : Z; timeMid : Z; timeHigh : Z; clockSeqHigh : Z; clockSeqLow : Z; node : list Z }.

(** A null-terminated name is the list of its bytes; [None] is a null pointer. *)
Record PartitionConfig : Type := MkPart {
  partType : GUID; partId : GUID; name : option (list Z); volume : Z; startLBA : Z }.

(** The buffer [buf] of the C struct is the image the commands run on; [None]
    stands for the null array [partitions]. *)
Record GPTConfig : Type := MkGPT {
  gvolume : Z; numPart : Z; partitions : option (list PartitionConfig); diskId : GUID }.

Definition set_startLBA (cp : PartitionConfig) (s : Z) : PartitionConfig :=
  MkPart (partType cp) (partId cp) (name cp) (volume cp) s.
Definition set_partitions (c : GPTConfig) (n : Z) (ps : option (list PartitionConfig)) : GPTConfig :=
  MkGPT (gvolume c) n ps (diskId c).

Open Scope string_scope.
Definition PartitionRecord : layout :=
  [("bootIndicator", 1); ("startCHS", 3); ("osType", 1); ("endCHS", 3);
   ("startLBA", 4); ("sizeInLBA", 4)].

Definition MBR : layout :=
  [("bootCode", 440); ("rDiskSignature", 4); ("unknown", 2);
   ("records", 4 * sizeof PartitionRecord); ("signature", 2); ("reserved", 0)].

Definition GPTHeader : layout :=
  [("signature", 8); ("revision", 4); ("headerSize", 4); ("headerCRC32", 4); ("reserved", 4);
   ("thisLBA", 8); ("alternateLBA", 8); ("firstUsableLBA", 8); ("lastUsableLBA", 8);
   ("diskID", 16); ("startEntryArray", 8); ("numEntries", 4); ("sizeEntryArray", 4);
   ("crc32EntryArray", 4)].

Definition PartitionEntry : layout :=
  [("partType", 16); ("partId", 16); ("startLBA", 8); ("endLBA", 8); ("attrs", 8);
   ("partitionName", 72); ("reserved", 0)].

Definition GUID_layout : layout :=
  [("timeLow", 4); ("timeMid", 2); ("timeHigh", 2); ("clockSeqHigh", 1); ("clockSeqLow", 1);
   ("node", 6)].
Close Scope string_scope.

(** Constants of [gpt.c]. *)
Definition EFI_SYSTEM_PARTITION : GUID :=
  MkGUID 0xc12a7328 0xf81f 0x11d2 0xba 0x4b [0x00; 0xa0; 0xc9; 0x3e; 0xc9; 0x3b].
Definition PARTITION_WITH_LEGACY_MBR : GUID :=
  MkGUID 0x024dee41 0x33e7 0x11d3 0x9d 0x69 [0x00; 0x08; 0xc7; 0x81; 0xf3; 0x9f].
Definition myDiskID : GUID :=
  MkGUID 0x9e8d8d40 0xe4d1 0x3547 0xad 0x9e [0x86; 0x52; 0x3f; 0x5e; 0x2f; 0x4a].

(** The string literal written into the headers. *)
Definition EFI_PART : list Z := [69; 70; 73; 32; 80; 65; 82; 84].

Definition getSector (sector : Z) : Z := sector * BLOCK_SIZE.

Section WithHost.
Context {host : Host}.

(** Object representation of a [struct GUID]. *)
Definition guid_bytes (g : GUID) : list Z :=
  native 4 (timeLow g) ++ native 2 (timeMid g) ++ native 2 (timeHigh g)
  ++ [clockSeqHigh g; clockSeqLow g] ++ node g.

Definition guid_of_bytes (bs : list Z) : GUID :=
  MkGUID (of_native (take 4 bs)) (of_native (take 2 (drop 4 bs))) (of_native (take 2 (drop 6 bs)))
         (nth 8 bs 0) (nth 9 bs 0) (take 6 (drop 10 bs)).

(** ** [createProtectGPT] *)

Definition createProtectGPT (mbr blockSize nBlock : Z) : cmd image unit :=
  memset mbr 0 (sizeof MBR) ;;
  put_native MBR mbr "signature" GPT_SIGNATURE ;;
  put_native MBR mbr "rDiskSignature" 0 ;;
  put_native MBR mbr "unknown" 0 ;;
  let record := mbr + offsetof MBR "records" in
  put_native PartitionRecord record "bootIndicator" 0x80 ;;
  store_bytes (record + offsetof PartitionRecord "startCHS") (take 3 (native 4 0x000200)) ;;
  put_native PartitionRecord record "osType" 0xEE ;;
  let end_ := u32 (u64 (blockSize * nBlock)) in
  let end_ := if end_ >? 0xFFFFFF then 0xFFFFFF else end_ in
  store_bytes (record + offsetof PartitionRecord "endCHS") (take 3 (native 4 end_)) ;;
  put_native PartitionRecord record "startLBA" 1 ;;
  put_native PartitionRecord record "sizeInLBA"
    (if nBlock >=? UINT32_MAX then UINT32_MAX else u32 (u64 (nBlock - 1))).

(** ** [GPTGenerate] *)

Definition writePartitionName (entry : Z) (nm : list Z) : cmd image unit :=
  c_foreach nm 0 (fun i ch =>
    store_bytes (entry + offsetof PartitionEntry "partitionName" + 2 * i) [ch] ;;
    store_bytes (entry + offsetof PartitionEntry "partitionName" + 2 * i + 1) [0]).

(** The allocation loop; [n] bounds the iterations left. *)
Fixpoint alloc_loop (n : nat) (ret : Z) (cps : list PartitionConfig) (start remains : Z)
    : cmd image (Z * list PartitionConfig * Z) :=
  match n with
  | O => mret (ret, cps, start)
  | S n' =>
      cp ← c_deref (cps !! Z.to_nat ret);
      if remains <? volume cp then mret (ret, cps, start)
      else alloc_loop n' (ret + 1) (<[Z.to_nat ret := set_startLBA cp start]> cps)
             (u64 (start + volume cp)) (u64 (remains - volume cp))
  end.

(** The body of the loop that writes the entry array. *)
Definition write_entry (cps : list PartitionConfig) (nSectorForArray i : Z) : cmd image unit :=
  let entry := getSector 2 + sizeof PartitionEntry * i in
  cp ← c_deref (cps !! Z.to_nat i);
  memset entry 0 (nSectorForArray * BLOCK_SIZE) ;;
  put PartitionEntry entry "startLBA" (startLBA cp) ;;
  put PartitionEntry entry "endLBA" (u64 (startLBA cp + volume cp - 1)) ;;
  put PartitionEntry entry "attrs" (Z.lor (Z.shiftl 1 2) (Z.shiftl 1 0)) ;;
  store_bytes (entry + offsetof PartitionEntry "partId") (guid_bytes (partId cp)) ;;
  store_bytes (entry + offsetof PartitionEntry "partType") (guid_bytes (partType cp)) ;;
  nm ← c_deref (name cp);
  writePartitionName entry nm.

Definition write_headers (nBlock start nPartition entryArrayCRC : Z) (diskId : GUID) : cmd image unit :=
  let lba1 := getSector 1 in
  let last := getSector (nBlock - 1) in
  memset lba1 0 (sizeof GPTHeader) ;;
  memset last 0 (sizeof GPTHeader) ;;
  store_bytes (lba1 + offsetof GPTHeader "signature") EFI_PART ;;
  put GPTHeader lba1 "revision" 0x00010000 ;;
  put GPTHeader lba1 "headerSize" (sizeof GPTHeader) ;;
  put GPTHeader lba1 "reserved" 0 ;;
  put GPTHeader lba1 "thisLBA" 1 ;;
  put GPTHeader lba1 "alternateLBA" (u64 (nBlock - 1)) ;;
  put GPTHeader lba1 "firstUsableLBA" start ;;
  put GPTHeader lba1 "lastUsableLBA" (u64 (nBlock - 2)) ;;
  store_bytes (lba1 + offsetof GPTHeader "diskID") (guid_bytes diskId) ;;
  put GPTHeader lba1 "startEntryArray" 2 ;;
  put GPTHeader lba1 "numEntries" nPartition ;;
  put GPTHeader lba1 "sizeEntryArray" (sizeof PartitionEntry) ;;
  put GPTHeader lba1 "crc32EntryArray" entryArrayCRC ;;
  memcpy last lba1 (sizeof GPTHeader) ;;
  put GPTHeader last "thisLBA" (u64 (nBlock - 1)) ;;
  put GPTHeader last "alternateLBA" 1 ;;
  n1 ← get_native GPTHeader lba1 "headerSize";
  bs1 ← load_bytes lba1 n1;
  put GPTHeader lba1 "headerCRC32" (crc32 bs1) ;;
  n2 ← get_native GPTHeader lba1 "headerSize";
  bs2 ← load_bytes last n2;
  put GPTHeader last "headerCRC32" (crc32 bs2).

Definition GPTGenerate (config : GPTConfig) : cmd image (Z * GPTConfig) :=
  c_assert (sizeof GUID_layout =? 16) ;;
  c_assert (sizeof PartitionRecord =? 16) ;;
  c_assert (sizeof MBR =? 512) ;;
  c_assert (BLOCK_SIZE >=? 512) ;;
  c_assert (sizeof GPTHeader =? 92) ;;
  c_assert (sizeof GPTHeader <=? BLOCK_SIZE) ;;
  c_assert (sizeof PartitionEntry =? 128) ;;
  c_assert (BLOCK_SIZE mod sizeof PartitionEntry =? 0) ;;
  let nBlock := gvolume config in
  let nPartition := numPart config in
  let nEntryPerSector := BLOCK_SIZE / sizeof PartitionEntry in
  let nSectorForArray := u64 (nEntryPerSector - 1 + nPartition) / nEntryPerSector in
  let nSectorsForFS := u64 (nBlock - 4 - nSectorForArray) in
  if (nBlock <? u64 (4 + nSectorForArray)) || (nSectorForArray =? 0)
  then mret (0, config)
  else
    createProtectGPT 0 BLOCK_SIZE nBlock ;;
    cps ← c_deref (partitions config);
    '(ret, cps, start) ← alloc_loop (Z.to_nat (numPart config)) 0 cps
                           (u64 (2 + nSectorForArray)) nSectorsForFS;
    let nPartition := ret in
    c_for (Z.to_nat nPartition) 0 (write_entry cps nSectorForArray) ;;
    arr ← load_bytes (getSector 2) (sizeof PartitionEntry * nPartition);
    let entryArrayCRC := crc32 arr in
    write_headers nBlock start nPartition entryArrayCRC (diskId config) ;;
    mret (ret, set_partitions config (numPart config) (Some cps)).

(** ** [GPTParse] *)

(** [malloc n] succeeds when [alloc n] holds; [strdup] allocates the same way. *)
Variable alloc : Z -> bool.
Definition sizeof_PartitionConfig : Z := 56.

(** The name loop: [j] steps over the two-byte units of the 72-byte field. *)
Fixpoint read_name (n : nat) (entry j : Z) : cmd image (list Z) :=
  match n with
  | O => mret []
  | S n' =>
      ch ← load_bytes (entry + offsetof PartitionEntry "partitionName" + j) 1;
      if nth 0 ch 0 =? 0 then mret []
      else rest ← read_name n' entry (j + 2); mret (nth 0 ch 0 :: rest)
  end.

Definition parse_entry (entry : Z) : cmd image PartitionConfig :=
  ty ← load_bytes (entry + offsetof PartitionEntry "partType") 16;
  id ← load_bytes (entry + offsetof PartitionEntry "partId") 16;
  startLBA ← get PartitionEntry entry "startLBA";
  endLBA ← get PartitionEntry entry "endLBA";
  nm ← read_name 36 entry 0;
  mret (MkPart (guid_of_bytes ty) (guid_of_bytes id)
          (if alloc (Z.of_nat (length nm) + 1) then Some nm else None)
          (u64 (endLBA - startLBA + 1)) startLBA).

Fixpoint parse_entries (n : nat) (entryArray i : Z) : cmd image (list PartitionConfig) :=
  match n with
  | O => mret []
  | S n' =>
      cp ← parse_entry (entryArray + sizeof PartitionEntry * i);
      rest ← parse_entries n' entryArray (i + 1);
      mret (cp :: rest)
  end.

Definition GPTParse (config : GPTConfig) : cmd image (Z * GPTConfig) :=
  signature ← get MBR (getSector 0) "signature";
  if negb (signature =? GPT_SIGNATURE) then mret (EINVAL, config)
  else
    let gptHeader := getSector 1 in
    sig ← load_bytes (gptHeader + offsetof GPTHeader "signature") (sizeof_field GPTHeader "signature");
    if negb (bool_decide (sig = EFI_PART)) then mret (EINVAL, config)
    else
      numEntries ← get GPTHeader gptHeader "numEntries";
      startEntryArray ← get GPTHeader gptHeader "startEntryArray";
      if negb (alloc (u64 (sizeof_PartitionConfig * numEntries)))
      then mret (ENOMEM, set_partitions config numEntries None)
      else
        cps ← parse_entries (Z.to_nat numEntries) (u64 (getSector startEntryArray)) 0;
        mret (0, set_partitions config numEntries (Some cps)).
End WithHost.
