(* ===== verification/GptSpec.v ===== *)
(** * Bytes written by the GUID partition table code

    Well-formed configurations, the specification of the partition allocation,
    and byte-exact descriptions of the MBR, of the entries and of the headers
    that the parts of [GPTGenerate] leave in the image. *)
From Stdlib Require Import ZArith Lia.
From stdpp Require Import base tactics list numbers list_numbers strings.
From S2P Require Import Prelude Memory Endian Crc32 Gpt.
Open Scope Z_scope.

(** ** Well-formed configurations *)

Definition guid_wf (g : GUID) : Prop :=
  is_u 32 (timeLow g) /\ is_u 16 (timeMid g) /\ is_u 16 (timeHigh g) /\
  is_byte (clockSeqHigh g) /\ is_byte (clockSeqLow g) /\
  length (node g) = 6%nat /\ Forall is_byte (node g).

(** A name as a C string: bytes other than the terminator. *)
Definition c_string (s : list Z) : Prop := Forall (fun c => 0 < c < 256) s.

(** A non-empty partition whose name fits the 36 units of its entry. *)
Definition part_wf (cp : PartitionConfig) : Prop :=
  guid_wf (partType cp) /\ guid_wf (partId cp) /\ 0 < volume cp < 2 ^ 64 /\
  exists nm, name cp = Some nm /\ c_string nm /\ (length nm <= 36)%nat.

Definition nSectorForArray (n : Z) : Z := (3 + n) / 4.

(** A configuration with its buffer: [partitions] has [numPart] elements and the
    buffer holds [gvolume] sectors. *)
Record config_wf (c : GPTConfig) (cps : list PartitionConfig) (m : image) : Prop := {
  cw_parts : partitions c = Some cps;
  cw_num : numPart c = Z.of_nat (length cps);
  cw_num_max : numPart c < 2 ^ 32;
  cw_each : Forall part_wf cps;
  cw_disk : guid_wf (diskId c);
  cw_volume : 0 <= gvolume c < 2 ^ 55;
  cw_buf : gvolume c * 512 <= isize m }.

(** ** Which partitions are created and where *)

(** The number of leading partitions that fit into [room] sectors. *)
Fixpoint fits (room : Z) (cps : list PartitionConfig) : nat :=
  match cps with
  | [] => O
  | cp :: cps' => if room <? volume cp then O else S (fits (room - volume cp) cps')
  end.

(** Partitions laid out one after the other. *)
Fixpoint place (start : Z) (cps : list PartitionConfig) : list PartitionConfig :=
  match cps with
  | [] => []
  | cp :: cps' => set_startLBA cp start :: place (start + volume cp) cps'
  end.

Definition total (cps : list PartitionConfig) : Z := foldr (fun cp n => volume cp + n) 0 cps.

Lemma length_place start cps : length (place start cps) = length cps.
Proof. revert start. induction cps as [|cp cps IH]; intros; simpl; [done|]. by rewrite IH. Qed.

Lemma place_app start p q : place start (p ++ q) = place start p ++ place (start + total p) q.
Proof.
  revert start. induction p as [|cp p IH]; intros start; simpl.
  - by rewrite Z.add_0_r.
  - rewrite IH. by rewrite Z.add_assoc.
Qed.

Lemma total_app p q : total (p ++ q) = total p + total q.
Proof. induction p as [|cp p IH]; simpl; lia. Qed.

Lemma total_nonneg cps : Forall (fun cp => 0 <= volume cp) cps -> 0 <= total cps.
Proof. induction 1; simpl; lia. Qed.

Lemma fits_le room cps : (fits room cps <= length cps)%nat.
Proof.
  revert room. induction cps as [|cp cps IH]; intros room; simpl; [lia|].
  case_match; [lia|]. specialize (IH (room - volume cp)). lia.
Qed.

Lemma fits_room room cps :
  0 <= room -> Forall (fun cp => 0 <= volume cp) cps -> total (take (fits room cps) cps) <= room.
Proof.
  intros Hr H. revert room Hr. induction H as [|cp cps Hv _ IH]; intros room Hr; simpl; [lia|].
  destruct (Z.ltb_spec room (volume cp)); simpl; [lia|].
  specialize (IH (room - volume cp) ltac:(lia)). lia.
Qed.

(** The first partition left out does not fit. *)
Lemma fits_maximal room cps cp :
  cps !! fits room cps = Some cp -> room < total (take (fits room cps) cps) + volume cp.
Proof.
  revert room. induction cps as [|c cps IH]; intros room; simpl; [done|].
  destruct (Z.ltb_spec room (volume c)); simpl.
  - intros. simplify_eq. lia.
  - intros Hl. apply IH in Hl. lia.
Qed.

(** The configuration after the call: the created partitions know their start. *)
Definition placed (c : GPTConfig) (cps : list PartitionConfig) : list PartitionConfig :=
  let s := nSectorForArray (numPart c) in
  let k := fits (gvolume c - 4 - s) cps in
  place (2 + s) (take k cps) ++ drop k cps.

Definition created (c : GPTConfig) (cps : list PartitionConfig) : list PartitionConfig :=
  let s := nSectorForArray (numPart c) in
  place (2 + s) (take (fits (gvolume c - 4 - s) cps) cps).

(** The loop of [GPTGenerate] computes [fits] and [place]. *)
Lemma alloc_loop_spec done_ rest start remains m :
  Forall (fun cp => 0 <= volume cp) rest -> 0 <= start -> 0 <= remains ->
  start + remains < 2 ^ 64 ->
  alloc_loop (length rest) (Z.of_nat (length done_)) (done_ ++ rest) start remains m =
  Done ((Z.of_nat (length done_) + Z.of_nat (fits remains rest),
         done_ ++ place start (take (fits remains rest) rest) ++ drop (fits remains rest) rest,
         start + total (take (fits remains rest) rest)), m).
Proof.
  revert done_ start remains. induction rest as [|cp rest IH]; intros done_ start remains Hv Hs Hr Hb.
  - simpl. by rewrite !Z.add_0_r.
  - apply Forall_cons in Hv as [Hcp Hv].
    simpl alloc_loop. rewrite Nat2Z.id.
    rewrite lookup_app_r, Nat.sub_diag by lia. simpl.
    unfold mbind, cmd_bind, mret, cmd_ret. cbn [c_deref].
    destruct (Z.ltb_spec remains (volume cp)) as [Hlt|Hge]; simpl.
    + by rewrite !Z.add_0_r.
    + rewrite insert_app_r_alt, Nat.sub_diag by lia. simpl.
      specialize (IH (done_ ++ [set_startLBA cp start]) (start + volume cp) (remains - volume cp)).
      nowrap. rewrite length_app in IH. simpl in IH.
      rewrite Nat2Z.inj_add in IH. change (Z.of_nat 1) with 1 in IH. rewrite <-app_assoc in IH. simpl in IH.
      rewrite IH by (done || lia). rewrite <-app_assoc. simpl.
      rewrite Nat2Z.inj_succ. do 2 f_equal. f_equal; [|lia]. f_equal. lia.
Qed.

(** ** Bytes of the entry array *)

(** The two-byte units of a name. *)
Fixpoint widen (nm : list Z) : list Z :=
  match nm with [] => [] | ch :: nm' => ch :: 0 :: widen nm' end.
Definition name_field (nm : list Z) : list Z := widen nm ++ replicate (72 - 2 * length nm) 0.

Lemma length_widen nm : length (widen nm) = (2 * length nm)%nat.
Proof. induction nm as [|c nm IH]; simpl; [done|]. rewrite IH. lia. Qed.

Lemma widen_app p q : widen (p ++ q) = widen p ++ widen q.
Proof. induction p as [|c p IH]; simpl; [done|]. by rewrite IH. Qed.

Lemma length_name_field nm : (length nm <= 36)%nat -> length (name_field nm) = 72%nat.
Proof. intros. unfold name_field. rewrite length_app, length_widen, length_replicate. lia. Qed.

Section WithHost.
Context {host : Host}.

Definition entry_bytes (cp : PartitionConfig) : list Z :=
  guid_bytes (partType cp) ++ guid_bytes (partId cp) ++ le 8 (startLBA cp)
  ++ le 8 (u64 (startLBA cp + volume cp - 1)) ++ le 8 5
  ++ name_field (default [] (name cp)).

Lemma length_guid_bytes g : guid_wf g -> length (guid_bytes g) = 16%nat.
Proof.
  intros (_ & _ & _ & _ & _ & Hn & _). unfold guid_bytes.
  pose proof (length_native 4 (timeLow g)). pose proof (length_native 2 (timeMid g)).
  pose proof (length_native 2 (timeHigh g)).
  rewrite !length_app, Hn. simpl. lia.
Qed.

Lemma length_entry_bytes cp : part_wf cp -> length (entry_bytes cp) = 128%nat.
Proof.
  intros (Ht & Hi & _ & nm & Hn & _ & Hl). unfold entry_bytes. rewrite Hn. change (default [] (Some nm)) with nm.
  rewrite !length_app, !length_le_nat, !length_guid_bytes, length_name_field by (done || lia).
  lia.
Qed.

Lemma wp_writePartitionName entry nm (Q : unit -> image -> Prop) m :
  0 <= entry + 56 -> entry + 56 + 2 * Z.of_nat (length nm) <= isize m ->
  (forall m', m' ≡ wr m (entry + 56) (widen nm) -> Q tt m') ->
  wp (writePartitionName entry nm) Q m.
Proof.
  intros Ha Hb HQ. unfold writePartitionName. eval_layout.
  apply (wp_foreach (fun p m' => m' ≡ wr m (entry + 56) (widen p))).
  - by rewrite wr_nil.
  - intros p x q m' -> Hm'. rewrite length_app in Hb. simpl in Hb.
    assert (isize m' = isize m) as Hsz by apply Hm'.
    wp_step. wp_step; [simpl; rewrite ?Hsz; lia..|]. wp_step; [simpl; rewrite ?Hsz; lia..|].
    rewrite widen_app, <-wr_wr_app, length_widen, <-Hm'.
    change (widen [x]) with ([x] ++ [0]). rewrite <-wr_wr_app. simpl length.
    apply wr_proper; [apply wr_proper; [done | lia | done] | lia | done].
  - intros m' Hm'. by apply HQ.
Qed.

(** One iteration writes the entry and zeroes what follows it, up to the size of
    the whole array. *)
Lemma wp_write_entry cps s i cp (Q : unit -> image -> Prop) m :
  cps !! Z.to_nat i = Some cp -> part_wf cp -> 0 <= i -> 1 <= s ->
  1024 + 128 * i + s * 512 <= isize m ->
  (forall m', m' ≡ wr (fill m (1024 + 128 * i) (s * 512) 0) (1024 + 128 * i) (entry_bytes cp) ->
    Q tt m') ->
  wp (write_entry cps s i) Q m.
Proof.
  intros Hcp Hwf Hi Hs Hb HQ. pose proof (length_entry_bytes cp Hwf) as Hlen.
  destruct Hwf as (Ht & Hid & _ & nm & Hnm & _ & Hl).
  pose proof (length_guid_bytes _ Ht) as Lt. pose proof (length_guid_bytes _ Hid) as Lid.
  unfold write_entry. rewrite Hcp. change (getSector 2) with 1024. eval_layout.
  set (e := 1024 + 128 * i) in *. assert (1024 <= e) by lia.
  change BLOCK_SIZE with 512.
  repeat wp_step. rewrite Hnm. repeat wp_step.
  apply wp_writePartitionName; [lia | side |].
  intros m' Hm'. apply HQ. rewrite Hm'. clear HQ Hm'.
  apply wr_intro; [done| |]; rewrite Hlen.
  - intros x Hx. rewrite ibyte_wr_out by (rewrite length_widen; lia). by rd_simpl.
  - change (Z.of_nat 128) with (sizeof PartitionEntry).
    rewrite rd_struct by (repeat constructor; simpl; lia). cbn [rd_fields PartitionEntry concat].
    unfold entry_bytes. rewrite Hnm. change (default [] (Some nm)) with nm.
    pose proof (length_widen nm) as Hw.
    rewrite (rd_at _ (e + 16 + 16 + 8 + 8 + 8) (e + 56) 72
      (Z.of_nat (length (widen nm)) + Z.of_nat (72 - 2 * length nm))) by lia.
    rewrite rd_app by lia. rd_simpl.
    rewrite !app_nil_r.
    unfold name_field. change (u8 0) with 0. by rewrite Nat2Z.id.
Qed.

(** The whole array: the entries one after the other.  Nothing before the array
    and nothing after the last [memset] changes. *)
Lemma wp_write_entries cps s n (Q : unit -> image -> Prop) m :
  Forall part_wf cps -> (n <= length cps)%nat -> 1 <= s ->
  1024 + 128 * (Z.of_nat n - 1) + s * 512 <= isize m ->
  (forall m', isize m' = isize m ->
    rd m' 1024 (128 * Z.of_nat n) = concat (entry_bytes <$> take n cps) ->
    (forall x, x < 1024 \/ 1024 + 128 * (Z.of_nat n - 1) + s * 512 <= x -> ibyte m' x = ibyte m x) ->
    Q tt m') ->
  wp (c_for n 0 (write_entry cps s)) Q m.
Proof.
  intros Hwf Hn Hs Hb HQ.
  apply (wp_for (fun k m' => isize m' = isize m /\
    (forall (i : nat) cp, Z.of_nat i < k -> cps !! i = Some cp ->
       rd m' (1024 + 128 * Z.of_nat i) 128 = entry_bytes cp) /\
    (forall x, x < 1024 \/ 1024 + 128 * (Z.of_nat n - 1) + s * 512 <= x ->
       ibyte m' x = ibyte m x))).
  - split_and!; [done | intros; lia | done].
  - intros k m' Hk (Hsz & Hents & Hfr).
    destruct (cps !! Z.to_nat k) as [cp|] eqn:Hcp; [|apply lookup_ge_None in Hcp; lia].
    assert (part_wf cp) as Hpw by (eapply Forall_lookup_1; eauto).
    pose proof (length_entry_bytes cp Hpw) as Hlen.
    eapply wp_write_entry; [done | done | lia | lia | lia |].
    intros m'' Hm''. split_and!.
    + destruct Hm'' as [-> _]. done.
    + intros i c Hi Hc. rewrite Hm''. destruct (decide (Z.of_nat i = k)) as [<-|Hne].
      * rewrite Nat2Z.id in Hcp. simplify_eq. by rd_simpl.
      * rd_simpl. apply Hents; [lia | done].
    + intros x Hx. rewrite Hm''. rd_simpl. by apply Hfr.
  - intros m' (Hsz & Hents & Hfr). apply HQ; [done | | done].
    rewrite <-(rd_blocks m' 1024 128); [|lia|].
    + rewrite length_fmap, length_take. f_equal. lia.
    + intros i bs Hi. rewrite list_lookup_fmap in Hi.
      apply fmap_Some in Hi as (cp & Hcp & ->).
      apply lookup_take_Some in Hcp as [Hcp Hlt]. apply Hents; [lia | done].
Qed.

(** ** Bytes of the headers *)

Definition header_bytes (this alt first last nEntries arrCRC hdrCRC : Z) (disk : GUID) : list Z :=
  EFI_PART ++ le 4 0x00010000 ++ le 4 92 ++ le 4 hdrCRC ++ le 4 0 ++ le 8 this ++ le 8 alt
  ++ le 8 first ++ le 8 last ++ guid_bytes disk ++ le 8 2 ++ le 4 nEntries ++ le 4 128
  ++ le 4 arrCRC.

(** The header whose checksum field is the CRC of the header with that field zero. *)
Definition sealed_header (this alt first last nEntries arrCRC : Z) (disk : GUID) : list Z :=
  header_bytes this alt first last nEntries arrCRC
    (crc32 (header_bytes this alt first last nEntries arrCRC 0 disk)) disk.

Lemma wp_write_headers nBlock start n crc disk (Q : unit -> image -> Prop) m :
  host_order = LittleEndian -> guid_wf disk -> 4 <= nBlock < 2 ^ 55 -> nBlock * 512 <= isize m ->
  (forall m', isize m' = isize m ->
    rd m' 512 92 = sealed_header 1 (nBlock - 1) start (nBlock - 2) n crc disk ->
    rd m' ((nBlock - 1) * 512) 92 = sealed_header (nBlock - 1) 1 start (nBlock - 2) n crc disk ->
    (forall x, x < 512 \/ 604 <= x < (nBlock - 1) * 512 \/ (nBlock - 1) * 512 + 92 <= x ->
       ibyte m' x = ibyte m x) ->
    Q tt m') ->
  wp (write_headers nBlock start n crc disk) Q m.
Proof.
  intros Hh Hd Hn Hb HQ. pose proof (length_guid_bytes _ Hd) as Ld.
  assert (length EFI_PART = 8%nat) as Le by done.
  unfold write_headers. change (getSector 1) with 512. unfold getSector.
  change BLOCK_SIZE with 512. set (L := (nBlock - 1) * 512) in *.
  assert (1536 <= L /\ L + 512 <= isize m) as [HL1 HL2] by lia.
  eval_layout. nowrap.
  wp_go.
  change (u8 0) with 0.
  apply HQ; clear HQ.
  - done.
  - match goal with |- context [crc32 (rd ?M 512 92)] =>
      assert (rd M 512 92 =
        header_bytes 1 (nBlock - 1) start (nBlock - 2) n crc 0 disk) as -> by by rd_layout GPTHeader
    end.
    by rd_layout GPTHeader.
  - match goal with |- context [crc32 (rd ?M L 92)] =>
      assert (rd M L 92 =
        header_bytes (nBlock - 1) 1 start (nBlock - 2) n crc 0 disk) as -> by by rd_layout GPTHeader
    end.
    by rd_layout GPTHeader.
  - intros x Hx. by rd_simpl.
Qed.

(** ** Bytes of the protective MBR *)

Definition mbr_end (nBlock : Z) : Z := Z.min 0xFFFFFF (u32 (512 * nBlock)).
Definition mbr_size (nBlock : Z) : Z := if nBlock >=? UINT32_MAX then UINT32_MAX else nBlock - 1.

Definition mbr_bytes (nBlock : Z) : list Z :=
  replicate 440 0 ++ le 4 0 ++ le 2 0 ++
  le 1 0x80 ++ take 3 (le 4 0x200) ++ le 1 0xEE ++ take 3 (le 4 (mbr_end nBlock)) ++ le 4 1
  ++ le 4 (mbr_size nBlock) ++ replicate 48 0 ++ le 2 GPT_SIGNATURE.

(** The MBR with its first record opened. *)
Definition MBR_flat : layout :=
  [("bootCode"%string, 440); ("rDiskSignature"%string, 4); ("unknown"%string, 2);
   ("bootIndicator"%string, 1); ("startCHS"%string, 3); ("osType"%string, 1); ("endCHS"%string, 3);
   ("startLBA"%string, 4); ("sizeInLBA"%string, 4); ("rest"%string, 48); ("signature"%string, 2)].

Lemma length_take_le k n v : 0 <= n -> (k <= Z.to_nat n)%nat -> length (take k (le n v)) = k.
Proof. intros. rewrite length_take, length_le_nat; lia. Qed.

Lemma wp_createProtectGPT nBlock (Q : unit -> image -> Prop) m :
  host_order = LittleEndian -> 1 <= nBlock < 2 ^ 55 -> 512 <= isize m ->
  (forall m', isize m' = isize m -> rd m' 0 512 = mbr_bytes nBlock ->
    (forall x, x < 0 \/ 512 <= x -> ibyte m' x = ibyte m x) -> Q tt m') ->
  wp (createProtectGPT 0 BLOCK_SIZE nBlock) Q m.
Proof.
  intros Hh Hn Hb HQ. unfold createProtectGPT. eval_layout. change BLOCK_SIZE with 512.
  unfold native. rewrite Hh. rewrite (u64_id (512 * nBlock)), (u64_id (nBlock - 1)) by lia.
  replace (if u32 (512 * nBlock) >? 16777215 then 16777215 else u32 (512 * nBlock))
    with (mbr_end nBlock) by (unfold mbr_end; destruct (Z.gtb_spec (u32 (512 * nBlock)) 16777215); lia).
  replace (if nBlock >=? UINT32_MAX then UINT32_MAX else u32 (nBlock - 1)) with (mbr_size nBlock).
  2: { unfold mbr_size, UINT32_MAX. destruct (Z.geb_spec nBlock 4294967295); [done|]. by nowrap. }
  pose proof (length_take_le 3 4 512) as L1. pose proof (length_take_le 3 4 (mbr_end nBlock)) as L2.
  wp_go. change (u8 0) with 0. apply HQ; clear HQ.
  - done.
  - by rd_layout MBR_flat.
  - intros x Hx. by rd_simpl.
Qed.
End WithHost.
