(* ===== verification/GptTheorems.v ===== *)
(** * Theorems about the GUID partition table code

    What [GPTGenerate] leaves in the image as a whole, the layout of the
    partitions, the checksums, the frame, and the round trip through
    [GPTParse]. *)
From Stdlib Require Import ZArith Lia.
From stdpp Require Import base tactics list numbers list_numbers strings.
From S2P Require Import Prelude Memory Endian Crc32 Gpt GptSpec.
Open Scope Z_scope.

Section WithHost.
Context {host : Host}.

(** ** The result of [GPTGenerate] *)

(** Number of created partitions and first sector after them. *)
Definition n_created (c : GPTConfig) (cps : list PartitionConfig) : nat :=
  fits (gvolume c - 4 - nSectorForArray (numPart c)) cps.
Definition first_free (c : GPTConfig) (cps : list PartitionConfig) : Z :=
  2 + nSectorForArray (numPart c) + total (take (n_created c cps) cps).

Record gpt_written (c : GPTConfig) (cps : list PartitionConfig) (m m' : image) : Prop := {
  gw_size : isize m' = isize m;
  gw_mbr : rd m' 0 512 = mbr_bytes (gvolume c);
  gw_array : rd m' 1024 (128 * Z.of_nat (n_created c cps)) = concat (entry_bytes <$> created c cps);
  gw_primary : rd m' 512 92 =
    sealed_header 1 (gvolume c - 1) (first_free c cps) (gvolume c - 2) (Z.of_nat (n_created c cps))
      (crc32 (concat (entry_bytes <$> created c cps))) (diskId c);
  gw_backup : rd m' ((gvolume c - 1) * 512) 92 =
    sealed_header (gvolume c - 1) 1 (first_free c cps) (gvolume c - 2) (Z.of_nat (n_created c cps))
      (crc32 (concat (entry_bytes <$> created c cps))) (diskId c);
  gw_frame : forall x,
    604 <= x < 1024 \/
    1024 + nSectorForArray (numPart c) * 512 + 128 * (Z.of_nat (n_created c cps) - 1) <= x
      < (gvolume c - 1) * 512 \/
    (gvolume c - 1) * 512 + 92 <= x -> ibyte m' x = ibyte m x }.

Lemma part_wf_set_startLBA cp s : part_wf cp -> part_wf (set_startLBA cp s).
Proof. done. Qed.

Lemma place_wf start cps : Forall part_wf cps -> Forall part_wf (place start cps).
Proof.
  intros H. revert start. induction H as [|cp cps Hcp _ IH]; intros start; simpl; constructor; auto.
Qed.

Lemma part_volume_pos cps : Forall part_wf cps -> Forall (fun cp => 0 < volume cp) cps.
Proof. intros H. eapply Forall_impl; [exact H|]. intros cp (_ & _ & ? & _). lia. Qed.

Lemma total_ge_length cps : Forall (fun cp => 0 < volume cp) cps -> Z.of_nat (length cps) <= total cps.
Proof. induction 1; simpl; lia. Qed.

Lemma placed_created c cps : placed c cps = created c cps ++ drop (n_created c cps) cps.
Proof. done. Qed.

Lemma length_created c cps : length (created c cps) = n_created c cps.
Proof.
  unfold created. rewrite length_place, length_take. fold (n_created c cps).
  pose proof (fits_le (gvolume c - 4 - nSectorForArray (numPart c)) cps). unfold n_created. lia.
Qed.

Lemma placed_wf c cps : Forall part_wf cps -> Forall part_wf (placed c cps).
Proof.
  intros. rewrite placed_created. apply Forall_app. split; [|by apply Forall_drop].
  by apply place_wf, Forall_take.
Qed.

Lemma nSectorForArray_bounds n : 0 <= n -> n <= 4 * nSectorForArray n <= n + 3.
Proof. intros. unfold nSectorForArray. dlia. Qed.

(** What is created fits between the array and the reserved sector. *)
Lemma n_created_room c cps :
  Forall part_wf cps -> 0 <= gvolume c - 4 - nSectorForArray (numPart c) ->
  Z.of_nat (n_created c cps) <= total (take (n_created c cps) cps)
  <= gvolume c - 4 - nSectorForArray (numPart c).
Proof.
  intros Hwf Hr. pose proof (part_volume_pos cps Hwf) as Hp. split.
  - etransitivity; [|by apply total_ge_length, Forall_take].
    rewrite length_take. unfold n_created.
    pose proof (fits_le (gvolume c - 4 - nSectorForArray (numPart c)) cps). lia.
  - apply fits_room; [done|]. eapply Forall_impl; [exact Hp|]. simpl. lia.
Qed.

Lemma wp_GPTGenerate c cps m (Q : Z * GPTConfig -> image -> Prop) :
  host_order = LittleEndian -> config_wf c cps m ->
  1 <= numPart c -> 4 + nSectorForArray (numPart c) <= gvolume c ->
  (forall m', gpt_written c cps m m' ->
    Q (Z.of_nat (n_created c cps), set_partitions c (numPart c) (Some (placed c cps))) m') ->
  wp (GPTGenerate c) Q m.
Proof.
  intros Hh [Hparts Hnum Hmax Hwf Hdisk Hvol Hbuf] H1 Hfit HQ.
  pose proof (nSectorForArray_bounds (numPart c) ltac:(lia)) as Hs.
  pose proof (n_created_room c cps Hwf ltac:(lia)) as [Hk1 Hk2].
  pose proof (placed_wf c cps Hwf) as Hpw. pose proof (length_created c cps) as Hlc.
  assert (n_created c cps <= length cps)%nat as Hkl by apply fits_le.
  assert (take (n_created c cps) (placed c cps) = created c cps) as Htk.
  { rewrite placed_created, take_app_le, take_ge by lia. done. }
  unfold GPTGenerate. repeat (wp_step; [apply wp_assert; [reflexivity|]]).
  change (BLOCK_SIZE / sizeof PartitionEntry) with 4. change (4 - 1) with 3.
  rewrite (u64_id (3 + numPart c)) by lia. fold (nSectorForArray (numPart c)).
  set (s := nSectorForArray (numPart c)) in *. nowrap.
  destruct (Z.ltb_spec (gvolume c) (4 + s)); [lia|]. destruct (Z.eqb_spec s 0); [lia|]. simpl orb.
  rewrite Hparts, Hnum, Nat2Z.id. wp_step.
  apply wp_createProtectGPT; [done | lia | lia |]. intros m1 Hsz1 Hmbr1 Hfr1.
  do 2 wp_step. wp_step.
  eapply wp_eq.
  { apply (alloc_loop_spec [] cps); [|lia..].
    eapply Forall_impl; [apply (part_volume_pos cps Hwf)|]. simpl. lia. }
  change (fits (gvolume c - 4 - s) cps) with (n_created c cps). simpl length.
  rewrite Z.add_0_l, Nat2Z.id. rewrite app_nil_l.
  change (place (2 + s) (take (n_created c cps) cps) ++ drop (n_created c cps) cps) with (placed c cps).
  change (getSector 2) with 1024. change (sizeof PartitionEntry) with 128.
  assert (length (placed c cps) = length cps) as Hlp.
  { rewrite placed_created, length_app, Hlc, length_drop. lia. }
  wp_step. apply wp_write_entries; [done | lia | lia | lia |].
  intros m2 Hsz2 Harr Hfr2. rewrite Htk in Harr. do 2 wp_step.
  rewrite Harr. wp_step. apply wp_write_headers; [done | done | lia | lia |].
  intros m3 Hsz3 Hpri Hbak Hfr3. wp_step. rewrite <-Hnum. apply HQ. split; [lia | | | done | done |].
  - rewrite <-Hmbr1. apply rd_ext. intros i Hi. rewrite Hfr3 by lia. apply Hfr2. lia.
  - rewrite <-Harr. apply rd_ext. intros i Hi. apply Hfr3. lia.
  - fold s. intros x Hx. rewrite Hfr3, Hfr2, Hfr1 by lia. done.
Qed.

(** ** Reading entries back *)

Lemma guid_roundtrip g : guid_wf g -> guid_of_bytes (guid_bytes g) = g.
Proof.
  intros (H1 & H2 & H3 & _ & _ & Hn & _). unfold guid_of_bytes, guid_bytes.
  assert (forall n v, 0 <= n -> length (native n v) = Z.to_nat n) as Hl.
  { intros n v ?. apply Nat2Z.inj. rewrite length_native; lia. }
  pose proof (Hl 4 (timeLow g) ltac:(lia)) as L1. pose proof (Hl 2 (timeMid g) ltac:(lia)) as L2.
  pose proof (Hl 2 (timeHigh g) ltac:(lia)) as L3.
  pose proof (of_native_native 4 (timeLow g) ltac:(lia)) as E1.
  pose proof (of_native_native 2 (timeMid g) ltac:(lia)) as E2.
  pose proof (of_native_native 2 (timeHigh g) ltac:(lia)) as E3.
  destruct (native 4 (timeLow g)) as [|a0 [|a1 [|a2 [|a3 [|]]]]]; try done.
  destruct (native 2 (timeMid g)) as [|b0 [|b1 [|]]]; try done.
  destruct (native 2 (timeHigh g)) as [|c0 [|c1 [|]]]; try done.
  cbn [app take drop nth]. rewrite E1, E2, E3, (take_ge (node g)) by lia.
  rewrite !wrap_small by (unfold is_u in *; lia). by destruct g.
Qed.

(** The name loop stops at the terminator or at the end of the field. *)
Lemma read_name_spec entry n j nm m :
  c_string nm -> (length nm <= n)%nat -> 0 <= entry -> 0 <= j ->
  entry + 56 + j + 2 * Z.of_nat n <= isize m ->
  (forall i, 0 <= i < 2 * Z.of_nat n -> ibyte m (entry + 56 + j + i) = nth (Z.to_nat i) (widen nm) 0) ->
  read_name n entry j m = Done (nm, m).
Proof.
  revert j nm. induction n as [|n IH]; intros j nm Hc Hl He Hj Hb Hi.
  - destruct nm; [done | simpl in Hl; lia].
  - cbn [read_name]. unfold mbind, cmd_bind, load_bytes. eval_layout.
    rewrite in_range_true by lia.
    assert (nth 0 (rd m (entry + 56 + j) 1) 0 = nth 0 (widen nm) 0) as ->.
    { rewrite (rd_lookup m _ 1 0) by lia. rewrite Hi by lia. done. }
    destruct nm as [|ch nm]; simpl; [done|].
    apply Forall_cons in Hc as [Hch Hc]. simpl in Hl.
    destruct (Z.eqb_spec ch 0); [lia|].
    rewrite (IH (j + 2) nm); [done | done | lia..|].
    intros i Hir. replace (entry + 56 + (j + 2) + i) with (entry + 56 + j + (2 + i)) by lia.
    rewrite Hi by lia. replace (Z.to_nat (2 + i)) with (S (S (Z.to_nat i))) by lia. done.
Qed.

(** A partition as [GPTParse] reports it: its place is known to be a 64-bit
    range of sectors. *)
Definition on_disk (cp : PartitionConfig) : Prop :=
  part_wf cp /\ 0 <= startLBA cp /\ startLBA cp + volume cp < 2 ^ 64.

Lemma parse_entry_spec alloc m e cp :
  (forall k, alloc k = true) -> on_disk cp -> 0 <= e -> e + 128 <= isize m ->
  rd m e 128 = entry_bytes cp -> parse_entry alloc e m = Done (cp, m).
Proof.
  intros Hal [Hwf [Hst Hend]] He Hb Hrd.
  destruct Hwf as (Ht & Hid & Hv & nm & Hnm & Hc & Hl).
  pose proof (length_guid_bytes _ Ht) as Lt. pose proof (length_guid_bytes _ Hid) as Lid.
  unfold entry_bytes in Hrd. rewrite Hnm in Hrd. change (default [] (Some nm)) with nm in Hrd.
  apply rd_app_inv in Hrd as [R1 Hrd]. apply rd_app_inv in Hrd as [R2 Hrd].
  apply rd_app_inv in Hrd as [R3 Hrd]. apply rd_app_inv in Hrd as [R4 Hrd].
  apply rd_app_inv in Hrd as [R5 R6].
  rewrite ?Lt, ?Lid, ?length_le in * by lia.
  assert (ld 8 m (e + 32) = startLBA cp) as E3.
  { erewrite ld_of_rd; [by apply wrap_small; lia | | lia]. etransitivity; [|exact R3]. apply rd_at; lia. }
  assert (ld 8 m (e + 40) = startLBA cp + volume cp - 1) as E4.
  { erewrite ld_of_rd; [by apply wrap_small; lia | | lia]. nowrap_in R4.
    etransitivity; [|exact R4]. apply rd_at; lia. }
  assert (read_name 36 e 0 m = Done (nm, m)) as Hname.
  { apply read_name_spec; [done | done | lia..|]. intros i Hi.
    pose proof (ibyte_of_rd _ _ _ _ i R6 ltac:(lia)) as Hx.
    etransitivity; [|etransitivity; [exact Hx|]]; [f_equal; lia|].
    unfold name_field. pose proof (length_widen nm) as Hw.
    destruct (decide (Z.to_nat i < length (widen nm))%nat).
    - by rewrite app_nth1.
    - rewrite app_nth2, (nth_overflow (widen nm)) by lia. apply nth_zeros. }
  apply wp_exact.
  unfold parse_entry. eval_layout. do 8 wp_step. rewrite E3, E4.
  wp_step. eapply wp_eq; [exact Hname|]. wp_step. split; [|done].
  rewrite Hal, <-Hnm.
  rewrite (rd_at m (e + 0) e 16 (Z.of_nat 16)) by lia. rewrite R1.
  rewrite (rd_at m (e + 16) (e + Z.of_nat 16) 16 (Z.of_nat 16)) by lia. rewrite R2.
  rewrite !guid_roundtrip by done. nowrap.
  replace (startLBA cp + volume cp - 1 - startLBA cp + 1) with (volume cp) by lia. by destruct cp.
Qed.

Lemma parse_entries_spec alloc m cps a i :
  (forall k, alloc k = true) -> Forall on_disk cps -> 0 <= a + 128 * i ->
  a + 128 * i + 128 * Z.of_nat (length cps) <= isize m ->
  rd m (a + 128 * i) (128 * Z.of_nat (length cps)) = concat (entry_bytes <$> cps) ->
  parse_entries alloc (length cps) a i m = Done (cps, m).
Proof.
  intros Hal Hcps. revert i. induction Hcps as [|cp cps Hcp _ IH]; intros i Ha Hb Hrd; [done|].
  cbn [length parse_entries]. cbn [length] in Hb, Hrd. eval_layout.
  rewrite fmap_cons in Hrd. cbn [concat] in Hrd.
  apply rd_app_inv in Hrd as [R1 R2]. rewrite length_entry_bytes in R1, R2 by apply Hcp.
  change (Z.of_nat 128) with 128 in *.
  unfold mbind, cmd_bind. rewrite (parse_entry_spec alloc m _ cp) by (done || lia).
  rewrite IH; [done | lia | lia |].
  etransitivity; [|exact R2]. apply rd_at; lia.
Qed.

(** ** Where the partitions lie *)

Lemma place_lookup start cps i cp' :
  place start cps !! i = Some cp' ->
  exists cp, cps !! i = Some cp /\ cp' = set_startLBA cp (start + total (take i cps)).
Proof.
  revert start i. induction cps as [|c cps IH]; intros start [|i] H; simpl in *; simplify_eq.
  - exists c. split; [done|]. by rewrite Z.add_0_r.
  - apply IH in H as (cp & Hcp & ->). exists cp. split; [done|]. f_equal. lia.
Qed.

Lemma total_take_S cps i cp :
  cps !! i = Some cp -> total (take (S i) cps) = total (take i cps) + volume cp.
Proof. intros H. rewrite (take_S_r _ _ _ H), total_app. simpl. lia. Qed.

Lemma total_take_mono cps i j :
  Forall (fun cp => 0 < volume cp) cps -> (i <= j)%nat -> total (take i cps) <= total (take j cps).
Proof.
  intros Hp Hij. replace j with (i + (j - i))%nat by lia. rewrite <-take_take_drop, total_app.
  assert (0 <= total (take (j - i) (drop i cps))); [|lia].
  apply total_nonneg, Forall_take, Forall_drop. eapply Forall_impl; [exact Hp|]. simpl. lia.
Qed.

(** Start and end of the created partition number [i]. *)
Lemma created_lookup c cps i cp' :
  created c cps !! i = Some cp' ->
  exists cp, cps !! i = Some cp /\ (i < n_created c cps)%nat /\
    cp' = set_startLBA cp (2 + nSectorForArray (numPart c) + total (take i cps)).
Proof.
  intros H. apply place_lookup in H as (cp & Hcp & ->).
  apply lookup_take_Some in Hcp as [Hcp Hi].
  exists cp. split_and!; [done | done |]. by rewrite take_take, Nat.min_l by lia.
Qed.

Lemma created_extent c cps i cp' :
  Forall part_wf cps -> created c cps !! i = Some cp' ->
  startLBA cp' = 2 + nSectorForArray (numPart c) + total (take i cps) /\
  startLBA cp' + volume cp' = 2 + nSectorForArray (numPart c) + total (take (S i) cps) /\
  (i < n_created c cps)%nat.
Proof.
  intros Hwf H. apply created_lookup in H as (cp & Hcp & Hi & ->). simpl.
  rewrite (total_take_S cps i cp) by done. split_and!; [done | lia | done].
Qed.

Lemma created_on_disk c cps :
  Forall part_wf cps -> 0 <= numPart c ->
  0 <= gvolume c - 4 - nSectorForArray (numPart c) -> gvolume c < 2 ^ 55 ->
  Forall on_disk (created c cps).
Proof.
  intros Hwf Hn Hr Hv. apply Forall_lookup. intros i cp' H.
  pose proof (nSectorForArray_bounds (numPart c) Hn) as Hs.
  pose proof (n_created_room c cps Hwf Hr) as [_ Hk].
  pose proof (created_extent c cps i cp' Hwf H) as (Hst & Hen & Hi).
  pose proof (total_take_mono cps (S i) (n_created c cps) (part_volume_pos cps Hwf) ltac:(lia)).
  apply created_lookup in H as (cp & Hcp & _ & ->). simpl in *.
  assert (part_wf cp) as Hpw by (eapply Forall_lookup_1; eauto).
  assert (0 <= total (take i cps)).
  { apply total_nonneg, Forall_take. eapply Forall_impl; [exact (part_volume_pos cps Hwf)|].
    simpl. lia. }
  split; [by apply part_wf_set_startLBA | simpl; lia].
Qed.

(** ** A standard check of a header *)

(** What the UEFI specification asks of the header at sector [lba]: the
    signature, its own address, the checksum over the header with the checksum
    field zero, and the checksum over the entry array. *)
Definition gpt_header_ok (m : image) (lba : Z) : bool :=
  let a := lba * 512 in
  bool_decide (rd m a 8 = EFI_PART) && (ld 8 m (a + 24) =? lba) &&
  (ld 4 m (a + 16) =? crc32 (rd (wr m (a + 16) (le 4 0)) a (ld 4 m (a + 12)))) &&
  (ld 4 m (a + 88) =? crc32 (rd m (ld 8 m (a + 72) * 512) (ld 4 m (a + 80) * ld 4 m (a + 84)))).

Lemma crc32_bounds bs : 0 <= crc32 bs < 2 ^ 32.
Proof. apply u32_range. Qed.

Lemma sealed_header_ok m lba alt first last k disk arr :
  guid_wf disk -> 0 <= lba < 2 ^ 64 -> 0 <= k < 2 ^ 32 ->
  rd m (lba * 512) 92 = sealed_header lba alt first last k (crc32 arr) disk ->
  rd m 1024 (128 * k) = arr -> gpt_header_ok m lba = true.
Proof.
  intros Hd Hlba Hk Hrd Harr. pose proof (length_guid_bytes _ Hd) as Ld.
  set (a := lba * 512) in *. unfold sealed_header in Hrd.
  set (H0 := crc32 (header_bytes _ _ _ _ _ _ 0 _)) in Hrd.
  assert (0 <= H0 < 2 ^ 32) as HH0 by apply crc32_bounds.
  unfold header_bytes in Hrd.
  assert (length EFI_PART = 8%nat) as Le by done.
  split_fields Hrd. unfold gpt_header_ok. fold a.
  rewrite (ld_of_rd 4 m (a + 12) 92), (ld_of_rd 4 m (a + 16) H0), (ld_of_rd 4 m (a + 80) k),
    (ld_of_rd 4 m (a + 84) 128), (ld_of_rd 4 m (a + 88) (crc32 arr)), (ld_of_rd 8 m (a + 24) lba),
    (ld_of_rd 8 m (a + 72) 2) by (done || lia).
  eval_wrap. rewrite !wrap_small by (lia || apply crc32_bounds).
  assert (rd (wr m (a + 16) (le 4 0)) a 92 = header_bytes lba alt first last k (crc32 arr) 0 disk)
    as ->.
  { rd_layout GPTHeader. unfold header_bytes. congruence. }
  change (2 * 512) with 1024. rewrite (Z.mul_comm k), Harr, !Z.eqb_refl, bool_decide_true by done. done.
Qed.

(** ** [GPTParse] on a written table *)

Lemma mbr_signature nBlock m : rd m 0 512 = mbr_bytes nBlock -> ld 2 m 510 = GPT_SIGNATURE.
Proof.
  intros H. pose proof (length_take_le 3 4 512) as L1.
  pose proof (length_take_le 3 4 (mbr_end nBlock)) as L2.
  unfold mbr_bytes in H. split_fields H. by rewrite (ld_of_rd 2 m 510 GPT_SIGNATURE).
Qed.

(** The part of the image that [GPTParse] and the header checks look at. *)
Record gpt_table (c : GPTConfig) (cps : list PartitionConfig) (m : image) : Prop := {
  gt_size : gvolume c * 512 <= isize m;
  gt_signature : ld 2 m 510 = GPT_SIGNATURE;
  gt_array : rd m 1024 (128 * Z.of_nat (n_created c cps)) = concat (entry_bytes <$> created c cps);
  gt_primary : rd m 512 92 =
    sealed_header 1 (gvolume c - 1) (first_free c cps) (gvolume c - 2) (Z.of_nat (n_created c cps))
      (crc32 (concat (entry_bytes <$> created c cps))) (diskId c);
  gt_backup : rd m ((gvolume c - 1) * 512) 92 =
    sealed_header (gvolume c - 1) 1 (first_free c cps) (gvolume c - 2) (Z.of_nat (n_created c cps))
      (crc32 (concat (entry_bytes <$> created c cps))) (diskId c) }.

Lemma gpt_written_table c cps m0 m m' : config_wf c cps m0 -> isize m = isize m0 ->
  gpt_written c cps m m' -> gpt_table c cps m'.
Proof.
  intros Hc Hs [Hsz Hmbr Harr Hpri Hbak _]. split; try done.
  - rewrite Hsz, Hs. apply Hc.
  - by eapply mbr_signature.
Qed.

(** The bytes of the table; the boot code before the signature is not part of it. *)
Definition table_byte (c : GPTConfig) (cps : list PartitionConfig) (x : Z) : Prop :=
  440 <= x < 604 \/ 1024 <= x < 1024 + 128 * Z.of_nat (n_created c cps) \/
  (gvolume c - 1) * 512 <= x < (gvolume c - 1) * 512 + 92.

Lemma gpt_table_frame c cps m m' :
  gpt_table c cps m -> isize m' = isize m ->
  (forall x, table_byte c cps x -> ibyte m' x = ibyte m x) -> gpt_table c cps m'.
Proof.
  intros [Hsz Hsig Harr Hpri Hbak] Hs Hb. unfold table_byte in Hb. split.
  - by rewrite Hs.
  - rewrite <-Hsig. unfold ld. f_equal. apply rd_ext. intros. apply Hb. lia.
  - rewrite <-Harr. apply rd_ext. intros. apply Hb. lia.
  - rewrite <-Hpri. apply rd_ext. intros. apply Hb. lia.
  - rewrite <-Hbak. apply rd_ext. intros. apply Hb. lia.
Qed.

Lemma GPTParse_table alloc c c0 cps m0 m :
  (forall n, alloc n = true) -> config_wf c cps m0 ->
  1 <= numPart c -> 4 + nSectorForArray (numPart c) <= gvolume c -> gpt_table c cps m ->
  GPTParse alloc c0 m =
    Done ((0, set_partitions c0 (Z.of_nat (n_created c cps)) (Some (created c cps))), m).
Proof.
  intros Hal [_ Hnum Hmax Hwf Hd Hv _] H1 Hfit [Hsz Hsig Harr Hpri _].
  pose proof (length_created c cps) as Hlc.
  pose proof (n_created_room c cps Hwf ltac:(lia)) as [Hk1 Hk2].
  pose proof (nSectorForArray_bounds (numPart c) ltac:(lia)) as Hs.
  assert (n_created c cps <= length cps)%nat as Hkl by apply fits_le.
  pose proof (length_guid_bytes _ Hd) as Ld. assert (length EFI_PART = 8%nat) as Le by done.
  unfold sealed_header, header_bytes in Hpri. split_fields Hpri.
  apply wp_exact. unfold GPTParse. eval_layout. change (getSector 0) with 0.
  change (getSector 1) with 512. do 2 wp_step.
  change (0 + 510) with 510. rewrite Hsig. simpl.
  do 2 wp_step. change (512 + 0) with 512. rewrite R. rewrite bool_decide_true by done. simpl.
  do 4 wp_step. rewrite (ld_of_rd 4 m (512 + 80) (Z.of_nat (n_created c cps))) by done.
  rewrite (ld_of_rd 8 m (512 + 72) 2) by done. rewrite wrap_small by lia.
  rewrite Hal. simpl. rewrite Nat2Z.id. wp_step. eapply wp_eq; [|by apply wp_ret].
  change (u64 (getSector (wrap (8 * 8) 2))) with 1024. rewrite <-Hlc.
  apply parse_entries_spec; [done | apply created_on_disk; (done || lia) | lia | lia |].
  rewrite Hlc, Z.mul_0_r, Z.add_0_r. exact Harr.
Qed.

Lemma gpt_table_headers c cps m0 m :
  config_wf c cps m0 -> 1 <= numPart c -> 4 + nSectorForArray (numPart c) <= gvolume c ->
  gpt_table c cps m -> gpt_header_ok m 1 = true /\ gpt_header_ok m (gvolume c - 1) = true.
Proof.
  intros [_ Hnum Hmax Hwf Hd Hv _] H1 Hfit [_ _ Harr Hpri Hbak].
  assert (n_created c cps <= length cps)%nat by apply fits_le.
  pose proof (nSectorForArray_bounds (numPart c) ltac:(lia)) as Hs.
  split; (eapply sealed_header_ok; [done | lia | | eassumption | exact Harr]); lia.
Qed.

(** ** The theorems *)

(** C4: on a little-endian host, for every well-formed configuration with at
    least one partition and room for the tables, [GPTGenerate] returns the number
    of leading partitions that fit, records their start sectors, and leaves
    exactly the protective MBR, the entries and the two headers in the image;
    it never leaves its buffer and every other byte keeps its value, the bytes
    after the array that its [memset] reaches excepted. *)
Theorem GPTGenerate_writes_table (c : GPTConfig) (cps : list PartitionConfig) (m : image) :
  host_order = LittleEndian -> config_wf c cps m ->
  1 <= numPart c -> 4 + nSectorForArray (numPart c) <= gvolume c ->
  exists m', GPTGenerate c m =
    Done ((Z.of_nat (n_created c cps), set_partitions c (numPart c) (Some (placed c cps))), m')
    /\ gpt_written c cps m m'.
Proof.
  intros Hh Hwf H1 Hfit.
  destruct (wp_run _ _ _ (wp_GPTGenerate c cps m
    (fun r m' => r = (Z.of_nat (n_created c cps), set_partitions c (numPart c) (Some (placed c cps)))
                 /\ gpt_written c cps m m') Hh Hwf H1 Hfit ltac:(by auto)))
    as (r & m' & Hrun & -> & Hw).
  eauto.
Qed.

(** A disk that is too small for the tables, or a configuration without
    partitions, is refused: the result is 0 and neither the image nor the
    configuration changes. *)
Theorem GPTGenerate_too_small (c : GPTConfig) (m : image) :
  0 <= numPart c < 2 ^ 32 -> 0 <= gvolume c < 2 ^ 55 ->
  numPart c = 0 \/ gvolume c < 4 + nSectorForArray (numPart c) ->
  GPTGenerate c m = Done ((0, c), m).
Proof.
  intros Hn Hv Hsmall. pose proof (nSectorForArray_bounds (numPart c) ltac:(lia)) as Hs.
  apply wp_exact. unfold GPTGenerate. repeat (wp_step; [apply wp_assert; [reflexivity|]]).
  change (BLOCK_SIZE / sizeof PartitionEntry) with 4. change (4 - 1) with 3.
  rewrite (u64_id (3 + numPart c)) by lia. fold (nSectorForArray (numPart c)).
  rewrite (u64_id (4 + nSectorForArray (numPart c))) by lia.
  destruct (Z.ltb_spec (gvolume c) (4 + nSectorForArray (numPart c))); [done|].
  destruct (Z.eqb_spec (nSectorForArray (numPart c)) 0); [done|]. lia.
Qed.

(** C6: the partitions that [GPTGenerate] creates lie between the entry array
    and the reserved last two sectors, follow one another without overlap, and
    are the longest prefix of the requested ones that fits. *)
Theorem GPTGenerate_partitions_disjoint (c : GPTConfig) (cps : list PartitionConfig) (m m' : image)
    (ret : Z) (c' : GPTConfig) (ps : list PartitionConfig) :
  host_order = LittleEndian -> config_wf c cps m ->
  1 <= numPart c -> 4 + nSectorForArray (numPart c) <= gvolume c ->
  GPTGenerate c m = Done ((ret, c'), m') -> partitions c' = Some ps ->
  (forall i cp, (Z.of_nat i < ret) -> ps !! i = Some cp ->
     2 + nSectorForArray (numPart c) <= startLBA cp /\ startLBA cp + volume cp <= gvolume c - 2) /\
  (forall i j cp cp', (i < j)%nat -> Z.of_nat j < ret -> ps !! i = Some cp -> ps !! j = Some cp' ->
     startLBA cp + volume cp <= startLBA cp') /\
  (forall cp, cps !! Z.to_nat ret = Some cp ->
     gvolume c - 4 - nSectorForArray (numPart c) < total (take (Z.to_nat ret) cps) + volume cp).
Proof.
  intros Hh Hwf H1 Hfit Hrun Hps.
  destruct (wp_run _ _ _ (wp_GPTGenerate c cps m (fun r _ => r =
    (Z.of_nat (n_created c cps), set_partitions c (numPart c) (Some (placed c cps))))
    Hh Hwf H1 Hfit ltac:(done))) as (r & m1 & Hrun' & ->).
  rewrite Hrun in Hrun'. simplify_eq. simpl in Hps. simplify_eq.
  destruct Hwf as [_ _ _ Hwf _ _ _]. pose proof (part_volume_pos cps Hwf) as Hpos.
  pose proof (n_created_room c cps Hwf ltac:(lia)) as [_ Hk].
  assert (forall i cp, Z.of_nat i < Z.of_nat (n_created c cps) -> placed c cps !! i = Some cp ->
    created c cps !! i = Some cp) as Hcr.
  { intros i cp Hi. rewrite placed_created, lookup_app_l; [done|]. rewrite length_created. lia. }
  split_and!.
  - intros i cp Hi Hl. apply Hcr in Hl; [|done]. apply created_extent in Hl as (-> & -> & _); [|done].
    pose proof (total_take_mono cps 0 i Hpos ltac:(lia)).
    pose proof (total_take_mono cps (S i) (n_created c cps) Hpos ltac:(lia)). simpl in *. lia.
  - intros i j cp cp' Hij Hj Hl Hl'. apply Hcr in Hl; [|lia]. apply Hcr in Hl'; [|done].
    apply created_extent in Hl as (_ & -> & _); [|done].
    apply created_extent in Hl' as (-> & _ & _); [|done].
    pose proof (total_take_mono cps (S i) j Hpos ltac:(lia)). lia.
  - rewrite Nat2Z.id. apply fits_maximal.
Qed.

(** C5: both headers that [GPTGenerate] writes, at sector 1 and at the last
    sector, pass the check of the UEFI specification, entry array included. *)
Theorem GPTGenerate_headers_valid (c : GPTConfig) (cps : list PartitionConfig) (m m' : image)
    (r : Z * GPTConfig) :
  host_order = LittleEndian -> config_wf c cps m ->
  1 <= numPart c -> 4 + nSectorForArray (numPart c) <= gvolume c ->
  GPTGenerate c m = Done (r, m') ->
  gpt_header_ok m' 1 = true /\ gpt_header_ok m' (gvolume c - 1) = true.
Proof.
  intros Hh Hwf H1 Hfit Hrun.
  destruct (wp_run _ _ _ (wp_GPTGenerate c cps m (fun _ m' => gpt_written c cps m m')
    Hh Hwf H1 Hfit ltac:(done))) as (r' & m1 & Hrun' & Hw).
  rewrite Hrun in Hrun'. simplify_eq. eapply gpt_table_headers; [done..|]. by eapply gpt_written_table.
Qed.

(** C3: reading back the table with [GPTParse] gives exactly the partitions that
    [GPTGenerate] created, with their types, identifiers, names, sizes and start
    sectors, when the allocations of [GPTParse] succeed. *)
Theorem GPTParse_GPTGenerate (alloc : Z -> bool) (c c0 : GPTConfig) (cps : list PartitionConfig)
    (m m' : image) (r : Z * GPTConfig) :
  host_order = LittleEndian -> config_wf c cps m -> (forall n, alloc n = true) ->
  1 <= numPart c -> 4 + nSectorForArray (numPart c) <= gvolume c ->
  GPTGenerate c m = Done (r, m') ->
  GPTParse alloc c0 m' =
    Done ((0, set_partitions c0 (Z.of_nat (n_created c cps)) (Some (created c cps))), m').
Proof.
  intros Hh Hwf Hal H1 Hfit Hrun.
  destruct (wp_run _ _ _ (wp_GPTGenerate c cps m (fun _ m' => gpt_written c cps m m')
    Hh Hwf H1 Hfit ltac:(done))) as (r' & m1 & Hrun' & Hw).
  rewrite Hrun in Hrun'. simplify_eq. eapply GPTParse_table; [done..|]. by eapply gpt_written_table.
Qed.

(** [GPTParse] refuses an image whose boot sector does not end in 55AA or
    whose second sector does not start with the GPT signature, with [EINVAL] and
    the configuration unchanged; a failed allocation gives [ENOMEM] with the
    number of entries recorded and no partition array. *)
Theorem GPTParse_errors (alloc : Z -> bool) (c : GPTConfig) (m : image) :
  1024 <= isize m ->
  (ld 2 m 510 <> GPT_SIGNATURE -> GPTParse alloc c m = Done ((EINVAL, c), m)) /\
  (ld 2 m 510 = GPT_SIGNATURE -> rd m 512 8 <> EFI_PART ->
   GPTParse alloc c m = Done ((EINVAL, c), m)) /\
  (ld 2 m 510 = GPT_SIGNATURE -> rd m 512 8 = EFI_PART ->
   alloc (u64 (sizeof_PartitionConfig * ld 4 m 592)) = false ->
   GPTParse alloc c m = Done ((ENOMEM, set_partitions c (ld 4 m 592) None), m)).
Proof.
  intros Hsz. split_and!; intros; apply wp_exact; unfold GPTParse; eval_layout;
    change (getSector 0) with 0; change (getSector 1) with 512; do 2 wp_step;
    change (0 + 510) with 510.
  - by destruct (Z.eqb_spec (ld 2 m 510) GPT_SIGNATURE).
  - destruct (Z.eqb_spec (ld 2 m 510) GPT_SIGNATURE); [|done]. simpl. do 2 wp_step.
    change (512 + 0) with 512. by rewrite bool_decide_false by done.
  - destruct (Z.eqb_spec (ld 2 m 510) GPT_SIGNATURE); [|done]. simpl. do 2 wp_step.
    change (512 + 0) with 512. rewrite bool_decide_true by done. simpl. do 4 wp_step.
    change (512 + 80) with 592.
    match goal with H : alloc _ = false |- _ => rewrite H end. done.
Qed.

(** The [firstUsableLBA] that [GPTGenerate] stores is the first sector after the
    partitions it created, so no partition lies in the usable range that the
    header announces. *)
Theorem GPTGenerate_firstUsable_after_partitions (c : GPTConfig) (cps : list PartitionConfig)
    (m m' : image) (r : Z * GPTConfig) (i : nat) (cp : PartitionConfig) :
  host_order = LittleEndian -> config_wf c cps m ->
  1 <= numPart c -> 4 + nSectorForArray (numPart c) <= gvolume c ->
  GPTGenerate c m = Done (r, m') -> created c cps !! i = Some cp ->
  startLBA cp + volume cp <= ld 8 m' (512 + offsetof GPTHeader "firstUsableLBA").
Proof.
  intros Hh Hc H1 Hfit Hrun Hcp.
  destruct (wp_run _ _ _ (wp_GPTGenerate c cps m (fun _ m' => gpt_written c cps m m')
    Hh Hc H1 Hfit ltac:(done))) as (r' & m1 & Hrun' & Hw).
  rewrite Hrun in Hrun'. simplify_eq. destruct Hc as [_ Hnum Hmax Hwf Hd Hv _].
  pose proof (gw_primary _ _ _ _ Hw) as Hpri.
  pose proof (length_guid_bytes _ Hd) as Ld. assert (length EFI_PART = 8%nat) as Le by done.
  unfold sealed_header, header_bytes in Hpri. split_fields Hpri. eval_layout.
  pose proof (n_created_room c cps Hwf ltac:(lia)) as [Hk1 Hk2].
  pose proof (nSectorForArray_bounds (numPart c) ltac:(lia)) as Hs.
  assert (0 <= first_free c cps < 2 ^ 64) by (unfold first_free; lia).
  rewrite (ld_of_rd 8 m1 (512 + 40) (first_free c cps)), wrap_small by (done || lia).
  apply created_extent in Hcp as (_ & -> & Hi); [|done]. unfold first_free.
  pose proof (total_take_mono cps (S i) (n_created c cps) (part_volume_pos cps Hwf) ltac:(lia)). lia.
Qed.

(** The place of the entry array is not validated: a header that puts it past the
    end of the image makes [GPTParse] read out of bounds. *)
Theorem GPTParse_unvalidated_entries (alloc : Z -> bool) (c : GPTConfig) (m : image) :
  1024 <= isize m -> ld 2 m 510 = GPT_SIGNATURE -> rd m 512 8 = EFI_PART ->
  alloc (u64 (sizeof_PartitionConfig * ld 4 m 592)) = true -> 1 <= ld 4 m 592 ->
  isize m < u64 (ld 8 m 584 * 512) + 16 -> GPTParse alloc c m = Fault.
Proof.
  intros Hsz Hsig Hefi Hal Hn Hfar. unfold GPTParse, get. eval_layout.
  change (getSector 0) with 0. change (getSector 1) with 512.
  erewrite bind_done by (apply generic_load_le_eq; [unfold is_width; lia | apply in_range_true; lia]).
  change (0 + 510) with 510. rewrite Hsig. cbn [negb Z.eqb Pos.eqb GPT_SIGNATURE].
  change (512 + 0) with 512.
  erewrite bind_done by (unfold load_bytes; rewrite in_range_true by lia; reflexivity).
  rewrite Hefi, bool_decide_true by done. cbn [negb].
  do 2 erewrite bind_done by (apply generic_load_le_eq; [unfold is_width; lia | apply in_range_true; lia]).
  change (512 + 80) with 592. change (512 + 72) with 584. rewrite Hal. cbn [negb].
  replace (Z.to_nat (ld 4 m 592)) with (S (Z.to_nat (ld 4 m 592 - 1))) by lia. cbn [parse_entries].
  unfold mbind, cmd_bind, parse_entry, getSector. change BLOCK_SIZE with 512. eval_layout.
  unfold mbind, cmd_bind, load_bytes.
  destruct (in_range m _ 16) eqn:E; [apply in_range_inv in E; lia|done].
Qed.
End WithHost.

(** ** A concrete disk

    The configuration of [mkgpt.c]: 524288 sectors, a boot partition of 262140
    sectors and a file system partition on the rest. *)

Definition demo_parts : list PartitionConfig :=
  [MkPart EFI_SYSTEM_PARTITION myDiskID (Some [66; 111; 111; 116]) 262140 0;
   MkPart EFI_SYSTEM_PARTITION myDiskID (Some [70; 105; 108; 101]) 262143 0].
Definition demo_config : GPTConfig := MkGPT 524288 2 (Some demo_parts) myDiskID.
Definition demo_image : image := Img (524288 * 512) (fun _ => 0).

Ltac solve_guid_wf :=
  unfold guid_wf, is_u, is_byte; simpl;
  split_and?; try lia; repeat (constructor; [lia|]); constructor.

Lemma demo_config_wf : config_wf demo_config demo_parts demo_image.
Proof.
  assert (guid_wf EFI_SYSTEM_PARTITION) by solve_guid_wf.
  assert (guid_wf myDiskID) by solve_guid_wf.
  split; simpl; try done; try lia.
  repeat constructor; simpl; try done; eexists;
    (split; [reflexivity|]); (split; [repeat (constructor; [lia|]); constructor | simpl; lia]).
Qed.

(** The table that the little-endian run of [GPTGenerate] reports. *)
Definition demo_created : list PartitionConfig :=
  [MkPart EFI_SYSTEM_PARTITION myDiskID (Some [66; 111; 111; 116]) 262140 3;
   MkPart EFI_SYSTEM_PARTITION myDiskID (Some [70; 105; 108; 101]) 262143 262143].
Definition demo_config' : GPTConfig := MkGPT 524288 2 (Some demo_created) myDiskID.

Lemma demo_run : exists m',
  GPTGenerate (host := LittleEndian) demo_config demo_image = Done ((2, demo_config'), m') /\
  gpt_written (host := LittleEndian) demo_config demo_parts demo_image m'.
Proof.
  destruct (wp_run _ _ _ (wp_GPTGenerate (host := LittleEndian) demo_config demo_parts demo_image
    (fun r m' => r = (2, demo_config') /\
       gpt_written (host := LittleEndian) demo_config demo_parts demo_image m')
    eq_refl demo_config_wf ltac:(simpl; lia) ltac:(vm_compute; congruence) ltac:(done)))
    as (r & m' & Hrun & -> & Hw). eauto.
Qed.

Lemma GPTGenerate_writes_table_witness : exists m',
  GPTGenerate (host := LittleEndian) demo_config demo_image = Done ((2, demo_config'), m') /\
  gpt_written (host := LittleEndian) demo_config demo_parts demo_image m'.
Proof.
  exact (GPTGenerate_writes_table (host := LittleEndian) demo_config demo_parts demo_image
    eq_refl demo_config_wf ltac:(simpl; lia) ltac:(vm_compute; congruence)).
Defined.

Lemma GPTGenerate_too_small_witness :
  GPTGenerate (host := LittleEndian) (MkGPT 4 1 None myDiskID) demo_image =
  Done ((0, MkGPT 4 1 None myDiskID), demo_image).
Proof.
  apply (GPTGenerate_too_small (host := LittleEndian)); simpl; [lia | lia |].
  right. vm_compute. reflexivity.
Defined.

Lemma GPTGenerate_partitions_disjoint_witness : exists m',
  GPTGenerate (host := LittleEndian) demo_config demo_image = Done ((2, demo_config'), m') /\
  forall i j cp cp', (i < j)%nat -> Z.of_nat j < 2 ->
    demo_created !! i = Some cp -> demo_created !! j = Some cp' ->
    startLBA cp + volume cp <= startLBA cp'.
Proof.
  destruct demo_run as (m' & Hrun & _). exists m'. split; [exact Hrun|].
  exact (proj1 (proj2 (GPTGenerate_partitions_disjoint (host := LittleEndian) demo_config demo_parts
    demo_image m' 2 demo_config' demo_created eq_refl demo_config_wf ltac:(simpl; lia)
    ltac:(vm_compute; congruence) Hrun eq_refl))).
Defined.

Lemma GPTGenerate_headers_valid_witness : exists m',
  GPTGenerate (host := LittleEndian) demo_config demo_image = Done ((2, demo_config'), m') /\
  gpt_header_ok m' 1 = true /\ gpt_header_ok m' 524287 = true.
Proof.
  destruct demo_run as (m' & Hrun & _). exists m'. split; [exact Hrun|].
  exact (GPTGenerate_headers_valid (host := LittleEndian) demo_config demo_parts demo_image m' _
    eq_refl demo_config_wf ltac:(simpl; lia) ltac:(vm_compute; congruence) Hrun).
Defined.

Lemma GPTParse_GPTGenerate_witness : exists m',
  GPTGenerate (host := LittleEndian) demo_config demo_image = Done ((2, demo_config'), m') /\
  GPTParse (host := LittleEndian) (fun _ => true) (MkGPT 0 0 None myDiskID) m' =
    Done ((0, MkGPT 0 2 (Some demo_created) myDiskID), m').
Proof.
  destruct demo_run as (m' & Hrun & _). exists m'. split; [exact Hrun|].
  exact (GPTParse_GPTGenerate (host := LittleEndian) (fun _ => true) demo_config
    (MkGPT 0 0 None myDiskID) demo_parts demo_image m' _
    eq_refl demo_config_wf (fun _ => eq_refl) ltac:(simpl; lia) ltac:(vm_compute; congruence) Hrun).
Defined.

Lemma GPTParse_errors_witness :
  GPTParse (host := LittleEndian) (fun _ => true) demo_config demo_image =
  Done ((EINVAL, demo_config), demo_image).
Proof.
  apply (proj1 (GPTParse_errors (host := LittleEndian) (fun _ => true) demo_config demo_image
    ltac:(simpl; lia))). vm_compute. discriminate.
Defined.

(** ** Behaviour outside the specification *)

(** On a big-endian host the plain read of [lba1->headerSize] is byte-swapped:
    the checksum runs over 0x5c000000 bytes and leaves the buffer. *)
Example GPTGenerate_big_endian_faults :
  GPTGenerate (host := BigEndian) demo_config demo_image = Fault.
Proof. vm_compute. reflexivity. Qed.

(** A header that promises entries outside the image. *)
Definition crafted_image : image :=
  wr (wr (wr (wr (Img 2048 (fun _ => 0)) 510 (le 2 GPT_SIGNATURE)) 512 EFI_PART)
    (512 + 72) (le 8 4)) (512 + 80) (le 4 1).

Lemma GPTParse_unvalidated_entries_witness :
  GPTParse (host := LittleEndian) (fun _ => true) demo_config crafted_image = Fault.
Proof.
  apply (GPTParse_unvalidated_entries (host := LittleEndian) (fun _ => true) demo_config crafted_image);
    vm_compute; (reflexivity || congruence).
Defined.

Lemma GPTGenerate_firstUsable_after_partitions_witness : exists m',
  GPTGenerate (host := LittleEndian) demo_config demo_image = Done ((2, demo_config'), m') /\
  262143 + 262143 <= ld 8 m' (512 + 40).
Proof.
  destruct demo_run as (m' & Hrun & _). exists m'. split; [exact Hrun|].
  apply (GPTGenerate_firstUsable_after_partitions (host := LittleEndian) demo_config demo_parts demo_image m'
    (2, demo_config') 1 (MkPart EFI_SYSTEM_PARTITION myDiskID (Some [70; 105; 108; 101]) 262143 262143)
    eq_refl demo_config_wf ltac:(simpl; lia) ltac:(vm_compute; congruence) Hrun eq_refl).
Defined.

(** The [memset] of every entry is as long as the whole array, so that of the
    second entry reaches the first sector of the first partition. *)
Example GPTGenerate_memset_reaches_partition :
  match GPTGenerate (host := LittleEndian) demo_config (Img (524288 * 512) (fun _ => 170)) with
  | Done (_, m') => rd m' 1536 129 = replicate 128 0 ++ [170]
  | _ => False
  end.
Proof. vm_compute. reflexivity. Qed.
