(* ===== verification/Fat.v ===== *)
(** * FAT32 volumes: [src/gpt/fat.h] and [src/gpt/fat.c]

    The on-disk structs, [createFAT32], which formats a volume, the in-memory
    super block [FAT32Super] and its accessors, and [FAT32Copyin], which copies a
    file into the root directory.  The volume lies at offset [buf] of the image:
    the programs format a partition of a larger disk. *)
From Stdlib Require Import ZArith Lia.
From stdpp Require Import base tactics list numbers list_numbers strings.
From S2P Require Import Prelude Memory Endian.
Open Scope Z_scope.

(** ** Data *)

Record FATConfig : Type := MkFATConfig {
  nSector : Z; cBytesPerSector : Z; clusterSize : Z; writeRandomData : bool; isFixed : bool }.

Definition FAT_ATTR_READ_ONLY : Z := 0x01.
Definition FAT_ATTR_HIDDEN : Z := 0x02.
Definition FAT_ATTR_SYSTEM : Z := 0x04.
Definition FAT_ATTR_VOLUME_ID : Z := 0x08.
Definition FAT_ATTR_DIRECTORY : Z := 0x10.
Definition FAT_ATTR_ARCHIVE : Z := 0x20.

(** [errno] value of the target. *)
Definition EDQUOT : Z := 122.

Open Scope string_scope.
Definition BPB : layout :=
  [("jmpBoot", 3); ("OEFName", 8); ("bytesPerSector", 2); ("numSectorPerCluster", 1);
   ("numReservedSectors", 2); ("numAllocTable", 1); ("rootEntryCount", 2); ("numSectors16", 2);
   ("media", 1); ("fatSize16", 2); ("sectorsPerTrack", 2); ("numHeads", 2); ("hiddenSec", 4);
   ("numSectors32", 4); ("fatSize32", 4); ("extFlags", 2); ("revision", 2); ("rootCluster", 4);
   ("fsInfo", 2); ("bootRecordSector", 2); ("reserved", 12); ("driverNum", 1); ("reserved1", 1);
   ("bootSignature", 1); ("volSerialNumber", 4); ("volLabel", 11); ("fileSysType", 8);
   ("reserved3", 420); ("signatureByte1", 1); ("signatureByte2", 1)].

Definition FSInfo : layout :=
  [("leadSignature", 4); ("reserved", 480); ("structSignature", 4); ("freeCount", 4);
   ("nextFree", 4); ("reserved1", 12); ("trailSignature", 4)].

Definition FATDirEntry : layout :=
  [("name", 11); ("attr", 1); ("ntres", 1); ("createTimeTenth", 1); ("createTime", 2);
   ("createDate", 2); ("lastAccessDate", 2); ("firstClusterHigh", 2); ("writeTime", 2);
   ("writeDate", 2); ("firstClusterLow", 2); ("fileSize", 4)].
Close Scope string_scope.

(** The string literals of [createFAT32]. *)
Definition FAT_IMPL : list Z := [109; 107; 102; 115; 46; 102; 97; 116].
Definition NO_NAME : list Z := [78; 79; 32; 78; 65; 77; 69; 32; 32; 32; 32].
Definition FAT32_TYPE : list Z := [70; 65; 84; 51; 50; 32; 32; 32].

Definition sizeof_fat32_entry_t : Z := 4.
Definition FAT32_CHUNK_SHUT_BITMASK : Z := 0x08000000.
Definition FAT32_HDR_ERROR_BITMASK : Z := 0x04000000.
Definition FAT32_EOC : Z := 0xFFFFFFFF.

(** [CDIV] on [uint32_t] operands. *)
Definition CDIV (a b : Z) : Z := u32 (u32 (a + b) - 1) / b.

(** ** Dates and times *)

Definition FAT32Date (year month day : Z) : Z :=
  let ret := u16 (Z.land day 0x1F) in
  let ret := u16 (Z.lor ret (Z.shiftl (Z.land month 0xF) 5)) in
  let year := u16 (year - 1980) in
  u16 (Z.lor ret (Z.shiftl (Z.land year 0x7F) 9)).

Definition FAT32Time (hour minute second : Z) : Z :=
  let second := Z.shiftr second 1 in
  let ret := u16 (Z.land second 0x1F) in
  let ret := u16 (Z.lor ret (Z.shiftl (Z.land minute 0x3F) 5)) in
  u16 (Z.lor ret (Z.shiftl (Z.land hour 0x1F) 11)).

Section WithHost.
Context {host : Host}.

(** ** Geometry of a volume *)

Definition numSectorDataRegion (bpb : Z) : cmd image Z :=
  rootEntCnt ← get_native BPB bpb "rootEntryCount";
  fatSize16 ← get_native BPB bpb "fatSize16";
  fatSize32 ← get_native BPB bpb "fatSize32";
  let FATSize := if negb (fatSize16 =? 0) then fatSize16 else fatSize32 in
  numSectors16 ← get_native BPB bpb "numSectors16";
  numSectors32 ← get_native BPB bpb "numSectors32";
  let totalSec := if negb (numSectors16 =? 0) then numSectors16 else numSectors32 in
  reserved ← get_native BPB bpb "numReservedSectors";
  numAllocTable ← get_native BPB bpb "numAllocTable";
  let dataSec := u32 (totalSec - u32 (reserved + FATSize * numAllocTable + rootEntCnt)) in
  c_assert (dataSec <? totalSec) ;;
  mret dataSec.

(** The sector number in the high 32 bits, the offset in the low 32 bits. *)
Definition clusterToFATEntry (bpb n : Z) : cmd image Z :=
  fatSize16 ← get_native BPB bpb "fatSize16";
  fatSize32 ← get_native BPB bpb "fatSize32";
  let FATSize := if negb (fatSize16 =? 0) then fatSize16 else fatSize32 in
  let fatOffset := if negb (fatSize16 =? 0) then u32 (n * 2) else u32 (n * 4) in
  c_assert (negb (FATSize =? 0)) ;;
  reserved ← get_native BPB bpb "numReservedSectors";
  bps ← get_native BPB bpb "bytesPerSector";
  q ← c_div fatOffset bps;
  let secNum := u32 (reserved + q) in
  fatEntOffset ← c_mod fatOffset bps;
  mret (Z.lor (Z.shiftl secNum 32) fatEntOffset).

(** ** [createFAT32] *)

(** [for (i = first; i < limit; i *= 2) if (x == i) found] *)
Fixpoint doubling_loop (fuel : nat) (i limit x : Z) : bool :=
  match fuel with
  | O => false
  | S fuel' => if i <? limit then if x =? i then true else doubling_loop fuel' (2 * i) limit x else false
  end.

Definition bytesIsValid (config : FATConfig) : bool := doubling_loop 8 512 8192 (cBytesPerSector config).
Definition clusterSizeIsValid (config : FATConfig) : bool := doubling_loop 8 1 256 (clusterSize config).

Definition write_bpb (bpb : Z) (config : FATConfig) (media numResevedSector fatSizeInSector : Z)
    : cmd image unit :=
  memset bpb 0 (sizeof BPB) ;;
  store_bytes (bpb + offsetof BPB "jmpBoot" + 0) [0xeb] ;;
  store_bytes (bpb + offsetof BPB "jmpBoot" + 1) [0x00] ;;
  store_bytes (bpb + offsetof BPB "jmpBoot" + 2) [0x90] ;;
  store_bytes (bpb + offsetof BPB "OEFName") FAT_IMPL ;;
  put BPB bpb "bytesPerSector" (cBytesPerSector config) ;;
  put BPB bpb "numSectorPerCluster" (clusterSize config) ;;
  put BPB bpb "numReservedSectors" numResevedSector ;;
  put BPB bpb "numAllocTable" 2 ;;
  put BPB bpb "rootEntryCount" 0 ;;
  put BPB bpb "numSectors16" 0 ;;
  put BPB bpb "media" media ;;
  put BPB bpb "sectorsPerTrack" 32 ;;
  put BPB bpb "numHeads" 8 ;;
  put BPB bpb "hiddenSec" 0 ;;
  put BPB bpb "numSectors32" (nSector config) ;;
  put BPB bpb "fatSize32" fatSizeInSector ;;
  put BPB bpb "extFlags" 0 ;;
  put BPB bpb "revision" 0 ;;
  put BPB bpb "rootCluster" 2 ;;
  put BPB bpb "fsInfo" 1 ;;
  put BPB bpb "bootRecordSector" 6 ;;
  put BPB bpb "driverNum" 0x80 ;;
  put BPB bpb "bootSignature" 0x29 ;;
  put BPB bpb "volSerialNumber" 0xe5792f15 ;;
  store_bytes (bpb + offsetof BPB "volLabel") NO_NAME ;;
  store_bytes (bpb + offsetof BPB "fileSysType") FAT32_TYPE ;;
  put BPB bpb "signatureByte1" 0x55 ;;
  put BPB bpb "signatureByte2" 0xaa.

Definition write_fsinfo (finfo numFreeFATEntry : Z) : cmd image unit :=
  put FSInfo finfo "leadSignature" 0x41615252 ;;
  put FSInfo finfo "structSignature" 0x61417272 ;;
  put FSInfo finfo "freeCount" numFreeFATEntry ;;
  put FSInfo finfo "nextFree" 0x3 ;;
  put FSInfo finfo "trailSignature" 0xAA550000.

(** The three entries that [createFAT32] sets in a table. *)
Definition write_fat_head (table media : Z) : cmd image unit :=
  _generic_store_le (table + 4 * 0) 4 (Z.lor 0xFFFF00 media) ;;
  _generic_store_le (table + 4 * 1) 4 (Z.lor FAT32_CHUNK_SHUT_BITMASK FAT32_HDR_ERROR_BITMASK) ;;
  _generic_store_le (table + 4 * 2) 4 FAT32_EOC.

Definition createFAT32 (buf : Z) (config : FATConfig) : cmd image Z :=
  if nSector config <? 16 then mret 1
  else if negb (bytesIsValid config) then mret 1
  else if negb (clusterSizeIsValid config) then mret 1
  else
    let media := if isFixed config then 0xF8 else 0xF0 in
    let sectorSize := cBytesPerSector config in
    let numEntryPerSector := sectorSize / sizeof_fat32_entry_t in
    let numClusterOnDisk := nSector config / clusterSize config in
    let fatSizeInSector := CDIV numClusterOnDisk numEntryPerSector in
    let numResevedSector := 8 in
    let numFATSector := u32 (fatSizeInSector * 2) in
    let numFreeFATEntry := u32 (u32 (numFATSector * numEntryPerSector) - 3) in
    c_assert (numClusterOnDisk >? 2) ;;
    write_bpb buf config media numResevedSector fatSizeInSector ;;
    memcpy (buf + u32 (sectorSize * 6)) buf (sizeof BPB) ;;
    let finfo := buf + u32 (sectorSize * 1) in
    write_fsinfo finfo numFreeFATEntry ;;
    memcpy (buf + u32 (sectorSize * 7)) finfo (sizeof FSInfo) ;;
    memset (buf + u32 (sectorSize * numResevedSector)) 0 (u32 (sectorSize * numFATSector)) ;;
    let firstTable := buf + u32 (sectorSize * numResevedSector) in
    write_fat_head firstTable media ;;
    let secondTable := buf + u32 (sectorSize * u32 (numResevedSector + fatSizeInSector)) in
    write_fat_head secondTable media ;;
    let dataOffset := u32 (sectorSize * u32 (numResevedSector + numFATSector)) in
    memset (buf + dataOffset) 0 (u32 (sectorSize * clusterSize config)) ;;
    mret 0.

(** ** The super block *)

(** Pointers are offsets into the image; [None] is a null pointer. *)
Record FAT32Super : Type := MkSuper {
  sb_buf : Z;
  sb_fsInfo : option Z;
  bytesPerSector : Z; bytesPerCluster : Z; bytesPerFAT : Z;
  numSector : Z; numReserved : Z; numFAT : Z; numData : Z; maxCluster : Z;
  rootCluster : Z;
  numEntryTable : Z; tables : list (option Z);
  rootDir : option Z; nextRootEntry : Z; numRootEntry : Z }.

Definition sector_ptr (buf numSector bytesPerSector sector : Z) : option Z :=
  if sector >=? numSector then None else Some (buf + u32 (sector * bytesPerSector)).

Definition FAT32SuperGetSector (sb : FAT32Super) (sector : Z) : option Z :=
  sector_ptr (sb_buf sb) (numSector sb) (bytesPerSector sb) sector.

Definition FAT32SuperCluster (sb : FAT32Super) (cluster : Z) : option Z :=
  if (cluster <? 2) || (cluster >=? maxCluster sb) then None
  else Some (sb_buf sb + u32 (bytesPerSector sb * u32 (numFAT sb + numReserved sb)
                              + bytesPerCluster sb * u32 (cluster - 2))).

(** [sb->tables[i]]: the array has four elements. *)
Definition table_ptr (tabs : list (option Z)) (i : Z) : cmd image Z :=
  o ← c_deref (tabs !! Z.to_nat i); c_deref o.

(** The loop that sets [tables[1..numAllocTable)]; an index above 3 leaves the array. *)
Fixpoint tables_from (n : nat) (i : Z) (prev step : Z) (tabs : list (option Z))
    : cmd image (list (option Z)) :=
  match n with
  | O => mret tabs
  | S n' =>
      c_deref (tabs !! Z.to_nat i) ;;
      tables_from n' (i + 1) (prev + step) step (<[Z.to_nat i := Some (prev + step)]> tabs)
  end.

(** The loop that counts the clusters of the root directory. *)
Fixpoint root_chain (fuel : nat) (table0 nextPtr rootDirCluster : Z) : cmd image Z :=
  if nextPtr =? FAT32_EOC then mret rootDirCluster
  else match fuel with
  | O => fun _ => Diverged
  | S fuel' =>
      next ← _generic_load_le (table0 + 4 * nextPtr) 4;
      root_chain fuel' table0 next (u32 (rootDirCluster + 1))
  end.

(** The loop that looks for the first free root entry. *)
Fixpoint find_root (n : nat) (i : Z) (root : option Z) : cmd image (option Z) :=
  match n with
  | O => mret None
  | S n' =>
      r ← c_deref root;
      b ← load_bytes (r + sizeof FATDirEntry * i + offsetof FATDirEntry "name") 1;
      if nth 0 b 0 =? 0 then mret (Some i) else find_root n' (i + 1) root
  end.

Definition FAT32SuperInit (fuel : nat) (buf : Z) : cmd image FAT32Super :=
  let bpb := buf in
  bps ← get BPB bpb "bytesPerSector";
  nsecPerCluster ← get BPB bpb "numSectorPerCluster";
  let bpc := u32 (nsecPerCluster * bps) in
  fatSize ← get BPB bpb "fatSize32";
  let bpf := u32 (fatSize * bps) in
  numSec ← get BPB bpb "numSectors32";
  numReservedSectors ← get BPB bpb "numReservedSectors";
  numAllocTable ← get BPB bpb "numAllocTable";
  let nFAT := u32 (fatSize * numAllocTable) in
  let nData := u32 (u32 (numSec - numReservedSectors) - nFAT) in
  maxC ← c_div nData nsecPerCluster;
  let fsi := sector_ptr buf numSec bps 1 in
  rootC ← get BPB bpb "rootCluster";
  let table0 := buf + u32 (bps * numReservedSectors) in
  tabs ← tables_from (Z.to_nat (numAllocTable - 1)) 1 table0 (4 * (bpf / sizeof_fat32_entry_t))
           [Some table0; None; None; None];
  nextPtr ← _generic_load_le (table0 + 4 * rootC) 4;
  rootDirCluster ← root_chain fuel table0 nextPtr 1;
  let root := sector_ptr buf numSec bps (u32 (numReservedSectors + nFAT)) in
  let numRoot := u32 (rootDirCluster * bpc) / sizeof FATDirEntry in
  found ← find_root (Z.to_nat numRoot) 0 root;
  mret (MkSuper buf fsi bps bpc bpf numSec numReservedSectors nFAT nData maxC rootC
          numAllocTable tabs root (default numRoot found) numRoot).

Definition FAT32SuperReadEntry (sb : FAT32Super) (cluster : Z) : cmd image Z :=
  c_assert (cluster <? maxCluster sb) ;;
  t ← table_ptr (tables sb) 0;
  _generic_load_le (t + 4 * cluster) 4.

Definition FAT32SuperWriteEntry (sb : FAT32Super) (cluster value : Z) : cmd image unit :=
  c_assert (cluster <? maxCluster sb) ;;
  c_assert (cluster >=? 1) ;;
  c_for (Z.to_nat (numEntryTable sb)) 0 (fun i =>
    t ← table_ptr (tables sb) i;
    _generic_store_le (t + 4 * cluster) 4 value).

Definition FAT32SuperFree (sb : FAT32Super) : cmd image unit :=
  s6 ← c_deref (FAT32SuperGetSector sb 6);
  memcpy s6 (sb_buf sb) (bytesPerSector sb) ;;
  s7 ← c_deref (FAT32SuperGetSector sb 7);
  s1 ← c_deref (FAT32SuperGetSector sb 1);
  memcpy s7 s1 (bytesPerSector sb).

(** Directories are not implemented: the call always fails. *)
Definition FAT32Mkdir (buf : Z) (name : list Z) (flag : Z) : cmd image Z := mret 1.

(** ** [FAT32Copyin] *)

(** An opened file as the system calls show it: the size [fstat] reports, the
    result of [lseek(fd, 0, SEEK_SET)], what [read(fd, _, n)] returns and stores,
    and the [errno] of a failed call. *)
Record os_file : Type := MkFile {
  os_fstat : option Z; os_lseek : Z; os_read : Z -> Z * list Z; os_errno : Z }.

(** The two copy loops: up to the first dot, then the rest, dot included, to the
    suffix at offset 8. *)
Fixpoint name_prefix (nm : list Z) : list Z :=
  match nm with [] => [] | c :: nm' => if c =? 46 then [] else c :: name_prefix nm' end.
Fixpoint name_suffix (nm : list Z) : list Z :=
  match nm with [] => [] | c :: nm' => if c =? 46 then nm else name_suffix nm' end.

Definition write_name (entry : Z) (nm : list Z) : cmd image unit :=
  c_foreach (name_prefix nm) 0 (fun i ch => store_bytes (entry + i) [ch]) ;;
  c_foreach (name_suffix nm) 0 (fun i ch => store_bytes (entry + 8 + i) [ch]).

Definition write_dirent (entry nextFree fobjSize attr : Z) (nm : list Z) : cmd image unit :=
  let date := FAT32Date 1995 2 21 in
  let time := FAT32Time 8 30 25 in
  b ← load_bytes (entry + offsetof FATDirEntry "name") 1;
  c_assert (nth 0 b 0 =? 0) ;;
  memset entry 0 (sizeof FATDirEntry) ;;
  write_name entry nm ;;
  put FATDirEntry entry "attr" attr ;;
  put FATDirEntry entry "ntres" 0 ;;
  put FATDirEntry entry "createTimeTenth" 42 ;;
  put FATDirEntry entry "createTime" time ;;
  put FATDirEntry entry "createDate" date ;;
  put FATDirEntry entry "lastAccessDate" date ;;
  put FATDirEntry entry "firstClusterHigh" (Z.shiftr nextFree 16) ;;
  put_native FATDirEntry entry "writeTime" (le16_of_bytes (native 2 time)) ;;
  put_native FATDirEntry entry "writeDate" (le16_of_bytes (native 2 date)) ;;
  put FATDirEntry entry "firstClusterLow" (Z.land nextFree 0xFFFF) ;;
  put FATDirEntry entry "fileSize" fobjSize.

(** Link [n] clusters from [nextFree] on; returns the first cluster after them. *)
Fixpoint link_clusters (n : nat) (sb : FAT32Super) (nextFree : Z) : cmd image Z :=
  match n with
  | O => mret nextFree
  | S n' =>
      FAT32SuperWriteEntry sb nextFree (u32 (1 + nextFree)) ;;
      link_clusters n' sb (u32 (nextFree + 1))
  end.

(** The result is the returned sector and the value of [FAT32Errno] after the
    call, given its value [errno0] before. *)
Definition FAT32Copyin (fuel : nat) (buf : Z) (fd : os_file) (nm : list Z) (attr errno0 : Z)
    : cmd image (Z * Z) :=
  match os_fstat fd with
  | None => mret (0, os_errno fd)
  | Some st_size =>
      let fobjSize := u32 st_size in
      sb ← FAT32SuperInit fuel buf;
      sectorPerCluster ← c_div (bytesPerCluster sb) (bytesPerSector sb);
      let err e := FAT32SuperFree sb ;; mret (0, e) in
      fiPtr ← c_deref (sb_fsInfo sb);
      nextFree ← get FSInfo fiPtr "nextFree";
      freeCount ← get FSInfo fiPtr "freeCount";
      c_assert (maxCluster sb >=? nextFree) ;;
      let maxFileSize := u32 (bytesPerCluster sb * u32 (maxCluster sb - nextFree)) in
      if maxFileSize <? fobjSize then err EDQUOT
      else
        allocCluster ← c_div (u32 (u32 (fobjSize + bytesPerCluster sb) - 1)) (bytesPerCluster sb);
        if nextRootEntry sb =? numRootEntry sb then err EDQUOT
        else
          c_assert (nextFree >? 2) ;;
          let ret := u32 (u32 (nextFree - 2) * sectorPerCluster) in
          let ret := u32 (ret + u32 (numReserved sb + numFAT sb)) in
          addr ← c_deref (FAT32SuperGetSector sb ret);
          memset addr 0 (u32 (allocCluster * bytesPerCluster sb)) ;;
          if negb (os_lseek fd =? 0) then err (os_errno fd)
          else
            let '(nread, data) := os_read fd fobjSize in
            store_bytes addr data ;;
            if negb (nread =? fobjSize) then err (os_errno fd)
            else
              root ← c_deref (rootDir sb);
              let entry := root + sizeof FATDirEntry * nextRootEntry sb in
              write_dirent entry nextFree fobjSize attr nm ;;
              nextFree ← link_clusters (Z.to_nat (allocCluster - 1)) sb nextFree;
              FAT32SuperWriteEntry sb nextFree FAT32_EOC ;;
              let nextFree := u32 (nextFree + 1) in
              c_assert (freeCount >=? allocCluster) ;;
              put FSInfo fiPtr "freeCount" (u32 (freeCount - allocCluster)) ;;
              put FSInfo fiPtr "nextFree" nextFree ;;
              FAT32SuperFree sb ;;
              mret (ret, errno0)
  end.
End WithHost.
