(* ===== verification/FatSpec.v ===== *)
(** * What a FAT32 volume holds

    The geometry of a volume, the abstract view of its root directory as a list
    of files, and the representation predicate [fat_rep] that ties the two to the
    bytes of the image.  [createFAT32] establishes it for the empty list. *)
From Stdlib Require Import ZArith Lia.
From stdpp Require Import base tactics list numbers list_numbers strings.
From S2P Require Import Prelude Memory Endian Fat.
Open Scope Z_scope.

(** ** Accepted configurations *)

Definition valid_bps (b : Z) : Prop := b = 512 \/ b = 1024 \/ b = 2048 \/ b = 4096.
Definition valid_spc (c : Z) : Prop :=
  c = 1 \/ c = 2 \/ c = 4 \/ c = 8 \/ c = 16 \/ c = 32 \/ c = 64 \/ c = 128.

Lemma doubling_loop_found fuel i limit x :
  doubling_loop fuel i limit x = true ->
  exists k : nat, (k < fuel)%nat /\ x = 2 ^ Z.of_nat k * i /\ x < limit.
Proof.
  revert i. induction fuel as [|fuel IH]; intros i H; [done|]. simpl in H.
  destruct (Z.ltb_spec i limit); [|done].
  destruct (Z.eqb_spec x i) as [->|].
  - exists O. split; [lia|]. rewrite Z.mul_1_l. auto.
  - apply IH in H as (k & Hk & -> & Hlt). exists (S k).
    rewrite Nat2Z.inj_succ, Z.pow_succ_r by lia. split; [lia|]. split; lia.
Qed.

Lemma bytesIsValid_spec config : bytesIsValid config = true <-> valid_bps (cBytesPerSector config).
Proof.
  unfold valid_bps, bytesIsValid. generalize (cBytesPerSector config). intros b. split.
  - intros (k & Hk & -> & Hlt)%doubling_loop_found.
    do 8 (destruct k as [|k]; [simpl in *; lia|]). lia.
  - intros [->|[->|[->| ->]]]; reflexivity.
Qed.

Lemma clusterSizeIsValid_spec config : clusterSizeIsValid config = true <-> valid_spc (clusterSize config).
Proof.
  unfold valid_spc, clusterSizeIsValid. generalize (clusterSize config). intros c. split.
  - intros (k & Hk & -> & Hlt)%doubling_loop_found.
    do 8 (destruct k as [|k]; [simpl in *; lia|]). lia.
  - intros [->|[->|[->|[->|[->|[->|[->| ->]]]]]]]; reflexivity.
Qed.

(** ** Geometry *)

(** A volume at offset [g_buf] with [g_n] sectors of [g_bps] bytes, clusters of
    [g_spc] sectors and tables of [g_fat] sectors. *)
Record geom : Type := MkGeom { g_buf : Z; g_bps : Z; g_spc : Z; g_n : Z; g_fat : Z; g_media : Z }.

Section Geometry.
Variable g : geom.

Definition g_bpc : Z := g_bps g * g_spc g.
Definition g_table (i : Z) : Z := g_buf g + g_bps g * (8 + i * g_fat g).
Definition g_root : Z := g_buf g + g_bps g * (8 + 2 * g_fat g).
Definition g_maxC : Z := (g_n g - 8 - 2 * g_fat g) / g_spc g.
Definition g_addr (c : Z) : Z := g_root + g_bpc * (c - 2).
Definition g_end : Z := g_buf g + g_bps g * g_n g.
Definition g_numRoot : Z := g_bpc / 32.
(** Entries in one table. *)
Definition g_entries : Z := g_fat g * (g_bps g / 4).

(** The volume is smaller than 4 GiB, its tables have an entry for every cluster,
    and its first data cluster lies inside it. *)
Record geom_wf : Prop := {
  gw_buf : 0 <= g_buf g;
  gw_bps : valid_bps (g_bps g);
  gw_spc : valid_spc (g_spc g);
  gw_fat : 1 <= g_fat g;
  gw_fit : 8 + 2 * g_fat g + g_spc g <= g_n g;
  gw_max : g_bps g * g_n g < 2 ^ 32;
  gw_cover : g_n g / g_spc g <= g_entries;
  gw_media : g_media g = 0xF8 \/ g_media g = 0xF0 }.
End Geometry.

Definition config_fat (config : FATConfig) : Z :=
  (nSector config / clusterSize config + cBytesPerSector config / 4 - 1) / (cBytesPerSector config / 4).

Definition config_geom (buf : Z) (config : FATConfig) : geom :=
  MkGeom buf (cBytesPerSector config) (clusterSize config) (nSector config) (config_fat config)
    (if isFixed config then 0xF8 else 0xF0).

(** Configurations that [createFAT32] formats: the checked conditions, and a size
    below 4 GiB. *)
Record fat_config_ok (config : FATConfig) : Prop := {
  fc_n : 16 <= nSector config;
  fc_bps : valid_bps (cBytesPerSector config);
  fc_spc : valid_spc (clusterSize config);
  fc_clusters : 2 < nSector config / clusterSize config;
  fc_size : cBytesPerSector config * nSector config < 2 ^ 32 }.

Ltac case_bps H :=
  destruct H as [H|[H|[H|H]]]; rewrite H in *;
  try (change (512 / 4) with 128 in *; change (1024 / 4) with 256 in *;
          change (2048 / 4) with 512 in *; change (4096 / 4) with 1024 in *).
Ltac case_spc H := destruct H as [H|[H|[H|[H|[H|[H|[H|H]]]]]]]; rewrite H in *.

Lemma config_geom_wf buf config : 0 <= buf -> fat_config_ok config -> geom_wf (config_geom buf config).
Proof.
  intros Hb [Hn Hbps Hspc Hcl Hsz].
  assert (1 <= config_fat config /\
    8 + 2 * config_fat config + clusterSize config <= nSector config /\
    nSector config / clusterSize config <= config_fat config * (cBytesPerSector config / 4))
    as (H1 & H2 & H3).
  { unfold config_fat. case_bps Hbps; case_spc Hspc; dlia. }
  split; simpl; try done. by destruct (isFixed config); [left|right].
Qed.

(** ** The boot sector *)

Definition bpb_bytes (g : geom) : list Z :=
  [0xeb; 0x00; 0x90] ++ FAT_IMPL ++ le 2 (g_bps g) ++ le 1 (g_spc g) ++ le 2 8 ++ le 1 2
  ++ le 2 0 ++ le 2 0 ++ le 1 (g_media g) ++ replicate 2 0 ++ le 2 32 ++ le 2 8 ++ le 4 0
  ++ le 4 (g_n g) ++ le 4 (g_fat g) ++ le 2 0 ++ le 2 0 ++ le 4 2 ++ le 2 1 ++ le 2 6
  ++ replicate 12 0 ++ le 1 0x80 ++ replicate 1 0 ++ le 1 0x29 ++ le 4 0xe5792f15 ++ NO_NAME
  ++ FAT32_TYPE ++ replicate 420 0 ++ le 1 0x55 ++ le 1 0xaa.

(** The struct with the bytes of [jmpBoot] opened. *)
Definition BPB_flat : layout :=
  Eval cbv in [("jmp0"%string, 1); ("jmp1"%string, 1); ("jmp2"%string, 1)] ++ drop 1 BPB.

Lemma length_bpb_bytes g : length (bpb_bytes g) = 512%nat.
Proof. unfold bpb_bytes. rewrite !length_app, !length_le_nat, !length_replicate by lia. done. Qed.

Section WithHost.
Context {host : Host}.

Lemma wp_write_bpb bpb config media fat (Q : unit -> image -> Prop) m :
  0 <= bpb -> bpb + 512 <= isize m ->
  (forall m', m' ≡ wr m bpb (bpb_bytes (MkGeom bpb (cBytesPerSector config) (clusterSize config)
      (nSector config) fat media)) -> Q tt m') ->
  wp (write_bpb bpb config media 8 fat) Q m.
Proof.
  intros Ha Hb HQ. unfold write_bpb. eval_layout.
  assert (length FAT_IMPL = 8%nat) as L1 by done. assert (length NO_NAME = 11%nat) as L2 by done.
  assert (length FAT32_TYPE = 8%nat) as L3 by done.
  wp_go. change (u8 0) with 0. apply HQ; clear HQ.
  apply wr_intro; [done | |]; rewrite length_bpb_bytes.
  - intros x Hx. by rd_simpl.
  - rd_layout BPB_flat. done.
Qed.
End WithHost.
