(* ===== verification/FatRep.v ===== *)
(** * The abstract view of a FAT32 volume

    A volume is a list of files in its root directory.  [fat_rep g fs m] says
    that the image [m] holds the volume of geometry [g] with the files [fs]:
    boot sector, FSInfo, both tables, directory entries, contents and backup
    sectors.  [read_file] is the reference reader: it follows the cluster chain
    of a directory entry through the first table. *)
From Stdlib Require Import ZArith Lia.
From stdpp Require Import base tactics list numbers list_numbers strings.
From S2P Require Import Prelude Memory Endian Fat FatSpec.
Open Scope Z_scope.

Record afile : Type := MkAFile { a_name : list Z; a_attr : Z; a_data : list Z }.

Definition a_size (f : afile) : Z := Z.of_nat (length (a_data f)).

(** The eleven name bytes that [FAT32Copyin] stores: eight for the part before
    the dot, then the dot and the first two characters of the extension. *)
Definition pad (n : nat) (l : list Z) : list Z := take n (l ++ replicate n 0).
Definition name11 (nm : list Z) : list Z := pad 8 (name_prefix nm) ++ pad 3 (name_suffix nm).

Lemma length_pad n l : length (pad n l) = n.
Proof. unfold pad. rewrite length_take, length_app, length_replicate. lia. Qed.

Lemma length_name11 nm : length (name11 nm) = 11%nat.
Proof. unfold name11. by rewrite length_app, !length_pad. Qed.

(** Names that fit their directory entry and mark it as used: they do not start
    with a dot. *)
Definition name_ok (nm : list Z) : Prop :=
  Forall (fun c => 0 < c < 256) nm /\ name_prefix nm <> [] /\
  (length (name_prefix nm) <= 8)%nat /\ (length (name_suffix nm) <= 24)%nat.

Definition afile_ok (f : afile) : Prop :=
  length (a_name f) = 11%nat /\ nth 0 (a_name f) 0 <> 0 /\ is_byte (a_attr f).

Section Rep.
Variable g : geom.

(** ** Clusters *)

Definition data_clusters (f : afile) : Z := (a_size f + g_bpc g - 1) / g_bpc g.
(** An empty file still takes one cluster. *)
Definition clusters (f : afile) : Z := Z.max 1 (data_clusters f).
Definition used (fs : list afile) : Z := foldr (fun f n => clusters f + n) 0 fs.
Definition data_used (fs : list afile) : Z := foldr (fun f n => data_clusters f + n) 0 fs.
Definition next_free (fs : list afile) : Z := 3 + used fs.
Definition free_count (fs : list afile) : Z := 2 * g_entries g - 3 - data_used fs.
(** First cluster of file number [i]. *)
Definition first_cluster (fs : list afile) (i : nat) : Z := next_free (take i fs).

(** The table entry of cluster [c] when the files lie one after the other from
    cluster [start] on. *)
Fixpoint chain_val (start : Z) (fs : list afile) (c : Z) : Z :=
  match fs with
  | [] => 0
  | f :: fs' =>
      if c <? start + clusters f - 1 then c + 1
      else if c =? start + clusters f - 1 then FAT32_EOC
      else chain_val (start + clusters f) fs' c
  end.

Definition fat_val (fs : list afile) (c : Z) : Z :=
  if c =? 0 then Z.lor 0xFFFF00 (g_media g)
  else if c =? 1 then Z.lor FAT32_CHUNK_SHUT_BITMASK FAT32_HDR_ERROR_BITMASK
  else if c =? 2 then FAT32_EOC
  else chain_val 3 fs c.

(** ** Directory entries *)

Definition dirent_bytes (f : afile) (first : Z) : list Z :=
  a_name f ++ le 1 (a_attr f) ++ le 1 0 ++ le 1 42 ++ le 2 (FAT32Time 8 30 25)
  ++ le 2 (FAT32Date 1995 2 21) ++ le 2 (FAT32Date 1995 2 21) ++ le 2 (Z.shiftr first 16)
  ++ le 2 (FAT32Time 8 30 25) ++ le 2 (FAT32Date 1995 2 21) ++ le 2 (Z.land first 0xFFFF)
  ++ le 4 (a_size f).

(** What the volume holds, the backup sectors aside. *)
Record fat_core (fs : list afile) (m : image) : Prop := {
  fr_size : g_end g <= isize m;
  fr_bpb : rd m (g_buf g) 512 = bpb_bytes g;
  fr_free : ld 4 m (g_buf g + g_bps g + 488) = free_count fs;
  fr_next : ld 4 m (g_buf g + g_bps g + 492) = next_free fs;
  fr_fat : forall i c, 0 <= i < 2 -> 0 <= c < g_entries g ->
    ld 4 m (g_table g i + 4 * c) = fat_val fs c;
  fr_dir : forall i f, fs !! i = Some f ->
    rd m (g_root g + 32 * Z.of_nat i) 32 = dirent_bytes f (first_cluster fs i);
  fr_dir_end : forall i, Z.of_nat (length fs) <= i < g_numRoot g -> ibyte m (g_root g + 32 * i) = 0;
  fr_data : forall i f, fs !! i = Some f ->
    rd m (g_addr g (first_cluster fs i)) (a_size f) = a_data f;
  fr_files : Forall afile_ok fs;
  fr_count : Z.of_nat (length fs) <= g_numRoot g;
  fr_room : fs <> [] -> next_free fs <= g_maxC g }.

Record fat_rep (fs : list afile) (m : image) : Prop := {
  fr_core : fat_core fs m;
  fr_backup_bpb : rd m (g_buf g + 6 * g_bps g) 512 = rd m (g_buf g) 512;
  fr_backup_info : rd m (g_buf g + 7 * g_bps g) 512 = rd m (g_buf g + g_bps g) 512 }.

(** ** The reference reader *)

(** The clusters of the chain that starts at [c], through the first table. *)
Fixpoint chain (fuel : nat) (m : image) (c : Z) : option (list Z) :=
  match fuel with
  | O => None
  | S fuel' =>
      let next := ld 4 m (g_table g 0 + 4 * c) in
      if next =? FAT32_EOC then Some [c]
      else match chain fuel' m next with Some l => Some (c :: l) | None => None end
  end.

(** Name, attributes and contents of the file whose directory entry is number [i]. *)
Definition read_file (fuel : nat) (m : image) (i : Z) : option afile :=
  let e := g_root g + 32 * i in
  let first := Z.lor (Z.shiftl (ld 2 m (e + 20)) 16) (ld 2 m (e + 26)) in
  match chain fuel m first with
  | Some cs => Some (MkAFile (rd m e 11) (ld 1 m (e + 11))
                 (take (Z.to_nat (ld 4 m (e + 28))) (concat ((fun c => rd m (g_addr g c) (g_bpc g)) <$> cs))))
  | None => None
  end.
End Rep.
