(* ===== verification/FatCreate.v ===== *)
(** * [createFAT32] formats an empty volume *)
From Stdlib Require Import ZArith Lia.
From stdpp Require Import base tactics list numbers list_numbers strings.
From S2P Require Import Prelude Memory Endian Fat FatSpec FatRep.
Open Scope Z_scope.

(** The products of the geometry, for [lia]. *)
Lemma geom_facts g : geom_wf g ->
  512 <= g_bps g <= 4096 /\ 1 <= g_spc g <= 128 /\
  g_bps g * 8 + 2 * (g_bps g * g_fat g) + g_bps g * g_spc g <= g_bps g * g_n g /\
  g_bps g * g_n g < 2 ^ 32 /\ g_bps g <= g_bps g * g_fat g /\
  g_bps g <= g_bps g * g_spc g /\ 4 * g_entries g = g_bps g * g_fat g /\
  32 * g_numRoot g = g_bpc g /\ 1 <= g_n g < 2 ^ 23 /\ 1 <= g_fat g < 2 ^ 23.
Proof.
  intros [Hbuf Hbps Hspc Hfat Hfit Hmax Hcov _].
  assert (512 <= g_bps g <= 4096 /\ 4 * (g_bps g / 4) = g_bps g) as [Hb Hb4].
  { unfold valid_bps in Hbps. destruct Hbps as [H|[H|[H|H]]]; rewrite H; split; (lia || done). }
  assert (1 <= g_spc g <= 128) as Hs by (unfold valid_spc in Hspc; lia).
  assert (32 * g_numRoot g = g_bpc g) as Hr.
  { unfold g_numRoot, g_bpc. case_bps Hbps; case_spc Hspc; done. }
  unfold g_entries. split_and!; try done; try lia; nia.
Qed.

Section WithHost.
Context {host : Host}.

Lemma CDIV_config config :
  fat_config_ok config ->
  CDIV (nSector config / clusterSize config) (cBytesPerSector config / sizeof_fat32_entry_t)
  = config_fat config.
Proof.
  intros [Hn Hbps Hspc _ Hsz]. unfold CDIV, config_fat, sizeof_fat32_entry_t.
  assert (0 <= nSector config / clusterSize config < 2 ^ 23 /\
    128 <= cBytesPerSector config / 4 <= 1024) as [H1 H2].
  { case_bps Hbps; case_spc Hspc; dlia. }
  by nowrap.
Qed.

(** The three reserved entries of a table, and the zeros after them. *)
Lemma fat_head_val g c : 3 <= c -> fat_val g [] c = 0.
Proof.
  intros. unfold fat_val.
  destruct (Z.eqb_spec c 0), (Z.eqb_spec c 1), (Z.eqb_spec c 2); (lia || done).
Qed.

(** The image after the stores of [createFAT32], given the one with the boot
    sector in place. *)
Definition fat_head (m : image) (t media : Z) : image :=
  wr (wr (wr m (t + 4 * 0) (le 4 (Z.lor 0xFFFF00 media)))
    (t + 4 * 1) (le 4 (Z.lor FAT32_CHUNK_SHUT_BITMASK FAT32_HDR_ERROR_BITMASK)))
    (t + 4 * 2) (le 4 FAT32_EOC).

Definition with_fsinfo (m : image) (a free : Z) : image :=
  wr (wr (wr (wr (wr m (a + 0) (le 4 0x41615252)) (a + 484) (le 4 0x61417272))
    (a + 488) (le 4 free)) (a + 492) (le 4 3)) (a + 508) (le 4 0xAA550000).

Definition formatted (g : geom) (m1 : image) : image :=
  let b := g_buf g in
  let fb := g_bps g * g_fat g in
  let m2 := with_fsinfo (copy m1 (b + g_bps g * 6) b 512) (b + g_bps g * 1) (free_count g []) in
  let m3 := copy m2 (b + g_bps g * 7) (b + g_bps g * 1) 512 in
  let m4 := fill m3 (b + g_bps g * 8) (2 * fb) 0 in
  let m5 := fat_head m4 (b + g_bps g * 8) (g_media g) in
  let m6 := fat_head m5 (b + (g_bps g * 8 + fb)) (g_media g) in
  fill m6 (b + (g_bps g * 8 + 2 * fb)) (g_bps g * g_spc g) 0.

Lemma ld_fill_out n m a k v x : x + n <= a \/ a + k <= x -> ld n (fill m a k v) x = ld n m x.
Proof. intros. unfold ld. by rewrite rd_fill_out. Qed.

Lemma ld_fat_head_out n m t media x :
  x + n <= t \/ t + 12 <= x -> ld n (fat_head m t media) x = ld n m x.
Proof. intros. unfold ld, fat_head. by rd_simpl. Qed.

(** Entry [c] of a table whose head is written over zeros. *)
Lemma fat_head_entry g m t c :
  (forall x, t <= x < t + 4 * g_entries g -> ibyte m x = 0) ->
  (g_media g = 0xF8 \/ g_media g = 0xF0) -> 0 <= c < g_entries g ->
  ld 4 (fat_head m t (g_media g)) (t + 4 * c) = fat_val g [] c.
Proof.
  intros Hz Hmedia Hc. unfold fat_head, fat_val.
  destruct (Z.eqb_spec c 0) as [->|]; [|destruct (Z.eqb_spec c 1) as [->|];
    [|destruct (Z.eqb_spec c 2) as [->|]]].
  - ld_step. by destruct Hmedia as [-> | ->].
  - ld_step. done.
  - ld_step. done.
  - apply ld_zero. intros i Hi. rd_simpl. apply Hz. lia.
Qed.

Lemma formatted_rep g m1 :
  geom_wf g -> g_end g <= isize m1 -> rd m1 (g_buf g) 512 = bpb_bytes g ->
  fat_rep g [] (formatted g m1).
Proof.
  intros Hwf Hsz Hbpb.
  pose proof (geom_facts g Hwf) as (Hb & Hs & Hfit & Hmax & Hfb & Hsb & Hent & Hroot & Hn & Hf).
  assert (0 <= free_count g [] < 2 ^ 32) as Hfree.
  { unfold free_count, g_entries in *. simpl data_used. nia. }
  destruct Hwf as [Hbuf _ _ _ _ _ _ Hmedia]. unfold formatted, with_fsinfo.
  set (b := g_buf g) in *. set (fb := g_bps g * g_fat g) in *.
  unfold g_bpc in Hroot. set (sb := g_bps g * g_spc g) in *.
  split; [split; try done|..].
  - unfold fat_head. rd_simpl. done.
  - unfold fat_head. ld_step. by rewrite wrap_small.
  - unfold fat_head. ld_step. done.
  - intros i c Hi Hc. unfold g_table. fold b.
    assert (i = 0 \/ i = 1) as [-> | ->] by lia.
    + replace (b + g_bps g * (8 + 0 * g_fat g) + 4 * c) with (b + g_bps g * 8 + 4 * c) by lia.
      rewrite ld_fill_out, ld_fat_head_out by lia. apply fat_head_entry; [|done|lia].
      intros x Hx. by rd_simpl.
    + replace (b + g_bps g * (8 + 1 * g_fat g) + 4 * c) with (b + (g_bps g * 8 + fb) + 4 * c) by lia.
      rewrite ld_fill_out by lia. apply fat_head_entry; [|done|lia].
      intros x Hx. unfold fat_head. by rd_simpl.
  - intros i Hi. simpl in Hi. unfold g_root. fold b.
    replace (g_bps g * (8 + 2 * g_fat g)) with (g_bps g * 8 + 2 * fb) by lia. by rd_simpl.
  - unfold g_numRoot, g_bpc. fold sb. simpl length. apply Z.div_pos; lia.
  - unfold fat_head. rd_simpl. apply rd_at; lia.
  - unfold fat_head. rd_simpl. apply rd_at; lia.
Qed.

Lemma wp_createFAT32 buf config (Q : Z -> image -> Prop) m :
  let g := config_geom buf config in
  0 <= buf -> fat_config_ok config -> g_end g <= isize m ->
  (forall m', fat_rep g [] m' -> isize m' = isize m ->
    (forall x, x < buf \/ g_end g <= x -> ibyte m' x = ibyte m x) -> Q 0 m') ->
  wp (createFAT32 buf config) Q m.
Proof.
  intros g Hbuf Hok Hsz HQ. pose proof (config_geom_wf buf config Hbuf Hok) as Hwf.
  pose proof (geom_facts g Hwf) as (Hb & Hs & Hfit & Hmax & Hfb & Hsb & Hent & Hroot & Hn & Hf).
  unfold createFAT32. pose proof (CDIV_config config Hok) as ->.
  destruct Hok as [Hn16 Hbps Hspc Hcl _].
  destruct (Z.ltb_spec (nSector config) 16); [lia|].
  rewrite (proj2 (bytesIsValid_spec config) Hbps), (proj2 (clusterSizeIsValid_spec config) Hspc).
  change (cBytesPerSector config) with (g_bps g). change (clusterSize config) with (g_spc g).
  change (config_fat config) with (g_fat g). change (nSector config) with (g_n g) in *.
  change (if isFixed config then 248 else 240) with (g_media g).
  unfold g_end in Hsz. change (g_buf g) with buf in *. simpl negb. cbv beta iota zeta.
  wp_step. apply wp_assert. { rewrite Z.gtb_ltb. by apply Z.ltb_lt. }
  wp_step. apply wp_write_bpb; [done | lia |]. intros m1 Hm1.
  change (MkGeom _ _ _ _ _ _) with g in Hm1.
  assert (isize m1 = isize m) as Hsz1 by apply Hm1.
  change (sizeof_fat32_entry_t) with 4.
  assert (u32 (u32 (u32 (g_fat g * 2) * (g_bps g / 4)) - 3) = free_count g []) as ->.
  { unfold free_count, g_entries in *. simpl data_used. rewrite (u32_id (g_fat g * 2)) by lia.
    nowrap. lia. }
  nowrap. unfold write_fsinfo, write_fat_head. eval_layout.
  set (H0 := g_bps g * g_fat g) in *.
  replace (g_bps g * (8 + g_fat g)) with (g_bps g * 8 + H0) by lia.
  replace (g_bps g * (8 + g_fat g * 2)) with (g_bps g * 8 + 2 * H0) by lia.
  replace (g_bps g * (g_fat g * 2)) with (2 * H0) by lia.
  wp_go. change (Q 0 (formatted g m1)). apply HQ; [|done|].
  - apply formatted_rep; [done | unfold g_end; change (g_buf g) with buf; lia |].
    rewrite Hm1. apply rd_wr_same. by rewrite length_bpb_bytes.
  - intros x Hx. unfold g_end in Hx. change (g_buf g) with buf in Hx.
    unfold formatted, with_fsinfo, fat_head. change (g_buf g) with buf. rd_simpl.
    rewrite Hm1. apply ibyte_wr_out. rewrite length_bpb_bytes. lia.
Qed.
End WithHost.
