(* ===== verification/FatSuper.v ===== *)
(** * The super block of a represented volume

    [FAT32SuperInit] terminates on every represented volume and computes its
    geometry; the entry accessors act on both tables; [FAT32SuperFree] refreshes
    the backup sectors. *)
From Stdlib Require Import ZArith Lia.
From stdpp Require Import base tactics list numbers list_numbers strings.
From S2P Require Import Prelude Memory Endian Fat FatSpec FatRep FatCreate.
Open Scope Z_scope.
#[local] Arguments _generic_store_le : simpl never.
#[local] Arguments _generic_load_le : simpl never.

Definition super_of (g : geom) (fs : list afile) : FAT32Super :=
  MkSuper (g_buf g) (Some (g_buf g + g_bps g)) (g_bps g) (g_bpc g) (g_bps g * g_fat g)
    (g_n g) 8 (2 * g_fat g) (g_n g - 8 - 2 * g_fat g) (g_maxC g) 2
    2 [Some (g_table g 0); Some (g_table g 1); None; None]
    (Some (g_root g)) (Z.of_nat (length fs)) (g_numRoot g).

Lemma bpb_fields g m :
  geom_wf g -> rd m (g_buf g) 512 = bpb_bytes g ->
  ld 2 m (g_buf g + 11) = g_bps g /\ ld 1 m (g_buf g + 13) = g_spc g /\
  ld 2 m (g_buf g + 14) = 8 /\ ld 1 m (g_buf g + 16) = 2 /\
  ld 4 m (g_buf g + 32) = g_n g /\ ld 4 m (g_buf g + 36) = g_fat g /\ ld 4 m (g_buf g + 44) = 2.
Proof.
  intros Hwf H. pose proof (geom_facts g Hwf) as (Hb & Hs & _ & _ & _ & _ & _ & _ & Hn & Hf).
  assert (length FAT_IMPL = 8%nat) as L1 by done. assert (length NO_NAME = 11%nat) as L2 by done.
  assert (length FAT32_TYPE = 8%nat) as L3 by done.
  assert (length [0xeb; 0x00; 0x90] = 3%nat) as L4 by done.
  unfold bpb_bytes in H. set (jmp := [0xeb; 0x00; 0x90]) in H, L4. clearbody jmp.
  split_fields H. clear H.
  split_and!; (erewrite ld_of_rd; [|eassumption|lia]); eval_wrap; rewrite ?wrap_small by lia; done.
Qed.

(** The products and bounds of a geometry with its derived addresses. *)
Lemma geom_addrs g : geom_wf g ->
  g_table g 0 = g_buf g + g_bps g * 8 /\
  g_table g 1 = g_table g 0 + g_bps g * g_fat g /\
  g_root g = g_table g 1 + g_bps g * g_fat g /\
  g_root g + g_bpc g <= g_end g /\ 0 <= g_buf g /\ 0 < g_bpc g /\
  g_maxC g <= g_entries g /\ g_root g + g_bpc g * g_maxC g <= g_end g.
Proof.
  intros Hwf. pose proof (geom_facts g Hwf) as (Hb & Hs & Hfit & Hmax & Hfb & Hsb & Hent & Hroot & Hn & Hf).
  destruct Hwf as [Hbuf _ _ _ _ _ Hcov _].
  assert (g_spc g * g_maxC g <= g_n g - 8 - 2 * g_fat g) by (apply Z.mul_div_le; lia).
  assert (g_maxC g <= g_n g / g_spc g) by (apply Z.div_le_mono; lia).
  unfold g_table, g_root, g_end, g_bpc in *. split_and!; nia.
Qed.

(** The name of a represented entry does not start with 0. *)
Lemma dirent_first f c m a :
  afile_ok f -> rd m a 32 = dirent_bytes f c -> ibyte m a <> 0.
Proof.
  intros (Hl & Hz & _) H. pose proof (ibyte_of_rd m a 32 _ 0 H ltac:(lia)) as Hb.
  rewrite Z.add_0_r in Hb. rewrite Hb. unfold dirent_bytes.
  destruct (a_name f) as [|c0 l]; [done|]. exact Hz.
Qed.

Section WithHost.
Context {host : Host}.

Lemma find_root_spec n i k r m :
  0 <= r -> 0 <= i <= k -> k <= i + Z.of_nat n -> r + 32 * (i + Z.of_nat n) <= isize m ->
  (forall j, i <= j < k -> ibyte m (r + 32 * j) <> 0) ->
  (k < i + Z.of_nat n -> ibyte m (r + 32 * k) = 0) ->
  find_root n i (Some r) m = Done (if k <? i + Z.of_nat n then Some k else None, m).
Proof.
  revert i. induction n as [|n IH]; intros i Hr Hi Hk Hsz Hused Hfree.
  - cbn [find_root]. destruct (Z.ltb_spec k (i + Z.of_nat 0)); [lia|done].
  - cbn [find_root]. eval_layout. unfold mbind, cmd_bind, c_deref, mret, cmd_ret, load_bytes.
    rewrite Z.add_0_r, in_range_true by lia.
    rewrite rd_first.
    destruct (decide (k = i)) as [->|Hne].
    + rewrite Hfree by lia. simpl. destruct (Z.ltb_spec i (i + Z.of_nat (S n))); [done|lia].
    + destruct (Z.eqb_spec (ibyte m (r + 32 * i)) 0) as [E|_]; [by apply Hused in E; [|lia]|].
      rewrite (IH (i + 1)); [|lia|lia|lia|lia| |].
      * by replace (i + 1 + Z.of_nat n) with (i + Z.of_nat (S n)) by lia.
      * intros j Hj. apply Hused. lia.
      * intros. apply Hfree. lia.
Qed.

Lemma sector_ptr_in buf n bps s :
  0 <= s < n -> 0 <= s * bps < 2 ^ 32 -> sector_ptr buf n bps s = Some (buf + s * bps).
Proof.
  intros. unfold sector_ptr. destruct (Z.geb_spec s n); [lia|]. by nowrap.
Qed.

Lemma FAT32SuperInit_spec g fs fuel m :
  geom_wf g -> fat_core g fs m -> FAT32SuperInit fuel (g_buf g) m = Done (super_of g fs, m).
Proof.
  intros Hwf [Hsz Hbpb _ _ Hfat Hdir Hend _ Hok Hcount _].
  pose proof (geom_facts g Hwf) as (Hb & Hs & Hfit & Hmax & Hfb & Hsb & Hent & Hroot & Hn & Hf).
  pose proof (geom_addrs g Hwf) as (A0 & A1 & A2 & A3 & Hbuf & Hbpc & _ & _).
  pose proof (bpb_fields g m Hwf Hbpb) as (F1 & F2 & F3 & F4 & F5 & F6 & F7).
  assert (ld 4 m (g_table g 0 + 4 * 2) = FAT32_EOC) as Hroot2 by (apply Hfat; unfold g_entries in *; lia).
  unfold g_end in *. apply wp_exact. unfold FAT32SuperInit.
  do 12 wp_step. rewrite F1, F2, F3, F4, F5, F6.
  do 4 wp_step. rewrite F7. eval_layout. change sizeof_fat32_entry_t with 4. nowrap.
  rewrite !sector_ptr_in by nia.
  replace (g_spc g * g_bps g) with (g_bpc g) by (unfold g_bpc; lia).
  replace (g_buf g + g_bps g * 8) with (g_table g 0) by lia.
  replace (g_buf g + (8 + g_fat g * 2) * g_bps g) with (g_root g) by lia.
  change (Z.to_nat (2 - 1)) with 1%nat. simpl tables_from. do 4 wp_step.
  do 2 wp_step. rewrite Hroot2.
  wp_step. eapply wp_eq; [unfold root_chain; destruct fuel; reflexivity|].
  rewrite !Z.mul_1_l. nowrap. fold (g_numRoot g).
  wp_step. eapply wp_eq.
  { apply (find_root_spec _ 0 (Z.of_nat (length fs))); [lia | lia | lia | lia | |].
    - intros j Hj. destruct (fs !! Z.to_nat j) as [f|] eqn:Hfj; [|apply lookup_ge_None in Hfj; lia].
      apply (dirent_first f (first_cluster g fs (Z.to_nat j))); [by eapply Forall_lookup_1|].
      rewrite <-(Hdir _ _ Hfj). apply rd_at; lia.
    - intros. apply Hend. lia. }
  wp_step. split; [|done]. unfold super_of. pose proof (gw_fit g Hwf).
  nowrap. fold (g_maxC g).
  assert (default (g_numRoot g) (if Z.of_nat (length fs) <? 0 + Z.of_nat (Z.to_nat (g_numRoot g))
    then Some (Z.of_nat (length fs)) else None) = Z.of_nat (length fs)) as ->.
  { destruct (Z.ltb_spec (Z.of_nat (length fs)) (0 + Z.of_nat (Z.to_nat (g_numRoot g)))); simpl; lia. }
  replace (g_fat g * g_bps g) with (4 * g_entries g) by lia.
  rewrite (Z.mul_comm 4 (g_entries g)), Z.div_mul by lia.
  unfold g_maxC. replace (g_fat g * 2) with (2 * g_fat g) by lia.
  replace (g_entries g * 4) with (g_bps g * g_fat g) by lia.
  do 4 f_equal. lia.
Qed.

(** ** Access to the tables *)

(** Entry [c] of both tables set to [v]. *)
Definition set_entry (g : geom) (m : image) (c v : Z) : image :=
  wr (wr m (g_table g 0 + 4 * c) (le 4 v)) (g_table g 1 + 4 * c) (le 4 v).

Lemma FAT32SuperWriteEntry_spec g fs m c v :
  geom_wf g -> g_end g <= isize m -> 1 <= c < g_maxC g ->
  FAT32SuperWriteEntry (super_of g fs) c v m = Done (tt, set_entry g m c v).
Proof.
  intros Hwf Hsz Hc. pose proof (geom_facts g Hwf) as (Hb & Hs & Hfit & _ & Hfb & Hsb & Hent & _).
  pose proof (geom_addrs g Hwf) as (A0 & A1 & A2 & A3 & Hbuf & Hbpc & A4 & _).
  apply wp_exact. unfold FAT32SuperWriteEntry, table_ptr, super_of. simpl. change (Pos.to_nat 1) with 1%nat.
  simpl. wp_go. 1-2: lia. done.
Qed.

Lemma FAT32SuperReadEntry_spec g fs m c :
  geom_wf g -> g_end g <= isize m -> 0 <= c < g_maxC g ->
  FAT32SuperReadEntry (super_of g fs) c m = Done (ld 4 m (g_table g 0 + 4 * c), m).
Proof.
  intros Hwf Hsz Hc. pose proof (geom_facts g Hwf) as (Hb & Hs & Hfit & _ & Hfb & Hsb & Hent & _).
  pose proof (geom_addrs g Hwf) as (A0 & A1 & A2 & A3 & Hbuf & Hbpc & A4 & _).
  apply wp_exact. unfold FAT32SuperReadEntry, table_ptr, super_of. simpl.
  wp_go; [lia|done].
Qed.

(** ** Backup sectors *)

Definition backed_up (g : geom) (m : image) : image :=
  copy (copy m (g_buf g + 6 * g_bps g) (g_buf g) (g_bps g))
    (g_buf g + 7 * g_bps g) (g_buf g + 1 * g_bps g) (g_bps g).

Lemma FAT32SuperFree_spec g fs m :
  geom_wf g -> g_end g <= isize m -> FAT32SuperFree (super_of g fs) m = Done (tt, backed_up g m).
Proof.
  intros Hwf Hsz. pose proof (geom_facts g Hwf) as (Hb & Hs & Hfit & Hmax & Hfb & Hsb & _ & _ & Hn & Hf).
  pose proof (gw_buf g Hwf). pose proof (gw_fit g Hwf). unfold g_end in Hsz.
  apply wp_exact. unfold FAT32SuperFree, FAT32SuperGetSector, super_of. cbn [sb_buf numSector bytesPerSector].
  rewrite !sector_ptr_in by lia. wp_go. done.
Qed.
End WithHost.

(** Refreshing the backups keeps the volume as it is. *)
Lemma backed_up_out g m x :
  geom_wf g -> x < g_buf g + 6 * g_bps g \/ g_buf g + 8 * g_bps g <= x ->
  ibyte (backed_up g m) x = ibyte m x.
Proof.
  intros Hwf Hx. pose proof (geom_facts g Hwf) as (Hb & _). unfold backed_up. by rd_simpl.
Qed.
