(* ===== verification/FatFrame.v ===== *)
(** * Cluster arithmetic and frame lemmas of the volume representation

    How the abstract cluster map changes when a file is appended, and which
    bytes of the image a represented volume depends on. *)
From Stdlib Require Import ZArith Lia.
From stdpp Require Import base tactics list numbers list_numbers strings.
From S2P Require Import Prelude Memory Endian Fat FatSpec FatRep FatCreate FatSuper.
Open Scope Z_scope.

(** ** Clusters *)
Section Clusters.
Variable g : geom.
Hypothesis Hwf : geom_wf g.

Lemma clusters_pos f : 1 <= clusters g f.
Proof. unfold clusters. lia. Qed.

Lemma data_clusters_bounds f :
  0 <= data_clusters g f <= clusters g f /\ a_size f <= g_bpc g * data_clusters g f /\
  g_bpc g * data_clusters g f < a_size f + g_bpc g.
Proof.
  pose proof (geom_addrs g Hwf) as (_ & _ & _ & _ & _ & Hbpc & _).
  assert (0 <= a_size f) by (unfold a_size; lia).
  unfold clusters, data_clusters.
  pose proof (Z.div_mod (a_size f + g_bpc g - 1) (g_bpc g) ltac:(lia)).
  pose proof (Z.mod_pos_bound (a_size f + g_bpc g - 1) (g_bpc g) ltac:(lia)).
  assert (0 <= (a_size f + g_bpc g - 1) / g_bpc g) by (apply Z.div_pos; lia).
  split_and!; lia.
Qed.

Lemma used_app fs1 fs2 : used g (fs1 ++ fs2) = used g fs1 + used g fs2.
Proof. induction fs1 as [|f fs IH]; simpl; lia. Qed.

Lemma used_nonneg fs : 0 <= used g fs.
Proof. induction fs as [|f fs IH]; simpl; [lia|]. pose proof (clusters_pos f). lia. Qed.

Lemma data_used_app fs1 fs2 : data_used g (fs1 ++ fs2) = data_used g fs1 + data_used g fs2.
Proof. induction fs1 as [|f fs IH]; simpl; lia. Qed.

Lemma data_used_bounds fs : 0 <= data_used g fs <= used g fs.
Proof. induction fs as [|f fs IH]; simpl; [lia|]. pose proof (data_clusters_bounds f). lia. Qed.

Lemma next_free_snoc fs f : next_free g (fs ++ [f]) = next_free g fs + clusters g f.
Proof. unfold next_free. rewrite used_app. simpl. lia. Qed.

Lemma next_free_ge fs : 3 <= next_free g fs.
Proof. unfold next_free. pose proof (used_nonneg fs). lia. Qed.

Lemma first_cluster_app fs1 f fs2 : first_cluster g (fs1 ++ f :: fs2) (length fs1) = next_free g fs1.
Proof. unfold first_cluster. by rewrite take_app_length. Qed.

Lemma first_cluster_snoc fs f i :
  (i < length fs)%nat -> first_cluster g (fs ++ [f]) i = first_cluster g fs i.
Proof. intros. unfold first_cluster. by rewrite take_app_le by lia. Qed.

(** The clusters of a file lie before the first free one. *)
Lemma first_cluster_bound fs i f :
  fs !! i = Some f -> 3 <= first_cluster g fs i /\ first_cluster g fs i + clusters g f <= next_free g fs.
Proof.
  intros H. pose proof (next_free_ge (take i fs)). unfold first_cluster in *. split; [done|].
  rewrite <-(take_drop_middle fs i f H) at 2. unfold next_free. rewrite used_app. simpl.
  pose proof (used_nonneg (drop (S i) fs)). lia.
Qed.

(** ** The table entries *)

Lemma chain_val_app start fs1 fs2 c :
  start <= c ->
  chain_val g start (fs1 ++ fs2) c =
    if c <? start + used g fs1 then chain_val g start fs1 c
    else chain_val g (start + used g fs1) fs2 c.
Proof.
  revert start. induction fs1 as [|f fs IH]; intros start Hc; simpl.
  - rewrite Z.add_0_r. destruct (Z.ltb_spec c start); [lia|done].
  - pose proof (clusters_pos f). pose proof (used_nonneg fs).
    destruct (Z.ltb_spec c (start + clusters g f - 1)).
    { destruct (Z.ltb_spec c (start + (clusters g f + used g fs))); [done|lia]. }
    destruct (Z.eqb_spec c (start + clusters g f - 1)).
    { destruct (Z.ltb_spec c (start + (clusters g f + used g fs))); [done|lia]. }
    rewrite IH by lia. by rewrite Z.add_assoc.
Qed.

Lemma chain_val_free start fs c : start + used g fs <= c -> chain_val g start fs c = 0.
Proof.
  revert start. induction fs as [|f fs IH]; intros start Hc; simpl in *; [done|].
  pose proof (clusters_pos f). pose proof (used_nonneg fs).
  destruct (Z.ltb_spec c (start + clusters g f - 1)); [lia|].
  destruct (Z.eqb_spec c (start + clusters g f - 1)); [lia|]. apply IH. lia.
Qed.

Lemma fat_val_snoc fs f c :
  0 <= c ->
  fat_val g (fs ++ [f]) c =
    if (next_free g fs <=? c) && (c <? next_free g fs + clusters g f - 1) then c + 1
    else if c =? next_free g fs + clusters g f - 1 then FAT32_EOC else fat_val g fs c.
Proof.
  intros Hc. pose proof (used_nonneg fs). pose proof (clusters_pos f).
  unfold fat_val, next_free. destruct (Z.leb_spec (3 + used g fs) c).
  - destruct (Z.eqb_spec c 0), (Z.eqb_spec c 1), (Z.eqb_spec c 2); try lia.
    rewrite chain_val_app by lia. destruct (Z.ltb_spec c (3 + used g fs)); [lia|].
    rewrite (chain_val_free 3 fs) by lia. done.
  - simpl andb. destruct (Z.eqb_spec c (3 + used g fs + clusters g f - 1)); [lia|].
    split_ifs; try done. rewrite chain_val_app by lia.
    destruct (Z.ltb_spec c (3 + used g fs)); [done|lia].
Qed.

(** The chain of a file in the middle of the list. *)
Lemma fat_val_chain fs i f c :
  fs !! i = Some f -> first_cluster g fs i <= c < first_cluster g fs i + clusters g f ->
  fat_val g fs c = if c =? first_cluster g fs i + clusters g f - 1 then FAT32_EOC else c + 1.
Proof.
  intros H Hc. pose proof (first_cluster_bound fs i f H) as [H3 _].
  unfold fat_val. destruct (Z.eqb_spec c 0), (Z.eqb_spec c 1), (Z.eqb_spec c 2); try lia.
  unfold first_cluster, next_free in *. rewrite <-(take_drop_middle fs i f H) at 1.
  rewrite chain_val_app by (pose proof (used_nonneg (take i fs)); lia).
  destruct (Z.ltb_spec c (3 + used g (take i fs))); [lia|]. simpl.
  destruct (Z.ltb_spec c (3 + used g (take i fs) + clusters g f - 1)),
    (Z.eqb_spec c (3 + used g (take i fs) + clusters g f - 1)); (done || lia).
Qed.

(** ** Addresses *)

Lemma g_addr_range c k :
  2 <= c -> 0 <= k -> c + k <= g_maxC g ->
  g_root g <= g_addr g c /\ g_addr g c + g_bpc g * k <= g_end g /\
  g_addr g (c + k) = g_addr g c + g_bpc g * k.
Proof.
  pose proof (geom_addrs g Hwf) as (_ & _ & _ & _ & _ & Hbpc & _ & H).
  intros. unfold g_addr. split_and!; nia.
Qed.

Lemma g_addr_mono c d : c <= d -> g_addr g c <= g_addr g d.
Proof.
  pose proof (geom_addrs g Hwf) as (_ & _ & _ & _ & _ & Hbpc & _). intros. unfold g_addr. nia.
Qed.
End Clusters.

(** ** Frames *)

(** The bytes of the volume that [fat_core g fs] depends on: all up to the first
    free cluster, the backup sectors excepted. *)
Definition in_use (g : geom) (fs : list afile) (x : Z) : Prop :=
  (g_buf g <= x < g_buf g + 6 * g_bps g \/ g_buf g + 8 * g_bps g <= x) /\ x < g_addr g (next_free g fs).

Lemma ld_ext n m m' a :
  (forall i, 0 <= i < n -> ibyte m (a + i) = ibyte m' (a + i)) -> ld n m a = ld n m' a.
Proof. intros H. unfold ld. f_equal. by apply rd_ext. Qed.

Lemma fat_core_frame g fs m m' :
  geom_wf g -> fat_core g fs m -> isize m' = isize m ->
  (forall x, in_use g fs x -> ibyte m' x = ibyte m x) -> fat_core g fs m'.
Proof.
  intros Hwf [Hsz Hbpb Hfree Hnext Hfat Hdir Hend Hdata Hok Hcount Hroom] Hs Hsame.
  pose proof (geom_facts g Hwf) as (Hb & Hsp & Hfit & Hmax & Hfb & Hsb & Hent & Hroot & _).
  pose proof (geom_addrs g Hwf) as (A0 & A1 & A2 & A3 & Hbuf & Hbpc & _ & _).
  pose proof (next_free_ge g fs).
  assert (g_root g + g_bpc g <= g_addr g (next_free g fs)) as Hlast.
  { transitivity (g_addr g 3); [unfold g_addr; lia | by apply g_addr_mono]. }
  unfold in_use in Hsame. split; try done.
  - by rewrite Hs.
  - rewrite <-Hbpb. apply rd_ext. intros. apply Hsame. lia.
  - rewrite <-Hfree. apply ld_ext. intros. apply Hsame. lia.
  - rewrite <-Hnext. apply ld_ext. intros. apply Hsame. lia.
  - intros i c Hi Hc. rewrite <-(Hfat i c Hi Hc). apply ld_ext. intros. apply Hsame.
    assert (i = 0 \/ i = 1) as [-> | ->] by lia; lia.
  - intros i f Hf. rewrite <-(Hdir i f Hf). apply lookup_lt_Some in Hf.
    apply rd_ext. intros. apply Hsame. lia.
  - intros i Hi. rewrite <-(Hend i Hi). apply Hsame. lia.
  - intros i f Hf. rewrite <-(Hdata i f Hf).
    pose proof (first_cluster_bound g fs i f Hf) as [F1 F2].
    pose proof (data_clusters_bounds g Hwf f) as (D1 & D2 & _).
    pose proof (g_addr_mono g Hwf _ _ F1). pose proof (g_addr_mono g Hwf _ _ F2).
    apply rd_ext. intros. apply Hsame. unfold g_addr in *. nia.
Qed.

Lemma backed_up_rep g fs m : geom_wf g -> fat_core g fs m -> fat_rep g fs (backed_up g m).
Proof.
  intros Hwf Hcore. pose proof (geom_facts g Hwf) as (Hb & _). split.
  - apply (fat_core_frame _ _ m); [done..|]. intros x [Hx _]. apply backed_up_out; [done|lia].
  - unfold backed_up. rd_simpl. apply rd_at; lia.
  - unfold backed_up. rd_simpl. apply rd_at; lia.
Qed.

(** ** Updates of the tables *)

Lemma ld_set_entry g m i c c' v :
  geom_wf g -> 0 <= i < 2 -> 0 <= c < g_entries g -> 0 <= c' < g_entries g ->
  ld 4 (set_entry g m c v) (g_table g i + 4 * c') =
    if c' =? c then u32 v else ld 4 m (g_table g i + 4 * c').
Proof.
  intros Hwf Hi Hc Hc'. pose proof (geom_facts g Hwf) as (_ & _ & _ & _ & _ & _ & Hent & _).
  pose proof (geom_addrs g Hwf) as (A0 & A1 & _).
  unfold set_entry. assert (i = 0 \/ i = 1) as [-> | ->] by lia;
    (destruct (Z.eqb_spec c' c) as [->|]; [by ld_step | unfold ld; by rd_simpl]).
Qed.

Lemma set_entry_out g m c v x :
  geom_wf g -> 0 <= c < g_entries g -> x < g_table g 0 \/ g_root g <= x ->
  ibyte (set_entry g m c v) x = ibyte m x.
Proof.
  intros Hwf Hc Hx. pose proof (geom_facts g Hwf) as (_ & _ & _ & _ & _ & _ & Hent & _).
  pose proof (geom_addrs g Hwf) as (A0 & A1 & A2 & _). unfold set_entry. by rd_simpl.
Qed.

(** [m'] is [m] with table entry [c] set to [v c] for the [c] in [[lo, hi)]. *)
Record tables_set (g : geom) (lo hi : Z) (v : Z -> Z) (m m' : image) : Prop := {
  ts_size : isize m' = isize m;
  ts_entry : forall i c, 0 <= i < 2 -> 0 <= c < g_entries g ->
    ld 4 m' (g_table g i + 4 * c) =
      if (lo <=? c) && (c <? hi) then u32 (v c) else ld 4 m (g_table g i + 4 * c);
  ts_frame : forall x, x < g_table g 0 \/ g_root g <= x -> ibyte m' x = ibyte m x }.

Lemma tables_set_nil g lo v m : tables_set g lo lo v m m.
Proof.
  split; try done. intros. destruct (Z.leb_spec lo c), (Z.ltb_spec c lo); simpl; done || lia.
Qed.

Lemma tables_set_snoc g lo hi v w m m' :
  geom_wf g -> 0 <= lo <= hi -> hi < g_entries g -> w = v hi ->
  tables_set g lo hi v m m' -> tables_set g lo (hi + 1) v m (set_entry g m' hi w).
Proof.
  intros Hwf Hlo Hhi -> [Hs He Hf]. split.
  - done.
  - intros i c Hi Hc. rewrite ld_set_entry by (done || lia).
    destruct (Z.eqb_spec c hi) as [->|].
    + destruct (Z.leb_spec lo hi), (Z.ltb_spec hi (hi + 1)); simpl; done || lia.
    + rewrite He by done.
      destruct (Z.leb_spec lo c), (Z.ltb_spec c (hi + 1)), (Z.ltb_spec c hi); simpl; done || lia.
  - intros x Hx. rewrite set_entry_out by (done || lia). by apply Hf.
Qed.
