(* ===== verification/FatCopy.v ===== *)
(** * [FAT32Copyin] appends a file to the volume

    The refinement of the copy operation: on a represented volume it returns, and
    the resulting image represents the list of files with the new one at its end;
    every error leaves the list as it was. *)
From Stdlib Require Import ZArith Lia.
From stdpp Require Import base tactics list numbers list_numbers strings.
From S2P Require Import Prelude Memory Endian Fat FatSpec FatRep FatCreate FatSuper FatFrame.
Open Scope Z_scope.
#[local] Arguments _generic_store_le : simpl never.
#[local] Arguments _generic_load_le : simpl never.

(** Writing a string over zeros, cut to the size of its field. *)
Lemma rd_wr_pad m a l n :
  (forall i, 0 <= i < Z.of_nat n -> ibyte m (a + i) = 0) -> rd (wr m a l) a (Z.of_nat n) = pad n l.
Proof.
  intros Hz. apply (nth_ext _ _ 0 0); [by rewrite length_rd, length_pad, Nat2Z.id|].
  intros i Hi. rewrite length_rd in Hi. pose proof (rd_lookup (wr m a l) a (Z.of_nat n) (Z.of_nat i)) as Hr.
  rewrite Nat2Z.id in Hr. rewrite Hr by lia. unfold pad.
  assert (nth i (take n (l ++ replicate n 0)) 0 = nth i (l ++ replicate n 0) 0) as ->.
  { rewrite !nth_lookup. by rewrite lookup_take_lt by lia. }
  destruct (decide (i < length l)%nat).
  - rewrite ibyte_wr_in, app_nth1 by lia. f_equal. lia.
  - rewrite ibyte_wr_out, app_nth2 by lia. rewrite Hz by lia. symmetry. apply nth_zeros.
Qed.

(** An image that differs from a represented one by the appended file represents
    the longer list. *)
Lemma appended_core g fs f m m' :
  geom_wf g -> fat_core g fs m -> afile_ok f -> Z.of_nat (length fs) < g_numRoot g ->
  next_free g fs + clusters g f <= g_maxC g -> isize m' = isize m ->
  (forall x, g_buf g <= x < g_buf g + 512 -> ibyte m' x = ibyte m x) ->
  ld 4 m' (g_buf g + g_bps g + 488) = free_count g (fs ++ [f]) ->
  ld 4 m' (g_buf g + g_bps g + 492) = next_free g (fs ++ [f]) ->
  (forall i c, 0 <= i < 2 -> 0 <= c < g_entries g ->
    ld 4 m' (g_table g i + 4 * c) = fat_val g (fs ++ [f]) c) ->
  rd m' (g_root g + 32 * Z.of_nat (length fs)) 32 = dirent_bytes f (next_free g fs) ->
  rd m' (g_addr g (next_free g fs)) (a_size f) = a_data f ->
  (forall x, g_root g <= x < g_addr g (next_free g fs) ->
    x < g_root g + 32 * Z.of_nat (length fs) \/ g_root g + 32 * Z.of_nat (length fs) + 32 <= x ->
    ibyte m' x = ibyte m x) ->
  fat_core g (fs ++ [f]) m'.
Proof.
  intros Hwf [Hsz Hbpb _ _ _ Hdir Hend Hdata Hok _ _] Hf Hlen Hroom Hs Sbpb Hfree Hnext Hfat Hnew Hnewd Sroot.
  pose proof (geom_facts g Hwf) as (_ & _ & _ & _ & _ & _ & _ & Hroot & _).
  pose proof (next_free_ge g fs) as Hnf. pose proof (clusters_pos g f).
  pose proof (g_addr_mono g Hwf 3 (next_free g fs) Hnf) as Hm3. unfold g_addr at 1 in Hm3.
  pose proof (g_addr_mono g Hwf 2 3) as H23. unfold g_addr in H23 at 1 2.
  assert (forall i h, (fs ++ [f]) !! i = Some h ->
    (i < length fs)%nat /\ fs !! i = Some h \/ i = length fs /\ h = f) as Hcase.
  { intros i h [?|[? Hi]]%lookup_app_Some; [left; split; [by eapply lookup_lt_Some|done]|].
    apply list_lookup_singleton_Some in Hi as [? ->]. right. split; [lia|done]. }
  split; try done.
  - by rewrite Hs.
  - rewrite <-Hbpb. apply rd_ext. intros. apply Sbpb. lia.
  - intros i h [[Hi Hh]|[-> ->]]%Hcase; [|by rewrite first_cluster_app].
    rewrite first_cluster_snoc, <-(Hdir i h Hh) by done. apply rd_ext. intros. apply Sroot; lia.
  - intros i. rewrite length_app. simpl. intros Hi. rewrite <-(Hend i) by lia. apply Sroot; lia.
  - intros i h [[Hi Hh]|[-> ->]]%Hcase; [|by rewrite first_cluster_app].
    rewrite first_cluster_snoc, <-(Hdata i h Hh) by done.
    pose proof (first_cluster_bound g fs i h Hh) as [F1 F2].
    pose proof (data_clusters_bounds g Hwf h) as (D1 & D2 & _).
    pose proof (g_addr_mono g Hwf _ _ F1) as B1. pose proof (g_addr_mono g Hwf _ _ F2) as B2.
    unfold g_addr at 1 in B1. unfold g_addr at 1 in B2.
    apply rd_ext. intros. unfold g_addr at 1. apply Sroot; unfold g_addr in *; nia.
  - apply Forall_app. split; [done|]. by apply Forall_singleton.
  - rewrite length_app. simpl. lia.
  - intros _. by rewrite next_free_snoc.
Qed.

Section WithHost.
Context {host : Host}.

(** ** The directory entry *)

Lemma wp_store_chars l a (Q : unit -> image -> Prop) m :
  0 <= a -> a + Z.of_nat (length l) <= isize m ->
  (forall m', m' ≡ wr m a l -> Q tt m') ->
  wp (c_foreach l 0 (fun i ch => store_bytes (a + i) [ch])) Q m.
Proof.
  intros Ha Hl HQ. apply (wp_foreach (fun p m' => m' ≡ wr m a p)).
  - by rewrite wr_nil.
  - intros p x q m' -> Hm'. rewrite length_app in Hl. simpl in Hl.
    assert (isize m' = isize m) as Hs by apply Hm'.
    apply wp_store_bytes; [lia | rewrite Hs; simpl; lia |].
    rewrite Hm', <-wr_wr_app. by replace (a + (0 + Z.of_nat (length p))) with (a + Z.of_nat (length p)) by lia.
  - done.
Qed.

(** The suffix may reach over the fields after the name, which are set later. *)
Lemma wp_write_name e nm (Q : unit -> image -> Prop) m :
  name_ok nm -> 0 <= e -> e + 32 <= isize m -> (forall i, 0 <= i < 32 -> ibyte m (e + i) = 0) ->
  (forall m', isize m' = isize m -> (forall x, x < e \/ e + 32 <= x -> ibyte m' x = ibyte m x) ->
    rd m' e 11 = name11 nm -> Q tt m') ->
  wp (write_name e nm) Q m.
Proof.
  intros (_ & _ & Hp & Hs) He Hsz Hz HQ. unfold write_name. apply wp_bind.
  apply wp_store_chars; [lia | lia |]. intros m1 Hm1. assert (isize m1 = isize m) as Hs1 by apply Hm1.
  apply wp_store_chars; [lia | lia |]. intros m2 Hm2. apply HQ.
  - rewrite <-Hs1. apply Hm2.
  - intros x Hx. rewrite Hm2, ibyte_wr_out, Hm1, ibyte_wr_out by lia. done.
  - unfold name11. change 11 with (8 + 3). rewrite rd_app by lia. rewrite Hm2. f_equal.
    + rewrite rd_wr_out, Hm1 by lia. apply (rd_wr_pad _ _ _ 8). intros. apply Hz. lia.
    + apply (rd_wr_pad _ _ _ 3). intros i Hi. rewrite Hm1, ibyte_wr_out by lia.
      rewrite <-Z.add_assoc. apply Hz. lia.
Qed.

(** [writeTime] and [writeDate] are set by a load through the macro. *)
Lemma native_le16 v : native 2 (le16_of_bytes (native 2 v)) = le 2 v.
Proof.
  assert (length (native 2 v) = 2%nat) as Hl.
  { pose proof (length_native 2 v). lia. }
  rewrite le16_of_bytes_unle by done. unfold native in *. destruct host_order.
  - rewrite le_unle; [done | by rewrite length_le | by apply le_bytes].
  - rewrite le_unle, rev_involutive; [done | by rewrite length_rev, length_le | by apply Forall_rev, le_bytes].
Qed.

Lemma wp_put_le16 l base f v (Q : unit -> image -> Prop) m off :
  fld l f = Field off 2 -> 0 <= base + off -> base + off + 2 <= isize m ->
  Q tt (wr m (base + off) (le 2 v)) -> wp (put_native l base f (le16_of_bytes (native 2 v))) Q m.
Proof.
  intros Hf ? ? HQ. unfold put_native, offsetof, sizeof_field, store_native. rewrite Hf. simpl f_size.
  rewrite native_le16. apply wp_store_bytes; rewrite ?length_le by lia; done.
Qed.

Lemma length_dirent_bytes f c : length (a_name f) = 11%nat -> length (dirent_bytes f c) = 32%nat.
Proof. intros H. unfold dirent_bytes. by rewrite !length_app, !length_le_nat, H by lia. Qed.

Lemma wp_write_dirent e nm attr data first (Q : unit -> image -> Prop) m :
  name_ok nm -> 0 <= e -> e + 32 <= isize m -> ibyte m e = 0 ->
  (forall m', m' ≡ wr m e (dirent_bytes (MkAFile (name11 nm) (u8 attr) data) first) -> Q tt m') ->
  wp (write_dirent e first (Z.of_nat (length data)) attr nm) Q m.
Proof.
  intros Hnm He Hsz Hfirst HQ. unfold write_dirent. eval_layout.
  do 2 wp_step. wp_step. wp_step. { rewrite rd_first, Z.add_0_r. by apply Z.eqb_eq. }
  do 2 wp_step. wp_step. apply wp_write_name; [done | done | done | |].
  { intros i Hi. by rewrite ibyte_fill_in by lia. }
  intros m1 Hs1 Hout1 Hname. rewrite isize_fill in Hs1.
  do 7 (wp_step; wp_step).
  wp_step. apply (wp_put_le16 FATDirEntry _ _ _ _ _ 22); [reflexivity | side | side |].
  wp_step. apply (wp_put_le16 FATDirEntry _ _ _ _ _ 24); [reflexivity | side | side |].
  wp_go. apply HQ. apply wr_intro.
  - by rewrite !isize_wr.
  - rewrite length_dirent_bytes by apply length_name11. intros x Hx. rd_simpl. rewrite Hout1 by lia.
    by rd_simpl.
  - rewrite length_dirent_bytes by apply length_name11. change (Z.of_nat 32) with 32.
    rd_layout FATDirEntry. rewrite Hname. unfold dirent_bytes. simpl a_name. simpl a_attr.
    change (u8 attr) with (wrap (8 * 1) attr). by rewrite le_wrap.
Qed.

(** ** The chain of the new file *)

Lemma link_clusters_spec g fs n lo hi m0 m :
  geom_wf g -> g_end g <= isize m0 -> 1 <= lo <= hi -> hi + Z.of_nat n <= g_maxC g ->
  tables_set g lo hi (fun c => 1 + c) m0 m ->
  exists m', link_clusters n (super_of g fs) hi m = Done (hi + Z.of_nat n, m') /\
    tables_set g lo (hi + Z.of_nat n) (fun c => 1 + c) m0 m'.
Proof.
  intros Hwf. pose proof (geom_facts g Hwf) as (Hb & _ & _ & Hmax & _ & _ & Hent & _).
  pose proof (geom_addrs g Hwf) as (_ & _ & _ & _ & _ & _ & A4 & _).
  assert (g_maxC g < 2 ^ 32) as Hlt by (pose proof (geom_facts g Hwf); unfold g_entries in *; lia).
  revert hi m. induction n as [|n IH]; intros hi m Hsz Hlo Hhi Hts; cbn [link_clusters].
  - rewrite Z.add_0_r in *. by exists m.
  - unfold mbind, cmd_bind. pose proof (ts_size _ _ _ _ _ _ Hts) as Hs.
    rewrite FAT32SuperWriteEntry_spec by (done || lia). nowrap.
    destruct (IH (hi + 1) (set_entry g m hi (1 + hi))) as (m' & Hrun & Hm'); [done | lia | lia | |].
    { apply tables_set_snoc; (done || lia). }
    exists m'. by replace (hi + Z.of_nat (S n)) with (hi + 1 + Z.of_nat n) by lia.
Qed.

(** ** The copy *)

(** Sector of the first free cluster, the result of a successful copy. *)
Definition file_sector (g : geom) (fs : list afile) : Z :=
  8 + 2 * g_fat g + (next_free g fs - 2) * g_spc g.

(** The sector that is returned is where the contents start. *)
Lemma file_sector_addr g fs : g_buf g + file_sector g fs * g_bps g = g_addr g (next_free g fs).
Proof. unfold file_sector, g_addr, g_root, g_bpc. lia. Qed.

(** The end of a copy: the chain of the file and the FSInfo sector. *)
Definition commit_file (g : geom) (fs : list afile) (alloc errno0 : Z) : cmd image (Z * Z) :=
  let sb := super_of g fs in
  let fiPtr := g_buf g + g_bps g in
  nextFree ← link_clusters (Z.to_nat (alloc - 1)) sb (next_free g fs);
  FAT32SuperWriteEntry sb nextFree FAT32_EOC ;;
  c_assert (free_count g fs >=? alloc) ;;
  put FSInfo fiPtr "freeCount" (u32 (free_count g fs - alloc)) ;;
  put FSInfo fiPtr "nextFree" (u32 (nextFree + 1)) ;;
  FAT32SuperFree sb ;;
  mret (file_sector g fs, errno0).

(** What [FAT32Copyin] does once it has found room for [size] bytes. *)
Definition copy_file (g : geom) (fs : list afile) (fd : os_file) (nm : list Z) (attr errno0 size : Z)
    : cmd image (Z * Z) :=
  let sb := super_of g fs in
  let alloc := (size + g_bpc g - 1) / g_bpc g in
  let addr := g_addr g (next_free g fs) in
  let err e := FAT32SuperFree sb ;; mret (0, e) in
  memset addr 0 (alloc * g_bpc g) ;;
  if negb (os_lseek fd =? 0) then err (os_errno fd)
  else
    let '(nread, data) := os_read fd size in
    store_bytes addr data ;;
    if negb (nread =? size) then err (os_errno fd)
    else
      write_dirent (g_root g + 32 * Z.of_nat (length fs)) (next_free g fs) size attr nm ;;
      commit_file g fs alloc errno0.

(** The checks of [FAT32Copyin]: not enough free clusters, no free directory
    entry, or the copy. *)
Lemma wp_FAT32Copyin g fs fuel fd nm attr errno0 size (Q : Z * Z -> image -> Prop) m :
  geom_wf g -> fat_core g fs m -> os_fstat fd = Some size -> next_free g fs <= g_maxC g ->
  wp (if g_bpc g * (g_maxC g - next_free g fs) <? u32 size then
        FAT32SuperFree (super_of g fs) ;; mret (0, EDQUOT)
      else if Z.of_nat (length fs) =? g_numRoot g then
        FAT32SuperFree (super_of g fs) ;; mret (0, EDQUOT)
      else copy_file g fs fd nm attr errno0 (u32 size)) Q m ->
  wp (FAT32Copyin fuel (g_buf g) fd nm attr errno0) Q m.
Proof.
  intros Hwf Hcore Hstat Hroom HQ. unfold FAT32Copyin. rewrite Hstat.
  pose proof (geom_facts g Hwf) as (Hb & Hs & Hfit & Hmax & Hfb & Hsb & Hent & Hroot & Hn & Hf).
  pose proof (geom_addrs g Hwf) as (A0 & A1 & A2 & A3 & Hbuf & Hbpc & A4 & A5).
  pose proof (next_free_ge g fs) as Hnf. pose proof (fr_size _ _ _ Hcore) as Hsz.
  pose proof (u32_range size). unfold g_end in A5, A3, Hsz.
  assert (g_spc g * g_maxC g <= g_n g - 8 - 2 * g_fat g) as Hcl by (apply Z.mul_div_le; lia).
  assert (0 <= (next_free g fs - 2) * g_spc g <= (g_maxC g - 2) * g_spc g) as P1
    by (split; [apply Z.mul_nonneg_nonneg | apply Z.mul_le_mono_nonneg_r]; lia).
  assert (0 <= g_bpc g * (next_free g fs - 2) <= g_bpc g * (g_maxC g - 2)) as P2
    by (split; [apply Z.mul_nonneg_nonneg | apply Z.mul_le_mono_nonneg_l]; lia).
  pose proof (file_sector_addr g fs) as Hsec. unfold g_addr in Hsec.
  wp_step. eapply wp_eq; [by apply FAT32SuperInit_spec|].
  change (bytesPerCluster (super_of g fs)) with (g_bpc g).
  change (bytesPerSector (super_of g fs)) with (g_bps g).
  change (sb_fsInfo (super_of g fs)) with (Some (g_buf g + g_bps g)).
  change (maxCluster (super_of g fs)) with (g_maxC g).
  change (nextRootEntry (super_of g fs)) with (Z.of_nat (length fs)).
  change (numRootEntry (super_of g fs)) with (g_numRoot g).
  change (rootDir (super_of g fs)) with (Some (g_root g)).
  change (numReserved (super_of g fs)) with 8.
  change (numFAT (super_of g fs)) with (2 * g_fat g).
  change (FAT32SuperGetSector (super_of g fs)) with (sector_ptr (g_buf g) (g_n g) (g_bps g)).
  do 2 wp_step.
  assert (g_bpc g / g_bps g = g_spc g) as -> by (unfold g_bpc; rewrite Z.mul_comm, Z.div_mul; lia).
  do 6 wp_step. rewrite (fr_free _ _ _ Hcore), (fr_next _ _ _ Hcore).
  do 2 wp_step; [lia|]. rewrite (u32_id (g_maxC g - next_free g fs)) by lia.
  rewrite (u32_id (g_bpc g * _)) by lia.
  destruct (Z.ltb_spec (g_bpc g * (g_maxC g - next_free g fs)) (u32 size)); [exact HQ|].
  do 2 wp_step. destruct (Z.eqb_spec (Z.of_nat (length fs)) (g_numRoot g)); [exact HQ|].
  do 2 wp_step; [lia|].
  assert (u32 (u32 (u32 (next_free g fs - 2) * g_spc g) + u32 (8 + 2 * g_fat g)) = file_sector g fs) as ->.
  { rewrite (u32_id (next_free g fs - 2)), (u32_id (_ * g_spc g)) by lia.
    unfold file_sector. nowrap. lia. }
  rewrite sector_ptr_in by first [lia | unfold file_sector; lia]. rewrite file_sector_addr.
  do 2 wp_step. rewrite (u32_id (u32 size + g_bpc g)) by lia.
  rewrite (u32_id (u32 size + g_bpc g - 1)) by lia.
  pose proof (Z.mul_div_le (u32 size + g_bpc g - 1) (g_bpc g) Hbpc).
  pose proof (Z.div_pos (u32 size + g_bpc g - 1) (g_bpc g) ltac:(lia) Hbpc).
  rewrite (u32_id (_ * g_bpc g)) by (split; [apply Z.mul_nonneg_nonneg|]; lia).
  exact HQ.
Qed.

(** A file as [fstat], [lseek] and [read] show it when all of them succeed. *)
Record reads (fd : os_file) (data : list Z) : Prop := {
  rs_fstat : os_fstat fd = Some (Z.of_nat (length data));
  rs_lseek : os_lseek fd = 0;
  rs_read : os_read fd (Z.of_nat (length data)) = (Z.of_nat (length data), data) }.

Lemma name_ok_afile nm attr data : name_ok nm -> afile_ok (MkAFile (name11 nm) (u8 attr) data).
Proof.
  intros (Hc & Hp & _). split_and!; simpl.
  - apply length_name11.
  - destruct nm as [|c nm']; [done|]. apply Forall_cons in Hc as [Hc _].
    unfold name11, pad. cbn [name_prefix] in *. destruct (c =? 46); [done|]. simpl. lia.
  - apply u8_range.
Qed.

(** The two steps that chain the clusters of [f]. *)
Lemma chain_linked g fs f m3 :
  geom_wf g -> g_end g <= isize m3 -> next_free g fs + clusters g f <= g_maxC g ->
  (forall i c, 0 <= i < 2 -> 0 <= c < g_entries g -> ld 4 m3 (g_table g i + 4 * c) = fat_val g fs c) ->
  exists m4 m5,
    let last := next_free g fs + clusters g f - 1 in
    link_clusters (Z.to_nat (data_clusters g f - 1)) (super_of g fs) (next_free g fs) m3 = Done (last, m4) /\
    FAT32SuperWriteEntry (super_of g fs) last FAT32_EOC m4 = Done (tt, m5) /\ isize m5 = isize m3 /\
    (forall x, x < g_table g 0 \/ g_root g <= x -> ibyte m5 x = ibyte m3 x) /\
    (forall i c, 0 <= i < 2 -> 0 <= c < g_entries g ->
      ld 4 m5 (g_table g i + 4 * c) = fat_val g (fs ++ [f]) c).
Proof.
  intros Hwf Hsz Hroom Hfat.
  pose proof (geom_facts g Hwf) as (Hb & Hs & Hfit & Hmax & Hfb & Hsb & Hent & _).
  pose proof (geom_addrs g Hwf) as (_ & _ & _ & _ & _ & _ & A4 & _).
  pose proof (next_free_ge g fs) as Hnf. pose proof (clusters_pos g f) as D3.
  pose proof (data_clusters_bounds g Hwf f) as (D1 & _).
  assert (next_free g fs + Z.of_nat (Z.to_nat (data_clusters g f - 1)) = next_free g fs + clusters g f - 1)
    as Hlast by (unfold clusters; lia).
  destruct (link_clusters_spec g fs (Z.to_nat (data_clusters g f - 1)) (next_free g fs) (next_free g fs) m3 m3)
    as (m4 & Hrun & [Hs4 He4 Hf4]); [done | lia | lia | lia | apply tables_set_nil |].
  rewrite Hlast in Hrun, He4. exists m4. eexists. split; [done|].
  split; [apply FAT32SuperWriteEntry_spec; [done | lia | lia]|]. split; [done|]. split.
  - intros x Hx. rewrite set_entry_out by (done || lia). by apply Hf4.
  - intros i c Hi Hc. rewrite ld_set_entry, He4, Hfat, fat_val_snoc by (done || lia).
    destruct (Z.eqb_spec c (next_free g fs + clusters g f - 1)) as [->|].
    + by destruct (Z.ltb_spec (next_free g fs + clusters g f - 1) (next_free g fs + clusters g f - 1));
        [lia|rewrite andb_false_r].
    + destruct (_ && _); [|done]. nowrap. lia.
Qed.

(** The chain and the FSInfo sector complete an image that holds the contents and
    the directory entry of [f]. *)
Lemma wp_commit_file g fs f errno0 m m3 (Q : Z * Z -> image -> Prop) :
  let entry := g_root g + 32 * Z.of_nat (length fs) in
  let addr := g_addr g (next_free g fs) in
  geom_wf g -> fat_core g fs m -> afile_ok f ->
  Z.of_nat (length fs) < g_numRoot g -> next_free g fs + clusters g f <= g_maxC g ->
  isize m3 = isize m -> rd m3 entry 32 = dirent_bytes f (next_free g fs) ->
  rd m3 addr (a_size f) = a_data f ->
  (forall x, x < addr \/ g_end g <= x -> x < entry \/ entry + 32 <= x -> ibyte m3 x = ibyte m x) ->
  (forall m', fat_rep g (fs ++ [f]) m' -> isize m' = isize m ->
    (forall x, x < g_buf g \/ g_end g <= x -> ibyte m' x = ibyte m x) -> Q (file_sector g fs, errno0) m') ->
  wp (commit_file g fs (data_clusters g f) errno0) Q m3.
Proof.
  intros entry addr Hwf Hcore Hfok Hlen Hroom Hs3 Hent3 Hdata3 Hout3 HQ. unfold commit_file.
  pose proof (geom_facts g Hwf) as (Hb & Hs & Hfit & Hmax & Hfb & Hsb & Hent & Hroot & Hn & Hf).
  pose proof (geom_addrs g Hwf) as (A0 & A1 & A2 & A3 & Hbuf & Hbpc & A4 & A5).
  pose proof (next_free_ge g fs) as Hnf. pose proof (fr_size _ _ _ Hcore) as Hsz.
  pose proof (data_clusters_bounds g Hwf f) as (D1 & D2 & _).
  pose proof (clusters_pos g f) as D3. pose proof (data_used_bounds g Hwf fs) as Hdu.
  pose proof (g_addr_mono g Hwf 3 (next_free g fs) Hnf) as Ha3. unfold g_addr at 1 in Ha3. fold addr in Ha3.
  assert (next_free g fs = 3 + used g fs) as Hused by done.
  destruct (chain_linked g fs f m3) as (m4 & m5 & Hlink & Hlast & Hs5 & Hf5 & He5); [done | lia | done | |].
  { intros i c Hi Hc. rewrite <-(fr_fat _ _ _ Hcore i c Hi Hc). apply ld_ext. intros. apply Hout3;
      assert (i = 0 \/ i = 1) as [-> | ->] by lia; lia. }
  wp_step. eapply wp_eq; [exact Hlink|]. wp_step. eapply wp_eq; [exact Hlast|].
  clear Hlink Hlast. wp_step. wp_step; [unfold free_count; lia|]. do 4 wp_step.
  wp_step. eapply wp_eq; [apply FAT32SuperFree_spec; [done | side]|]. wp_step. apply HQ.
  - apply backed_up_rep; [done|]. apply (appended_core g fs f m); try done.
    + by rewrite !isize_wr, Hs5.
    + intros x Hx. rd_simpl. rewrite Hf5 by lia. apply Hout3; lia.
    + unfold free_count. rewrite data_used_app. ld_step. simpl.
      rewrite wrap_small by (nowrap; lia). nowrap. lia.
    + ld_step. rewrite next_free_snoc. nowrap. rewrite wrap_small by lia. lia.
    + intros i c Hi Hc. rewrite <-(He5 i c Hi Hc). unfold ld.
      assert (i = 0 \/ i = 1) as [-> | ->] by lia; by rd_simpl.
    + rewrite <-Hent3. apply rd_ext. intros. rd_simpl. apply Hf5. lia.
    + rewrite <-Hdata3. apply rd_ext. intros. fold addr. rd_simpl. apply Hf5. lia.
    + intros x Hx Hx'. rd_simpl. rewrite Hf5 by lia. apply Hout3; lia.
  - rewrite <-Hs3, <-Hs5. done.
  - intros x Hx. rewrite backed_up_out by (done || lia). rd_simpl. rewrite Hf5 by lia. apply Hout3; lia.
Qed.

(** Copying into a volume with room appends the file. *)
Lemma wp_copy_file g fs fd nm attr errno0 data (Q : Z * Z -> image -> Prop) m :
  let f := MkAFile (name11 nm) (u8 attr) data in
  geom_wf g -> fat_core g fs m -> name_ok nm -> reads fd data ->
  Z.of_nat (length fs) < g_numRoot g -> next_free g fs + clusters g f <= g_maxC g ->
  (forall m', fat_rep g (fs ++ [f]) m' -> isize m' = isize m ->
    (forall x, x < g_buf g \/ g_end g <= x -> ibyte m' x = ibyte m x) -> Q (file_sector g fs, errno0) m') ->
  wp (copy_file g fs fd nm attr errno0 (Z.of_nat (length data))) Q m.
Proof.
  intros f Hwf Hcore Hnm [_ Hseek Hread] Hlen Hroom HQ. unfold copy_file. rewrite Hseek, Hread.
  pose proof (geom_facts g Hwf) as (Hb & Hs & Hfit & Hmax & Hfb & Hsb & Hent & Hroot & Hn & Hf).
  pose proof (geom_addrs g Hwf) as (A0 & A1 & A2 & A3 & Hbuf & Hbpc & A4 & A5).
  pose proof (next_free_ge g fs) as Hnf. pose proof (fr_size _ _ _ Hcore) as Hsz.
  pose proof (data_clusters_bounds g Hwf f) as (D1 & D2 & _).
  pose proof (g_addr_mono g Hwf 3 (next_free g fs) Hnf) as Ha3. unfold g_addr at 1 in Ha3.
  destruct (g_addr_range g Hwf (next_free g fs) (clusters g f)) as (R1 & R2 & _); [lia..|].
  assert (g_bpc g * data_clusters g f <= g_bpc g * clusters g f) as D4
    by (apply Z.mul_le_mono_nonneg_l; lia).
  change (Z.of_nat (length data)) with (a_size f).
  change ((a_size f + g_bpc g - 1) / g_bpc g) with (data_clusters g f).
  rewrite (Z.mul_comm (data_clusters g f)).
  set (addr := g_addr g (next_free g fs)) in *.
  assert (0 <= a_size f) by (unfold a_size; lia).
  wp_step. wp_step. simpl negb. cbv iota. wp_step. apply wp_store_bytes; [lia | side; change (Z.of_nat (length data)) with (a_size f); lia |].
  rewrite Z.eqb_refl. simpl negb. cbv iota.
  set (m2 := wr _ _ _). assert (isize m2 = isize m) as Hs2 by done.
  assert (forall x, x < addr \/ g_end g <= x -> ibyte m2 x = ibyte m x) as Hout2.
  { intros x Hx. unfold m2. rewrite ibyte_wr_out, ibyte_fill_out; [done|lia|].
    change (Z.of_nat (length data)) with (a_size f). lia. }
  assert (rd m2 addr (a_size f) = data) as Hdata2 by (by apply rd_wr_same).
  clearbody m2.
  wp_step. change (a_size f) with (Z.of_nat (length data)). apply wp_write_dirent; [done | lia | lia | |].
  { rewrite Hout2 by lia. apply (fr_dir_end _ _ _ Hcore). lia. }
  change (MkAFile _ _ _) with f. intros m3 Hm3. assert (isize m3 = isize m) as Hs3 by (rewrite <-Hs2; apply Hm3).
  apply (wp_commit_file g fs f errno0 m); try done.
  - by apply name_ok_afile.
  - rewrite Hm3. apply rd_wr_same. by rewrite length_dirent_bytes by apply length_name11.
  - rewrite Hm3, rd_wr_out; [done|]. rewrite length_dirent_bytes by apply length_name11. lia.
  - intros x Hx Hx'. rewrite Hm3, ibyte_wr_out; [by apply Hout2|].
    rewrite length_dirent_bytes by apply length_name11. lia.
Qed.
End WithHost.
