(* ===== verification/FatTheorems.v ===== *)
(** * What the FAT32 code guarantees

    The theorems about [createFAT32] and [FAT32Copyin], and the round trip from
    the files copied in to the files a reader of the volume finds. *)
From Stdlib Require Import ZArith Lia.
From stdpp Require Import base tactics list numbers list_numbers strings.
From S2P Require Import Prelude Memory Endian Fat FatSpec FatRep FatCreate FatSuper FatFrame FatCopy.
Open Scope Z_scope.

(** ** Reading a represented volume *)

(** A 32-bit number from its two halves. *)
Lemma lor_halves x :
  0 <= x < 2 ^ 32 -> Z.lor (Z.shiftl (wrap 16 (Z.shiftr x 16)) 16) (wrap 16 (Z.land x 0xFFFF)) = x.
Proof.
  intros Hx. rewrite (wrap_small 16 (Z.shiftr x 16)).
  2: { rewrite Z.shiftr_div_pow2 by lia. dlia. }
  change 0xFFFF with (Z.ones 16). rewrite Z.land_ones by lia.
  rewrite wrap_small by dlia. rewrite <-Z.land_ones by lia.
  apply Z.bits_inj'. intros n Hn. rewrite Z.lor_spec, Z.shiftl_spec, Z.land_spec, Z.testbit_ones_nonneg by lia.
  destruct (Z.ltb_spec n 16).
  - rewrite (Z.testbit_neg_r _ (n - 16)) by lia. by rewrite andb_true_r.
  - rewrite Z.shiftr_spec by lia. replace (n - 16 + 16) with n by lia. by rewrite andb_false_r, orb_false_r.
Qed.

Section Read.
Context (g : geom) (fs : list afile) (m : image) (Hwf : geom_wf g) (Hcore : fat_core g fs m).

Lemma files_fit i f : fs !! i = Some f ->
  3 <= first_cluster g fs i /\ first_cluster g fs i + clusters g f <= g_maxC g /\
  g_maxC g <= g_entries g < 2 ^ 30.
Proof.
  intros Hf. pose proof (first_cluster_bound g fs i f Hf) as [F1 F2].
  assert (next_free g fs <= g_maxC g) by (apply (fr_room _ _ _ Hcore); by intros ->).
  pose proof (geom_facts g Hwf) as (Hb & Hs & Hfit & Hmax & Hfb & Hsb & Hent & _).
  pose proof (geom_addrs g Hwf) as (_ & _ & _ & _ & _ & _ & A4 & _). lia.
Qed.

(** The chain of a file is the run of its clusters. *)
Lemma chain_run i f n c fuel :
  fs !! i = Some f -> (S n <= fuel)%nat -> first_cluster g fs i <= c ->
  c + Z.of_nat (S n) = first_cluster g fs i + clusters g f ->
  chain g fuel m c = Some (seqZ c (Z.of_nat (S n))).
Proof.
  intros Hf. pose proof (files_fit i f Hf) as (F1 & F2 & F3).
  revert c fuel. induction n as [|n IH]; intros c fuel Hfuel Hc Hlast;
    (destruct fuel as [|fuel]; [lia|]); cbn [chain];
    rewrite (fr_fat _ _ _ Hcore 0 c), (fat_val_chain g fs i f) by (done || lia).
  - destruct (Z.eqb_spec c (first_cluster g fs i + clusters g f - 1)); [done|lia].
  - destruct (Z.eqb_spec c (first_cluster g fs i + clusters g f - 1)); [lia|].
    destruct (Z.eqb_spec (c + 1) FAT32_EOC) as [E|_]; [unfold FAT32_EOC in E; lia|].
    rewrite IH by lia. rewrite (seqZ_cons c) by lia. do 3 f_equal; lia.
Qed.

(** The contents of consecutive clusters. *)
Lemma concat_clusters c n :
  0 <= n -> concat ((fun c => rd m (g_addr g c) (g_bpc g)) <$> seqZ c n) = rd m (g_addr g c) (g_bpc g * n).
Proof.
  intros Hn. pose proof (geom_addrs g Hwf) as (_ & _ & _ & _ & _ & Hbpc & _).
  rewrite <-(rd_blocks m (g_addr g c) (g_bpc g)); [|lia|].
  - by rewrite length_fmap, length_seqZ, Z2Nat.id.
  - intros i bs. rewrite list_lookup_fmap. intros (c' & Hc' & ->)%fmap_Some.
    apply lookup_seqZ in Hc' as [-> _]. f_equal. unfold g_addr. lia.
Qed.

(** The reference reader finds every file of the list. *)
Lemma read_file_rep i f fuel :
  fs !! i = Some f -> clusters g f <= Z.of_nat fuel -> read_file g fuel m (Z.of_nat i) = Some f.
Proof.
  intros Hf Hfuel. pose proof (files_fit i f Hf) as (F1 & F2 & F3).
  pose proof (clusters_pos g f). pose proof (data_clusters_bounds g Hwf f) as (D1 & D2 & D3).
  pose proof (geom_facts g Hwf) as (Hb & Hs & Hfit & Hmax & Hfb & _).
  pose proof (geom_addrs g Hwf) as (A0 & A1 & A2 & A3 & Hbuf & Hbpc & A4 & A5). unfold g_end in A5.
  pose proof (fr_files _ _ _ Hcore) as Hok. eapply Forall_lookup_1 in Hok as (Hl & _ & Hattr); [|done].
  pose proof (fr_dir _ _ _ Hcore i f Hf) as Hd. pose proof (fr_data _ _ _ Hcore i f Hf) as Hdata.
  assert (0 <= a_size f) by (unfold a_size; lia).
  assert (g_bpc g * clusters g f <= g_bpc g * g_maxC g) by (apply Z.mul_le_mono_nonneg_l; lia).
  assert (g_bpc g * data_clusters g f <= g_bpc g * clusters g f) by (apply Z.mul_le_mono_nonneg_l; lia).
  set (e := g_root g + 32 * Z.of_nat i) in *. unfold dirent_bytes in Hd. split_fields Hd.
  unfold read_file. fold e.
  assert (ld 4 m (e + 28) = a_size f) as ->.
  { erewrite ld_of_rd by (eassumption || lia). apply wrap_small. lia. }
  assert (ld 1 m (e + 11) = a_attr f) as ->.
  { erewrite ld_of_rd by (eassumption || lia). by apply wrap_small. }
  erewrite (ld_of_rd 2 m (e + 20)), (ld_of_rd 2 m (e + 26)) by (eassumption || lia).
  change (8 * 2) with 16. rewrite lor_halves by lia.
  rewrite (chain_run i f (Z.to_nat (clusters g f - 1))) by (done || lia).
  rewrite concat_clusters, R by lia.
  replace (Z.of_nat (S (Z.to_nat (clusters g f - 1)))) with (clusters g f) by lia.
  replace (g_bpc g * clusters g f) with (a_size f + (g_bpc g * clusters g f - a_size f)) by lia.
  rewrite rd_app, Hdata by lia. rewrite take_app_length' by (unfold a_size; lia). by destruct f.
Qed.
End Read.

(** ** Dates and times *)

Lemma land_mask x k : 0 <= k -> Z.land x (Z.ones k) = x `mod` 2 ^ k.
Proof. apply Z.land_ones. Qed.

Lemma FAT32Date_eq y mo d :
  1980 <= y <= 2107 -> 0 <= mo <= 15 -> 0 <= d <= 31 ->
  FAT32Date y mo d = d + 32 * mo + 512 * (y - 1980).
Proof.
  intros. unfold FAT32Date. change 0x1F with (Z.ones 5). change 0xF with (Z.ones 4).
  change 0x7F with (Z.ones 7). rewrite (u16_id (y - 1980)), !land_mask by lia.
  rewrite !Z.mod_small by lia. rewrite (u16_id d), (lor_shiftl_add _ _ 5) by lia. nowrap.
  rewrite (lor_shiftl_add _ _ 9) by lia. nowrap. lia.
Qed.

Lemma FAT32Time_eq h mi s :
  0 <= h <= 31 -> 0 <= mi <= 63 -> 0 <= s <= 63 -> FAT32Time h mi s = s / 2 + 32 * mi + 2048 * h.
Proof.
  intros. unfold FAT32Time. change 0x1F with (Z.ones 5). change 0x3F with (Z.ones 6).
  rewrite Z.shiftr_div_pow2, !land_mask by lia. change (2 ^ 1) with 2.
  rewrite !Z.mod_small by dlia. assert (0 <= s / 2 <= 31) by dlia.
  rewrite (u16_id (s / 2)), (lor_shiftl_add _ _ 5) by lia. nowrap.
  rewrite (lor_shiftl_add _ _ 11) by lia. nowrap. lia.
Qed.

(** The packed date and time of a directory entry decode, by the bit positions
    the comments name, to the year, month, day, hour and minute they were made
    from and to the seconds rounded down to an even number. *)
Theorem FAT32_date_time_roundtrip y mo d h mi s :
  1980 <= y <= 2107 -> 1 <= mo <= 12 -> 1 <= d <= 31 ->
  0 <= h <= 23 -> 0 <= mi <= 59 -> 0 <= s <= 59 ->
  let date := FAT32Date y mo d in
  let time := FAT32Time h mi s in
  is_u 16 date /\ Z.land date 0x1F = d /\ Z.land (Z.shiftr date 5) 0xF = mo /\
  1980 + Z.shiftr date 9 = y /\
  is_u 16 time /\ 2 * Z.land time 0x1F = s - s `mod` 2 /\ Z.land (Z.shiftr time 5) 0x3F = mi /\
  Z.shiftr time 11 = h.
Proof.
  intros Hy Hmo Hd Hh Hmi Hs date time. subst date time.
  rewrite FAT32Date_eq, FAT32Time_eq by lia. unfold is_u.
  change 0x1F with (Z.ones 5). change 0xF with (Z.ones 4). change 0x3F with (Z.ones 6).
  rewrite !Z.shiftr_div_pow2, !land_mask by lia.
  change (2 ^ 5) with 32. change (2 ^ 4) with 16. change (2 ^ 6) with 64. change (2 ^ 9) with 512.
  change (2 ^ 11) with 2048. change (2 ^ 16) with 65536. split_and!; dlia.
Qed.

Lemma FAT32_date_time_roundtrip_witness :
  FAT32Date 1995 2 21 = 7765 /\ Z.land (Z.shiftr 7765 5) 0xF = 2.
Proof.
  pose proof (FAT32_date_time_roundtrip 1995 2 21 8 30 25 ltac:(lia) ltac:(lia) ltac:(lia) ltac:(lia)
    ltac:(lia) ltac:(lia)) as (_ & _ & H & _).
  split; [reflexivity | exact H].
Defined.

(** ** Locating table entries and the data region *)

Section LittleEndianHost.
Context {host : Host} (Hhost : host_order = LittleEndian).

Lemma bpb_fields16 g m :
  rd m (g_buf g) 512 = bpb_bytes g ->
  ld 2 m (g_buf g + 17) = 0 /\ ld 2 m (g_buf g + 19) = 0 /\ ld 2 m (g_buf g + 22) = 0.
Proof.
  intros H. assert (length FAT_IMPL = 8%nat) as L1 by done. assert (length NO_NAME = 11%nat) as L2 by done.
  assert (length FAT32_TYPE = 8%nat) as L3 by done.
  assert (length [0xeb; 0x00; 0x90] = 3%nat) as L4 by done.
  unfold bpb_bytes in H. set (jmp := [0xeb; 0x00; 0x90]) in H, L4. clearbody jmp.
  split_fields H. clear H.
  split_and!; [(erewrite ld_of_rd; [|eassumption|lia]; reflexivity).. |].
  unfold ld. match goal with R : rd m (g_buf g + 22) 2 = _ |- _ => rewrite R end. apply unle_zeros.
Qed.

(** On a little-endian machine, for a volume made by this code,
    [clusterToFATEntry] gives the sector (high word) and the offset (low word)
    of the entry of cluster [n] in the first table, and [numSectorDataRegion]
    the number of sectors after the tables. *)
Theorem FAT_locate_entry g fs m n :
  geom_wf g -> fat_core g fs m -> 0 <= n < g_entries g ->
  exists sec off,
    clusterToFATEntry (g_buf g) n m = Done (2 ^ 32 * sec + off, m) /\
    8 <= sec < 8 + g_fat g /\ 0 <= off < g_bps g /\
    g_buf g + g_bps g * sec + off = g_table g 0 + 4 * n /\
    numSectorDataRegion (g_buf g) m = Done (g_n g - 8 - 2 * g_fat g, m).
Proof.
  intros Hwf Hcore Hn.
  pose proof (geom_facts g Hwf) as (Hb & Hs & Hfit & Hmax & Hfb & Hsb & Hent & Hroot & Hgn & Hf).
  pose proof (geom_addrs g Hwf) as (A0 & _ & _ & _ & Hbuf & _). pose proof (gw_fit g Hwf).
  pose proof (fr_size _ _ _ Hcore) as Hsz. unfold g_end in Hsz.
  pose proof (bpb_fields g m Hwf (fr_bpb _ _ _ Hcore)) as (F1 & F2 & F3 & F4 & F5 & F6 & F7).
  pose proof (bpb_fields16 g m (fr_bpb _ _ _ Hcore)) as (G1 & G2 & G3).
  pose proof (Z.div_mod (n * 4) (g_bps g) ltac:(lia)). pose proof (Z.mod_pos_bound (n * 4) (g_bps g) ltac:(lia)).
  assert (0 <= n * 4 / g_bps g < g_fat g) as Hq.
  { split; [apply Z.div_pos; lia | apply Z.div_lt_upper_bound; lia]. }
  exists (8 + n * 4 / g_bps g), ((n * 4) `mod` g_bps g). split_and!; try lia.
  - apply wp_exact. unfold clusterToFATEntry. do 4 wp_step. rewrite G3, F6. simpl negb. cbv iota zeta.
    wp_step. wp_step; [lia|]. do 4 wp_step. rewrite F3, F1. nowrap. do 4 wp_step. wp_step. split; [|done].
    nowrap. rewrite Z.lor_comm, lor_shiftl_add by lia. lia.
  - apply wp_exact. unfold numSectorDataRegion. do 10 wp_step. rewrite G1, G2, G3, F5, F6.
    simpl negb. cbv iota zeta. do 4 wp_step. rewrite F3, F4. nowrap. wp_step. wp_step; [lia|]. wp_step.
    split; [lia|done].
Qed.
End LittleEndianHost.

(** ** Formatting *)

Section WithHost.
Context {host : Host}.

(** C7: [createFAT32] on an accepted configuration of less than 4 GiB returns 0, and the
    buffer then holds an empty FAT32 volume: boot sector, FSInfo, both tables,
    an empty root directory and the backup sectors; bytes outside the volume
    keep their values. *)
Theorem createFAT32_formats buf config m :
  0 <= buf -> fat_config_ok config ->
  buf + cBytesPerSector config * nSector config <= isize m ->
  exists m', createFAT32 buf config m = Done (0, m') /\ fat_rep (config_geom buf config) [] m' /\
    isize m' = isize m /\
    forall x, x < buf \/ buf + cBytesPerSector config * nSector config <= x -> ibyte m' x = ibyte m x.
Proof.
  intros Hb Hok Hsz.
  assert (wp (createFAT32 buf config) (fun r m' => r = 0 /\ fat_rep (config_geom buf config) [] m' /\
      isize m' = isize m /\ forall x, x < buf \/ g_end (config_geom buf config) <= x -> ibyte m' x = ibyte m x) m)
    as (r & m' & Hrun & -> & H)%wp_run by (by apply wp_createFAT32).
  by exists m'.
Qed.

(** A configuration with fewer than 16 sectors, a sector size other than 512,
    1024, 2048 and 4096 or a cluster size that is no power of two up to 128 is
    refused with result 1 and leaves the buffer alone; one with at most two
    clusters stops in the assertion. *)
Theorem createFAT32_refuses buf config m :
  (nSector config < 16 \/ ~ valid_bps (cBytesPerSector config) \/ ~ valid_spc (clusterSize config) ->
    createFAT32 buf config m = Done (1, m)) /\
  (16 <= nSector config -> valid_bps (cBytesPerSector config) -> valid_spc (clusterSize config) ->
    nSector config / clusterSize config <= 2 -> createFAT32 buf config m = AssertFail).
Proof.
  rewrite <-bytesIsValid_spec, <-clusterSizeIsValid_spec. unfold createFAT32. split.
  - intros H. destruct (Z.ltb_spec (nSector config) 16); [done|].
    destruct (bytesIsValid config); [|done]. destruct (clusterSizeIsValid config); [|done].
    destruct H as [?|[?|?]]; [lia|done|done].
  - intros Hn -> -> Hc. destruct (Z.ltb_spec (nSector config) 16); [lia|]. simpl.
    unfold mbind, cmd_bind, c_assert. destruct (Z.gtb_spec (nSector config / clusterSize config) 2); [lia|done].
Qed.

(** ** Copying *)

Lemma FAT32Copyin_ok g fs fuel fd nm attr errno0 data m :
  let f := MkAFile (name11 nm) (u8 attr) data in
  geom_wf g -> fat_rep g fs m -> name_ok nm -> reads fd data ->
  Z.of_nat (length fs) < g_numRoot g -> next_free g fs + clusters g f <= g_maxC g ->
  exists m', FAT32Copyin fuel (g_buf g) fd nm attr errno0 m = Done ((file_sector g fs, errno0), m') /\
    fat_rep g (fs ++ [f]) m' /\ isize m' = isize m /\
    forall x, x < g_buf g \/ g_end g <= x -> ibyte m' x = ibyte m x.
Proof.
  intros f Hwf Hrep Hnm Hfd Hlen Hroom. pose proof (fr_core _ _ _ Hrep) as Hcore.
  pose proof (clusters_pos g f). pose proof (data_clusters_bounds g Hwf f) as (D1 & D2 & _).
  pose proof (geom_addrs g Hwf) as (A0 & A1 & A2 & A3 & Hbuf & Hbpc & A4 & A5). unfold g_end in A5.
  pose proof (geom_facts g Hwf) as (Hb & Hs & Hfit & Hmax & Hfb & _). pose proof (next_free_ge g fs).
  assert (g_bpc g * data_clusters g f <= g_bpc g * (g_maxC g - next_free g fs))
    by (apply Z.mul_le_mono_nonneg_l; lia).
  assert (a_size f = Z.of_nat (length data)) as Hsize by done.
  assert (u32 (Z.of_nat (length data)) = Z.of_nat (length data)) as Hu.
  { assert (0 <= g_bpc g * next_free g fs) by (apply Z.mul_nonneg_nonneg; lia). apply u32_id. lia. }
  assert (wp (FAT32Copyin fuel (g_buf g) fd nm attr errno0) (fun r m' => r = (file_sector g fs, errno0) /\
      fat_rep g (fs ++ [f]) m' /\ isize m' = isize m /\
      forall x, x < g_buf g \/ g_end g <= x -> ibyte m' x = ibyte m x) m)
    as (r & m' & Hrun & -> & Hrest)%wp_run; [|by exists m'].
  eapply wp_FAT32Copyin; [done..|apply Hfd|lia|]. rewrite Hu.
  destruct (Z.ltb_spec (g_bpc g * (g_maxC g - next_free g fs)) (Z.of_nat (length data))); [lia|].
  destruct (Z.eqb_spec (Z.of_nat (length fs)) (g_numRoot g)); [lia|].
  by apply wp_copy_file.
Qed.

Lemma last_file_data g fs f m :
  fat_core g (fs ++ [f]) m -> rd m (g_buf g + file_sector g fs * g_bps g) (a_size f) = a_data f.
Proof.
  intros Hcore. rewrite file_sector_addr. pose proof (fr_data _ _ _ Hcore (length fs) f) as Hd.
  rewrite first_cluster_app in Hd. apply Hd. by rewrite lookup_app_r, Nat.sub_diag by lia.
Qed.

(** C2: copying a file into a volume that has a free directory entry and enough free
    clusters returns the sector where its contents start and leaves [FAT32Errno]
    alone; the volume then holds the old files and the new one after them, and
    nothing outside the volume has changed. *)
Theorem FAT32Copyin_appends g fs fuel fd nm attr errno0 data m :
  let f := MkAFile (name11 nm) (u8 attr) data in
  geom_wf g -> fat_rep g fs m -> name_ok nm -> reads fd data ->
  Z.of_nat (length fs) < g_numRoot g -> next_free g fs + clusters g f <= g_maxC g ->
  exists m', FAT32Copyin fuel (g_buf g) fd nm attr errno0 m = Done ((file_sector g fs, errno0), m') /\
    fat_rep g (fs ++ [f]) m' /\ isize m' = isize m /\
    rd m' (g_buf g + file_sector g fs * g_bps g) (Z.of_nat (length data)) = data /\
    forall x, x < g_buf g \/ g_end g <= x -> ibyte m' x = ibyte m x.
Proof.
  intros f Hwf Hrep Hnm Hfd Hlen Hroom.
  destruct (FAT32Copyin_ok g fs fuel fd nm attr errno0 data m) as (m' & Hrun & Hrep' & Hs & Hout); [done..|].
  exists m'. split_and!; try done. by apply (last_file_data g fs f), fr_core.
Qed.

(** The exits of [FAT32Copyin] that report an error refresh the backups only. *)
Lemma wp_err g fs m e (Q : Z * Z -> image -> Prop) :
  geom_wf g -> g_end g <= isize m -> Q (0, e) (backed_up g m) ->
  wp (FAT32SuperFree (super_of g fs) ;; mret (0, e)) Q m.
Proof.
  intros Hwf Hsz HQ. wp_step. eapply wp_eq; [by apply FAT32SuperFree_spec|]. by wp_step.
Qed.

(** The outcome of a failed copy: result 0, error code [e], and the same files. *)
Definition copy_failed (g : geom) (fs : list afile) (m : image) (e : Z)
    (o : outcome ((Z * Z) * image)) : Prop :=
  exists m', o = Done ((0, e), m') /\ fat_rep g fs m' /\ isize m' = isize m /\
    forall x, x < g_buf g \/ g_end g <= x -> ibyte m' x = ibyte m x.

(** The writes of a failed copy stay in the free clusters. *)
Definition scratch_only (g : geom) (fs : list afile) (m : image) (e : Z) (r : Z * Z) (m' : image) : Prop :=
  r = (0, e) /\ exists m1, m' = backed_up g m1 /\ isize m1 = isize m /\
    forall x, x < g_addr g (next_free g fs) \/ g_end g <= x -> ibyte m1 x = ibyte m x.

Lemma copy_failed_intro g fs m e c :
  geom_wf g -> fat_rep g fs m -> wp c (scratch_only g fs m e) m -> copy_failed g fs m e (c m).
Proof.
  intros Hwf Hrep (r & m' & Hrun & -> & m1 & -> & Hs & Hout)%wp_run. rewrite Hrun.
  pose proof (geom_facts g Hwf) as (Hb & Hsp & Hfit & Hmax & Hfb & Hsb & Hent & Hroot & _).
  pose proof (geom_addrs g Hwf) as (A0 & A1 & A2 & A3 & Hbuf & Hbpc & _ & _).
  pose proof (g_addr_mono g Hwf 3 _ (next_free_ge g fs)) as Ha3. unfold g_addr at 1 in Ha3.
  exists (backed_up g m1). split_and!; try done.
  - apply backed_up_rep; [done|]. apply (fat_core_frame _ _ m); [done|apply Hrep|done|].
    intros x [_ Hx]. apply Hout. lia.
  - intros x Hx. rewrite backed_up_out by (done || lia). apply Hout. lia.
Qed.

Lemma wp_copy_file_fails g fs fd nm attr errno0 size m :
  geom_wf g -> g_end g <= isize m -> next_free g fs <= g_maxC g ->
  0 <= size <= g_bpc g * (g_maxC g - next_free g fs) ->
  (length (os_read fd size).2 <= Z.to_nat size)%nat ->
  os_lseek fd <> 0 \/ (os_read fd size).1 <> size ->
  wp (copy_file g fs fd nm attr errno0 size) (scratch_only g fs m (os_errno fd)) m.
Proof.
  intros Hwf Hsz Hroom Hsize Hread Hfail. unfold copy_file.
  pose proof (next_free_ge g fs). pose proof (gw_buf g Hwf).
  pose proof (geom_addrs g Hwf) as (A0 & A1 & A2 & A3 & Hbuf & Hbpc & A4 & A5).
  pose proof (geom_facts g Hwf) as (Hb & _ & _ & _ & Hfb & _).
  destruct (g_addr_range g Hwf (next_free g fs) (g_maxC g - next_free g fs)) as (R1 & R2 & _); [lia..|].
  assert (0 <= (size + g_bpc g - 1) / g_bpc g <= g_maxC g - next_free g fs) as Ha.
  { split; [apply Z.div_pos; lia|]. apply Z.lt_succ_r, Z.div_lt_upper_bound; lia. }
  assert (0 <= (size + g_bpc g - 1) / g_bpc g * g_bpc g <= g_bpc g * (g_maxC g - next_free g fs)) as Hab.
  { rewrite Z.mul_comm. split; [apply Z.mul_nonneg_nonneg | apply Z.mul_le_mono_nonneg_l]; lia. }
  set (addr := g_addr g (next_free g fs)) in *.
  wp_step. wp_step. destruct (Z.eqb_spec (os_lseek fd) 0) as [Hs0|]; cbn [negb].
  - destruct (os_read fd size) as [nread data]. simpl in Hread, Hfail.
    wp_step. wp_step. destruct (Z.eqb_spec nread size) as [|]; cbn [negb]; [by destruct Hfail|].
    apply wp_err; [done|done|]. split; [done|]. eexists. split_and!; [done..|].
    intros x Hx. by rd_simpl.
  - apply wp_err; [done|done|]. split; [done|]. eexists. split_and!; [done..|]. intros x Hx. by rd_simpl.
Qed.

(** C8: every error of [FAT32Copyin] on a volume with [next_free <= maxCluster]
    returns 0 and sets [FAT32Errno]: to the error of the system call when
    [fstat], [lseek] or [read] fails, to [EDQUOT] when the file does not fit or
    the root directory is full.  The volume still holds exactly the old files. *)
Theorem FAT32Copyin_errors g fs fuel fd nm attr errno0 m :
  geom_wf g -> fat_rep g fs m -> next_free g fs <= g_maxC g ->
  (forall n, (length (os_read fd n).2 <= Z.to_nat n)%nat) ->
  let run := FAT32Copyin fuel (g_buf g) fd nm attr errno0 m in
  match os_fstat fd with
  | None => run = Done ((0, os_errno fd), m)
  | Some size =>
      (g_bpc g * (g_maxC g - next_free g fs) < u32 size \/ Z.of_nat (length fs) = g_numRoot g ->
        copy_failed g fs m EDQUOT run) /\
      (u32 size <= g_bpc g * (g_maxC g - next_free g fs) -> Z.of_nat (length fs) < g_numRoot g ->
        os_lseek fd <> 0 \/ (os_read fd (u32 size)).1 <> u32 size ->
        copy_failed g fs m (os_errno fd) run)
  end.
Proof.
  intros Hwf Hrep Hroom Hread run. subst run. pose proof (fr_core _ _ _ Hrep) as Hcore.
  pose proof (fr_size _ _ _ Hcore) as Hsz.
  destruct (os_fstat fd) as [size|] eqn:Hstat; [split|by unfold FAT32Copyin; rewrite Hstat].
  - intros Hfull. apply copy_failed_intro; [done..|]. eapply wp_FAT32Copyin; [done..|].
    assert (scratch_only g fs m EDQUOT (0, EDQUOT) (backed_up g m)) by (split; [done|by exists m]).
    destruct (Z.ltb_spec (g_bpc g * (g_maxC g - next_free g fs)) (u32 size)); [by apply wp_err|].
    destruct (Z.eqb_spec (Z.of_nat (length fs)) (g_numRoot g)); [by apply wp_err|lia].
  - intros Hfits Hlen Hfail. apply copy_failed_intro; [done..|]. eapply wp_FAT32Copyin; [done..|].
    destruct (Z.ltb_spec (g_bpc g * (g_maxC g - next_free g fs)) (u32 size)); [lia|].
    destruct (Z.eqb_spec (Z.of_nat (length fs)) (g_numRoot g)); [lia|].
    pose proof (u32_range size). apply wp_copy_file_fails; (done || lia || apply Hread).
Qed.

(** On a volume whose first free cluster lies beyond its last one, [FAT32Copyin]
    stops in an assertion.  [createFAT32] produces such volumes: 16 sectors with
    clusters of four pass its checks. *)
Theorem FAT32Copyin_aborts g fs fuel fd nm attr errno0 size m :
  geom_wf g -> fat_rep g fs m -> os_fstat fd = Some size -> g_maxC g < next_free g fs ->
  FAT32Copyin fuel (g_buf g) fd nm attr errno0 m = AssertFail.
Proof.
  intros Hwf [Hcore _ _] Hstat Hroom. unfold FAT32Copyin. rewrite Hstat.
  pose proof (geom_facts g Hwf) as (Hb & _ & Hfit & _ & Hfb & Hsb & _).
  pose proof (gw_buf g Hwf). pose proof (fr_size _ _ _ Hcore) as Hsz. unfold g_end in Hsz.
  rewrite (bind_done _ _ _ _ _ (FAT32SuperInit_spec g fs fuel m Hwf Hcore)).
  change (bytesPerSector (super_of g fs)) with (g_bps g).
  change (sb_fsInfo (super_of g fs)) with (Some (g_buf g + g_bps g)).
  change (maxCluster (super_of g fs)) with (g_maxC g).
  erewrite bind_done; [|unfold c_div; rewrite (proj2 (Z.eqb_neq (g_bps g) 0)) by lia; reflexivity].
  erewrite bind_done; [|reflexivity]. unfold get at 1 2. eval_layout.
  do 2 (erewrite bind_done; [|apply generic_load_le_eq; [unfold is_width; lia | apply in_range_true; lia]]).
  rewrite (fr_next _ _ _ Hcore). unfold mbind at 1, cmd_bind at 1, c_assert at 1.
  by destruct (Z.geb_spec (g_maxC g) (next_free g fs)); [lia|].
Qed.

(** ** From the files to the volume and back *)

(** An input file: its descriptor, its name, the attributes to set and its contents. *)
Record source : Type := MkSource { src_fd : os_file; src_name : list Z; src_attr : Z; src_data : list Z }.

Definition source_ok (s : source) : Prop := name_ok (src_name s) /\ reads (src_fd s) (src_data s).
Definition afile_of (s : source) : afile := MkAFile (name11 (src_name s)) (u8 (src_attr s)) (src_data s).

(** One [FAT32Copyin] after the other; the sectors they return. *)
Fixpoint copy_files (fuel : nat) (buf : Z) (srcs : list source) (errno0 : Z) : cmd image (list Z) :=
  match srcs with
  | [] => mret []
  | s :: srcs' =>
      r ← FAT32Copyin fuel buf (src_fd s) (src_name s) (src_attr s) errno0;
      rest ← copy_files fuel buf srcs' r.2;
      mret (r.1 :: rest)
  end.

Fixpoint file_sectors (g : geom) (fs l : list afile) : list Z :=
  match l with [] => [] | f :: l' => file_sector g fs :: file_sectors g (fs ++ [f]) l' end.

Lemma file_sectors_lookup g fs l i :
  (i < length l)%nat -> file_sectors g fs l !! i = Some (file_sector g (fs ++ take i l)).
Proof.
  revert fs i. induction l as [|f l IH]; intros fs [|i] Hi; simpl in *; [lia|lia|by rewrite app_nil_r|].
  rewrite IH by lia. by rewrite <-app_assoc.
Qed.

Lemma length_file_sectors g fs l : length (file_sectors g fs l) = length l.
Proof. revert fs. induction l as [|f l IH]; intros; simpl; [done|]. by rewrite IH. Qed.

Lemma copy_files_ok g fuel srcs errno0 fs m :
  geom_wf g -> fat_rep g fs m -> Forall source_ok srcs ->
  Z.of_nat (length fs + length srcs) <= g_numRoot g ->
  next_free g (fs ++ (afile_of <$> srcs)) <= g_maxC g ->
  exists m', copy_files fuel (g_buf g) srcs errno0 m = Done (file_sectors g fs (afile_of <$> srcs), m') /\
    fat_rep g (fs ++ (afile_of <$> srcs)) m' /\ isize m' = isize m /\
    forall x, x < g_buf g \/ g_end g <= x -> ibyte m' x = ibyte m x.
Proof.
  intros Hwf. revert fs m. induction srcs as [|s srcs IH]; intros fs m Hrep Hok Hlen Hroom.
  - exists m. simpl. by rewrite app_nil_r.
  - apply Forall_cons in Hok as [[Hnm Hfd] Hok]. cbn [copy_files file_sectors fmap list_fmap] in *.
    replace (fs ++ afile_of s :: (afile_of <$> srcs)) with ((fs ++ [afile_of s]) ++ (afile_of <$> srcs))
      in * by by rewrite <-app_assoc.
    assert (next_free g (fs ++ [afile_of s]) <= g_maxC g) as Hroom1.
    { revert Hroom. unfold next_free. rewrite (used_app g (fs ++ [afile_of s])).
      pose proof (used_nonneg g (afile_of <$> srcs)). lia. }
    rewrite next_free_snoc in Hroom1. simpl in Hlen.
    destruct (FAT32Copyin_ok g fs fuel (src_fd s) (src_name s) (src_attr s) errno0 (src_data s) m)
      as (m1 & Hrun & Hrep1 & Hs1 & Hout1); [done..|lia|done|].
    destruct (IH (fs ++ [afile_of s]) m1) as (m' & Hrun' & Hrep' & Hs' & Hout');
      [done|done|rewrite length_app; simpl; lia|done|].
    exists m'. rewrite (bind_done _ _ _ _ _ Hrun), (bind_done _ _ _ _ _ Hrun'). split_and!; try done.
    + by rewrite Hs'.
    + intros x Hx. by rewrite Hout', Hout1.
Qed.

End WithHost.

(** ** Concrete runs *)

Definition demo_fat : FATConfig := MkFATConfig 64 512 1 false true.
Definition demo_geom : geom := config_geom 512 demo_fat.
Definition demo_disk : image := Img 40000 (fun _ => 7).
(** The file "a.tx" with two bytes. *)
Definition demo_name : list Z := [97; 46; 116; 120].
Definition demo_data : list Z := [104; 105].
Definition demo_fd : os_file := MkFile (Some 2) 0 (fun n => (2, demo_data)) 0.
Definition demo_source : source := MkSource demo_fd demo_name FAT_ATTR_READ_ONLY demo_data.
(** A descriptor whose reads are cut short. *)
Definition short_fd : os_file := MkFile (Some 2) 0 (fun n => (0, [])) 5.
(** Sixteen sectors with clusters of four. *)
Definition tiny_fat : FATConfig := MkFATConfig 16 512 4 false true.

Lemma demo_fat_ok : fat_config_ok demo_fat.
Proof. split; unfold valid_bps, valid_spc; vm_compute; intuition congruence. Qed.
Lemma tiny_fat_ok : fat_config_ok tiny_fat.
Proof. split; unfold valid_bps, valid_spc; vm_compute; intuition congruence. Qed.
Lemma demo_source_ok : source_ok demo_source.
Proof.
  split; [|by split]. split_and!; [|done|simpl; lia|simpl; lia].
  repeat constructor; simpl; lia.
Qed.

Section Demo.
#[local] Instance demo_host : Host := LittleEndian.

Lemma fresh_volume config :
  fat_config_ok config -> 512 + cBytesPerSector config * nSector config <= 40000 ->
  exists m, createFAT32 512 config demo_disk = Done (0, m) /\ fat_rep (config_geom 512 config) [] m.
Proof.
  intros Hok Hsz.
  assert (wp (createFAT32 512 config) (fun r m => r = 0 /\ fat_rep (config_geom 512 config) [] m) demo_disk)
    as (r & m & Hrun & -> & Hrep)%wp_run by (by apply wp_createFAT32).
  by exists m.
Qed.

Lemma createFAT32_formats_witness :
  exists m', createFAT32 512 demo_fat demo_disk = Done (0, m') /\ ibyte m' 511 = 7.
Proof.
  destruct (createFAT32_formats 512 demo_fat demo_disk ltac:(lia) demo_fat_ok ltac:(vm_compute; congruence))
    as (m' & Hrun & _ & _ & Hout).
  exists m'. split; [exact Hrun | apply Hout; lia].
Defined.

Lemma FAT32Copyin_appends_witness : exists m m',
  createFAT32 512 demo_fat demo_disk = Done (0, m) /\
  FAT32Copyin 0 512 demo_fd demo_name FAT_ATTR_READ_ONLY 0 m = Done ((11, 0), m') /\
  rd m' (512 + 11 * 512) 2 = demo_data.
Proof.
  destruct (fresh_volume demo_fat demo_fat_ok ltac:(vm_compute; congruence)) as (m & Hrun & Hrep).
  destruct demo_source_ok as [Hnm Hfd].
  destruct (FAT32Copyin_appends demo_geom [] 0 demo_fd demo_name FAT_ATTR_READ_ONLY 0 demo_data m
    (config_geom_wf 512 demo_fat ltac:(lia) demo_fat_ok) Hrep Hnm Hfd ltac:(vm_compute; congruence)
    ltac:(vm_compute; congruence)) as (m' & Hrun' & _ & _ & Hdata & _).
  exists m, m'. split; [exact Hrun|]. split; [exact Hrun' | exact Hdata].
Defined.

Lemma FAT32Copyin_errors_witness : exists m,
  createFAT32 512 demo_fat demo_disk = Done (0, m) /\
  copy_failed demo_geom [] m 5 (FAT32Copyin 0 512 short_fd demo_name FAT_ATTR_READ_ONLY 0 m).
Proof.
  destruct (fresh_volume demo_fat demo_fat_ok ltac:(vm_compute; congruence)) as (m & Hrun & Hrep).
  exists m. split; [exact Hrun|].
  destruct (FAT32Copyin_errors demo_geom [] 0 short_fd demo_name FAT_ATTR_READ_ONLY 0 m
    (config_geom_wf 512 demo_fat ltac:(lia) demo_fat_ok) Hrep ltac:(vm_compute; congruence)
    ltac:(intros; simpl; lia)) as [_ H].
  apply H; [vm_compute; congruence | vm_compute; congruence | right; vm_compute; congruence].
Defined.

Lemma FAT32Copyin_aborts_witness : exists m,
  createFAT32 512 tiny_fat demo_disk = Done (0, m) /\
  FAT32Copyin 0 512 demo_fd demo_name FAT_ATTR_READ_ONLY 0 m = AssertFail.
Proof.
  destruct (fresh_volume tiny_fat tiny_fat_ok ltac:(vm_compute; congruence)) as (m & Hrun & Hrep).
  exists m. split; [exact Hrun|].
  apply (FAT32Copyin_aborts (config_geom 512 tiny_fat) [] 0 demo_fd demo_name FAT_ATTR_READ_ONLY 0 2 m
    (config_geom_wf 512 tiny_fat ltac:(lia) tiny_fat_ok) Hrep eq_refl). vm_compute. congruence.
Defined.


Lemma FAT_locate_entry_witness : exists m,
  createFAT32 512 demo_fat demo_disk = Done (0, m) /\
  exists sec off, clusterToFATEntry 512 5 m = Done (2 ^ 32 * sec + off, m) /\ 0 <= off < 512.
Proof.
  destruct (fresh_volume demo_fat demo_fat_ok ltac:(vm_compute; congruence)) as (m & Hrun & Hrep).
  exists m. split; [exact Hrun|].
  destruct (FAT_locate_entry eq_refl demo_geom [] m 5 (config_geom_wf 512 demo_fat ltac:(lia) demo_fat_ok)
    (fr_core _ _ _ Hrep) ltac:(split; vm_compute; congruence)) as (sec & off & H & _ & Hoff & _).
  exists sec, off. split; [exact H | exact Hoff].
Defined.

Lemma createFAT32_refuses_witness :
  createFAT32 0 (MkFATConfig 64 500 1 false true) demo_disk = Done (1, demo_disk) /\
  createFAT32 0 (MkFATConfig 16 512 8 false true) demo_disk = AssertFail.
Proof.
  split.
  - apply (createFAT32_refuses 0 (MkFATConfig 64 500 1 false true) demo_disk).
    right. left. unfold valid_bps. simpl. lia.
  - apply (createFAT32_refuses 0 (MkFATConfig 16 512 8 false true) demo_disk); unfold valid_bps, valid_spc;
      simpl; try lia. vm_compute. congruence.
Defined.
End Demo.
