(* ===== verification/Disk.v ===== *)
(** * The disk programs: [src/gpt/mkgpt.c], [src/gpt/installer.c], [src/gpt/readgpt.c]

    [mkgpt] builds a bootable disk image in memory, [installer] does the same in
    a mapped image file or block device, and [readgpt] extracts the partitions of
    an image.  The system calls they make are fields of an environment record;
    the state of a program is the buffer it has mapped. *)
From Stdlib Require Import ZArith Lia.
From stdpp Require Import base tactics list numbers list_numbers strings.
From S2P Require Import Prelude Memory Endian Gpt Fat.
Open Scope Z_scope.

(** ** Programs

    A program goes on with a value or exits with a code. *)
Inductive ctl (A : Type) : Type :=
| Go (a : A)
| Exit (code : Z).
Arguments Go {A} a.
Arguments Exit {A} code.

Definition prog (A : Type) : Type := cmd image (ctl A).

#[export] Instance prog_ret : MRet prog := fun A a s => Done (Go a, s).
#[export] Instance prog_bind : MBind prog := fun A B f c s =>
  match c s with
  | Done (Go a, s') => f a s'
  | Done (Exit e, s') => Done (Exit e, s')
  | AssertFail => AssertFail
  | Fault => Fault
  | Diverged => Diverged
  end.

Definition exit {A} (code : Z) : prog A := fun s => Done (Exit code, s).
Definition run {A} (c : cmd image A) : prog A := fun s =>
  match c s with
  | Done (a, s') => Done (Go a, s')
  | AssertFail => AssertFail
  | Fault => Fault
  | Diverged => Diverged
  end.
(** Mapping a buffer: [None] is [MAP_FAILED]. *)
Definition map_buffer (o : option image) : prog bool := fun s =>
  match o with Some m => Done (Go true, m) | None => Done (Go false, s) end.

(** ** Files *)

Definition EBADF : Z := 9.
(** What the calls on a descriptor of a failed [open] do. *)
Definition bad_fd : os_file := MkFile None (-1) (fun _ => (-1, [])) EBADF.
Definition fd_of (o : option os_file) : os_file := default bad_fd o.

(** Paths and names. *)
Definition path : Type := list Z.
Definition path_eqb (a b : path) : bool := bool_decide (a = b).

(** ** [mkgpt.c] *)
Module Mkgpt.
Section WithHost.
Context {host : Host}.
Definition disk_size : Z := 1024 * 1024 * 256.
Definition disk_volume : Z := disk_size / GPT_SECTOR_SIZE.

(** The partitions and the configuration that [main] fills in. *)
Definition pc : list PartitionConfig :=
  [MkPart EFI_SYSTEM_PARTITION myDiskID (Some (c_str "Boot Partition")) 262140 0;
   MkPart EFI_SYSTEM_PARTITION myDiskID (Some (c_str "Filesystem")) (u64 (disk_volume - 5 - 262140)) 0].
Definition mkgpt_config : GPTConfig := MkGPT disk_volume 2 (Some pc) myDiskID.

(** Results of the calls: [open] of the output, [mmap], [open] of an input file
    and the value of the final [write]. *)
Record mkgpt_env : Type := MkEnv {
  img_opens : bool; mmap_ok : bool; open_ro : path -> option os_file; write_result : Z }.

(** The macro definitions printed to the generated header. *)
Definition defines : Type := list (string * Z).

Definition sysFlag : Z := Z.lor FAT_ATTR_READ_ONLY FAT_ATTR_SYSTEM.

Definition mkgpt_main (fuel : nat) (e : mkgpt_env) : prog defines :=
  if negb (img_opens e) then exit 1
  else
    mapped ← map_buffer (if mmap_ok e then Some (Img disk_size (fun _ => 0)) else None);
    if negb mapped then exit 1
    else
      r ← run (GPTGenerate mkgpt_config);
      if negb (numPart mkgpt_config =? r.1) then exit 1
      else
        parts ← run (c_deref (partitions r.2));
        p0 ← run (c_deref (parts !! 0%nat));
        p1 ← run (c_deref (parts !! 1%nat));
        let fconfig := MkFATConfig (u32 (volume p0)) GPT_SECTOR_SIZE 8 false true in
        let sectorForFAT := u64 (GPT_SECTOR_SIZE * startLBA p0) in
        _ ← run (createFAT32 sectorForFAT fconfig);
        boot ← run (FAT32Copyin fuel sectorForFAT (fd_of (open_ro e (c_str "../bootloader/linuz.bin")))
                      (c_str "linuz") sysFlag 0);
        kernel ← run (FAT32Copyin fuel sectorForFAT (fd_of (open_ro e (c_str "../bootloader/kernel")))
                        (c_str "kernel") sysFlag boot.2);
        busybox ← run (FAT32Copyin fuel sectorForFAT (fd_of (open_ro e (c_str "/usr/bin/busybox")))
                         (c_str "busybox") FAT_ATTR_READ_ONLY kernel.2);
        init ← run (FAT32Copyin fuel sectorForFAT (fd_of (open_ro e (c_str "init")))
                      (c_str "init") FAT_ATTR_READ_ONLY busybox.2);
        _ ← run (store_bytes 0 (os_read (fd_of (open_ro e (c_str "mbr.img"))) 440).2);
        if negb (write_result e =? disk_size) then exit 1
        else mret [("PARTITION_0_START"%string, startLBA p0); ("PARTITION_1_START"%string, startLBA p1);
                   ("BOOTLOADER_OFFSET"%string, boot.1); ("KERNEL_OFFSET"%string, kernel.1);
                   ("BUSYBOX_OFFSET"%string, busybox.1); ("INIT_OFFSET"%string, init.1)].
End WithHost.
End Mkgpt.

(** ** [installer.c] *)
Module Installer.
Section WithHost.
Context {host : Host}.

(** From the last slash on, the slash included; the whole path if it has none. *)
Fixpoint basename_from (ret pt : path) : path :=
  match pt with
  | [] => ret
  | c :: pt' => basename_from (if c =? 47 then pt else ret) pt'
  end.
Definition basename (p : path) : path := basename_from p p.

Record stat : Type := MkStat { st_mode : Z; st_size : Z }.
Definition S_IFMT : Z := 0xF000.
Definition S_IFREG : Z := 0x8000.
Definition S_IFBLK : Z := 0x6000.

(** [sysfs p] is the number in the file [p], [None] when it cannot be opened.
    The path is printed into an array of 192 bytes. *)
Definition fdsize (st : option stat) (p : path) (sysfs : path -> option Z) : prog Z :=
  match st with
  | None => exit 1
  | Some st =>
      if Z.land (st_mode st) S_IFREG =? S_IFREG then mret (st_size st)
      else if Z.land (st_mode st) S_IFMT =? S_IFBLK then
        let sbuf := c_str "/sys/class/block/" ++ basename p ++ c_str "/size" in
        if Z.of_nat (length sbuf) + 1 >? 192 then run c_fault
        else match sysfs sbuf with None => exit 1 | Some ret => mret (u64 (ret * 512)) end
      else exit 1
  end.

(** The size of the boot partition is given in MiB. *)
Definition parts (disk_volume boot_size : Z) : list PartitionConfig :=
  let v0 := boot_size / GPT_SECTOR_SIZE in
  [MkPart EFI_SYSTEM_PARTITION myDiskID (Some (c_str "Boot Partition")) v0 0;
   MkPart EFI_SYSTEM_PARTITION myDiskID (Some (c_str "Filesystem")) (u64 (disk_volume - 5 - v0)) 0].

Definition mkpart (disk_size boot_size : Z) : prog GPTConfig :=
  let disk_volume := disk_size / GPT_SECTOR_SIZE in
  let boot_size := u64 (boot_size * (1024 * 1024)) in
  if u64 (boot_size + GPT_SECTOR_SIZE * 64) >? disk_size then exit 1
  else
    let config := MkGPT disk_volume 2 (Some (parts disk_volume boot_size)) myDiskID in
    r ← run (GPTGenerate config);
    if negb (numPart config =? r.1) then exit 1 else mret r.2.

(** The result is the sector printed and the value of [FAT32Errno]. *)
Definition copyin (fuel : nat) (fat : Z) (src : option os_file) (nm : path) (errno : Z) : prog (Z * Z) :=
  let sysFlag := Z.lor FAT_ATTR_READ_ONLY FAT_ATTR_SYSTEM in
  match src with
  | None => exit 1
  | Some fd =>
      r ← run (FAT32Copyin fuel fat fd nm sysFlag errno);
      if r.1 =? 0 then exit 1 else mret r
  end.

(** *** Arguments *)

(** [atoi]: spaces, a sign, digits; [None] when the value is no [int]. *)
Fixpoint digits (acc : Z) (s : path) : Z :=
  match s with
  | c :: s' => if (48 <=? c) && (c <=? 57) then digits (10 * acc + (c - 48)) s' else acc
  | [] => acc
  end.
Fixpoint skip_space (s : path) : path :=
  match s with
  | c :: s' => if (c =? 32) || ((9 <=? c) && (c <=? 13)) then skip_space s' else s
  | [] => []
  end.
Definition atoi (s : path) : option Z :=
  let v := match skip_space s with
           | 45 :: s' => - digits 0 s'
           | 43 :: s' => digits 0 s'
           | s' => digits 0 s'
           end in
  if (- 2 ^ 31 <=? v) && (v <? 2 ^ 31) then Some v else None.

Record args : Type := MkArgs {
  path_bzimage : option path; path_busybox : option path; dst : option path;
  arg_boot_size : Z; print_help : bool }.
Definition no_args : args := MkArgs None None None 64 false.

(** The loop over [argv]; [argv[argc]] is a null pointer, which [atoi] must not get. *)
Fixpoint parse_args (fuel : nat) (argv : list path) (i : nat) (a : args) : outcome args :=
  match fuel with
  | O => Diverged
  | S fuel' =>
      match argv !! i with
      | None => Done a
      | Some cur =>
          if path_eqb cur (c_str "-h") || path_eqb cur (c_str "--help")
          then Done (MkArgs (path_bzimage a) (path_busybox a) (dst a) (arg_boot_size a) true)
          else if path_eqb cur (c_str "-k") then
            parse_args fuel' argv (i + 2)
              (MkArgs (argv !! (i + 1)%nat) (path_busybox a) (dst a) (arg_boot_size a) (print_help a))
          else if path_eqb cur (c_str "-d") then
            parse_args fuel' argv (i + 2)
              (MkArgs (path_bzimage a) (path_busybox a) (argv !! (i + 1)%nat) (arg_boot_size a) (print_help a))
          else if path_eqb cur (c_str "-s") then
            match argv !! (i + 1)%nat ≫= atoi with
            | None => Fault
            | Some n =>
                parse_args fuel' argv (i + 2)
                  (MkArgs (path_bzimage a) (path_busybox a) (dst a) (u64 n) (print_help a))
            end
          else if path_eqb cur (c_str "-busybox") then
            parse_args fuel' argv (i + 2)
              (MkArgs (path_bzimage a) (argv !! (i + 1)%nat) (dst a) (arg_boot_size a) (print_help a))
          else parse_args fuel' argv i a
      end
  end.

(** Results of the calls: [open] of the destination with what [fstat] says of it,
    the size files of block devices, the mapping of the destination, and [open]
    of an input file. *)
Record installer_env : Type := MkEnv {
  open_dst : path -> option (option stat); sysfs : path -> option Z;
  mmap : Z -> option image; open_ro : path -> option os_file }.

(** The lines printed for the copied files. *)
Definition copied : Type := list (path * Z).

Definition installer_main (fuel : nat) (e : installer_env) (argv : list path) : prog copied :=
  a ← (fun s => match parse_args fuel argv 1 no_args with
                | Done a => Done (Go a, s)
                | AssertFail => AssertFail | Fault => Fault | Diverged => Diverged
                end);
  if print_help a then exit 0
  else match path_bzimage a, dst a, path_busybox a with
  | None, _, _ | _, None, _ | _, _, None => exit 1
  | Some bzimage, Some d, Some busybox =>
      match open_dst e d with
      | None => exit 1
      | Some st =>
          size ← fdsize st d (sysfs e);
          let disk_size := size / 4096 * 4096 in
          mapped ← map_buffer (mmap e disk_size);
          if negb mapped then exit 1
          else
            config ← mkpart disk_size (arg_boot_size a);
            parts ← run (c_deref (partitions config));
            p0 ← run (c_deref (parts !! 0%nat));
            let fconfig := MkFATConfig (u32 (volume p0)) GPT_SECTOR_SIZE 8 false true in
            let sectorForFAT := u64 (GPT_SECTOR_SIZE * startLBA p0) in
            _ ← run (createFAT32 sectorForFAT fconfig);
            loader ← copyin fuel sectorForFAT (open_ro e (c_str "linuz.bin")) (c_str "loader") 0;
            kernel ← copyin fuel sectorForFAT (open_ro e bzimage) (c_str "kernel") loader.2;
            bb ← copyin fuel sectorForFAT (open_ro e busybox) (c_str "busybox") kernel.2;
            init ← copyin fuel sectorForFAT (open_ro e (c_str "init.elf")) (c_str "init") bb.2;
            let '(n, code) := os_read (fd_of (open_ro e (c_str "mbr.img"))) 440 in
            _ ← run (store_bytes 0 code);
            if n <? 0 then exit 1
            else mret [(c_str "linuz.bin", loader.1); (bzimage, kernel.1); (busybox, bb.1);
                       (c_str "init.elf", init.1)]
      end
  end.
End WithHost.
End Installer.

(** ** [readgpt.c] *)
Module Readgpt.
Section WithHost.
Context {host : Host}.

(** Results of the calls: the input file as [open], [fstat] and [mmap] show it
    (its size and, for the length of the mapping, its bytes), whether output
    number [i] can be created, [malloc], and the page size.  The result of
    [mmap] is not checked: reading through [MAP_FAILED] faults. *)
Record readgpt_env : Type := MkEnv {
  input : option (option (Z * (Z -> option image))); creates : nat -> bool; alloc : Z -> bool; pagesize : Z }.

(** [mapLen += pageSize - 1; mapLen &= ~(pageSize - 1)] *)
Definition map_len (size pageSize : Z) : Z :=
  Z.land (u64 (size + u64 (pageSize - 1))) (u64 (Z.lnot (pageSize - 1))).

(** One line of the listing and the file [i.img]; [None] when the partition
    does not lie in the mapping, so that [write] cannot read all of it. *)
Record extract : Type := MkExtract { x_index : nat; x_start : Z; x_end : Z; x_bytes : option (list Z) }.

Definition saved (m : image) (start volume : Z) : option (list Z) :=
  let a := u64 (start * GPT_SECTOR_SIZE) in
  let n := u64 (volume * GPT_SECTOR_SIZE) in
  if in_range m a n then Some (rd m a n) else None.

Fixpoint extract_all (creates : nat -> bool) (i : nat) (ps : list PartitionConfig) : prog (list extract) :=
  match ps with
  | [] => mret []
  | part :: ps' =>
      if startLBA part =? 0 then extract_all creates (S i) ps'
      else if negb (creates i) then exit 1
      else
        bytes ← run (fun m => Done (saved m (startLBA part) (volume part), m));
        rest ← extract_all creates (S i) ps';
        mret (MkExtract i (startLBA part) (u64 (startLBA part + volume part - 1)) bytes :: rest)
  end.

Definition readgpt_main (e : readgpt_env) (has_arg : bool) : prog (list extract) :=
  if negb has_arg then exit 0
  else match input e with
  | None => exit 1
  | Some None => exit 1
  | Some (Some (size, bytes)) =>
      let mapLen := map_len size (pagesize e) in
      mapped ← map_buffer (bytes mapLen);
      _ ← run (c_deref (if (mapped : bool) then Some tt else None));
      r ← run (GPTParse (alloc e) (MkGPT 0 0 None (MkGUID 0 0 0 0 0 [])));
      if negb (r.1 =? 0) then exit 1
      else
        parts ← run (c_deref (partitions r.2));
        extract_all (creates e) 0 parts
  end.
End WithHost.
End Readgpt.
