(* ===== verification/DiskTheorems.v ===== *)
(** * The disk programs build a consistent disk

    The partition table of [GPTGenerate] and the volume that [createFAT32] and
    [FAT32Copyin] build inside the first partition do not disturb one another;
    [mkgpt] and [installer] put them together with the boot code. *)
From Stdlib Require Import ZArith Lia.
From stdpp Require Import base tactics list numbers list_numbers strings.
From S2P Require Import Prelude Memory Endian Crc32 Gpt GptSpec GptTheorems Fat FatSpec FatRep FatCreate FatSuper FatFrame FatCopy FatTheorems Disk.
Open Scope Z_scope.

(** ** Rules for programs *)

Lemma wp_run_bind {A B} (c : cmd image A) (k : A -> prog B) (Q : ctl B -> image -> Prop) m :
  wp c (fun a => wp (k a) Q) m -> wp (mbind (M := prog) k (run c)) Q m.
Proof.
  unfold wp, mbind, prog_bind, run. by destruct (c m) as [[a m']| | |].
Qed.

Lemma wp_prog_bind {A B} (c : prog A) (k : A -> prog B) (Q : ctl B -> image -> Prop) m :
  wp c (fun r m' => match r with Go a => wp (k a) Q m' | Exit e => Q (Exit e) m' end) m ->
  wp (mbind (M := prog) k c) Q m.
Proof. unfold wp, mbind, prog_bind. by destruct (c m) as [[[a|e] m']| | |]. Qed.

Lemma wp_prog_ret {A} (a : A) (Q : ctl A -> image -> Prop) m : Q (Go a) m -> wp (mret (M := prog) a) Q m.
Proof. done. Qed.

Lemma wp_map_buffer m (Q : ctl bool -> image -> Prop) s : Q (Go true) m -> wp (map_buffer (Some m)) Q s.
Proof. done. Qed.

(** ** Frames *)

Lemma fat_rep_frame g fs m m' :
  geom_wf g -> fat_rep g fs m -> isize m' = isize m ->
  (forall x, g_buf g <= x < g_end g -> ibyte m' x = ibyte m x) -> fat_rep g fs m'.
Proof.
  intros Hwf [Hcore Hb Hi] Hs Hsame.
  pose proof (geom_facts g Hwf) as (Hbps & Hsp & Hfit & Hmax & Hfb & Hsb & Hent & Hroot & _).
  pose proof (geom_addrs g Hwf) as (A0 & A1 & A2 & A3 & Hbuf & Hbpc & _ & A5).
  assert (g_addr g (next_free g fs) <= g_end g) as Hlast.
  { destruct (decide (fs = [])) as [->|Hne]; [unfold g_addr, next_free; simpl; lia|].
    pose proof (fr_room _ _ _ Hcore Hne) as Hroom. unfold g_addr.
    assert (g_bpc g * next_free g fs <= g_bpc g * g_maxC g) by (apply Z.mul_le_mono_nonneg_l; lia). lia. }
  unfold g_end in *.
  assert (forall a n, g_buf g <= a -> a + n <= g_buf g + g_bps g * g_n g -> rd m' a n = rd m a n) as R.
  { intros. apply rd_ext. intros. apply Hsame. lia. }
  split; [|by rewrite !R by lia..].
  apply (fat_core_frame _ _ m); [done..|]. intros x [Hx Hx']. apply Hsame. lia.
Qed.

(** ** Both structures on one disk *)

Section WithHost.
Context {host : Host}.

(** The volume lies between the entry array and the backup header. *)
Record volume_inside (c : GPTConfig) (cps : list PartitionConfig) (g : geom) : Prop := {
  vi_array : 1024 + 128 * Z.of_nat (n_created c cps) <= g_buf g;
  vi_header : 604 <= g_buf g;
  vi_end : g_end g <= (gvolume c - 1) * 512 }.

Section Build.
Context (c : GPTConfig) (cps : list PartitionConfig) (m0 : image) (g : geom).
Context (Hwf : geom_wf g) (Hin : volume_inside c cps g).

Record disk_state (fs : list afile) (m : image) : Prop := {
  ds_table : gpt_table c cps m;
  ds_fat : fat_rep g fs m;
  ds_size : isize m = isize m0 }.

Lemma table_outside x : table_byte c cps x -> x < g_buf g \/ g_end g <= x.
Proof. destruct Hin. unfold table_byte. lia. Qed.

Lemma wp_disk_copy fuel fd nm attr errno0 data fs (Q : Z * Z -> image -> Prop) m :
  let f := MkAFile (name11 nm) (u8 attr) data in
  disk_state fs m -> name_ok nm -> reads fd data -> Z.of_nat (length fs) < g_numRoot g ->
  next_free g fs + clusters g f <= g_maxC g ->
  (forall m', disk_state (fs ++ [f]) m' -> Q (file_sector g fs, errno0) m') ->
  wp (FAT32Copyin fuel (g_buf g) fd nm attr errno0) Q m.
Proof.
  intros f [Ht Hf Hs] Hnm Hfd Hlen Hroom HQ.
  destruct (FAT32Copyin_ok g fs fuel fd nm attr errno0 data m) as (m' & Hrun & Hrep & Hs' & Hout); [done..|].
  eapply wp_eq; [exact Hrun|]. apply HQ. split.
  - apply (gpt_table_frame _ _ m); [done..|]. intros x Hx. apply Hout, table_outside, Hx.
  - done.
  - by rewrite Hs'.
Qed.

(** The copy of file number [k] of a list that fits the volume. *)
Lemma wp_copy_next fuel fd nm attr errno0 data fs k (Q : Z * Z -> image -> Prop) m :
  fs !! k = Some (MkAFile (name11 nm) (u8 attr) data) ->
  Z.of_nat (length fs) <= g_numRoot g -> next_free g fs <= g_maxC g ->
  disk_state (take k fs) m -> name_ok nm -> reads fd data ->
  (forall m', disk_state (take (S k) fs) m' -> Q (file_sector g (take k fs), errno0) m') ->
  wp (FAT32Copyin fuel (g_buf g) fd nm attr errno0) Q m.
Proof.
  intros Hk Hlen Hroom Hd Hnm Hfd HQ. pose proof (lookup_lt_Some _ _ _ Hk) as Hlt.
  apply (wp_disk_copy fuel fd nm attr errno0 data (take k fs)); [done..| | |].
  - rewrite length_take. lia.
  - rewrite <-next_free_snoc, <-(take_S_r _ _ _ Hk). revert Hroom.
    rewrite <-(take_drop (S k) fs) at 1. unfold next_free. rewrite used_app.
    pose proof (used_nonneg g (drop (S k) fs)). lia.
  - intros m'. rewrite <-(take_S_r _ _ _ Hk). apply HQ.
Qed.

(** The boot code takes the first 440 bytes at most. *)
Lemma wp_boot_code code fs (Q : unit -> image -> Prop) m :
  disk_state fs m -> (length code <= 440)%nat ->
  (forall m', disk_state fs m' -> rd m' 0 (Z.of_nat (length code)) = code -> Q tt m') ->
  wp (store_bytes 0 code) Q m.
Proof.
  intros [Ht Hf Hs] Hl HQ. pose proof (gt_size _ _ _ Ht) as Hsz. destruct Hin as [H1 H2 H3].
  pose proof (geom_facts g Hwf) as (Hbps & _ & Hfit & _ & Hfb & Hsb & _). unfold g_end in *.
  apply wp_store_bytes; [lia | lia |]. apply HQ; [split|].
  - apply (gpt_table_frame _ _ m); [done..|]. intros x Hx. apply ibyte_wr_out. unfold table_byte in Hx. lia.
  - apply (fat_rep_frame _ _ m); [done..|]. intros x Hx. apply ibyte_wr_out. lia.
  - done.
  - by apply rd_wr_same.
Qed.
End Build.

Lemma wp_disk_format c cps m0 buf config (Q : Z -> image -> Prop) m :
  let g := config_geom buf config in
  fat_config_ok config -> volume_inside c cps g -> gpt_table c cps m -> isize m = isize m0 ->
  (forall m', disk_state c cps m0 g [] m' -> Q 0 m') ->
  wp (createFAT32 buf config) Q m.
Proof.
  intros g Hok Hin Ht Hs HQ. pose proof (gt_size _ _ _ Ht). pose proof (vi_header _ _ _ Hin) as H2.
  pose proof (vi_end _ _ _ Hin). change (g_buf g) with buf in H2.
  apply wp_createFAT32; [lia | done | fold g; lia |]. intros m' Hrep Hs' Hout. apply HQ. split.
  - apply (gpt_table_frame _ _ m); [done..|]. intros x Hx. apply Hout.
    change buf with (g_buf g). by apply (table_outside c cps).
  - done.
  - by rewrite Hs'.
Qed.

(** ** Two partitions that fill the disk *)

Definition two_parts (V : Z) (p0 p1 : PartitionConfig) : GPTConfig := MkGPT V 2 (Some [p0; p1]) myDiskID.

Lemma two_parts_created V p0 p1 :
  volume p0 + volume p1 <= V - 5 -> 0 <= volume p0 -> 0 <= volume p1 ->
  n_created (two_parts V p0 p1) [p0; p1] = 2%nat /\
  created (two_parts V p0 p1) [p0; p1] = [set_startLBA p0 3; set_startLBA p1 (3 + volume p0)] /\
  placed (two_parts V p0 p1) [p0; p1] = [set_startLBA p0 3; set_startLBA p1 (3 + volume p0)].
Proof.
  intros. unfold placed, created, n_created, two_parts.
  cbn [numPart gvolume]. change (nSectorForArray 2) with 1.
  assert (fits (V - 4 - 1) [p0; p1] = 2%nat) as ->; [|done]. cbn [fits].
  destruct (Z.ltb_spec (V - 4 - 1) (volume p0)); [lia|].
  destruct (Z.ltb_spec (V - 4 - 1 - volume p0) (volume p1)); [lia|done].
Qed.

(** [GPTGenerate] on such a disk. *)
Lemma wp_two_parts V p0 p1 (Q : Z * GPTConfig -> image -> Prop) m :
  let c := two_parts V p0 p1 in
  let ps := [set_startLBA p0 3; set_startLBA p1 (3 + volume p0)] in
  host_order = LittleEndian -> config_wf c [p0; p1] m -> volume p0 + volume p1 <= V - 5 ->
  (forall m', gpt_table c [p0; p1] m' -> isize m' = isize m -> Q (2, set_partitions c 2 (Some ps)) m') ->
  wp (GPTGenerate c) Q m.
Proof.
  intros c ps Hh Hc Hsum HQ. pose proof (cw_each _ _ _ Hc) as Hp.
  apply Forall_cons in Hp as [Hp0 Hp]. apply Forall_cons in Hp as [Hp1 _].
  destruct Hp0 as (_ & _ & Hv0 & _), Hp1 as (_ & _ & Hv1 & _).
  destruct (two_parts_created V p0 p1) as (Hn & Hcr & Hpl); [lia..|].
  apply (wp_GPTGenerate c [p0; p1]); [done | done | simpl; lia | |].
  { simpl gvolume. change (nSectorForArray (numPart c)) with 1. lia. }
  intros m' Hw. unfold c. rewrite Hpl, Hn. apply HQ; [|apply Hw].
  by apply (gpt_written_table c [p0; p1] m m).
Qed.

(** The contents of a finished disk: what [GPTParse] and a FAT reader see. *)
Record disk_holds (c : GPTConfig) (ps : list PartitionConfig) (g : geom) (fs : list afile) (code : list Z)
    (m : image) : Prop := {
  dh_parse : forall c0, GPTParse (fun _ => true) c0 m
    = Done ((0, set_partitions c0 (Z.of_nat (length ps)) (Some ps)), m);
  dh_primary : gpt_header_ok m 1 = true;
  dh_backup : gpt_header_ok m (gvolume c - 1) = true;
  dh_files : forall i f fuel, fs !! i = Some f -> clusters g f <= Z.of_nat fuel ->
    read_file g fuel m (Z.of_nat i) = Some f;
  dh_data : forall i f, fs !! i = Some f ->
    rd m (g_buf g + file_sector g (take i fs) * g_bps g) (a_size f) = a_data f;
  dh_size : gvolume c * 512 <= isize m;
  dh_code : rd m 0 (Z.of_nat (length code)) = code }.

Lemma disk_state_holds V p0 p1 m0 g fs code m :
  let c := two_parts V p0 p1 in
  config_wf c [p0; p1] m0 -> volume p0 + volume p1 <= V - 5 -> geom_wf g ->
  disk_state c [p0; p1] m0 g fs m -> rd m 0 (Z.of_nat (length code)) = code ->
  disk_holds c [set_startLBA p0 3; set_startLBA p1 (3 + volume p0)] g fs code m.
Proof.
  intros c Hc Hsum Hwf [Ht Hf _] Hcode. pose proof (cw_each _ _ _ Hc) as Hp.
  apply Forall_cons in Hp as [Hp0 Hp]. apply Forall_cons in Hp as [Hp1 _].
  destruct Hp0 as (_ & _ & Hv0 & _), Hp1 as (_ & _ & Hv1 & _).
  destruct (two_parts_created V p0 p1) as (Hn & Hcr & _); [lia..|].
  assert (4 + nSectorForArray (numPart c) <= gvolume c) as Hfit.
  { simpl gvolume. change (nSectorForArray (numPart c)) with 1. lia. }
  destruct (gpt_table_headers c [p0; p1] m0 m) as [H1 H2]; [done | simpl; lia | done | done |].
  split; try done.
  - intros c0. rewrite (GPTParse_table (fun _ => true) c c0 [p0; p1] m0 m) by (done || simpl; lia).
    unfold c. by rewrite Hn, Hcr.
  - intros i f fuel Hi Hfuel. eapply read_file_rep; [done | apply Hf | done | done].
  - intros i f Hi. rewrite file_sector_addr. exact (fr_data _ _ _ (fr_core _ _ _ Hf) i f Hi).
  - exact (gt_size _ _ _ Ht).
Qed.

(** ** [mkgpt] *)

Definition mkgpt_fat : FATConfig := MkFATConfig 262140 512 8 false true.
Definition mkgpt_geom : geom := config_geom 1536 mkgpt_fat.

Lemma mkgpt_fat_ok : fat_config_ok mkgpt_fat.
Proof. split; unfold valid_bps, valid_spc; vm_compute; intuition congruence. Qed.

Lemma fixed_guids_wf : guid_wf EFI_SYSTEM_PARTITION /\ guid_wf myDiskID.
Proof. split; solve_guid_wf. Qed.

Lemma c_string_bool s : forallb (fun c => (0 <? c) && (c <? 256)) s = true -> c_string s.
Proof.
  intros H. apply Forall_forall. intros c Hc. rewrite forallb_forall in H.
  specialize (H c (proj1 (list_elem_of_In _ _) Hc)). apply andb_prop in H as [H1 H2]. lia.
Qed.

Definition p_boot : list Z := c_str "Boot Partition".
Definition p_fs : list Z := c_str "Filesystem".

Lemma part_names_ok : (c_string p_boot /\ (length p_boot <= 36)%nat) /\ c_string p_fs /\ (length p_fs <= 36)%nat.
Proof. split_and!; (by apply c_string_bool) || (vm_compute; lia). Qed.

(** The configurations of the two programs are well formed. *)
Lemma two_parts_wf V v0 v1 m :
  let p0 := MkPart EFI_SYSTEM_PARTITION myDiskID (Some p_boot) v0 0 in
  let p1 := MkPart EFI_SYSTEM_PARTITION myDiskID (Some p_fs) v1 0 in
  0 < v0 < 2 ^ 64 -> 0 < v1 < 2 ^ 64 -> 0 <= V < 2 ^ 55 -> V * 512 <= isize m ->
  config_wf (two_parts V p0 p1) [p0; p1] m.
Proof.
  intros p0 p1 H0 H1 HV Hsz. destruct fixed_guids_wf as [Ht Hd], part_names_ok as ((N0 & N1) & N2 & N3).
  split; try done. repeat apply Forall_cons_2; [| |apply Forall_nil_2];
    (split_and!; [done | done | simpl; lia | simpl; lia |]); eexists; (split; [reflexivity|done]).
Qed.

(** The inputs of a run in which every call succeeds. *)
Record mkgpt_inputs (e : Mkgpt.mkgpt_env) (boot kernel busybox init code : list Z) : Prop := {
  mi_img : Mkgpt.img_opens e = true;
  mi_mmap : Mkgpt.mmap_ok e = true;
  mi_write : Mkgpt.write_result e = Mkgpt.disk_size;
  mi_boot : exists fd, Mkgpt.open_ro e (c_str "../bootloader/linuz.bin") = Some fd /\ reads fd boot;
  mi_kernel : exists fd, Mkgpt.open_ro e (c_str "../bootloader/kernel") = Some fd /\ reads fd kernel;
  mi_busybox : exists fd, Mkgpt.open_ro e (c_str "/usr/bin/busybox") = Some fd /\ reads fd busybox;
  mi_init : exists fd, Mkgpt.open_ro e (c_str "init") = Some fd /\ reads fd init;
  mi_code : exists fd, Mkgpt.open_ro e (c_str "mbr.img") = Some fd /\ (os_read fd 440).2 = code;
  mi_code_size : (length code <= 440)%nat }.

Definition mkgpt_files (boot kernel busybox init : list Z) : list afile :=
  [MkAFile (name11 (c_str "linuz")) 5 boot; MkAFile (name11 (c_str "kernel")) 5 kernel;
   MkAFile (name11 (c_str "busybox")) 1 busybox; MkAFile (name11 (c_str "init")) 1 init].

(** The sector of the first cluster after [fs]. *)
Definition offset_after (g : geom) (fs : list afile) : Z := file_sector g fs.

Ltac solve_name := split_and!; [by apply c_string_bool | done | vm_compute; lia | vm_compute; lia].

Lemma mkgpt_names_ok :
  name_ok (c_str "linuz") /\ name_ok (c_str "kernel") /\ name_ok (c_str "busybox") /\
  name_ok (c_str "init") /\ name_ok (c_str "loader").
Proof. split_and!; solve_name. Qed.

(** The sectors that [mkgpt] prints. *)
Definition mkgpt_offsets (fs : list afile) : list (string * Z) :=
  let off k := file_sector mkgpt_geom (take k fs) in
  [("PARTITION_0_START", 3); ("PARTITION_1_START", 262143); ("BOOTLOADER_OFFSET", off 0%nat);
   ("KERNEL_OFFSET", off 1%nat); ("BUSYBOX_OFFSET", off 2%nat); ("INIT_OFFSET", off 3%nat)]%string.

Definition mkgpt_parts : list PartitionConfig :=
  [MkPart EFI_SYSTEM_PARTITION myDiskID (Some p_boot) 262140 3;
   MkPart EFI_SYSTEM_PARTITION myDiskID (Some p_fs) 262143 262143].

Lemma mkgpt_sector fs : file_sector mkgpt_geom fs = 528 + 8 * used mkgpt_geom fs.
Proof.
  unfold file_sector, next_free. change (g_fat mkgpt_geom) with 256. change (g_spc mkgpt_geom) with 8. lia.
Qed.

Lemma wp_mkgpt_main fuel e boot kernel busybox init code (Q : ctl (list (string * Z)) -> image -> Prop) s0 :
  host_order = LittleEndian -> mkgpt_inputs e boot kernel busybox init code ->
  let fs := mkgpt_files boot kernel busybox init in
  next_free mkgpt_geom fs <= g_maxC mkgpt_geom ->
  (forall m', disk_holds Mkgpt.mkgpt_config mkgpt_parts mkgpt_geom fs code m' -> Q (Go (mkgpt_offsets fs)) m') ->
  wp (Mkgpt.mkgpt_main fuel e) Q s0.
Proof.
  intros Hh [Himg Hmap Hwr (fd1 & Ho1 & Hr1) (fd2 & Ho2 & Hr2) (fd3 & Ho3 & Hr3) (fd4 & Ho4 & Hr4)
    (fd5 & Ho5 & Hcode) Hcl] fs Hroom HQ. set (g := mkgpt_geom).
  set (m0 := Img Mkgpt.disk_size (fun _ => 0)).
  pose proof (config_geom_wf 1536 mkgpt_fat ltac:(lia) mkgpt_fat_ok : geom_wf g) as Hwf.
  pose proof (two_parts_wf 524288 262140 262143 m0 ltac:(lia) ltac:(lia) ltac:(lia)
    ltac:(vm_compute; congruence)) as Hc. simpl in Hc.
  set (p0 := MkPart _ _ (Some p_boot) _ _) in Hc. set (p1 := MkPart _ _ (Some p_fs) _ _) in Hc.
  destruct mkgpt_names_ok as (N1 & N2 & N3 & N4 & _).
  destruct (two_parts_created 524288 p0 p1) as (Hn & _); [vm_compute; congruence..|].
  assert (volume_inside (two_parts 524288 p0 p1) [p0; p1] g) as Hin.
  { split; [rewrite Hn|..]; vm_compute; congruence. }
  unfold Mkgpt.mkgpt_main. rewrite Himg, Hmap, Hwr, Ho1, Ho2, Ho3, Ho4, Ho5. cbn [negb fd_of default].
  apply wp_prog_bind, wp_map_buffer. cbn [negb]. fold m0.
  change Mkgpt.mkgpt_config with (two_parts 524288 p0 p1).
  apply wp_run_bind, wp_two_parts; [done | done | simpl; lia |]. intros m1 Ht1 Hs1.
  cbn [fst snd numPart two_parts negb Z.eqb Pos.eqb set_partitions partitions].
  do 3 (apply wp_run_bind, wp_deref). cbn [startLBA volume set_startLBA].
  change (u64 (GPT_SECTOR_SIZE * 3)) with (g_buf g).
  change (MkFATConfig _ _ _ _ _) with mkgpt_fat.
  apply wp_run_bind. eapply wp_disk_format; [exact mkgpt_fat_ok | exact Hin | exact Ht1 | exact Hs1 |]. intros m2 Hd2.
  change (config_geom (g_buf g) mkgpt_fat) with g in Hd2. change (@nil afile) with (take 0 fs) in Hd2.
  assert (Z.of_nat (length fs) <= g_numRoot g) as Hlen by (vm_compute; congruence).
  apply wp_run_bind. eapply (wp_copy_next _ _ m0 g Hwf Hin) with (k := 0%nat) (fs := fs); [reflexivity | done.. |]. intros m3 Hd3.
  apply wp_run_bind. eapply (wp_copy_next _ _ m0 g Hwf Hin) with (k := 1%nat) (fs := fs); [reflexivity | done.. |]. intros m4 Hd4.
  apply wp_run_bind. eapply (wp_copy_next _ _ m0 g Hwf Hin) with (k := 2%nat) (fs := fs); [reflexivity | done.. |]. intros m5 Hd5.
  apply wp_run_bind. eapply (wp_copy_next _ _ m0 g Hwf Hin) with (k := 3%nat) (fs := fs); [reflexivity | done.. |]. intros m6 Hd6.
  apply wp_run_bind. unfold id. rewrite Hcode.
  apply (wp_boot_code _ _ m0 g Hwf Hin) with (fs := fs); [exact Hd6 | done |]. intros m7 Hd7 Hc7.
  rewrite Z.eqb_refl. cbn [negb fst]. apply wp_prog_ret, HQ.
  apply (disk_state_holds 524288 p0 p1 m0); (done || simpl; lia).
Qed.

(** C9: when its input files can be read and fit, [mkgpt] succeeds: the image has a
    partition table that [GPTParse] reads back and whose two headers are valid,
    the first partition holds the four files, the boot code is in place, and the
    offsets it prints for the boot loader are the sectors of the files. *)
Theorem mkgpt_builds_disk fuel e boot kernel busybox init code s0 :
  host_order = LittleEndian -> mkgpt_inputs e boot kernel busybox init code ->
  let g := mkgpt_geom in
  let fs := mkgpt_files boot kernel busybox init in
  next_free g fs <= g_maxC g ->
  exists m',
    Mkgpt.mkgpt_main fuel e s0 = Done (Go
      [("PARTITION_0_START"%string, 3); ("PARTITION_1_START"%string, 262143);
       ("BOOTLOADER_OFFSET"%string, 528);
       ("KERNEL_OFFSET"%string, 528 + 8 * used g (take 1 fs));
       ("BUSYBOX_OFFSET"%string, 528 + 8 * used g (take 2 fs));
       ("INIT_OFFSET"%string, 528 + 8 * used g (take 3 fs))], m') /\
    disk_holds Mkgpt.mkgpt_config
      [MkPart EFI_SYSTEM_PARTITION myDiskID (Some p_boot) 262140 3;
       MkPart EFI_SYSTEM_PARTITION myDiskID (Some p_fs) 262143 262143] g fs code m'.
Proof.
  intros Hh Hin g fs Hroom. unfold g. rewrite <-!mkgpt_sector. apply wp_result.
  apply (wp_mkgpt_main fuel e boot kernel busybox init code); [done..|]. intros m' Hm. split; [done|exact Hm].
Qed.
End WithHost.
