(* ===== verification/ProgTheorems.v ===== *)
(** * [installer] and [readgpt]

    The installer builds the same disk as [mkgpt] in a file or device of any
    size; its argument loop; and the extraction of partitions by [readgpt]. *)
From Stdlib Require Import ZArith Lia.
From stdpp Require Import base tactics list numbers list_numbers strings.
From S2P Require Import Prelude Memory Endian Crc32 Gpt GptSpec GptTheorems Fat FatSpec FatRep FatCreate FatSuper FatFrame FatCopy FatTheorems Disk DiskTheorems.
Open Scope Z_scope.

Section WithHost.
Context {host : Host}.

(** ** [installer] *)

Definition installer_fat (mib : Z) : FATConfig := MkFATConfig (mib * 2048) 512 8 false true.
Definition installer_geom (mib : Z) : geom := config_geom 1536 (installer_fat mib).

Lemma installer_fat_ok mib : 1 <= mib < 4096 -> fat_config_ok (installer_fat mib).
Proof.
  intros H. split; simpl; unfold valid_bps, valid_spc; try lia.
  replace (mib * 2048) with (mib * 256 * 8) by lia. rewrite Z.div_mul; lia.
Qed.

Definition installer_part (n : list Z) (v s : Z) : PartitionConfig :=
  MkPart EFI_SYSTEM_PARTITION myDiskID (Some n) v s.

(** [mkpart] on a disk with 64 sectors to spare. *)
Lemma wp_mkpart D mib (Q : ctl GPTConfig -> image -> Prop) m :
  let V := D / 512 in
  let p0 := installer_part p_boot (mib * 2048) 0 in
  let p1 := installer_part p_fs (V - 5 - mib * 2048) 0 in
  host_order = LittleEndian -> 1 <= mib < 4096 -> mib * 2 ^ 20 + 32768 <= D -> D < 2 ^ 63 -> isize m = D ->
  (forall m', gpt_table (two_parts V p0 p1) [p0; p1] m' -> isize m' = isize m ->
    config_wf (two_parts V p0 p1) [p0; p1] m ->
    Q (Go (set_partitions (two_parts V p0 p1) 2
      (Some [set_startLBA p0 3; set_startLBA p1 (3 + mib * 2048)]))) m') ->
  wp (Installer.mkpart D mib) Q m.
Proof.
  intros V p0 p1 Hh Hm Hfit HD Hs HQ. unfold Installer.mkpart.
  change (1024 * 1024) with 1048576. change (GPT_SECTOR_SIZE * 64) with 32768. change GPT_SECTOR_SIZE with 512.
  fold V. assert (mib * 2048 + 64 <= V) as HV by (apply Z.div_le_lower_bound; lia).
  assert (V * 512 <= D) as HVD by (pose proof (Z.mul_div_le D 512); unfold V; lia).
  rewrite (u64_id (mib * 1048576)), (u64_id (mib * 1048576 + 32768)) by lia.
  destruct (Z.gtb_spec (mib * 1048576 + 32768) D); [lia|].
  assert (Installer.parts V (mib * 1048576) = [p0; p1]) as Hparts.
  { unfold Installer.parts. change GPT_SECTOR_SIZE with 512.
    replace (mib * 1048576 / 512) with (mib * 2048); [by rewrite u64_id by lia|].
    apply Z.div_unique with 0; lia. }
  rewrite Hparts. change (MkGPT V 2 (Some [p0; p1]) myDiskID) with (two_parts V p0 p1).
  pose proof (two_parts_wf V (mib * 2048) (V - 5 - mib * 2048) m ltac:(lia) ltac:(lia) ltac:(lia) ltac:(lia)) as Hc.
  apply wp_run_bind, wp_two_parts; [done | exact Hc | simpl; lia |]. intros m' Ht Hs'.
  cbn [fst snd numPart two_parts negb Z.eqb Pos.eqb]. apply wp_prog_ret, HQ; done.
Qed.

Lemma wp_copyin fuel fat src fd nm errno (Q : ctl (Z * Z) -> image -> Prop) m :
  src = Some fd ->
  wp (FAT32Copyin fuel fat fd nm 5 errno) (fun r m' => r.1 <> 0 /\ Q (Go r) m') m ->
  wp (Installer.copyin fuel fat src nm errno) Q m.
Proof.
  intros -> H. unfold Installer.copyin. apply wp_run_bind.
  change (Z.lor FAT_ATTR_READ_ONLY FAT_ATTR_SYSTEM) with 5. eapply wp_mono; [exact H|].
  intros r m' [Hr HQ]. simpl in *. destruct (Z.eqb_spec r.1 0); [done|]. by apply wp_prog_ret.
Qed.

(** The installer's copy of file number [k]. *)
Lemma wp_copyin_next c cps m0 g fuel src fd nm errno data fs k (Q : ctl (Z * Z) -> image -> Prop) m :
  geom_wf g -> volume_inside c cps g ->
  fs !! k = Some (MkAFile (name11 nm) 5 data) -> src = Some fd -> file_sector g (take k fs) <> 0 ->
  Z.of_nat (length fs) <= g_numRoot g -> next_free g fs <= g_maxC g ->
  disk_state c cps m0 g (take k fs) m -> name_ok nm -> reads fd data ->
  (forall m', disk_state c cps m0 g (take (S k) fs) m' -> Q (Go (file_sector g (take k fs), errno)) m') ->
  wp (Installer.copyin fuel (g_buf g) src nm errno) Q m.
Proof.
  intros Hwf Hin Hk Hsrc Hsec Hlen Hroom Hd Hnm Hfd HQ. eapply wp_copyin; [exact Hsrc|].
  eapply (wp_copy_next c cps m0 g Hwf Hin); [exact Hk | done..|]. intros m' Hm'. split; [exact Hsec|]. by apply HQ.
Qed.

(** The inputs of a run in which every call succeeds: [size] is what [fdsize]
    finds for the destination, [m] the mapping. *)
Record installer_inputs (e : Installer.installer_env) (bz d bb : path) (size : Z) (m : image)
    (loader kernel busybox init code : list Z) : Prop := {
  ii_dst : exists st, Installer.open_dst e d = Some st /\
    forall s, Installer.fdsize st d (Installer.sysfs e) s = Done (Go size, s);
  ii_mmap : Installer.mmap e (size / 4096 * 4096) = Some m;
  ii_size : isize m = size / 4096 * 4096;
  ii_loader : exists fd, Installer.open_ro e (c_str "linuz.bin") = Some fd /\ reads fd loader;
  ii_kernel : exists fd, Installer.open_ro e bz = Some fd /\ reads fd kernel;
  ii_busybox : exists fd, Installer.open_ro e bb = Some fd /\ reads fd busybox;
  ii_init : exists fd, Installer.open_ro e (c_str "init.elf") = Some fd /\ reads fd init;
  ii_code : exists fd n, Installer.open_ro e (c_str "mbr.img") = Some fd /\ os_read fd 440 = (n, code) /\ 0 <= n;
  ii_code_size : (length code <= 440)%nat }.

Definition installer_files (loader kernel busybox init : list Z) : list afile :=
  [MkAFile (name11 (c_str "loader")) 5 loader; MkAFile (name11 (c_str "kernel")) 5 kernel;
   MkAFile (name11 (c_str "busybox")) 5 busybox; MkAFile (name11 (c_str "init")) 5 init].

Ltac next_copy j :=
  apply wp_prog_bind;
  lazymatch goal with
  | Hwf : geom_wf ?g, Hin : volume_inside _ _ ?g, Hd : disk_state _ _ ?m ?g (take j ?fs) _ |- _ =>
      eapply (wp_copyin_next _ _ m g) with (k := j) (fs := fs);
        [exact Hwf | exact Hin | reflexivity | eassumption | auto | done.. |]
  end.

(** What [installer] reports, and the partitions it makes on a destination of [V] sectors. *)
Definition installer_offsets (mib : Z) (bz bb : path) (fs : list afile) : list (path * Z) :=
  let off k := file_sector (installer_geom mib) (take k fs) in
  [(c_str "linuz.bin", off 0%nat); (bz, off 1%nat); (bb, off 2%nat); (c_str "init.elf", off 3%nat)].
Definition installer_config (V mib : Z) : GPTConfig :=
  two_parts V (installer_part p_boot (mib * 2048) 0) (installer_part p_fs (V - 5 - mib * 2048) 0).
Definition installer_parts (V mib : Z) : list PartitionConfig :=
  [installer_part p_boot (mib * 2048) 3; installer_part p_fs (V - 5 - mib * 2048) (3 + mib * 2048)].

Lemma wp_installer_main fuel e argv a bz d bb size m loader kernel busybox init code (Q : ctl (list (path * Z)) -> image -> Prop) s0 :
  host_order = LittleEndian ->
  Installer.parse_args fuel argv 1 Installer.no_args = Done a -> Installer.print_help a = false ->
  Installer.path_bzimage a = Some bz -> Installer.dst a = Some d -> Installer.path_busybox a = Some bb ->
  installer_inputs e bz d bb size m loader kernel busybox init code ->
  let mib := Installer.arg_boot_size a in
  let D := size / 4096 * 4096 in
  let fs := installer_files loader kernel busybox init in
  1 <= mib < 4096 -> mib * 2 ^ 20 + 32768 <= D -> D < 2 ^ 63 -> next_free (installer_geom mib) fs <= g_maxC (installer_geom mib) ->
  (forall m', disk_holds (installer_config (D / 512) mib) (installer_parts (D / 512) mib) (installer_geom mib) fs code m' ->
     Q (Go (installer_offsets mib bz bb fs)) m') ->
  wp (Installer.installer_main fuel e argv) Q s0.
Proof.
  intros Hh Hargs Hhelp Hbz Hd Hbb [(st & Hdst & Hfd) Hmap Hsize (fd1 & Ho1 & Hr1) (fd2 & Ho2 & Hr2)
    (fd3 & Ho3 & Hr3) (fd4 & Ho4 & Hr4) (fd5 & n & Ho5 & Hcode & Hn0) Hcl] mib D fs Hmib Hfit HD Hroom HQ.
  set (V := D / 512) in *. set (g := installer_geom mib) in *.
  pose proof (config_geom_wf 1536 (installer_fat mib) ltac:(lia) (installer_fat_ok mib Hmib) : geom_wf g) as Hwf.
  destruct mkgpt_names_ok as (_ & N2 & N3 & N4 & N1).
  set (p0 := installer_part p_boot (mib * 2048) 0). set (p1 := installer_part p_fs (V - 5 - mib * 2048) 0).
  assert (mib * 2048 + 64 <= V) as HV by (apply Z.div_le_lower_bound; lia).
  destruct (two_parts_created V p0 p1) as (Hn & _); [simpl; lia..|].
  assert (volume_inside (two_parts V p0 p1) [p0; p1] g) as Hin.
  { split; [rewrite Hn; vm_compute; congruence | vm_compute; congruence |].
    unfold g_end. simpl g_buf. simpl g_bps. simpl g_n. simpl gvolume. lia. }
  assert (Z.of_nat (length fs) <= g_numRoot g) as Hlen by (vm_compute; congruence).
  assert (forall l, file_sector g l <> 0) as Hsec.
  { intros l. unfold file_sector. pose proof (next_free_ge g l). pose proof (gw_fat g Hwf).
    change (g_spc g) with 8. lia. }
  unfold Installer.installer_main. apply wp_prog_bind. unfold wp at 1. rewrite Hargs.
  cbn beta iota. rewrite Hhelp, Hbz, Hd, Hbb, Hdst.
  apply wp_prog_bind. unfold wp at 1. rewrite Hfd. cbn beta iota zeta. rewrite Hmap. fold D mib.
  apply wp_prog_bind, wp_map_buffer. cbn [negb].
  apply wp_prog_bind, wp_mkpart; [done..|]. intros m1 Ht1 Hs1 Hc. fold V p0 p1 in Ht1, Hc |- *.
  cbn beta iota. cbn [set_partitions partitions]. do 2 (apply wp_run_bind, wp_deref).
  cbn [startLBA volume set_startLBA p0 installer_part].
  change (u64 (GPT_SECTOR_SIZE * 3)) with (g_buf g). rewrite (u32_id (mib * 2048)) by lia.
  change (MkFATConfig _ _ _ _ _) with (installer_fat mib).
  apply wp_run_bind. eapply wp_disk_format; [by apply installer_fat_ok | exact Hin | exact Ht1 | exact Hs1 |].
  intros m2 Hd2. change (config_geom (g_buf g) (installer_fat mib)) with g in Hd2.
  change (@nil afile) with (take 0 fs) in Hd2.
  next_copy 0%nat. intros m3 Hd3.
  next_copy 1%nat. intros m4 Hd4.
  next_copy 2%nat. intros m5 Hd5.
  next_copy 3%nat. intros m6 Hd6. rewrite Ho5. change (fd_of (Some fd5)) with fd5. rewrite Hcode.
  apply wp_run_bind, (wp_boot_code _ _ m g Hwf Hin) with (fs := fs); [exact Hd6 | done |]. intros m7 Hd7 Hc7.
  destruct (Z.ltb_spec n 0); [lia|]. apply wp_prog_ret, HQ.
  apply (disk_state_holds V p0 p1 m); (done || simpl; lia).
Qed.

(** C11: with the options parsed and files that fit, [installer] writes to a destination
    of any size a partition table that [GPTParse] reads back and whose headers
    are valid, a boot partition of the requested size that holds the four files,
    and the boot code; it reports the sector of every file. *)
Theorem installer_installs fuel e argv a bz d bb size m loader kernel busybox init code s0 :
  host_order = LittleEndian ->
  Installer.parse_args fuel argv 1 Installer.no_args = Done a -> Installer.print_help a = false ->
  Installer.path_bzimage a = Some bz -> Installer.dst a = Some d -> Installer.path_busybox a = Some bb ->
  installer_inputs e bz d bb size m loader kernel busybox init code ->
  let mib := Installer.arg_boot_size a in
  let D := size / 4096 * 4096 in
  let V := D / 512 in
  let g := installer_geom mib in
  let fs := installer_files loader kernel busybox init in
  1 <= mib < 4096 -> mib * 2 ^ 20 + 32768 <= D -> D < 2 ^ 63 -> next_free g fs <= g_maxC g ->
  exists m',
    Installer.installer_main fuel e argv s0 = Done (Go
      [(c_str "linuz.bin", file_sector g []); (bz, file_sector g (take 1 fs));
       (bb, file_sector g (take 2 fs)); (c_str "init.elf", file_sector g (take 3 fs))], m') /\
    disk_holds (two_parts V (installer_part p_boot (mib * 2048) 0) (installer_part p_fs (V - 5 - mib * 2048) 0))
      [installer_part p_boot (mib * 2048) 3; installer_part p_fs (V - 5 - mib * 2048) (3 + mib * 2048)]
      g fs code m'.
Proof.
  intros Hh Hargs Hhelp Hbz Hd Hbb Hin mib D V g fs Hmib Hfit HD Hroom. apply wp_result.
  apply (wp_installer_main fuel e argv a bz d bb size m loader kernel busybox init code); [done..|].
  intros m' Hm. split; [done|exact Hm].
Qed.

(** ** The options of [installer] *)

Inductive option_word : Type :=
| OptK (p : path) | OptD (p : path) | OptS (s : path) (n : Z) | OptBusybox (p : path).

Definition words (o : option_word) : list path :=
  match o with
  | OptK p => [c_str "-k"; p]
  | OptD p => [c_str "-d"; p]
  | OptS s _ => [c_str "-s"; s]
  | OptBusybox p => [c_str "-busybox"; p]
  end.

Definition apply_option (a : Installer.args) (o : option_word) : Installer.args :=
  match o with
  | OptK p => Installer.MkArgs (Some p) (Installer.path_busybox a) (Installer.dst a)
                (Installer.arg_boot_size a) (Installer.print_help a)
  | OptD p => Installer.MkArgs (Installer.path_bzimage a) (Installer.path_busybox a) (Some p)
                (Installer.arg_boot_size a) (Installer.print_help a)
  | OptS _ n => Installer.MkArgs (Installer.path_bzimage a) (Installer.path_busybox a) (Installer.dst a)
                (u64 n) (Installer.print_help a)
  | OptBusybox p => Installer.MkArgs (Installer.path_bzimage a) (Some p) (Installer.dst a)
                (Installer.arg_boot_size a) (Installer.print_help a)
  end.

Definition option_ok (o : option_word) : Prop :=
  match o with OptS s n => Installer.atoi s = Some n | _ => True end.

(** Compare the literal words of the goal. *)
Ltac eval_eqb :=
  repeat match goal with
  | |- context [path_eqb (c_str ?a) (c_str ?b)] =>
      let v := eval vm_compute in (path_eqb (c_str a) (c_str b)) in
      change (path_eqb (c_str a) (c_str b)) with v
  end.

Lemma parse_args_from pre opts fuel a :
  Forall option_ok opts -> (length opts < fuel)%nat ->
  Installer.parse_args fuel (pre ++ concat (words <$> opts)) (length pre) a
  = Done (foldl apply_option a opts).
Proof.
  intros Hok. revert pre fuel a. induction Hok as [|o opts Ho _ IH]; intros pre fuel a Hf;
    (destruct fuel as [|fuel]; [simpl in Hf; lia|]); cbn [Installer.parse_args].
  - simpl. by rewrite app_nil_r, (proj2 (lookup_ge_None pre (length pre))) by lia.
  - assert (forall w v, words o = [w; v] ->
      (pre ++ concat (words <$> (o :: opts))) !! length pre = Some w /\
      (pre ++ concat (words <$> (o :: opts))) !! (length pre + 1)%nat = Some v /\
      pre ++ concat (words <$> (o :: opts)) = (pre ++ [w; v]) ++ concat (words <$> opts) /\
      (length pre + 2 = length (pre ++ [w; v]))%nat) as Hw.
    { intros w v E. cbn [fmap list_fmap concat]. rewrite E. split_and!.
      - by rewrite lookup_app_r, Nat.sub_diag by lia.
      - rewrite lookup_app_r by lia. by replace (length pre + 1 - length pre)%nat with 1%nat by lia.
      - by rewrite <-app_assoc.
      - rewrite length_app. simpl. lia. }
    simpl in Hf. set (l := pre ++ _) in *. clearbody l.
    destruct o as [p|p|s n|p]; destruct (Hw _ _ eq_refl) as (H1 & H2 & H3 & H4);
      rewrite H1, ?H2; eval_eqb; cbn [orb mbind option_bind];
      cbn [option_ok] in Ho; rewrite ?Ho, H3, H4; by rewrite IH by lia.
Qed.

(** A command line made of options with their arguments is parsed to the last
    value given for each of them, within one step per option. *)
Theorem parse_args_options prog_name opts fuel a :
  Forall option_ok opts -> (length opts < fuel)%nat ->
  Installer.parse_args fuel (prog_name :: concat (words <$> opts)) 1 a = Done (foldl apply_option a opts).
Proof. apply (parse_args_from [prog_name]). Qed.

(** A word that is none of the options makes the argument loop of [installer] run
    forever: the index never moves on. *)
Theorem parse_args_unknown_diverges fuel argv i a w :
  argv !! i = Some w ->
  w ∉ [c_str "-h"; c_str "--help"; c_str "-k"; c_str "-d"; c_str "-s"; c_str "-busybox"] ->
  Installer.parse_args fuel argv i a = Diverged.
Proof.
  intros Hi Hw. rewrite !not_elem_of_cons in Hw. destruct Hw as (H1 & H2 & H3 & H4 & H5 & H6 & _).
  induction fuel as [|fuel IH]; [done|]. cbn [Installer.parse_args]. rewrite Hi.
  unfold path_eqb. rewrite !bool_decide_false by done. exact IH.
Qed.

(** ** [readgpt] *)

Lemma map_len_eq size k :
  0 <= size -> 0 <= k -> size + 2 ^ k <= 2 ^ 64 ->
  Readgpt.map_len size (2 ^ k) = (size + 2 ^ k - 1) / 2 ^ k * 2 ^ k.
Proof.
  intros Hs Hk Hb. assert (0 < 2 ^ k) by lia. unfold Readgpt.map_len.
  rewrite (u64_id (2 ^ k - 1)), (u64_id (size + (2 ^ k - 1))) by lia.
  unfold u64, wrap. rewrite <-Z.land_ones, (Z.land_comm _ (Z.ones 64)), Z.land_assoc, Z.land_ones by lia.
  rewrite Z.mod_small by lia. replace (2 ^ k - 1) with (Z.ones k) by (rewrite Z.ones_equiv; lia).
  rewrite <-Z.ldiff_land, Z.ldiff_ones_r, Z.shiftl_mul_pow2, Z.shiftr_div_pow2 by lia.
  rewrite Z.ones_equiv. f_equal. f_equal. lia.
Qed.

Definition listing (m : image) (i : nat) (ps : list PartitionConfig) : list Readgpt.extract :=
  imap (fun j p => Readgpt.MkExtract (i + j) (startLBA p) (startLBA p + volume p - 1)
    (Some (rd m (startLBA p * 512) (volume p * 512)))) ps.

Lemma extract_all_spec creates i ps m :
  (forall j, creates j = true) ->
  Forall (fun p => 0 < startLBA p /\ 0 < volume p /\ startLBA p + volume p < 2 ^ 55 /\
    (startLBA p + volume p) * 512 <= isize m) ps ->
  Readgpt.extract_all creates i ps m = Done (Go (listing m i ps), m).
Proof.
  intros Hc Hp. revert i. induction Hp as [|p ps (H1 & H2 & H3 & H4) _ IH]; intros i; [done|].
  cbn [Readgpt.extract_all]. destruct (Z.eqb_spec (startLBA p) 0); [lia|]. rewrite Hc. cbn [negb].
  unfold mbind, prog_bind, run. rewrite IH. unfold Readgpt.saved. change GPT_SECTOR_SIZE with 512.
  nowrap. rewrite in_range_true by lia. unfold listing at 2. cbn [imap]. rewrite Nat.add_0_r.
  unfold mret, prog_ret. do 4 f_equal. unfold listing. apply imap_ext. intros j q _. simpl. f_equal. lia.
Qed.

End WithHost.

(** ** Concrete runs *)
Section Demo.
#[local] Instance prog_host : Host := LittleEndian.

Definition file_fd (data : list Z) : os_file :=
  let n := Z.of_nat (length data) in MkFile (Some n) 0 (fun _ => (n, data)) 0.

Lemma file_fd_reads data : reads (file_fd data) data.
Proof. by split. Qed.

(** Every path opens to the same two bytes. *)
Definition small_file : list Z := [1; 2].
Definition mkgpt_demo : Mkgpt.mkgpt_env :=
  Mkgpt.MkEnv true true (fun _ => Some (file_fd small_file)) Mkgpt.disk_size.
Definition installer_demo : Installer.installer_env :=
  Installer.MkEnv (fun _ => Some (Some (Installer.MkStat Installer.S_IFREG 134217728))) (fun _ => None)
    (fun n => Some (Img n (fun _ => 0))) (fun _ => Some (file_fd small_file)).
Definition demo_argv : list path :=
  [c_str "installer"; c_str "-k"; c_str "bz"; c_str "-d"; c_str "img"; c_str "-busybox"; c_str "bb"].

Lemma mkgpt_builds_disk_witness : exists m',
  Mkgpt.mkgpt_main 0 mkgpt_demo (Img 0 (fun _ => 0)) = Done (Go
    [("PARTITION_0_START"%string, 3); ("PARTITION_1_START"%string, 262143); ("BOOTLOADER_OFFSET"%string, 528);
     ("KERNEL_OFFSET"%string, 536); ("BUSYBOX_OFFSET"%string, 544); ("INIT_OFFSET"%string, 552)], m').
Proof.
  assert (mkgpt_inputs mkgpt_demo small_file small_file small_file small_file small_file) as Hin.
  { split; try done; try (exists (file_fd small_file); split; [reflexivity | try apply file_fd_reads; done]).
    simpl. lia. }
  destruct (mkgpt_builds_disk 0 mkgpt_demo _ _ _ _ _ (Img 0 (fun _ => 0)) eq_refl Hin
    ltac:(vm_compute; congruence)) as (m' & Hrun & _).
  exists m'. exact Hrun.
Defined.

Lemma installer_installs_witness : exists m',
  Installer.installer_main 10 installer_demo demo_argv (Img 0 (fun _ => 0)) = Done (Go
    [(c_str "linuz.bin", 272); (c_str "bz", 280); (c_str "bb", 288); (c_str "init.elf", 296)], m').
Proof.
  assert (installer_inputs installer_demo (c_str "bz") (c_str "img") (c_str "bb") 134217728
    (Img 134217728 (fun _ => 0)) small_file small_file small_file small_file small_file) as Hin.
  { split; try done; try (exists (file_fd small_file); split; [reflexivity | apply file_fd_reads]).
    - exists (Some (Installer.MkStat Installer.S_IFREG 134217728)). split; [reflexivity|]. intros. reflexivity.
    - exists (file_fd small_file), 2. split; [reflexivity|]. split; [reflexivity|lia].
    - simpl. lia. }
  destruct (installer_installs 10 installer_demo demo_argv
    (Installer.MkArgs (Some (c_str "bz")) (Some (c_str "bb")) (Some (c_str "img")) 64 false)
    (c_str "bz") (c_str "img") (c_str "bb") 134217728 (Img 134217728 (fun _ => 0)) _ _ _ _ _
    (Img 0 (fun _ => 0)) eq_refl ltac:(vm_compute; reflexivity) eq_refl eq_refl eq_refl eq_refl Hin
    ltac:(vm_compute; split; congruence) ltac:(vm_compute; congruence) ltac:(vm_compute; congruence)
    ltac:(vm_compute; congruence)) as (m' & Hrun & _).
  exists m'. exact Hrun.
Defined.

Lemma parse_args_options_witness :
  Installer.parse_args 4 (c_str "installer" :: concat (words <$> [OptK (c_str "bz"); OptS (c_str "32") 32])) 1
    Installer.no_args = Done (Installer.MkArgs (Some (c_str "bz")) None None 32 false).
Proof.
  apply (parse_args_options (c_str "installer") [OptK (c_str "bz"); OptS (c_str "32") 32] 4 Installer.no_args).
  - apply Forall_cons_2; [exact I|]. apply Forall_cons_2; [reflexivity|]. apply Forall_nil_2.
  - simpl. lia.
Defined.

Lemma parse_args_unknown_diverges_witness :
  Installer.parse_args 1000 [c_str "installer"; c_str "-v"] 1 Installer.no_args = Diverged.
Proof.
  apply (parse_args_unknown_diverges 1000 [c_str "installer"; c_str "-v"] 1 Installer.no_args (c_str "-v") eq_refl).
  apply (bool_decide_unpack _). vm_compute. exact I.
Defined.

End Demo.
