(* ===== verification/Url.v ===== *)
(** * URLs: [src/apt/url.c] and [src/apt/url.h]

    [urlparse] splits a null-terminated URL into views, pairs of offsets, and a
    port number.  A C string is the list of its bytes without the terminator; the
    scanning pointer [hend] is an offset together with the rest of the string.
    Every string has an offset for the specification: [text url v] is the part of
    [url] that the view [v] denotes. *)
From Stdlib Require Import ZArith Lia.
From stdpp Require Import base tactics list numbers list_numbers strings.
From S2P Require Import Prelude.
Open Scope Z_scope.

(** ** Data *)

Inductive url_proto : Type := PROTO_HTTP | PROTO_HTTPS.

#[export] Instance url_proto_eq_dec : EqDecision url_proto.
Proof. solve_decision. Defined.

Record url_str_view : Type := View { vbegin : Z; vend : Z }.

(** [proto] is 0 until a scheme has matched. *)
Record url_parse : Type := MkUrl {
  proto : option url_proto; host : url_str_view; upath : url_str_view; ofile : url_str_view; port : Z }.

(** The messages passed to [url_error]. *)
Inductive url_message : Type :=
| MissingScheme | UnknownScheme | InvalidDigit | PortTooLarge | EmptyHost.

Definition schemes : list (url_proto * list Z) :=
  [(PROTO_HTTP, c_str "http"); (PROTO_HTTPS, c_str "https")].

(** ** The string functions used *)

(** [strncmp(a, b, n) == 0] *)
Fixpoint strncmp_eq (a b : list Z) (n : nat) : bool :=
  match n with
  | O => true
  | S n' =>
      match a, b with
      | [], [] => true
      | x :: a', y :: b' => (x =? y) && strncmp_eq a' b' n'
      | _, _ => false
      end
  end.

Fixpoint prefix_eq (p s : list Z) : bool :=
  match p, s with
  | [], _ => true
  | x :: p', y :: s' => (x =? y) && prefix_eq p' s'
  | _ :: _, [] => false
  end.

(** Offset of the first occurrence of [p]. *)
Fixpoint strstr (s p : list Z) : option Z :=
  if prefix_eq p s then Some 0
  else match s with
       | [] => None
       | _ :: s' => match strstr s' p with Some i => Some (i + 1) | None => None end
       end.

(** Offset of the last occurrence of [c]. *)
Fixpoint strrchr (s : list Z) (c : Z) : option Z :=
  match s with
  | [] => None
  | x :: s' =>
      match strrchr s' c with
      | Some i => Some (i + 1)
      | None => if x =? c then Some 0 else None
      end
  end.

(** [strncpy(dst, src, n)]: the [n] bytes stored to [dst], padded with zeros. *)
Fixpoint strncpy (src : list Z) (n : nat) : list Z :=
  match n with
  | O => []
  | S n' => match src with [] => 0 :: strncpy [] n' | x :: src' => x :: strncpy src' n' end
  end.

Definition url_strcpy (src : list Z) (view : url_str_view) : list Z :=
  let len := u32 (vend view - vbegin view) in
  strncpy (drop (Z.to_nat (vbegin view)) src) (Z.to_nat len).

(** ** [urlparse] *)

Definition SLASH : Z := 47.
Definition COLON : Z := 58.

(** The first scheme that agrees with the first [n] bytes of [url]. *)
Fixpoint match_scheme (l : list (url_proto * list Z)) (url : list Z) (n : nat) : option url_proto :=
  match l with
  | [] => None
  | (p, s) :: l' => if strncmp_eq s url n then Some p else match_scheme l' url n
  end.

(** The loop over the digits of the port; at the slash it stops with the offset,
    the rest of the string and the port.  The terminator is no digit. *)
Fixpoint port_loop (i : Z) (s : list Z) (p : Z) : url_message + (Z * list Z * Z) :=
  match s with
  | [] => inl InvalidDigit
  | c :: s' =>
      if c =? SLASH then inr (i, s, p)
      else if (c >? 57) || (c <? 48) then inl InvalidDigit
      else
        let p := u64 (u64 (p * 10) + (c - 48)) in
        if p >? 65535 then inl PortTooLarge else port_loop (i + 1) s' p
  end.

(** The loop over the host name: where it stops, the rest of the string, the end
    of the host if it was set, and the port; an error in the port comes with the
    end of the host, which was set before. *)
Fixpoint host_loop (i : Z) (s : list Z) : (url_message * Z) + (Z * list Z * option Z * Z) :=
  match s with
  | [] => inr (i, [], None, 0)
  | c :: s' =>
      if c =? SLASH then inr (i, s, Some i, 0)
      else if c =? COLON then
        match port_loop (i + 1) s' 0 with
        | inl e => inl (e, i)
        | inr (j, rest, p) => inr (j, rest, Some i, p)
        end
      else host_loop (i + 1) s'
  end.

(** The default port of a scheme, used when the port is 0. *)
Definition default_port (p : url_proto) (port : Z) : Z :=
  if port =? 0 then match p with PROTO_HTTP => 80 | PROTO_HTTPS => 443 end else port.

(** Path and output file from the place where the host loop has stopped. *)
Definition parse_path (url : list Z) (i : Z) (rest : list Z) : outcome (url_str_view * url_str_view) :=
  match rest with
  | [] => Done (View 0 0, View 0 0)
  | c :: _ =>
      if c =? SLASH then
        let strlen := u32 (Z.of_nat (length url)) in
        match strrchr rest SLASH with
        | None => AssertFail
        | Some k => Done (View (u32 i) strlen, View (u32 (i + k + 1)) strlen)
        end
      else AssertFail
  end.

Definition set_proto_port (r : url_parse) (p : option url_proto) (n : Z) : url_parse :=
  MkUrl p (host r) (upath r) (ofile r) n.
Definition set_host (r : url_parse) (h : url_str_view) : url_parse :=
  MkUrl (proto r) h (upath r) (ofile r) (port r).

(** The call returns 0 when no message is reported and 1 otherwise; the struct
    [r0] that the caller passes is filled in as far as the parser gets. *)
Definition urlparse (url : list Z) (r0 : url_parse) : outcome (option url_message * url_parse) :=
  match strstr url (c_str "://") with
  | None => Done (Some MissingScheme, r0)
  | Some sep =>
      let r1 := set_proto_port r0 (match_scheme schemes url (Z.to_nat sep)) 0 in
      match proto r1 with
      | None => Done (Some UnknownScheme, r1)
      | Some scheme =>
          let hbegin := sep + 3 in
          match host_loop hbegin (drop (Z.to_nat hbegin) url) with
          | inl (e, hend) => Done (Some e, set_host r1 (View (u32 hbegin) (u32 hend)))
          | inr (hend, rest, host_end, port) =>
              match parse_path url hend rest with
              | Done (path, ofile) =>
                  let host_end := match rest with [] => hend | _ => default (vend (host r1)) host_end end in
                  let host := View (u32 hbegin) (u32 host_end) in
                  let r := MkUrl (Some scheme) host path ofile (default_port scheme port) in
                  if vend host <=? vbegin host then Done (Some EmptyHost, r) else Done (None, r)
              | AssertFail => AssertFail
              | Fault => Fault
              | Diverged => Diverged
              end
          end
      end
  end.

(** ** Lemmas about the scans *)

Definition text (url : list Z) (v : url_str_view) : list Z :=
  take (Z.to_nat (vend v - vbegin v)) (drop (Z.to_nat (vbegin v)) url).

Lemma prefix_eq_app p s : prefix_eq p (p ++ s) = true.
Proof. induction p as [|x p IH]; [done|]. simpl. by rewrite Z.eqb_refl, IH. Qed.

Lemma prefix_eq_true p s : prefix_eq p s = true -> exists t, s = p ++ t.
Proof.
  revert s. induction p as [|x p IH]; intros s H; [by exists s|].
  destruct s as [|y s]; [done|]. simpl in H. apply andb_prop in H as [->%Z.eqb_eq H].
  destruct (IH s H) as [t ->]. by exists t.
Qed.

Lemma strstr_Some s p i : strstr s p = Some i ->
  0 <= i /\ exists t, s = take (Z.to_nat i) s ++ p ++ t /\ Z.of_nat (length (take (Z.to_nat i) s)) = i.
Proof.
  revert i. induction s as [|x s IH]; intros i H; cbn [strstr] in H.
  - destruct (prefix_eq p []) eqn:E; [|done]. injection H as <-. split; [lia|].
    apply prefix_eq_true in E as [t E]. by exists t.
  - destruct (prefix_eq p (x :: s)) eqn:E.
    + injection H as <-. split; [lia|]. apply prefix_eq_true in E as [t E]. by exists t.
    + destruct (strstr s p) as [j|] eqn:Ej; [|done]. injection H as <-.
      destruct (IH j eq_refl) as (Hj & t & Ht & Hl). split; [lia|]. exists t.
      replace (Z.to_nat (j + 1)) with (S (Z.to_nat j)) by lia. cbn [take app length].
      split; [by rewrite <-Ht | lia].
Qed.

(** A string without colon before the separator. *)
Lemma strstr_sep scheme rest :
  Forall (fun c => c <> COLON) scheme ->
  strstr (scheme ++ c_str "://" ++ rest) (c_str "://") = Some (Z.of_nat (length scheme)).
Proof.
  induction 1 as [|x s Hx _ IH]; [by rewrite app_nil_l; cbn [strstr]|].
  cbn [app strstr]. rewrite IH. change (c_str "://") with [58; 47; 47]. cbn [prefix_eq].
  destruct (Z.eqb_spec 58 x) as [<-|_]; [by destruct Hx|]. simpl. f_equal. lia.
Qed.

(** The schemes that are accepted: because only as many bytes are compared as the
    URL has before the separator, every prefix of "http" stands for it. *)
Inductive scheme_of : list Z -> url_proto -> Prop :=
| scheme_http (k : nat) : scheme_of (take k (c_str "http")) PROTO_HTTP
| scheme_https : scheme_of (c_str "https") PROTO_HTTPS.

Lemma scheme_no_colon s p : scheme_of s p -> Forall (fun c => c <> COLON) s.
Proof.
  assert (Forall (fun c => c <> COLON) (c_str "http")) by (repeat constructor; done).
  destruct 1; [by apply Forall_take|]. repeat constructor; done.
Qed.

Lemma strncmp_eq_prefix a s t : strncmp_eq a (s ++ t) (length s) = true -> s `prefix_of` a.
Proof.
  revert s. induction a as [|x a IH]; intros [|y s] H; simpl in *; try done; [apply prefix_nil..|].
  apply andb_prop in H as [->%Z.eqb_eq H]. by apply prefix_cons, IH.
Qed.

Lemma strncmp_eq_take a k t : strncmp_eq a (take k a ++ t) (length (take k a)) = true.
Proof.
  revert k. induction a as [|x a IH]; intros [|k]; try done. cbn [take app length strncmp_eq].
  by rewrite Z.eqb_refl, IH.
Qed.

Lemma match_scheme_iff s t p :
  match_scheme schemes (s ++ t) (length s) = Some p <-> scheme_of s p.
Proof.
  cbn [match_scheme schemes]. split.
  - destruct (strncmp_eq (c_str "http") _ _) eqn:E1.
    { intros [= <-]. apply strncmp_eq_prefix in E1 as [u E].
      replace s with (take (length s) (c_str "http")); [apply scheme_http|].
      rewrite E. by rewrite take_app_length. }
    destruct (strncmp_eq (c_str "https") _ _) eqn:E2; [|done]. intros [= <-].
    apply strncmp_eq_prefix in E2 as [u E].
    assert (s = take (length s) (c_str "https")) as Hs by (rewrite E; by rewrite take_app_length).
    assert (length s <= 5)%nat as Hl by (rewrite Hs, length_take; simpl; lia).
    destruct (decide (length s = 5)%nat) as [H5|H5]; [rewrite Hs, H5; apply scheme_https|].
    exfalso. assert (s = take (length s) (c_str "http")) as Hs4.
    { rewrite Hs at 1. generalize (length s) H5 Hl. intros n Hn Hn5.
      do 5 (destruct n as [|n]; [done|]). lia. }
    rewrite Hs4 in E1 at 1. rewrite Hs4 in E1 at 2. by rewrite length_take, <-length_take, strncmp_eq_take in E1.
  - destruct 1 as [k|]; [by rewrite strncmp_eq_take|done].
Qed.

(** ** The loops *)

Definition host_char (c : Z) : Prop := c <> SLASH /\ c <> COLON.
Definition digit (c : Z) : Prop := 48 <= c <= 57.
(** The number a string of digits denotes, after the digits of [p]. *)
Definition number (p : Z) (ds : list Z) : Z := foldl (fun p c => 10 * p + (c - 48)) p ds.

Lemma number_mono p ds : 0 <= p -> Forall digit ds -> p <= number p ds.
Proof.
  intros Hp Hd. revert p Hp. induction Hd as [|c ds Hc _ IH]; intros p Hp; simpl; [lia|].
  unfold digit in Hc. transitivity (10 * p + (c - 48)); [lia|]. apply IH. lia.
Qed.

Lemma port_loop_spec i ds rest p :
  Forall digit ds -> 0 <= p <= 65535 ->
  port_loop i (ds ++ rest) p =
    if number p ds >? 65535 then inl PortTooLarge
    else port_loop (i + Z.of_nat (length ds)) rest (number p ds).
Proof.
  intros Hd. revert i p. induction Hd as [|c ds Hc Hd IH]; intros i p Hp.
  - simpl. rewrite Z.add_0_r. by destruct (Z.gtb_spec p 65535); [lia|].
  - unfold digit in Hc. cbn [app port_loop number foldl length].
    destruct (Z.eqb_spec c SLASH) as [E|_]; [unfold SLASH in E; lia|].
    destruct (Z.gtb_spec c 57), (Z.ltb_spec c 48); try lia. cbn [orb].
    rewrite (u64_id (p * 10)), u64_id by lia. replace (p * 10 + (c - 48)) with (10 * p + (c - 48)) by lia.
    pose proof (number_mono (10 * p + (c - 48)) ds ltac:(lia) Hd). unfold number in *.
    destruct (Z.gtb_spec (10 * p + (c - 48)) 65535).
    + by destruct (Z.gtb_spec (foldl (fun p c => 10 * p + (c - 48)) (10 * p + (c - 48)) ds) 65535); [|lia].
    + rewrite IH by lia. by replace (i + 1 + Z.of_nat (length ds)) with (i + Z.of_nat (S (length ds))) by lia.
Qed.

Lemma host_loop_spec i h rest :
  Forall host_char h -> host_loop i (h ++ rest) = host_loop (i + Z.of_nat (length h)) rest.
Proof.
  intros Hh. revert i. induction Hh as [|c h [H1 H2] _ IH]; intros i; [by rewrite Z.add_0_r|].
  cbn [app host_loop length]. destruct (Z.eqb_spec c SLASH), (Z.eqb_spec c COLON); try done.
  rewrite IH. f_equal. lia.
Qed.

Lemma strrchr_app d f : Forall (fun c => c <> SLASH) f ->
  strrchr (d ++ SLASH :: f) SLASH = Some (Z.of_nat (length d)).
Proof.
  intros Hf. assert (strrchr f SLASH = None) as Hn.
  { induction Hf as [|c f Hc _ IH]; [done|]. simpl. rewrite IH. by destruct (Z.eqb_spec c SLASH). }
  induction d as [|c d IH]; simpl.
  - by rewrite Hn.
  - rewrite IH. f_equal. lia.
Qed.

Lemma text_middle url p w s :
  url = p ++ w ++ s -> text url (View (Z.of_nat (length p)) (Z.of_nat (length p) + Z.of_nat (length w))) = w.
Proof.
  intros ->. unfold text. cbn [vbegin vend]. rewrite Nat2Z.id, drop_app_length.
  replace (Z.to_nat (Z.of_nat (length p) + Z.of_nat (length w) - Z.of_nat (length p))) with (length w) by lia.
  apply take_app_length.
Qed.

(** The part of a URL between the host and the path. *)
Definition port_part (ds : option (list Z)) : list Z :=
  match ds with Some ds => COLON :: ds | None => [] end.
Definition port_number (ds : option (list Z)) : Z := number 0 (default [] ds).

Lemma host_loop_port i ds path :
  Forall digit (default [] ds) -> port_number ds <= 65535 ->
  host_loop i (port_part ds ++ SLASH :: path) =
    inr (i + Z.of_nat (length (port_part ds)), SLASH :: path, Some i, port_number ds).
Proof.
  intros Hd Hp. destruct ds as [ds|]; [|by cbn; rewrite Z.add_0_r].
  cbn [port_part app host_loop length default] in *. change (COLON =? SLASH) with false.
  change (COLON =? COLON) with true. cbv iota. unfold port_number in *. simpl default in *.
  rewrite port_loop_spec by (done || lia).
  destruct (Z.gtb_spec (number 0 ds) 65535); [lia|]. cbn [port_loop].
  change (SLASH =? SLASH) with true. cbv iota. do 4 f_equal. lia.
Qed.

(** [urlparse] once the scheme is known. *)
Lemma urlparse_after_scheme s p tail r0 :
  scheme_of s p ->
  urlparse (s ++ c_str "://" ++ tail) r0 =
    let url := s ++ c_str "://" ++ tail in
    let r1 := set_proto_port r0 (Some p) 0 in
    let hbegin := Z.of_nat (length s) + 3 in
    match host_loop hbegin tail with
    | inl (e, hend) => Done (Some e, set_host r1 (View (u32 hbegin) (u32 hend)))
    | inr (hend, rest, host_end, port) =>
        match parse_path url hend rest with
        | Done (path, ofile) =>
            let host_end := match rest with [] => hend | _ => default (vend (host r0)) host_end end in
            let r := MkUrl (Some p) (View (u32 hbegin) (u32 host_end)) path ofile (default_port p port) in
            if u32 host_end <=? u32 hbegin then Done (Some EmptyHost, r) else Done (None, r)
        | AssertFail => AssertFail
        | Fault => Fault
        | Diverged => Diverged
        end
    end.
Proof.
  intros Hs. unfold urlparse. rewrite strstr_sep by (by eapply scheme_no_colon).
  rewrite Nat2Z.id, (proj2 (match_scheme_iff s (c_str "://" ++ tail) p)) by done.
  cbn [proto set_proto_port host vend vbegin].
  assert (drop (Z.to_nat (Z.of_nat (length s) + 3)) (s ++ c_str "://" ++ tail) = tail) as ->; [|done].
  rewrite app_assoc. apply drop_app_length'. rewrite length_app. simpl length. lia.
Qed.

(** C17: a URL made of a scheme, a host, an optional port and a path is accepted, and
    the views denote exactly its host, its path and the part of the path after
    the last slash; the port is the number given, or that of the scheme when
    none or 0 is given. *)
Theorem urlparse_parts s p h ds dir file t r0 :
  scheme_of s p -> h <> [] -> Forall host_char h ->
  Forall digit (default [] ds) -> port_number ds <= 65535 ->
  SLASH :: t = dir ++ SLASH :: file -> Forall (fun c => c <> SLASH) file ->
  let url := s ++ c_str "://" ++ h ++ port_part ds ++ SLASH :: t in
  Z.of_nat (length url) < 2 ^ 32 ->
  exists r, urlparse url r0 = Done (None, r) /\ proto r = Some p /\
    text url (host r) = h /\ text url (upath r) = SLASH :: t /\ text url (ofile r) = file /\
    port r = default_port p (port_number ds).
Proof.
  intros Hs Hne Hh Hd Hp Hpath Hfile url Hlen.
  assert (Z.of_nat (length url) = Z.of_nat (length s) + 3 + Z.of_nat (length h) +
    Z.of_nat (length (port_part ds)) + Z.of_nat (length (SLASH :: t))) as Hl.
  { unfold url. rewrite !length_app. simpl (length (c_str "://")). lia. }
  assert (0 < Z.of_nat (length h)) as Hh0 by (destruct h; [done|simpl; lia]).
  assert (Z.of_nat (length (SLASH :: t)) = Z.of_nat (length dir) + 1 + Z.of_nat (length file)) as Ht.
  { rewrite Hpath, length_app. simpl. lia. }
  unfold url at 1. rewrite (urlparse_after_scheme s p) by done. cbv zeta.
  rewrite host_loop_spec, host_loop_port by done. unfold parse_path.
  change (SLASH =? SLASH) with true. cbv iota.
  assert (strrchr (SLASH :: t) SLASH = Some (Z.of_nat (length dir))) as -> by (rewrite Hpath; by apply strrchr_app).
  change (s ++ _) with url. cbn [default]. unfold id. rewrite !u32_id by lia.
  destruct (Z.leb_spec (Z.of_nat (length s) + 3 + Z.of_nat (length h)) (Z.of_nat (length s) + 3)); [lia|].
  eexists. split; [reflexivity|]. cbn [proto host upath ofile port]. split_and!; [done| | | |done].
  - etransitivity; [|apply (text_middle url (s ++ c_str "://") h (port_part ds ++ SLASH :: t))].
    + f_equal. rewrite length_app. simpl (length (c_str "://")). f_equal; lia.
    + unfold url. by rewrite <-app_assoc.
  - etransitivity; [|apply (text_middle url (s ++ c_str "://" ++ h ++ port_part ds) (SLASH :: t) [])].
    + f_equal. rewrite !length_app. simpl (length (c_str "://")). f_equal; lia.
    + unfold url. by rewrite app_nil_r, <-!app_assoc.
  - etransitivity; [|apply (text_middle url ((s ++ c_str "://" ++ h ++ port_part ds) ++ dir ++ [SLASH]) file [])].
    + f_equal. rewrite !length_app. simpl (length (c_str "://")). simpl (length [SLASH]). f_equal; lia.
    + unfold url. rewrite Hpath, app_nil_r, <-!app_assoc. done.
Qed.

(** ** Arbitrary input *)

Lemma port_loop_inv i s p j rest q :
  0 <= p <= 65535 -> port_loop i s p = inr (j, rest, q) ->
  exists ds t, s = ds ++ rest /\ rest = SLASH :: t /\ Forall digit ds /\
    q = number p ds /\ q <= 65535 /\ j = i + Z.of_nat (length ds).
Proof.
  revert i p. induction s as [|c s IH]; intros i p Hp H; cbn [port_loop] in H; [done|].
  destruct (Z.eqb_spec c SLASH) as [->|Hc].
  - simplify_eq. exists [], s. split_and!; simpl; (done || lia).
  - destruct (Z.gtb_spec c 57), (Z.ltb_spec c 48); cbn [orb] in H; try done.
    rewrite (u64_id (p * 10)), u64_id in H by lia.
    destruct (Z.gtb_spec (p * 10 + (c - 48)) 65535); [done|].
    apply IH in H as (ds & t & -> & -> & Hd & -> & Hq & ->); [|lia].
    exists (c :: ds), t. split_and!; try done.
    + constructor; [unfold digit; lia|done].
    + cbn [number foldl]. f_equal. lia.
    + simpl length. lia.
Qed.

Lemma host_loop_inv i s j rest he q :
  host_loop i s = inr (j, rest, he, q) ->
  exists h ds, s = h ++ port_part ds ++ rest /\ Forall host_char h /\ Forall digit (default [] ds) /\
    q = port_number ds /\ q <= 65535 /\ j = i + Z.of_nat (length h) + Z.of_nat (length (port_part ds)) /\
    (rest = [] /\ ds = None /\ he = None \/ (exists t, rest = SLASH :: t) /\ he = Some (i + Z.of_nat (length h))).
Proof.
  revert i. induction s as [|c s IH]; intros i H; cbn [host_loop] in H.
  - simplify_eq. exists [], None. simpl. unfold port_number, number. simpl. split_and!; (done || lia || auto).
  - destruct (Z.eqb_spec c SLASH) as [->|H1].
    { simplify_eq. exists [], None. simpl. unfold port_number, number. simpl.
      split_and!; try done; try lia. right. split; [by eexists | f_equal; lia]. }
    destruct (Z.eqb_spec c COLON) as [->|H2].
    + destruct (port_loop (i + 1) s 0) as [e|[[j' rest'] p]] eqn:E; [done|]. simplify_eq.
      apply port_loop_inv in E as (ds & t & -> & -> & Hd & -> & Hq & ->); [|lia].
      exists [], (Some ds). simpl. split_and!; try done; [lia|].
      right. split; [by eexists | f_equal; lia].
    + apply IH in H as (h & ds & -> & Hh & Hd & -> & Hq & -> & Hr). exists (c :: h), ds. simpl length.
      split_and!; try done; [by constructor | lia |].
      destruct Hr as [?|[? ->]]; [by left|right]. split; [done|]. f_equal. lia.
Qed.

Lemma strrchr_found t c : exists k, strrchr (c :: t) c = Some k /\ 0 <= k <= Z.of_nat (length t).
Proof.
  revert c. induction t as [|x t IH]; intros c.
  - exists 0. simpl. by rewrite Z.eqb_refl.
  - cbn [strrchr length]. fold (strrchr (x :: t) c). destruct (Z.eqb_spec x c) as [->|Hx].
    + destruct (IH c) as (k & Hk & Hb). cbn [strrchr] in Hk |- *. rewrite Z.eqb_refl in *.
      destruct (strrchr t c); simplify_eq; eexists; (split; [reflexivity|lia]).
    + destruct (IH c) as (k & Hk & Hb). cbn [strrchr] in Hk |- *. rewrite Z.eqb_refl in *.
      destruct (Z.eqb_spec x c); [done|].
      destruct (strrchr t c); simplify_eq; eexists; (split; [reflexivity|lia]).
Qed.

(** C18: for every string [urlparse] returns: no assertion fails and nothing is read
    past the terminator; it reports an error or accepts. *)
Theorem urlparse_total url r0 : exists msg r, urlparse url r0 = Done (msg, r).
Proof.
  unfold urlparse. destruct (strstr url (c_str "://")) as [sep|]; [|eauto]. cbn [proto set_proto_port].
  destruct (match_scheme schemes url (Z.to_nat sep)) as [p|]; [|eauto].
  destruct (host_loop _ _) as [[e k]|[[[j rest] he] q]] eqn:E; [eauto|].
  apply host_loop_inv in E as (h & ds & _ & _ & _ & _ & _ & _ & [(-> & _)|[[t ->] _]]); cbn [parse_path].
  - case_match; eauto.
  - change (SLASH =? SLASH) with true. cbv iota.
    destruct (strrchr_found t SLASH) as (k & -> & _). case_match; eauto.
Qed.

Lemma urlparse_scheme_inv url r0 r :
  urlparse url r0 = Done (None, r) -> exists s p tl, url = s ++ c_str "://" ++ tl /\ scheme_of s p.
Proof.
  intros H. unfold urlparse in H.
  destruct (strstr url (c_str "://")) as [sep|] eqn:Es; [|done]. cbn [proto set_proto_port] in H.
  destruct (match_scheme schemes url (Z.to_nat sep)) as [p|] eqn:Em; [|done]. clear H.
  apply strstr_Some in Es as (Hsep & tl & Hurl & Hs). exists (take (Z.to_nat sep) url), p, tl. split; [done|].
  rewrite Hurl in Em at 1. replace (Z.to_nat sep) with (length (take (Z.to_nat sep) url)) in Em at 2 by lia.
  by apply match_scheme_iff in Em.
Qed.

(** C16: whatever [urlparse] accepts is a scheme, "://", a non-empty host, an optional
    port up to 65535 and an optional path, a port being followed by a path; the
    views denote exactly host and path, so they lie inside the string. *)
Theorem urlparse_sound url r0 r :
  urlparse url r0 = Done (None, r) -> Z.of_nat (length url) < 2 ^ 32 ->
  exists s p h ds tail,
    url = s ++ c_str "://" ++ h ++ port_part ds ++ tail /\ scheme_of s p /\ h <> [] /\ Forall host_char h /\
    Forall digit (default [] ds) /\ port_number ds <= 65535 /\
    (tail = [] /\ ds = None \/ exists t, tail = SLASH :: t) /\
    proto r = Some p /\ text url (host r) = h /\ text url (upath r) = tail /\
    port r = default_port p (port_number ds).
Proof.
  intros H Hlen. destruct (urlparse_scheme_inv _ _ _ H) as (s & p & tl & -> & Hs).
  rewrite (urlparse_after_scheme s p) in H by done. cbv zeta in H.
  destruct (host_loop _ _) as [[e k]|[[[j rest] he] q]] eqn:E; [done|].
  apply host_loop_inv in E as (h & ds & -> & Hh & Hd & -> & Hq & -> & Hrest).
  set (url := s ++ c_str "://" ++ h ++ port_part ds ++ rest) in *.
  assert (Z.of_nat (length url) = Z.of_nat (length s) + 3 + Z.of_nat (length h) +
    Z.of_nat (length (port_part ds)) + Z.of_nat (length rest)) as Hl.
  { unfold url. rewrite !length_app. simpl (length (c_str "://")). lia. }
  assert (text url (View (Z.of_nat (length s) + 3) (Z.of_nat (length s) + 3 + Z.of_nat (length h))) = h) as Hth.
  { etransitivity; [|apply (text_middle url (s ++ c_str "://") h (port_part ds ++ rest))].
    + f_equal. rewrite length_app. simpl (length (c_str "://")). f_equal; lia.
    + unfold url. by rewrite <-app_assoc. }
  exists s, p, h, ds, rest. split; [done|]. split; [done|].
  destruct Hrest as [(-> & -> & ->)|[[t ->] ->]]; cbn [parse_path default] in H; unfold id in H.
  - simpl port_part in *. simpl (length []) in *. rewrite !u32_id in H by lia.
    destruct (Z.leb_spec (Z.of_nat (length s) + 3 + Z.of_nat (length h) + Z.of_nat 0) (Z.of_nat (length s) + 3)); [done|].
    simplify_eq. cbn [proto host upath port]. rewrite Z.add_0_r.
    split_and!; try done; [intros ->; simpl in *; lia | by left].
  - change (SLASH =? SLASH) with true in H. cbv iota in H.
    destruct (strrchr_found t SLASH) as (k & Hk & Hkb). rewrite Hk in H. simpl (length (SLASH :: t)) in Hl.
    rewrite !u32_id in H by lia.
    destruct (Z.leb_spec (Z.of_nat (length s) + 3 + Z.of_nat (length h)) (Z.of_nat (length s) + 3)); [done|].
    simplify_eq. cbn [proto host upath port].
    split_and!; try done; [intros ->; simpl in *; lia | right; by exists t |].
    etransitivity; [|apply (text_middle url (s ++ c_str "://" ++ h ++ port_part ds) (SLASH :: t) [])].
    + f_equal. rewrite !length_app. simpl (length (c_str "://")). simpl (length (SLASH :: t)). f_equal; lia.
    + unfold url. by rewrite app_nil_r, <-!app_assoc.
Qed.

(** The errors of [urlparse]: a missing separator, a scheme that is not accepted,
    a port that is not followed by a slash, a port above 65535 and an empty host
    are reported with their messages; before the scheme is found the result
    struct is left alone. *)
Theorem urlparse_errors url r0 :
  (strstr url (c_str "://") = None -> urlparse url r0 = Done (Some MissingScheme, r0)) /\
  (forall s tl, url = s ++ c_str "://" ++ tl -> Forall (fun c => c <> COLON) s ->
    (forall p, ~ scheme_of s p) -> exists r, urlparse url r0 = Done (Some UnknownScheme, r)) /\
  (forall s p h ds, url = s ++ c_str "://" ++ h ++ COLON :: ds -> scheme_of s p -> Forall host_char h ->
    Forall digit ds -> exists r, urlparse url r0 =
      Done (Some (if number 0 ds >? 65535 then PortTooLarge else InvalidDigit), r)) /\
  (forall s p tl, url = s ++ c_str "://" ++ SLASH :: tl -> scheme_of s p -> Z.of_nat (length url) < 2 ^ 32 ->
    exists r, urlparse url r0 = Done (Some EmptyHost, r)).
Proof.
  split_and!.
  - intros H. unfold urlparse. by rewrite H.
  - intros s tl -> Hc Hno. unfold urlparse. rewrite strstr_sep by done. cbn [proto set_proto_port].
    rewrite Nat2Z.id. destruct (match_scheme _ _ _) as [p|] eqn:E; [|eauto].
    apply match_scheme_iff in E. by destruct (Hno p).
  - intros s p h ds -> Hs Hh Hd. rewrite (urlparse_after_scheme s p) by done. cbv zeta.
    rewrite host_loop_spec by done. cbn [host_loop]. change (COLON =? SLASH) with false.
    change (COLON =? COLON) with true. cbv iota.
    pose proof (port_loop_spec (Z.of_nat (length s) + 3 + Z.of_nat (length h) + 1) ds [] 0 Hd ltac:(lia)) as Hp.
    rewrite app_nil_r in Hp. rewrite Hp. cbn [port_loop]. case_match; eauto.
  - intros s p tl -> Hs Hlen. rewrite (urlparse_after_scheme s p) by done. cbv zeta. cbn [host_loop].
    change (SLASH =? SLASH) with true. cbv iota. cbn [parse_path]. change (SLASH =? SLASH) with true. cbv iota.
    destruct (strrchr_found tl SLASH) as (k & -> & _). cbn [default]. unfold id. rewrite Z.leb_refl. eauto.
Qed.

Lemma strncpy_take src n : (n <= length src)%nat -> strncpy src n = take n src.
Proof.
  revert src. induction n as [|n IH]; intros [|x src] H; simpl in *; try done; [lia|]. by rewrite IH by lia.
Qed.

(** For an accepted URL [url_strcpy] copies exactly the host and the path. *)
Theorem url_strcpy_views url r0 r :
  urlparse url r0 = Done (None, r) -> Z.of_nat (length url) < 2 ^ 32 ->
  url_strcpy url (host r) = text url (host r) /\ url_strcpy url (upath r) = text url (upath r).
Proof.
  intros H Hlen. destruct (urlparse_scheme_inv _ _ _ H) as (s & p & tl & Hurl & Hs).
  assert (forall b e, 0 <= b <= e -> e <= Z.of_nat (length url) ->
    url_strcpy url (View b e) = text url (View b e)) as Hcpy.
  { intros b e Hb He. unfold url_strcpy, text. cbn [vbegin vend]. rewrite u32_id by lia.
    apply strncpy_take. rewrite length_drop. lia. }
  revert H. rewrite Hurl at 1. rewrite (urlparse_after_scheme s p) by done. cbv zeta. rewrite <-Hurl.
  destruct (host_loop _ _) as [[e k]|[[[j rest] he] q]] eqn:E; [done|].
  apply host_loop_inv in E as (h & ds & -> & _ & _ & -> & _ & -> & Hrest).
  assert (Z.of_nat (length url) = Z.of_nat (length s) + 3 + Z.of_nat (length h) +
    Z.of_nat (length (port_part ds)) + Z.of_nat (length rest)) as Hl.
  { rewrite Hurl, !length_app. simpl (length (c_str "://")). lia. }
  destruct Hrest as [(-> & -> & ->)|[[t ->] ->]]; cbn [parse_path default]; unfold id.
  - rewrite !u32_id by (simpl in *; lia). case_match; [done|]. intros [= <-]. cbn [host upath].
    split; apply Hcpy; simpl in *; lia.
  - change (SLASH =? SLASH) with true. cbv iota. destruct (strrchr_found t SLASH) as (k & -> & Hk).
    simpl (length (SLASH :: t)) in Hl. rewrite !u32_id by lia. case_match; [done|]. intros [= <-]. cbn [host upath].
    split; apply Hcpy; lia.
Qed.

(** ** Concrete URLs *)

Definition no_url : url_parse := MkUrl None (View 0 0) (View 0 0) (View 0 0) 0.
(** "https://a.b:8080/x/y" *)
Definition demo_url : list Z := c_str "https://a.b:8080/x/y".

Lemma urlparse_parts_witness : exists r,
  urlparse demo_url no_url = Done (None, r) /\ text demo_url (host r) = c_str "a.b" /\
  text demo_url (ofile r) = c_str "y" /\ port r = 8080.
Proof.
  destruct (urlparse_parts (c_str "https") PROTO_HTTPS (c_str "a.b") (Some (c_str "8080")) (c_str "/x") (c_str "y")
    (c_str "x/y") no_url scheme_https) as (r & H1 & _ & H2 & _ & H3 & H4).
  - discriminate.
  - repeat constructor; discriminate.
  - cbv [default]. repeat constructor; discriminate.
  - vm_compute. discriminate.
  - reflexivity.
  - repeat constructor; discriminate.
  - vm_compute. reflexivity.
  - exists r. split; [exact H1|]. split; [exact H2|]. split; [exact H3 | exact H4].
Defined.

(** An abbreviated scheme is accepted. *)
Lemma urlparse_sound_witness : exists r,
  urlparse (c_str "h://x") no_url = Done (None, r) /\ proto r = Some PROTO_HTTP /\ port r = 80 /\
  exists s p, scheme_of s p.
Proof.
  eexists. split; [vm_compute; reflexivity|]. split; [reflexivity|]. split; [reflexivity|].
  edestruct (urlparse_sound (c_str "h://x") no_url) as (s & p & _ & _ & _ & _ & Hs & _);
    [vm_compute; reflexivity | vm_compute; reflexivity |].
  exists s, p. exact Hs.
Defined.

Lemma urlparse_errors_witness : exists r,
  urlparse (c_str "http://h:80") no_url = Done (Some InvalidDigit, r).
Proof.
  destruct (urlparse_errors (c_str "http://h:80") no_url) as (_ & _ & H & _).
  apply (H (c_str "http") PROTO_HTTP (c_str "h") (c_str "80") eq_refl (scheme_http 4)).
  - repeat constructor; discriminate.
  - repeat constructor; discriminate.
Defined.

Lemma url_strcpy_views_witness : exists r,
  urlparse demo_url no_url = Done (None, r) /\ url_strcpy demo_url (host r) = c_str "a.b".
Proof.
  eexists. split; [vm_compute; reflexivity|].
  edestruct (url_strcpy_views demo_url no_url) as [H _]; [vm_compute; reflexivity | vm_compute; reflexivity |].
  rewrite H. reflexivity.
Defined.
