(* ===== verification/Malloc.v ===== *)
(** * The allocator: [src/tlibc/malloc.c]

    Small requests are served from seven arenas of fixed-size blocks that are cut
    out of pages; a page that is entirely free is kept by its arena or unmapped.
    Larger requests get pages of their own.  The state is the memory of the
    process, the pages that are mapped, the static array [caches] and the counter
    [nalloc].  Pointers are addresses and the null pointer is 0, so the links of
    the free lists live in the blocks themselves, where the user's bytes were. *)
From Stdlib Require Import ZArith Lia.
From stdpp Require Import base tactics list numbers list_numbers strings.
From S2P Require Import Prelude Memory.
Open Scope Z_scope.

Definition PGSIZE : Z := 4096.
Definition MAGIC : Z := 0x55aa.

(** ** The operating system

    [os_mmap mapped len] is the address that [mmap(NULL, len, ...)] returns when
    the pages [mapped] are in use, [None] for [MAP_FAILED].  A mapping is made of
    unused pages of the user half of the address space, and a mapping of length 0
    is refused.  [caches_addr] is the address of the static array [caches].
    [debug] tells whether the file was compiled with [__DEBUG__]. *)
Class Os : Type := {
  os_mmap : (Z -> bool) -> Z -> option Z;
  caches_addr : Z;
  debug : bool;
  os_mmap_ok : forall mapped len p, os_mmap mapped len = Some p ->
    0 < len /\ 0 < p /\ p mod PGSIZE = 0 /\ p + len <= 2 ^ 47 /\
    (forall q, p <= q < p + len -> mapped (q / PGSIZE) = false);
  caches_addr_ok : 0 < caches_addr < 2 ^ 47;
}.

(** ** State *)

Record arena : Type := MkArena { freelist : Z; idlepage : Z; block_size : Z }.
Definition sizeof_arena : Z := 24.

Record mstate : Type := MkMem {
  mem : image; mapped : Z -> bool; caches : list arena; nalloc : Z }.

(** [struct page_header]; [alloc_size] shares the storage of [fl]. *)
Definition page_header : layout :=
  [("are", 8); ("first", 8); ("last", 8); ("avail", 2); ("magic", 2); ("total", 2); ("pad", 2)]%string.
Definition sizeof_header : Z := 32.
Definition h_are : Z := 0.
Definition h_fl : Z := 8.
Definition h_alloc_size : Z := 8.
Definition h_avail : Z := 24.
Definition h_magic : Z := 26.
Definition h_total : Z := 28.
(** [struct freelist] *)
Definition fl_first : Z := 0.
Definition fl_last : Z := 8.

Example page_header_layout :
  sizeof page_header = sizeof_header /\ offsetof page_header "are" = h_are /\
  offsetof page_header "first" = h_fl + fl_first /\ offsetof page_header "last" = h_fl + fl_last /\
  offsetof page_header "avail" = h_avail /\ offsetof page_header "magic" = h_magic /\
  offsetof page_header "total" = h_total.
Proof. repeat split. Qed.

Definition initial_caches : list arena :=
  MkArena 0 0 <$> [16; 32; 64; 128; 256; 512; 1024].
Definition ncaches : nat := 7.

(** ** Accesses *)

Definition with_mem (f : image -> image) (s : mstate) : mstate :=
  MkMem (f (mem s)) (mapped s) (caches s) (nalloc s).
Definition with_mapped (f : Z -> bool) (s : mstate) : mstate :=
  MkMem (mem s) f (caches s) (nalloc s).
Definition with_caches (f : list arena -> list arena) (s : mstate) : mstate :=
  MkMem (mem s) (mapped s) (f (caches s)) (nalloc s).
Definition with_nalloc (n : Z) (s : mstate) : mstate :=
  MkMem (mem s) (mapped s) (caches s) n.

(** The pages of the [n] bytes at [a]. *)
Definition pages_of (a n : Z) : list Z := seqZ (a / PGSIZE) ((a + n - 1) / PGSIZE - a / PGSIZE + 1).
Definition accessible (s : mstate) (a n : Z) : bool :=
  (n <=? 0) || forallb (mapped s) (pages_of a n).

Definition load (n a : Z) : cmd mstate Z :=
  fun s => if accessible s a n then Done (ld n (mem s) a, s) else Fault.
Definition store (n a v : Z) : cmd mstate unit :=
  fun s => if accessible s a n then Done (tt, with_mem (fun m => wr m a (le n v)) s) else Fault.
Definition memset (a v n : Z) : cmd mstate unit :=
  fun s => if accessible s a n then Done (tt, with_mem (fun m => fill m a n (u8 v)) s) else Fault.
Definition memcpy (d s n : Z) : cmd mstate unit :=
  fun t =>
    if accessible t d n && accessible t s n && ((d + n <=? s) || (s + n <=? d) || (n =? 0))
    then Done (tt, with_mem (fun m => copy m d s n) t) else Fault.

Section Allocator.
Context {os : Os}.

Definition MyAssert (b : bool) : cmd mstate unit := if debug then c_assert b else mret tt.

(** [&caches[i]], and back. *)
Definition arena_ptr (i : nat) : Z := caches_addr + sizeof_arena * Z.of_nat i.
Definition arena_index (are : Z) : nat := Z.to_nat ((are - caches_addr) / sizeof_arena).
Definition get_arena (are : Z) : cmd mstate arena := fun s =>
  match caches s !! arena_index are with
  | Some a => if are =? arena_ptr (arena_index are) then Done (a, s) else Fault
  | None => Fault
  end.
Definition update (f : mstate -> mstate) : cmd mstate unit := fun s => Done (tt, f s).
Definition put_arena (are : Z) (a : arena) : cmd mstate unit :=
  get_arena are ;; update (with_caches <[arena_index are := a]>).
Definition set_freelist (are p : Z) : cmd mstate unit :=
  a ← get_arena are; put_arena are (MkArena p (idlepage a) (block_size a)).
Definition set_idlepage (are p : Z) : cmd mstate unit :=
  a ← get_arena are; put_arena are (MkArena (freelist a) p (block_size a)).

(** ** Pages *)

Definition mmap (len : Z) : cmd mstate Z := fun s =>
  match os_mmap (mapped s) len with
  | None => Done (-1, s)
  | Some p =>
      Done (p, with_mem (fun m => fill m p len 0)
                 (with_mapped (fun q => (p / PGSIZE <=? q) && (q <=? (p + len - 1) / PGSIZE) || mapped s q) s))
  end.

(** An address that is not a multiple of the page size and the length 0 are
    refused without an effect. *)
Definition munmap (p len : Z) : cmd mstate unit := fun s =>
  if (p mod PGSIZE =? 0) && (0 <? len) then
    Done (tt, with_mapped (fun q => mapped s q && negb ((p / PGSIZE <=? q) && (q <=? (p + len - 1) / PGSIZE))) s)
  else Done (tt, s).

Definition alloc_page (pages : Z) : cmd mstate Z :=
  update (fun s => with_nalloc (u64 (nalloc s + u64 (pages * PGSIZE))) s) ;;
  ret ← mmap (u64 (pages * PGSIZE));
  if ret =? -1 then mret 0 else mret ret.

Definition free_page (pt pages : Z) : cmd mstate unit := munmap pt (u64 (pages * PGSIZE)).

(** ** Free lists; a [struct block] is its pointer [next] *)

Definition freelist_init (fl : Z) : cmd mstate unit :=
  store 8 (fl + fl_last) 0 ;; store 8 (fl + fl_first) 0.

Definition freelist_free (fl blk : Z) : cmd mstate unit :=
  first ← load 8 (fl + fl_first);
  store 8 blk first ;;
  first' ← load 8 (fl + fl_first);
  (if first' =? 0 then
     last ← load 8 (fl + fl_last);
     MyAssert (last =? 0) ;;
     store 8 (fl + fl_last) blk
   else mret tt) ;;
  store 8 (fl + fl_first) blk.

Definition freelist_alloc (fl : Z) : cmd mstate Z :=
  ret ← load 8 (fl + fl_first);
  if ret =? 0 then mret ret else
  last ← load 8 (fl + fl_last);
  (if last =? ret then
     next ← load 8 ret;
     MyAssert (next =? 0) ;;
     store 8 (fl + fl_last) 0
   else mret tt) ;;
  next ← load 8 ret;
  store 8 (fl + fl_first) next ;;
  mret ret.

(** ** Arenas *)

(** [while (offset < sizeof(struct page_header)) offset += bsize;] *)
Fixpoint skip_header (fuel : nat) (bsize offset : Z) : cmd mstate Z :=
  if offset <? sizeof_header then
    match fuel with
    | O => c_diverge
    | S fuel' => skip_header fuel' bsize (u64 (offset + bsize))
    end
  else mret offset.

(** The loop that puts the blocks of a page on its free list. *)
Fixpoint carve (fuel : nat) (page bsize offset : Z) : cmd mstate unit :=
  if offset <? PGSIZE then
    match fuel with
    | O => c_diverge
    | S fuel' =>
        store 8 (page + offset) 0 ;;
        freelist_free (page + h_fl) (page + offset) ;;
        avail ← load 2 (page + h_avail);
        store 2 (page + h_avail) (u16 (avail + 1)) ;;
        carve fuel' page bsize (u64 (offset + bsize))
    end
  else mret tt.

Definition page_header_init (are page : Z) : cmd mstate unit :=
  MyAssert (page mod PGSIZE =? 0) ;;
  a ← get_arena are;
  offset ← skip_header 4096 (block_size a) 0;
  store 8 (page + h_are) are ;;
  store 2 (page + h_magic) MAGIC ;;
  store 2 (page + h_avail) 0 ;;
  freelist_init (page + h_fl) ;;
  carve 4096 page (block_size a) offset ;;
  avail ← load 2 (page + h_avail);
  MyAssert (1 <? avail) ;;
  store 2 (page + h_total) avail.

(** The first part of [arena_alloc]: make [are->idlepage] a page. *)
Definition arena_page (are : Z) : cmd mstate bool :=
  a ← get_arena are;
  if idlepage a =? 0 then
    page ← alloc_page 1;
    if page =? 0 then mret false else
    page_header_init are page ;;
    set_idlepage are page ;;
    mret true
  else mret true.

(** Its second part: seize the blocks of the idle page. *)
Definition arena_seize (are : Z) : cmd mstate unit :=
  a ← get_arena are;
  let ph := idlepage a in
  MyAssert (ph mod PGSIZE =? 0) ;;
  magic ← load 2 (ph + h_magic);
  MyAssert (magic =? MAGIC) ;;
  ph_are ← load 8 (ph + h_are);
  MyAssert (ph_are =? are) ;;
  avail ← load 2 (ph + h_avail);
  MyAssert (0 <? avail) ;;
  store 2 (ph + h_avail) 0 ;;
  last ← load 8 (ph + h_fl + fl_last);
  store 8 last (freelist a) ;;
  first ← load 8 (ph + h_fl + fl_first);
  set_freelist are first ;;
  freelist_init (ph + h_fl) ;;
  set_idlepage are 0.

(** Its last part: take the first block. *)
Definition arena_pop (are : Z) : cmd mstate Z :=
  a ← get_arena are;
  let ret := freelist a in
  next ← load 8 ret;
  set_freelist are next ;;
  mret ret.

Definition arena_alloc (are : Z) : cmd mstate Z :=
  a ← get_arena are;
  if freelist a =? 0 then
    ok ← arena_page are;
    if negb ok then mret 0 else
    arena_seize are ;;
    arena_pop are
  else arena_pop are.

Definition arena_add_idle (are ph : Z) : cmd mstate unit :=
  MyAssert (ph mod PGSIZE =? 0) ;;
  magic ← load 2 (ph + h_magic);
  MyAssert (magic =? MAGIC) ;;
  ph_are ← load 8 (ph + h_are);
  MyAssert (ph_are =? are) ;;
  avail ← load 2 (ph + h_avail);
  MyAssert (0 <? avail) ;;
  a ← get_arena are;
  if negb (idlepage a =? 0) then free_page ph 1 else set_idlepage are ph.

Definition malloc_fini : cmd mstate unit :=
  c_for ncaches 0 (fun i =>
    a ← get_arena (arena_ptr (Z.to_nat i));
    if negb (idlepage a =? 0) then free_page (idlepage a) 1 else mret tt).

(** ** The interface *)

(** [while (are->block_size < size) are++;] *)
Fixpoint find_arena (fuel : nat) (are size : Z) : cmd mstate Z :=
  a ← get_arena are;
  if block_size a <? size then
    match fuel with
    | O => c_diverge
    | S fuel' =>
        MyAssert (are + sizeof_arena <? arena_ptr ncaches) ;;
        find_arena fuel' (are + sizeof_arena) size
    end
  else mret are.

Definition mymalloc (size : Z) : cmd mstate Z :=
  if 1024 <? size then
    let size := u64 (size + sizeof_header) in
    let pages := u64 (size + PGSIZE - 1) / PGSIZE in
    ret ← alloc_page pages;
    if ret =? 0 then mret 0 else
    store 8 (ret + h_are) 0 ;;
    store 8 (ret + h_alloc_size) (u64 (pages * PGSIZE)) ;;
    store 2 (ret + h_magic) MAGIC ;;
    mret (ret + sizeof_header)
  else
    are ← find_arena ncaches (arena_ptr 0) size;
    arena_alloc are.

Definition cpp_alloc (size : Z) : cmd mstate Z :=
  if 1024 <? size then alloc_page (u64 (size + (PGSIZE - 1)) / PGSIZE)
  else mymalloc size.

Definition block_to_page (block : Z) : Z := block - block mod PGSIZE.

Definition myfree (pt : Z) : cmd mstate unit :=
  if pt =? 0 then mret tt else
  let ph := block_to_page pt in
  magic ← load 2 (ph + h_magic);
  if negb (magic =? MAGIC) then c_abort else
  are ← load 8 (ph + h_are);
  if are =? 0 then
    alloc_size ← load 8 (ph + h_alloc_size);
    free_page ph (alloc_size / PGSIZE)
  else
    avail ← load 2 (ph + h_avail);
    store 2 (ph + h_avail) (u16 (avail + 1)) ;;
    freelist_free (ph + h_fl) pt ;;
    avail ← load 2 (ph + h_avail);
    total ← load 2 (ph + h_total);
    if avail =? total then
      are ← load 8 (ph + h_are);
      arena_add_idle are ph
    else mret tt.

Definition cpp_free (pt size : Z) : cmd mstate unit :=
  if 1024 <? size then
    MyAssert (pt mod PGSIZE =? 0) ;;
    if negb (pt =? 0) then free_page pt (u64 (size + PGSIZE - 1) / PGSIZE) else mret tt
  else myfree pt.

Definition myrealloc (pt size : Z) : cmd mstate Z :=
  if pt =? 0 then mymalloc size else
  let ph := block_to_page pt in
  magic ← load 2 (ph + h_magic);
  MyAssert (magic =? MAGIC) ;;
  are ← load 8 (ph + h_are);
  if are =? 0 then
    alloc_size ← load 8 (ph + h_alloc_size);
    if size <=? u64 (alloc_size - sizeof_header) then mret pt else
    newpt ← mymalloc size;
    if newpt =? 0 then mret 0 else
    alloc_size ← load 8 (ph + h_alloc_size);
    memcpy newpt pt (u64 (alloc_size - sizeof_header)) ;;
    myfree pt ;;
    mret newpt
  else
    a ← get_arena are;
    if size <=? block_size a then mret pt else
    newpt ← mymalloc size;
    if newpt =? 0 then mret 0 else
    a ← get_arena are;
    memcpy newpt pt (block_size a) ;;
    myfree pt ;;
    mret newpt.

(** The functions that replace the C library's with [__HOOK__]. *)
Definition malloc (size : Z) : cmd mstate Z := mymalloc size.
Definition free (pt : Z) : cmd mstate unit := myfree pt.
Definition realloc (pt size : Z) : cmd mstate Z := myrealloc pt size.
Definition calloc (nmemb size : Z) : cmd mstate Z :=
  let total := u64 (nmemb * size) in
  ret ← mymalloc total;
  (if negb (ret =? 0) then memset ret 0 total else mret tt) ;;
  mret ret.
Definition reallocarray (pt nmemb size : Z) : cmd mstate Z :=
  let total := u64 (nmemb * size) in
  myrealloc pt total.
End Allocator.
