(* ===== verification/MallocRep.v ===== *)
(** * The heap behind the allocator

    [heap] is the abstract state of [malloc.c]: the mappings it made, with the
    free list of every page that belongs to an arena, and the free list of every
    arena.  The blocks a client holds are the ones on no list.  [heap_ok] relates
    it to the memory; this file has its frame lemmas and the accesses. *)
From Stdlib Require Import ZArith Lia.
From stdpp Require Import base tactics list numbers list_numbers strings gmap.
From S2P Require Import Prelude Memory Malloc.
Open Scope Z_scope.

(** ** Geometry of a page of arena [i] *)

Definition bsize (i : nat) : Z := Z.shiftl 16 (Z.of_nat i).
(** Offset of the first block: the first multiple of the block size behind the
    header. *)
Definition first_off (i : nat) : Z := Z.max sizeof_header (bsize i).
Definition nblocks (i : nat) : Z := (PGSIZE - first_off i) / bsize i.
Definition block_at (i : nat) (p k : Z) : Z := p + first_off i + k * bsize i.
Definition blocks (i : nat) (p : Z) : list Z := block_at i p <$> seqZ 0 (nblocks i).

Lemma arena_geometry i : (i < ncaches)%nat ->
  In (bsize i, first_off i, nblocks i)
     [(16, 32, 254); (32, 32, 127); (64, 64, 63); (128, 128, 31); (256, 256, 15); (512, 512, 7); (1024, 1024, 3)].
Proof.
  unfold ncaches. intros Hi. do 7 (destruct i as [|i]; [vm_compute; tauto|]). lia.
Qed.

(** Split on the arena; the sizes become literals. *)
Ltac geometry i Hi :=
  let H := fresh in pose proof (arena_geometry i Hi) as H; simpl in H;
  repeat destruct H as [H|H]; try done;
  let E1 := fresh in let E2 := fresh in let E3 := fresh in
  injection H as E1 E2 E3; try rewrite <-E1 in *; try rewrite <-E2 in *; try rewrite <-E3 in *.

Lemma elem_of_blocks i p b :
  b ∈ blocks i p <-> exists k, 0 <= k < nblocks i /\ b = block_at i p k.
Proof.
  unfold blocks. rewrite list_elem_of_fmap. setoid_rewrite elem_of_seqZ.
  split; intros (k & ? & ?); exists k; (split; [lia || done | done || lia]).
Qed.

(** A block lies in its page, behind the header, on an 8-byte boundary. *)
Lemma block_bounds i p b : (i < ncaches)%nat -> b ∈ blocks i p ->
  p + sizeof_header <= b /\ b + bsize i <= p + PGSIZE /\ 16 <= bsize i <= 1024.
Proof.
  intros Hi (k & Hk & ->)%elem_of_blocks. unfold block_at, sizeof_header, PGSIZE in *. geometry i Hi; lia.
Qed.

Lemma block_separate i p b b' : (i < ncaches)%nat -> b ∈ blocks i p -> b' ∈ blocks i p -> b <> b' ->
  b + bsize i <= b' \/ b' + bsize i <= b.
Proof.
  intros Hi (k & Hk & ->)%elem_of_blocks (k' & Hk' & ->)%elem_of_blocks Hne. unfold block_at in *.
  geometry i Hi; lia.
Qed.

Lemma nblocks_pos i : (i < ncaches)%nat -> 1 < nblocks i < 4096.
Proof. intros Hi. geometry i Hi; lia. Qed.

Lemma length_blocks i p : (i < ncaches)%nat -> Z.of_nat (length (blocks i p)) = nblocks i.
Proof. intros Hi. unfold blocks. rewrite length_fmap, length_seqZ. pose proof (nblocks_pos i Hi). lia. Qed.

Lemma NoDup_blocks i p : (i < ncaches)%nat -> NoDup (blocks i p).
Proof.
  intros Hi. apply NoDup_fmap_2_strong; [|apply NoDup_seqZ].
  intros k k' _ _. unfold block_at. geometry i Hi; lia.
Qed.

(** ** The abstract heap *)

Inductive mapping : Type :=
| PSmall (i : nat) (fl : list Z)
| PLarge (n : Z)
| PRaw (n : Z).

Definition map_pages (k : mapping) : Z :=
  match k with PSmall _ _ => 1 | PLarge n => n | PRaw n => n end.

Record heap : Type := MkHeap { h_maps : gmap Z mapping; h_free : nat -> list Z }.

Definition heap_map (f : gmap Z mapping -> gmap Z mapping) (h : heap) : heap :=
  MkHeap (f (h_maps h)) (h_free h).
Definition heap_free (i : nat) (l : list Z) (h : heap) : heap :=
  MkHeap (h_maps h) (fun j => if decide (j = i) then l else h_free h j).

(** What a client holds: a block of an arena, the pages of a large request behind
    their header, or bare pages. *)
Inductive kind : Type :=
| Small (i : nat)
| Large (n : Z)
| Raw (n : Z).

Definition usable (k : kind) : Z :=
  match k with Small i => bsize i | Large n => n * PGSIZE - sizeof_header | Raw n => n * PGSIZE end.

(** [b] is held by the client: an object of kind [k] in the mapping [m] at [p]. *)
Definition live_at (free : nat -> list Z) (p : Z) (m : mapping) (b : Z) (k : kind) : Prop :=
  match m with
  | PSmall i fl => k = Small i /\ (b ∈ blocks i p) /\ (b ∉ fl) /\ (b ∉ free i)
  | PLarge n => k = Large n /\ b = p + sizeof_header
  | PRaw n => k = Raw n /\ b = p
  end.
Definition live (h : heap) (b : Z) (k : kind) : Prop :=
  exists p m, h_maps h !! p = Some m /\ live_at (h_free h) p m b k.

(** The live objects after a mapping was replaced. *)
Lemma live_insert h p m b k :
  live (heap_map <[p := m]> h) b k <->
  live_at (h_free h) p m b k \/
  exists p' m', p' <> p /\ h_maps h !! p' = Some m' /\ live_at (h_free h) p' m' b k.
Proof.
  unfold live. simpl. split.
  - intros (p' & m' & Hp' & Hl). apply lookup_insert_Some in Hp' as [[<- <-]|[Hne Hp']]; [by left | right].
    exists p', m'. auto.
  - intros [Hl|(p' & m' & Hne & Hp' & Hl)]; [exists p, m | exists p', m'];
      (split; [|done]); rewrite lookup_insert_Some; naive_solver.
Qed.

Lemma live_split h p m b k : h_maps h !! p = Some m ->
  live h b k <->
  live_at (h_free h) p m b k \/
  exists p' m', p' <> p /\ h_maps h !! p' = Some m' /\ live_at (h_free h) p' m' b k.
Proof.
  intros Hp. rewrite <-live_insert. unfold live, heap_map. simpl. by rewrite insert_id.
Qed.

(** The live objects without a mapping. *)
Lemma live_delete h p m b k : h_maps h !! p = Some m ->
  live h b k <-> live_at (h_free h) p m b k \/ live (heap_map (delete p) h) b k.
Proof.
  intros Hp. rewrite (live_split h p m) by done. unfold live. simpl.
  setoid_rewrite lookup_delete_Some. split; (intros [Hl|(p' & m' & Hl)]; [by left | right; exists p', m']).
  - destruct Hl as (? & ? & ?). auto.
  - destruct Hl as ((? & ?) & ?). auto.
Qed.

(** Two ranges have no byte in common. *)
Definition apart (a n b k : Z) : Prop := a + n <= b \/ b + k <= a.

(** ** Representation *)

(** A list of blocks linked through their first words. *)
Fixpoint chain (m : image) (l : list Z) : Prop :=
  match l with
  | [] => True
  | b :: l' => ld 8 m b = hd 0 l' /\ chain m l'
  end.

Definition fl_rep (m : image) (a : Z) (l : list Z) : Prop :=
  ld 8 m (a + fl_first) = hd 0 l /\ ld 8 m (a + fl_last) = List.last l 0 /\ chain m l.

Section Representation.
Context {os : Os}.
(** The pages of the process that are not the allocator's. *)
Context (foreign : Z -> bool).

Definition page_rep (m : image) (p : Z) (i : nat) (fl : list Z) : Prop :=
  ld 8 m (p + h_are) = arena_ptr i /\ fl_rep m (p + h_fl) fl /\
  ld 2 m (p + h_avail) = Z.of_nat (length fl) /\ ld 2 m (p + h_magic) = MAGIC /\
  ld 2 m (p + h_total) = nblocks i.

Definition map_rep (m : image) (p : Z) (k : mapping) : Prop :=
  match k with
  | PSmall i fl => page_rep m p i fl
  | PLarge n => ld 8 m (p + h_are) = 0 /\ ld 8 m (p + h_alloc_size) = n * PGSIZE /\
                ld 2 m (p + h_magic) = MAGIC
  | PRaw n => True
  end.

(** The free list of a page has blocks of the page, none twice. *)
Definition map_wf (p : Z) (k : mapping) : Prop :=
  0 < p /\ p mod PGSIZE = 0 /\ 0 < map_pages k /\ p + map_pages k * PGSIZE <= 2 ^ 47 /\
  match k with
  | PSmall i fl => (i < ncaches)%nat /\ NoDup fl /\ fl ⊆ blocks i p
  | _ => True
  end.

Definition owned (h : heap) (q : Z) : Prop :=
  exists p k, h_maps h !! p = Some k /\ p / PGSIZE <= q < p / PGSIZE + map_pages k.

(** [heap_ok x s h]; the page [x] may be free without being kept as idle page. *)
Record heap_ok (x : Z) (s : mstate) (h : heap) : Prop := {
  r_map : forall p k, h_maps h !! p = Some k -> map_wf p k;
  r_rep : forall p k, h_maps h !! p = Some k -> map_rep (mem s) p k;
  r_apart : forall p k p' k', h_maps h !! p = Some k -> h_maps h !! p' = Some k' -> p <> p' ->
    apart p (map_pages k * PGSIZE) p' (map_pages k' * PGSIZE);
  r_mapped : forall q, mapped s q = true <-> foreign q = true \/ owned h q;
  r_foreign : forall q, foreign q = true -> ~ owned h q;
  r_caches : length (caches s) = ncaches;
  r_arena : forall i a, caches s !! i = Some a ->
    block_size a = bsize i /\ freelist a = hd 0 (h_free h i) /\
    (idlepage a <> 0 -> exists fl, h_maps h !! idlepage a = Some (PSmall i fl) /\
                                   Z.of_nat (length fl) = nblocks i);
  r_free : forall i b, (i < ncaches)%nat -> b ∈ h_free h i ->
    exists p fl, h_maps h !! p = Some (PSmall i fl) /\ b ∈ blocks i p /\ b ∉ fl;
  r_chain : forall i, (i < ncaches)%nat -> NoDup (h_free h i) /\ chain (mem s) (h_free h i);
  r_full : forall p i fl, h_maps h !! p = Some (PSmall i fl) ->
    Z.of_nat (length fl) = nblocks i -> p <> x ->
    exists a, caches s !! i = Some a /\ idlepage a = p;
}.

(** *** Extents *)

Lemma map_wf_small p i fl : map_wf p (PSmall i fl) -> (i < ncaches)%nat.
Proof. intros (? & ? & ? & ? & ? & ?). done. Qed.

(** The range of an object [b] of kind [k] lies in its mapping. *)
Lemma live_at_inside p m free b k : map_wf p m -> live_at free p m b k ->
  p <= b /\ b + usable k <= p + map_pages m * PGSIZE /\ 0 < usable k /\
  (match m with PRaw _ => True | _ => p + sizeof_header <= b end).
Proof.
  intros (Hp0 & Hpm & Hn & Hpb & Hk) Hl. unfold sizeof_header, PGSIZE in *.
  destruct m as [i fl|n|n]; simpl in *.
  - destruct Hl as (-> & Hb & _). simpl. pose proof (block_bounds i p b (proj1 Hk) Hb).
    unfold sizeof_header, PGSIZE in *. lia.
  - destruct Hl as (-> & ->). simpl. unfold PGSIZE, sizeof_header. lia.
  - destruct Hl as (-> & ->). simpl. unfold PGSIZE. lia.
Qed.

Lemma small_apart x s h p i fl b p' i' fl' b' :
  heap_ok x s h -> h_maps h !! p = Some (PSmall i fl) -> b ∈ blocks i p ->
  h_maps h !! p' = Some (PSmall i' fl') -> b' ∈ blocks i' p' -> b <> b' ->
  apart b (bsize i) b' (bsize i').
Proof.
  intros Hok Hp Hb Hp' Hb' Hne.
  pose proof (r_map _ _ _ Hok _ _ Hp) as Hi%map_wf_small.
  pose proof (r_map _ _ _ Hok _ _ Hp') as Hi'%map_wf_small.
  pose proof (block_bounds _ _ _ Hi Hb). pose proof (block_bounds _ _ _ Hi' Hb').
  unfold apart, sizeof_header in *. destruct (decide (p = p')) as [<-|Hpp].
  - rewrite Hp in Hp'. simplify_eq. pose proof (block_separate _ _ _ _ Hi Hb Hb'). lia.
  - pose proof (r_apart _ _ _ Hok _ _ _ _ Hp Hp' Hpp) as Ha. unfold apart in Ha. simpl in Ha. lia.
Qed.

(** A live object does not meet a block on a free list. *)
Lemma live_block_apart x s h b k p i fl b' :
  heap_ok x s h -> live h b k -> h_maps h !! p = Some (PSmall i fl) -> b' ∈ blocks i p ->
  b' ∈ fl \/ b' ∈ h_free h i -> apart b (usable k) b' (bsize i).
Proof.
  intros Hok (p0 & m & Hm & Hl) Hp Hb' Hfree.
  pose proof (r_map _ _ _ Hok _ _ Hp) as Hi%map_wf_small.
  pose proof (block_bounds _ _ _ Hi Hb') as Hbb.
  pose proof (live_at_inside _ _ _ _ _ (r_map _ _ _ Hok _ _ Hm) Hl) as Hin.
  destruct (decide (p0 = p)) as [->|Hne].
  - rewrite Hp in Hm. injection Hm as <-. destruct Hl as (-> & Hb & Hnfl & Hnfr).
    apply (small_apart _ _ _ _ _ _ _ _ _ _ _ Hok Hp Hb Hp Hb'). intros ->. tauto.
  - pose proof (r_apart _ _ _ Hok _ _ _ _ Hm Hp Hne) as Ha. unfold apart in *. simpl in Ha.
    unfold sizeof_header in *. lia.
Qed.

(** Nor the header of a page. *)
Lemma live_header_apart x s h b k p m :
  heap_ok x s h -> live h b k -> h_maps h !! p = Some m ->
  (match m with PRaw _ => False | _ => True end) -> apart b (usable k) p sizeof_header.
Proof.
  intros Hok (p0 & m0 & Hm0 & Hl) Hp Hm.
  pose proof (live_at_inside _ _ _ _ _ (r_map _ _ _ Hok _ _ Hm0) Hl) as Hin.
  pose proof (r_map _ _ _ Hok _ _ Hp) as (_ & _ & Hpos & _).
  unfold apart. destruct (decide (p0 = p)) as [->|Hne].
  - rewrite Hp in Hm0. injection Hm0 as <-. destruct m; [lia | lia | done].
  - pose proof (r_apart _ _ _ Hok _ _ _ _ Hm0 Hp Hne) as Ha. unfold apart, sizeof_header, PGSIZE in *. lia.
Qed.

(** Nor another live object. *)
Lemma live_apart x s h b k b' k' :
  heap_ok x s h -> live h b k -> live h b' k' -> b <> b' -> apart b (usable k) b' (usable k').
Proof.
  intros Hok (p & m & Hm & Hl) (p' & m' & Hm' & Hl') Hne.
  pose proof (live_at_inside _ _ _ _ _ (r_map _ _ _ Hok _ _ Hm) Hl) as Hin.
  pose proof (live_at_inside _ _ _ _ _ (r_map _ _ _ Hok _ _ Hm') Hl') as Hin'.
  destruct (decide (p = p')) as [<-|Hpp].
  - rewrite Hm in Hm'. injection Hm' as <-. destruct m as [i fl|n|n].
    + destruct Hl as (-> & Hb & _), Hl' as (-> & Hb' & _).
      by apply (small_apart _ _ _ _ _ _ _ _ _ _ _ Hok Hm Hb Hm Hb').
    + by destruct Hl as (-> & ->), Hl' as (-> & ->).
    + by destruct Hl as (-> & ->), Hl' as (-> & ->).
  - pose proof (r_apart _ _ _ Hok _ _ _ _ Hm Hm' Hpp) as Ha. unfold apart in *. lia.
Qed.

(** *** Frames *)

Lemma ld_frame n m m' a :
  (forall x, a <= x < a + n -> ibyte m' x = ibyte m x) -> ld n m' a = ld n m a.
Proof. intros H. unfold ld. f_equal. apply rd_ext. intros. apply H. lia. Qed.

Lemma chain_frame m m' l :
  (forall b x, b ∈ l -> b <= x < b + 8 -> ibyte m' x = ibyte m x) -> chain m l -> chain m' l.
Proof.
  induction l as [|b l IH]; intros H; [done|]. intros [Hb Hl]. split.
  - rewrite <-Hb. apply ld_frame. intros x Hx. apply (H b x); [left | done].
  - apply IH; [|done]. intros b' x Hb'. apply H. by right.
Qed.

Lemma page_rep_frame m m' p i fl :
  (forall x, p <= x < p + sizeof_header -> ibyte m' x = ibyte m x) ->
  (forall b x, b ∈ fl -> b <= x < b + 8 -> ibyte m' x = ibyte m x) ->
  page_rep m p i fl -> page_rep m' p i fl.
Proof.
  unfold sizeof_header, page_rep, fl_rep, h_are, h_fl, h_avail, h_magic, h_total, fl_first, fl_last.
  intros Hh Hb (H1 & (H2 & H3 & H4) & H5 & H6 & H7).
  rewrite !(ld_frame _ m m') by (intros x Hx; apply Hh; lia).
  repeat split; try done. by apply (chain_frame m).
Qed.

Lemma map_rep_frame m m' p k :
  (forall x, p <= x < p + sizeof_header -> ibyte m' x = ibyte m x) ->
  (forall i fl b x, k = PSmall i fl -> b ∈ fl -> b <= x < b + 8 -> ibyte m' x = ibyte m x) ->
  map_rep m p k -> map_rep m' p k.
Proof.
  destruct k as [i fl|n|n]; simpl; intros Hh Hb; [|unfold h_are, h_alloc_size, h_magic|done].
  - apply page_rep_frame; [done|]. intros b x. by apply (Hb i fl).
  - unfold sizeof_header in Hh. rewrite !(ld_frame _ m m') by (intros x Hx; apply Hh; lia). done.
Qed.

(** A client that writes only to what it holds keeps the heap intact. *)
Lemma heap_ok_client x s h m' :
  heap_ok x s h ->
  (forall y, ibyte m' y <> ibyte (mem s) y -> exists b k, live h b k /\ b <= y < b + usable k) ->
  heap_ok x (with_mem (fun _ => m') s) h.
Proof.
  intros Hok Hm.
  assert (forall a n, (forall b k, live h b k -> apart b (usable k) a n) ->
            forall y, a <= y < a + n -> ibyte m' y = ibyte (mem s) y) as Hout.
  { intros a n Ha y Hy. destruct (decide (ibyte m' y = ibyte (mem s) y)) as [|Hne]; [done|].
    destruct (Hm y Hne) as (b & k & Hl & Hy'). specialize (Ha b k Hl). unfold apart in Ha. lia. }
  assert (forall p i fl b, h_maps h !! p = Some (PSmall i fl) -> b ∈ blocks i p ->
            b ∈ fl \/ b ∈ h_free h i -> forall y, b <= y < b + 8 -> ibyte m' y = ibyte (mem s) y) as Hblk.
  { intros p i fl b Hp Hb Hf y Hy. apply (Hout b (bsize i)).
    - intros b' k' Hl. by apply (live_block_apart _ _ _ _ _ _ _ _ _ Hok Hl Hp Hb).
    - pose proof (block_bounds _ _ _ (map_wf_small _ _ _ (r_map _ _ _ Hok _ _ Hp)) Hb). lia. }
  pose proof Hok as [Hmap Hrep Hap Hma Hfo Hca Har Hfr Hch Hfu].
  constructor; simpl; try done.
  - intros p k Hp. destruct k as [i fl|n|n]; [| |done].
    + apply (map_rep_frame (mem s)); [| |by apply Hrep].
      * apply Hout. intros b k Hl. by apply (live_header_apart _ _ _ _ _ _ _ Hok Hl Hp).
      * intros ? ? b y [= <- <-] Hb. destruct (Hmap _ _ Hp) as (_ & _ & _ & _ & _ & _ & Hsub).
        apply (Hblk p i fl); [done | by apply Hsub | by left].
    + apply (map_rep_frame (mem s)); [|done|by apply Hrep].
      apply Hout. intros b k Hl. by apply (live_header_apart _ _ _ _ _ _ _ Hok Hl Hp).
  - intros i Hi. destruct (Hch i Hi) as [Hnd Hc]. split; [done|].
    apply (chain_frame (mem s)); [|done]. intros b y Hb.
    destruct (Hfr i b Hi Hb) as (p & fl & Hp & Hbb & _). apply (Hblk p i fl); auto.
Qed.

End Representation.

(** ** Accesses *)

(** The [n] pages at [p] are mapped. *)
Definition page_mapped (s : mstate) (p n : Z) : Prop :=
  forall q, p / PGSIZE <= q < p / PGSIZE + n -> mapped s q = true.

Lemma accessible_page s p n a k :
  p mod PGSIZE = 0 -> page_mapped s p n -> p <= a -> a + k <= p + n * PGSIZE -> accessible s a k = true.
Proof.
  intros Hp Hm Ha Hk. unfold accessible. destruct (Z.leb_spec k 0) as [|Hk0]; [done|]. simpl.
  apply forallb_forall. intros q Hq%list_elem_of_In. unfold pages_of in Hq. apply elem_of_seqZ in Hq.
  apply Hm. unfold PGSIZE in *. dlia.
Qed.

Lemma wp_load n a (Q : Z -> mstate -> Prop) s :
  accessible s a n = true -> Q (ld n (mem s) a) s -> wp (load n a) Q s.
Proof. unfold wp, load. by intros ->. Qed.

Lemma wp_store n a v (Q : unit -> mstate -> Prop) s :
  accessible s a n = true -> Q tt (with_mem (fun m => wr m a (le n v)) s) -> wp (store n a v) Q s.
Proof. unfold wp, store. by intros ->. Qed.

Lemma accessible_with_mem s f a n : accessible (with_mem f s) a n = accessible s a n.
Proof. done. Qed.

Lemma wp_MyAssert {os : Os} b (Q : unit -> mstate -> Prop) s : b = true -> Q tt s -> wp (MyAssert b) Q s.
Proof. intros -> HQ. unfold MyAssert. by destruct debug. Qed.

(** [s'] differs from [s] in the bytes of [R] only. *)
Definition only (R : Z -> Prop) (s s' : mstate) : Prop :=
  mapped s' = mapped s /\ caches s' = caches s /\ nalloc s' = nalloc s /\
  forall x, ~ R x -> ibyte (mem s') x = ibyte (mem s) x.

Lemma only_trans (R : Z -> Prop) s s' s'' : only R s s' -> only R s' s'' -> only R s s''.
Proof.
  intros (H1 & H2 & H3 & H4) (H1' & H2' & H3' & H4'). repeat split; try congruence.
  intros x Hx. by rewrite H4', H4.
Qed.

Lemma only_mono (R R' : Z -> Prop) s s' : only R s s' -> (forall x, R x -> R' x) -> only R' s s'.
Proof. intros (H1 & H2 & H3 & H4) HR. repeat split; try done. intros x Hx. apply H4. auto. Qed.

Lemma page_mapped_only R s s' p n : only R s s' -> page_mapped s p n -> page_mapped s' p n.
Proof. intros (H & _) Hm q Hq. rewrite H. by apply Hm. Qed.

Definition within (a n : Z) (x : Z) : Prop := a <= x < a + n.
