(* ===== verification/MallocSpec.v ===== *)
(** * What the functions of the allocator do to the heap *)
From Stdlib Require Import ZArith Lia.
From stdpp Require Import base tactics list numbers list_numbers strings gmap.
From S2P Require Import Prelude Memory Malloc MallocRep.
Open Scope Z_scope.

(** Rewrite a load from an updated memory. *)
Lemma ld_wr_at n m a v b : 0 <= n -> b = a -> 0 <= v < 2 ^ (8 * n) -> ld n (wr m a (le n v)) b = v.
Proof. intros Hn -> Hv. rewrite ld_wr_le by done. by apply wrap_small. Qed.

Lemma ld_wr_apart n m a k v b : 0 <= k -> apart b n a k -> ld n (wr m a (le k v)) b = ld n m b.
Proof. intros Hk Ha. unfold ld. f_equal. apply rd_wr_le_out; [done|]. unfold apart in Ha. lia. Qed.

Lemma chain_wr m l a k v :
  0 <= k -> (forall b, b ∈ l -> apart b 8 a k) -> chain m l -> chain (wr m a (le k v)) l.
Proof.
  intros Hk Ha. apply chain_frame. intros b x Hb Hx. specialize (Ha b Hb). unfold apart in Ha.
  apply ibyte_wr_le_out; lia.
Qed.

Lemma only_wr (R : Z -> Prop) s a k v :
  0 <= k -> (forall x, a <= x < a + k -> R x) -> only R s (with_mem (fun m => wr m a (le k v)) s).
Proof.
  intros Hk HR. repeat split. intros x Hx. simpl. apply ibyte_wr_le_out; [done|].
  destruct (decide (a <= x < a + k)) as [Hin|]; [by destruct (Hx (HR x Hin)) | lia].
Qed.

(** One step of a command; an access is justified by the mapping of its page. *)
Ltac access := rewrite ?accessible_with_mem; eapply accessible_page; [eassumption | eassumption | unfold PGSIZE in *; lia | unfold PGSIZE in *; lia].
Ltac mstep :=
  lazymatch goal with
  | |- wp (load _ _) _ _ => apply wp_load; [access|]
  | |- wp (store _ _ _) _ _ => apply wp_store; [access|]
  | |- _ => wp_step
  end.

Section Operations.
Context {os : Os}.

(** The place of a page in the address space. *)
Definition page_at (s : mstate) (p : Z) : Prop :=
  0 < p /\ p mod PGSIZE = 0 /\ p + PGSIZE <= 2 ^ 47 /\ page_mapped s p 1.

(** Blocks of a page, apart from [b]. *)
Definition blocks_apart (p b : Z) (fl : list Z) : Prop :=
  forall c, c ∈ fl -> p + sizeof_header <= c /\ c + 8 <= p + PGSIZE /\ apart c 8 b 8.

Definition put_region (p b x : Z) : Prop := within (p + h_fl) 16 x \/ within b 8 x.

Lemma wp_freelist_free p b fl (Q : unit -> mstate -> Prop) s :
  page_at s p -> p + sizeof_header <= b -> b + 8 <= p + PGSIZE ->
  fl_rep (mem s) (p + h_fl) fl -> blocks_apart p b fl ->
  (forall s', only (put_region p b) s s' -> fl_rep (mem s') (p + h_fl) (b :: fl) -> Q tt s') ->
  wp (freelist_free (p + h_fl) b) Q s.
Proof.
  intros (Hp0 & Hpm & Hpb & Hma) Hb1 Hb2 (Hf & Hl & Hc) Hap HQ.
  unfold freelist_free, sizeof_header, h_fl, fl_first, fl_last, PGSIZE in *.
  assert (0 <= hd 0 fl < 2 ^ 47) as Hhd.
  { destruct fl as [|c fl]; simpl; [lia|]. specialize (Hap c). unfold sizeof_header, PGSIZE in *.
    assert (c ∈ (c :: fl)) as Hin by left. specialize (Hap Hin). lia. }
  do 2 mstep. rewrite Hf. do 4 mstep. cbn [mem with_mem]. rewrite ld_wr_apart, Hf by (unfold apart; lia).
  destruct fl as [|c fl]; simpl.
  - simpl in Hl. do 3 mstep. simpl. rewrite ld_wr_apart, Hl by (unfold apart; lia).
    mstep. apply wp_MyAssert; [done|]. do 2 mstep. apply HQ.
    + eapply only_trans; [|eapply only_trans]; apply only_wr; unfold put_region, within, h_fl; lia.
    + unfold fl_rep, fl_first, fl_last, h_fl. simpl. repeat split.
      * rewrite ld_wr_at; lia.
      * rewrite ld_wr_apart by (unfold apart; lia). rewrite ld_wr_at; lia.
      * rewrite !(ld_wr_apart 8 _ _ 8 b) by (unfold apart; lia). rewrite ld_wr_at; lia.
  - simpl in Hhd. assert ((c =? 0) = false) as ->.
    { apply Z.eqb_neq. assert (c ∈ (c :: fl)) as Hin by left. specialize (Hap c Hin). unfold sizeof_header in Hap. lia. }
    do 3 mstep. apply HQ.
    + eapply only_trans; apply only_wr; unfold put_region, within, h_fl; lia.
    + unfold fl_rep, fl_first, fl_last, h_fl. simpl. split; [|split; [|split]].
      * rewrite ld_wr_at; lia.
      * rewrite !ld_wr_apart by (unfold apart; lia). done.
      * rewrite !(ld_wr_apart 8 _ (p + 8 + 0)) by (unfold apart; lia). rewrite ld_wr_at; lia.
      * destruct Hc as [Hc1 Hc2].
        assert (forall d, d ∈ c :: fl -> apart d 8 (p + 8 + 0) 8) as Hap'.
        { intros d Hd. specialize (Hap d Hd). unfold apart, sizeof_header in *. lia. }
        change (chain (wr (wr (mem s) b (le 8 c)) (p + 8 + 0) (le 8 b)) (c :: fl)).
        apply chain_wr; [lia|done|]. apply chain_wr; [lia| |done].
        intros d Hd. by apply Hap.
Qed.

(** *** A new page *)

(** The first [k] blocks of a page in the order of its free list. *)
Definition carved (i : nat) (p k : Z) : list Z := rev (block_at i p <$> seqZ 0 k).

Lemma carved_succ i p k : 0 <= k -> carved i p (k + 1) = block_at i p k :: carved i p k.
Proof.
  intros Hk. unfold carved. rewrite seqZ_app by lia. rewrite fmap_app, rev_app_distr. simpl.
  by rewrite Z.add_0_l.
Qed.

Lemma elem_of_carved i p k b : b ∈ carved i p k <-> exists j, 0 <= j < k /\ b = block_at i p j.
Proof.
  unfold carved. rewrite list_elem_of_In, <-in_rev, <-list_elem_of_In, list_elem_of_fmap.
  setoid_rewrite elem_of_seqZ. split; intros (j & ? & ?); exists j; (split; [lia || done | done || lia]).
Qed.

Lemma carved_blocks i p : carved i p (nblocks i) = rev (blocks i p).
Proof. done. Qed.

Definition carve_region (p x : Z) : Prop := within (p + h_fl) 18 x \/ within (p + sizeof_header) (PGSIZE - sizeof_header) x.

Lemma page_at_only R s s' p : only R s s' -> page_at s p -> page_at s' p.
Proof. intros Ho (? & ? & ? & ?). repeat split; try done. by eapply page_mapped_only. Qed.

(** One round of the loop of [page_header_init]. *)
Lemma wp_carve_block i p k (Q : unit -> mstate -> Prop) s :
  (i < ncaches)%nat -> page_at s p -> 0 <= k < nblocks i ->
  fl_rep (mem s) (p + h_fl) (carved i p k) ->
  (forall s', only (carve_region p) s s' -> only (fun x => x < p + h_avail \/ p + h_avail + 2 <= x) s s' ->
     fl_rep (mem s') (p + h_fl) (carved i p (k + 1)) -> Q tt s') ->
  wp (store 8 (block_at i p k) 0 ;; freelist_free (p + h_fl) (block_at i p k)) Q s.
Proof.
  intros Hi Hp Hk Hfl HQ.
  assert (block_at i p k ∈ blocks i p) as Hb by (apply elem_of_blocks; eauto).
  pose proof (block_bounds i p _ Hi Hb) as Hbb. set (b := block_at i p k) in *.
  assert (blocks_apart p b (carved i p k)) as Hap.
  { intros c (j & Hj & ->)%elem_of_carved.
    assert (block_at i p j ∈ blocks i p) as Hc by (apply elem_of_blocks; exists j; split; [lia | done]).
    pose proof (block_bounds i p _ Hi Hc). unfold apart.
    assert (block_at i p j <> b) by (unfold b, block_at; geometry i Hi; lia).
    pose proof (block_separate i p _ _ Hi Hc Hb). lia. }
  pose proof Hp as (Hp0 & Hpm & Hpb & Hma). unfold PGSIZE, sizeof_header in *.
  do 2 mstep. set (s1 := with_mem _ s).
  assert (only (carve_region p) s s1) as Ho1.
  { apply only_wr; unfold carve_region, within, sizeof_header, PGSIZE; lia. }
  assert (only (fun x => x < p + h_avail \/ p + h_avail + 2 <= x) s s1) as Ho1'.
  { apply only_wr; unfold h_avail; lia. }
  apply (wp_freelist_free p b (carved i p k)); try (unfold sizeof_header, PGSIZE; lia); [| |done|].
  - by apply (page_at_only _ _ _ _ Ho1).
  - destruct Hfl as (H1 & H2 & H3). unfold fl_rep, h_fl, fl_first, fl_last in *. simpl.
    rewrite !ld_wr_apart by (unfold apart; lia). repeat split; try done.
    apply chain_wr; [lia| |done]. intros c Hc. by apply Hap.
  - intros s' Ho Hfl'. apply HQ.
    + eapply only_trans; [done|]. eapply only_mono; [done|]. intros x.
      unfold put_region, carve_region, within, h_fl, sizeof_header, PGSIZE. lia.
    + eapply only_trans; [done|]. eapply only_mono; [done|]. intros x.
      unfold put_region, within, h_fl, h_avail. lia.
    + by rewrite carved_succ by lia.
Qed.

Lemma wp_carve i p fuel k (Q : unit -> mstate -> Prop) s :
  (i < ncaches)%nat -> page_at s p -> 0 <= k <= nblocks i -> nblocks i - k <= Z.of_nat fuel ->
  fl_rep (mem s) (p + h_fl) (carved i p k) -> ld 2 (mem s) (p + h_avail) = k ->
  (forall s', only (carve_region p) s s' -> fl_rep (mem s') (p + h_fl) (rev (blocks i p)) ->
     ld 2 (mem s') (p + h_avail) = nblocks i -> Q tt s') ->
  wp (carve fuel p (bsize i) (first_off i + k * bsize i)) Q s.
Proof.
  intros Hi. revert k s. induction fuel as [|fuel IH]; intros k s Hp Hk Hfuel Hfl Hav HQ; simpl;
    assert ((first_off i + k * bsize i <? PGSIZE) = (k <? nblocks i)) as ->
      by (unfold PGSIZE; geometry i Hi; apply eq_true_iff_eq; rewrite !Z.ltb_lt; lia);
    (destruct (Z.ltb_spec k (nblocks i)) as [Hlt|Hge];
      [try lia | replace k with (nblocks i) in * by lia; apply wp_ret, HQ; [by repeat split | done | done]]).
  pose proof Hp as (Hp0 & Hpm & Hpb & Hma). pose proof (nblocks_pos i Hi).
  apply wp_assoc. replace (p + (first_off i + k * bsize i)) with (block_at i p k) by (unfold block_at; lia).
  apply wp_carve_block; [done|done|lia|done|]. intros s1 Ho Ho' Hfl1.
  pose proof (page_at_only _ _ _ _ Ho Hp) as (_ & _ & _ & Hma1).
  unfold h_avail in *. do 4 mstep.
  rewrite (ld_frame 2 (mem s)), Hav by (intros x Hx; apply Ho'; lia). rewrite u16_id by lia.
  set (s2 := with_mem _ s1).
  assert (only (carve_region p) s1 s2) as Ho2.
  { apply only_wr; unfold carve_region, within, h_fl, sizeof_header; lia. }
  replace (u64 (first_off i + k * bsize i + bsize i)) with (first_off i + (k + 1) * bsize i)
    by (geometry i Hi; rewrite u64_id; lia).
  apply IH; [|lia|lia| | |].
  - by apply (page_at_only _ _ _ _ Ho2), (page_at_only _ _ _ _ Ho).
  - destruct Hfl1 as (H1 & H2 & H3). unfold fl_rep, h_fl, fl_first, fl_last in *. simpl.
    rewrite !ld_wr_apart by (unfold apart; lia). repeat split; try done.
    apply chain_wr; [lia| |done]. intros c (j & Hj & ->)%elem_of_carved.
    assert (block_at i p j ∈ blocks i p) as Hc by (apply elem_of_blocks; exists j; split; [lia | done]).
    pose proof (block_bounds i p _ Hi Hc). unfold apart, sizeof_header in *. lia.
  - simpl. rewrite ld_wr_at; lia.
  - intros s' Ho3. apply HQ. by eapply only_trans; [|eapply only_trans].
Qed.

Lemma arena_index_ptr i : arena_index (arena_ptr i) = i.
Proof. unfold arena_index, arena_ptr, sizeof_arena. dlia. Qed.

Lemma wp_get_arena i a (Q : arena -> mstate -> Prop) s :
  caches s !! i = Some a -> Q a s -> wp (get_arena (arena_ptr i)) Q s.
Proof. intros Ha HQ. unfold wp, get_arena. by rewrite arena_index_ptr, Ha, Z.eqb_refl. Qed.

Lemma wp_put_arena i a a' (Q : unit -> mstate -> Prop) s :
  caches s !! i = Some a -> Q tt (with_caches <[i := a']> s) -> wp (put_arena (arena_ptr i) a') Q s.
Proof.
  intros Ha HQ. unfold put_arena. mstep. apply (wp_get_arena i a); [done|].
  unfold wp, update. by rewrite arena_index_ptr.
Qed.

Lemma wp_set_freelist i a p (Q : unit -> mstate -> Prop) s :
  caches s !! i = Some a ->
  Q tt (with_caches <[i := MkArena p (idlepage a) (block_size a)]> s) ->
  wp (set_freelist (arena_ptr i) p) Q s.
Proof. intros Ha HQ. unfold set_freelist. mstep. apply (wp_get_arena i a); [done|]. by apply (wp_put_arena i a). Qed.

Lemma wp_set_idlepage i a p (Q : unit -> mstate -> Prop) s :
  caches s !! i = Some a ->
  Q tt (with_caches <[i := MkArena (freelist a) p (block_size a)]> s) ->
  wp (set_idlepage (arena_ptr i) p) Q s.
Proof. intros Ha HQ. unfold set_idlepage. mstep. apply (wp_get_arena i a); [done|]. by apply (wp_put_arena i a). Qed.

Lemma skip_header_first_off i s :
  (i < ncaches)%nat -> skip_header 4096 (bsize i) 0 s = Done (first_off i, s).
Proof. unfold ncaches. intros Hi. do 7 (destruct i as [|i]; [reflexivity|]). lia. Qed.

Lemma arena_ptr_range i : (i < ncaches)%nat -> 0 < arena_ptr i < 2 ^ 48.
Proof. pose proof caches_addr_ok. unfold arena_ptr, sizeof_arena, ncaches. lia. Qed.

Lemma wp_freelist_init p (Q : unit -> mstate -> Prop) s :
  page_at s p ->
  (forall s', only (within (p + h_fl) 16) s s' -> fl_rep (mem s') (p + h_fl) [] -> Q tt s') ->
  wp (freelist_init (p + h_fl)) Q s.
Proof.
  intros (Hp0 & Hpm & Hpb & Hma) HQ. unfold freelist_init, h_fl, fl_first, fl_last in *.
  do 3 mstep. apply HQ.
  - eapply only_trans; apply only_wr; unfold within; lia.
  - unfold fl_rep, fl_first, fl_last. simpl. repeat split.
    + rewrite ld_wr_at; lia.
    + rewrite ld_wr_apart by (unfold apart; lia). rewrite ld_wr_at; lia.
Qed.

Lemma wp_page_header_init i p a (Q : unit -> mstate -> Prop) s :
  (i < ncaches)%nat -> caches s !! i = Some a -> block_size a = bsize i -> page_at s p ->
  (forall s', only (within p PGSIZE) s s' -> page_rep (mem s') p i (rev (blocks i p)) -> Q tt s') ->
  wp (page_header_init (arena_ptr i) p) Q s.
Proof.
  intros Hi Ha Hbs Hp HQ. pose proof Hp as (Hp0 & Hpm & Hpb & Hma). unfold page_header_init.
  pose proof (nblocks_pos i Hi). pose proof (arena_ptr_range i Hi).
  mstep. apply wp_MyAssert; [by apply Z.eqb_eq|].
  mstep. apply (wp_get_arena i a); [done|]. rewrite Hbs.
  mstep. eapply wp_eq; [by apply skip_header_first_off|].
  unfold h_are, h_magic, h_avail. do 6 mstep. cbn [mem with_mem].
  set (s3 := with_mem _ (with_mem _ (with_mem _ s))).
  assert (only (within p PGSIZE) s s3) as Ho3.
  { eapply only_trans; [|eapply only_trans]; apply only_wr; unfold within, PGSIZE; lia. }
  assert (ld 8 (mem s3) p = arena_ptr i /\ ld 2 (mem s3) (p + 26) = MAGIC /\ ld 2 (mem s3) (p + 24) = 0) as Hh.
  { simpl. unfold MAGIC. split; [|split].
    - rewrite !ld_wr_apart by (unfold apart; lia). rewrite ld_wr_at; lia.
    - rewrite ld_wr_apart by (unfold apart; lia). rewrite ld_wr_at; lia.
    - rewrite ld_wr_at; lia. }
  clearbody s3. mstep. apply wp_freelist_init; [by apply (page_at_only _ _ _ _ Ho3)|].
  intros s4 Ho4 Hfl. mstep.
  replace (first_off i) with (first_off i + 0 * bsize i) by lia.
  pose proof (page_at_only _ _ _ _ Ho4 (page_at_only _ _ _ _ Ho3 Hp)) as Hp4.
  apply wp_carve; [done|done|lia|lia| | |].
  - done.
  - rewrite <-(proj2 (proj2 Hh)). apply ld_frame. intros x Hx. apply Ho4. unfold within, h_fl, h_avail in *. lia.
  - intros s5 Ho5 Hfl5 Hav. pose proof (page_at_only _ _ _ _ Ho5 Hp4) as Hp5. destruct Hp5 as (_ & _ & _ & Hma5).
    unfold h_avail, h_total in *. do 2 mstep. rewrite Hav. mstep. apply wp_MyAssert; [apply Z.ltb_lt; lia|].
    mstep. apply HQ.
    + eapply only_trans; [exact Ho3|]. eapply only_trans; [|eapply only_trans; [|apply only_wr]].
      * eapply only_mono; [exact Ho4|]. unfold within, h_fl, PGSIZE. lia.
      * eapply only_mono; [exact Ho5|]. unfold carve_region, within, h_fl, sizeof_header, PGSIZE. lia.
      * lia.
      * unfold within, PGSIZE. lia.
    + assert (forall n b, 0 <= n -> p <= b -> b + n <= p + 32 -> apart b n (p + 8) 18 ->
                ld n (mem s5) b = ld n (mem s3) b) as Hkeep.
      { intros n b Hn Hb1 Hb2 Hb3. etransitivity; apply ld_frame; intros x Hx; [apply Ho5 | apply Ho4];
          unfold apart, carve_region, within, sizeof_header, h_fl in *; lia. }
      destruct Hfl5 as (Hf1 & Hf2 & Hf3).
      unfold page_rep, fl_rep, h_are, h_fl, h_avail, h_magic, h_total, fl_first, fl_last in *. simpl.
      rewrite ?Z.add_0_r in Hf1. rewrite ?Z.add_0_r.
      rewrite !(ld_wr_apart _ _ (p + 28)) by (unfold apart; lia).
      rewrite (Hkeep 8 p), (Hkeep 2 (p + 26)) by (unfold apart; lia).
      rewrite length_rev, length_blocks by done.
      repeat split; try tauto.
      * apply chain_wr; [lia| |done]. intros b Hb.
        assert (b ∈ blocks i p) as Hbb by (by apply list_elem_of_In, in_rev, list_elem_of_In).
        pose proof (block_bounds i p b Hi Hbb). unfold apart, sizeof_header in *. lia.
      * rewrite ld_wr_at; lia.
Qed.

End Operations.
