(* ===== verification/MallocHeap.v ===== *)
(** * Transitions of the heap: mapping, unmapping and reusing pages *)
From Stdlib Require Import ZArith Lia.
From stdpp Require Import base tactics list numbers list_numbers strings gmap.
From S2P Require Import Prelude Memory Malloc MallocRep MallocSpec.
Open Scope Z_scope.

Section Heap.
Context {os : Os} (foreign : Z -> bool).
Abbreviation heap_ok := (heap_ok foreign).

(** Bytes of a mapping. *)
Definition in_map (p : Z) (k : mapping) (y : Z) : Prop := within p (map_pages k * PGSIZE) y.

Lemma in_map_unique x s h p k p' k' y :
  heap_ok x s h -> h_maps h !! p = Some k -> h_maps h !! p' = Some k' ->
  in_map p k y -> in_map p' k' y -> p = p'.
Proof.
  intros Hok Hp Hp' Hy Hy'. destruct (decide (p = p')) as [|Hne]; [done|].
  pose proof (r_apart _ _ _ _ Hok _ _ _ _ Hp Hp' Hne). unfold apart, in_map, within in *. lia.
Qed.

Lemma block_in_map p i fl b y :
  map_wf p (PSmall i fl) -> b ∈ blocks i p -> b <= y < b + 8 -> in_map p (PSmall i fl) y.
Proof.
  intros Hi%map_wf_small Hb Hy. pose proof (block_bounds i p b Hi Hb).
  unfold in_map, within, sizeof_header in *. simpl. lia.
Qed.

Lemma map_rep_other x s h m' p k :
  heap_ok x s h -> h_maps h !! p = Some k ->
  (forall y, in_map p k y -> ibyte m' y = ibyte (mem s) y) -> map_rep m' p k.
Proof.
  intros Hok Hp Hm. pose proof (r_map _ _ _ _ Hok _ _ Hp) as Hwf.
  apply (map_rep_frame (mem s)); [| |by apply (r_rep _ _ _ _ Hok)].
  - intros y Hy. apply Hm. destruct Hwf as (_ & _ & Hn & _).
    unfold in_map, within, sizeof_header, PGSIZE in *. lia.
  - intros i fl b y -> Hb Hy. apply Hm. destruct Hwf as (? & ? & ? & ? & ? & ? & Hsub) eqn:E.
    by apply (block_in_map p i fl b y Hwf); [apply Hsub|].
Qed.

Lemma free_chain_frame x s h m' i :
  heap_ok x s h -> (i < ncaches)%nat ->
  (forall p fl b y, h_maps h !! p = Some (PSmall i fl) -> b ∈ blocks i p -> b ∉ fl -> b ∈ h_free h i ->
     b <= y < b + 8 -> ibyte m' y = ibyte (mem s) y) ->
  chain m' (h_free h i).
Proof.
  intros Hok Hi Hm. apply (chain_frame (mem s)); [|by apply (r_chain _ _ _ _ Hok)].
  intros b y Hb. destruct (r_free _ _ _ _ Hok i b Hi Hb) as (p & fl & Hp & Hbb & Hnfl). by apply (Hm p fl b).
Qed.

Lemma heap_ok_nalloc x s h n : heap_ok x s h -> heap_ok x (with_nalloc n s) h.
Proof. intros []. by constructor. Qed.

Lemma heap_page_mapped x s h p k :
  heap_ok x s h -> h_maps h !! p = Some k -> page_mapped s p (map_pages k).
Proof. intros Hok Hp q Hq. apply (r_mapped _ _ _ _ Hok). right. by exists p, k. Qed.

Lemma owned_insert h p m q :
  h_maps h !! p = None ->
  owned (heap_map <[p := m]> h) q <-> p / PGSIZE <= q < p / PGSIZE + map_pages m \/ owned h q.
Proof.
  intros Hp. unfold owned. simpl. split.
  - intros (p' & k & [[<- <-]|[Hne Hp']]%lookup_insert_Some & Hq); eauto 6.
  - intros [Hq|(p' & k & Hp' & Hq)].
    + exists p, m. by rewrite lookup_insert_eq.
    + exists p', k. rewrite lookup_insert_ne; [done | congruence].
Qed.

(** A mapping is apart from the ones there are. *)
Lemma fresh_apart x s h p len p' k' :
  heap_ok x s h -> p mod PGSIZE = 0 -> 0 < len ->
  (forall q, p <= q < p + len -> mapped s (q / PGSIZE) = false) ->
  h_maps h !! p' = Some k' -> apart p len p' (map_pages k' * PGSIZE).
Proof.
  intros Hok Hpm Hlen Hfree Hp'. pose proof (r_map _ _ _ _ Hok _ _ Hp') as (Hp0 & Hpm' & Hn & _).
  pose proof (heap_page_mapped _ _ _ _ _ Hok Hp') as Hma. unfold apart.
  destruct (decide (p + len <= p' \/ p' + map_pages k' * PGSIZE <= p)) as [|Hov]; [done|].
  specialize (Hfree (Z.max p p') ltac:(lia)). specialize (Hma (Z.max p p' / PGSIZE)).
  rewrite Hma in Hfree; [done|]. unfold PGSIZE in *. dlia.
Qed.

(** *** Mapping pages *)

Lemma heap_ok_mmap x s s' h p n :
  heap_ok x s h -> 0 < n -> 0 < p -> p mod PGSIZE = 0 -> p + n * PGSIZE <= 2 ^ 47 ->
  (forall q, p <= q < p + n * PGSIZE -> mapped s (q / PGSIZE) = false) ->
  (forall q, mapped s' q = (p / PGSIZE <=? q) && (q <=? (p + n * PGSIZE - 1) / PGSIZE) || mapped s q) ->
  caches s' = caches s -> (forall y, ~ within p (n * PGSIZE) y -> ibyte (mem s') y = ibyte (mem s) y) ->
  h_maps h !! p = None /\ heap_ok x s' (heap_map <[p := PRaw n]> h).
Proof.
  intros Hok Hn Hp0 Hpm Hpb Hfree Hma' Hca' Hmem.
  assert (forall p' k', h_maps h !! p' = Some k' -> apart p (n * PGSIZE) p' (map_pages k' * PGSIZE)) as Hap.
  { intros p' k'. apply (fresh_apart _ s h p (n * PGSIZE) p' k' Hok Hpm); [unfold PGSIZE; lia | done]. }
  assert (h_maps h !! p = None) as Hnone.
  { destruct (h_maps h !! p) as [k|] eqn:E; [|done]. specialize (Hap p k E).
    pose proof (r_map _ _ _ _ Hok _ _ E) as (_ & _ & Hk & _). unfold apart, PGSIZE in *. lia. }
  assert (forall p' k' y, h_maps h !! p' = Some k' -> in_map p' k' y -> ibyte (mem s') y = ibyte (mem s) y) as Hkeep.
  { intros p' k' y Hp' Hy. apply Hmem. specialize (Hap p' k' Hp'). unfold apart, in_map, within in *. lia. }
  assert (forall p' k', h_maps h !! p' = Some k' -> <[p := PRaw n]> (h_maps h) !! p' = Some k') as Hup.
  { intros p' k' Hp'. rewrite lookup_insert_ne; [done | congruence]. }
  split; [done|]. constructor; simpl; rewrite ?Hca'; try apply Hok.
  - intros p' k [[<- <-]|[Hne Hp']]%lookup_insert_Some; [by repeat split | by apply (r_map _ _ _ _ Hok)].
  - intros p' k [[<- <-]|[Hne Hp']]%lookup_insert_Some; [done|].
    apply (map_rep_other x s h); [done..|]. intros y. by apply Hkeep.
  - intros p1 k1 p2 k2 [[<- <-]|[Hne Hp1]]%lookup_insert_Some [[<- <-]|[Hne' Hp2]]%lookup_insert_Some; simpl.
    + done.
    + intros _. by apply Hap.
    + intros _. specialize (Hap p1 k1 Hp1). unfold apart in *. lia.
    + by apply (r_apart _ _ _ _ Hok).
  - intros q. rewrite Hma', owned_insert by done. simpl.
    rewrite orb_true_iff, andb_true_iff, !Z.leb_le, (r_mapped _ _ _ _ Hok).
    replace ((p + n * PGSIZE - 1) / PGSIZE) with (p / PGSIZE + n - 1) by (unfold PGSIZE in *; dlia).
    intuition lia.
  - intros q Hq. rewrite owned_insert by done. simpl. intros [Hin|Hown].
    + specialize (Hfree (q * PGSIZE)). unfold PGSIZE in *. rewrite Z.div_mul in Hfree by done.
      assert (mapped s q = true) as Hm by (apply (r_mapped _ _ _ _ Hok); by left).
      rewrite Hm in Hfree. assert (true = false); [|done]. apply Hfree. dlia.
    + by apply (r_foreign _ _ _ _ Hok q).
  - intros i a Ha. destruct (r_arena _ _ _ _ Hok i a Ha) as (H1 & H2 & H3). repeat split; try done.
    intros Hid. destruct (H3 Hid) as (fl & Hp' & Hfl). eauto.
  - intros i b Hi Hb. destruct (r_free _ _ _ _ Hok i b Hi Hb) as (p' & fl & Hp' & Hbb). eauto.
  - intros i Hi. split; [by apply (r_chain _ _ _ _ Hok)|]. apply (free_chain_frame x s); [done|done|].
    intros p' fl b y Hp' Hb _ _ Hy. apply (Hkeep p' _ y Hp').
    apply (block_in_map p' i fl b y); [by apply (r_map _ _ _ _ Hok) | done | done].
  - intros p' i fl [[<- ?]|[Hne Hp']]%lookup_insert_Some; [done|]. by apply (r_full _ _ _ _ Hok).
Qed.

Lemma wp_alloc_page x n (Q : Z -> mstate -> Prop) s h :
  heap_ok x s h -> 0 <= n < 2 ^ 52 ->
  (os_mmap (mapped s) (n * PGSIZE) = None ->
     Q 0 (with_nalloc (u64 (nalloc s + n * PGSIZE)) s)) ->
  (forall p s', h_maps h !! p = None -> heap_ok x s' (heap_map <[p := PRaw n]> h) ->
     caches s' = caches s -> (forall y, ~ within p (n * PGSIZE) y -> ibyte (mem s') y = ibyte (mem s) y) ->
     (forall y, within p (n * PGSIZE) y -> ibyte (mem s') y = 0) -> Q p s') ->
  wp (alloc_page n) Q s.
Proof.
  intros Hok Hn HNone HSome. unfold alloc_page. rewrite (u64_id (n * PGSIZE)) by (unfold PGSIZE; lia).
  mstep. unfold wp at 1, update. mstep. unfold wp at 1, mmap. cbn [mapped with_nalloc].
  destruct (os_mmap (mapped s) (n * PGSIZE)) as [p|] eqn:E.
  - pose proof (os_mmap_ok _ _ _ E) as (Hlen & Hp0 & Hpm & Hpb & Hfree).
    assert ((p =? -1) = false) as -> by (apply Z.eqb_neq; lia). apply wp_ret.
    set (s' := with_mem _ _).
    assert (forall y, ~ within p (n * PGSIZE) y -> ibyte (mem s') y = ibyte (mem s) y) as Hout.
    { intros y Hy. simpl. apply ibyte_fill_out. unfold within in Hy. lia. }
    assert (h_maps h !! p = None /\ heap_ok x s' (heap_map <[p := PRaw n]> h)) as [Hnone Hok'].
    { apply (heap_ok_mmap x s); try done. unfold PGSIZE in *. lia. }
    apply HSome; try done. intros y Hy. simpl. apply ibyte_fill_in. unfold within in Hy. lia.
  - simpl. apply wp_ret. by apply HNone.
Qed.

(** *** Unmapping pages *)

Lemma owned_delete h p m q :
  h_maps h !! p = Some m ->
  owned h q <-> p / PGSIZE <= q < p / PGSIZE + map_pages m \/ owned (heap_map (delete p) h) q.
Proof.
  intros Hp. unfold owned. simpl. split.
  - intros (p' & k & Hp' & Hq). destruct (decide (p = p')) as [<-|Hne].
    + left. congruence.
    + right. exists p', k. by rewrite lookup_delete_ne.
  - intros [Hq|(p' & k & [Hne Hp']%lookup_delete_Some & Hq)]; eauto.
Qed.

Lemma heap_ok_munmap x s s' h p k :
  heap_ok x s h -> h_maps h !! p = Some k -> x = p \/ x = 0 ->
  (forall i fl b, k = PSmall i fl -> b ∈ blocks i p -> b ∉ h_free h i) ->
  (forall i a, caches s !! i = Some a -> idlepage a <> p) ->
  mem s' = mem s -> caches s' = caches s ->
  (forall q, mapped s' q = mapped s q && negb ((p / PGSIZE <=? q) && (q <=? (p + map_pages k * PGSIZE - 1) / PGSIZE))) ->
  heap_ok 0 s' (heap_map (delete p) h).
Proof.
  intros Hok Hp Hx Hfr Hid Hmem Hca Hma.
  pose proof (r_map _ _ _ _ Hok _ _ Hp) as (Hp0 & Hpm & Hn & Hpb & _).
  constructor; simpl; rewrite ?Hmem, ?Hca; try apply Hok.
  - intros p' k' [Hne Hp']%lookup_delete_Some. by apply (r_map _ _ _ _ Hok).
  - intros p' k' [Hne Hp']%lookup_delete_Some. by apply (r_rep _ _ _ _ Hok).
  - intros p1 k1 p2 k2 [_ Hp1]%lookup_delete_Some [_ Hp2]%lookup_delete_Some. by apply (r_apart _ _ _ _ Hok).
  - intros q. rewrite Hma, andb_true_iff, negb_true_iff, andb_false_iff, !Z.leb_gt, (r_mapped _ _ _ _ Hok).
    replace ((p + map_pages k * PGSIZE - 1) / PGSIZE) with (p / PGSIZE + map_pages k - 1) by (unfold PGSIZE in *; dlia).
    rewrite (owned_delete h p k q Hp). split.
    + intros [[?|[?|?]] ?]; [by left | lia | by right].
    + intros [Hf|(p' & k' & Hp' & Hq)]; [|simpl in Hp'; apply lookup_delete_Some in Hp' as [Hne Hp']].
      * split; [by left|]. pose proof (r_foreign _ _ _ _ Hok q Hf) as Hno.
        rewrite (owned_delete h p k q Hp) in Hno. lia.
      * split; [right; right; exists p', k'; simpl; by rewrite lookup_delete_ne|].
        pose proof (r_apart _ _ _ _ Hok _ _ _ _ Hp Hp' ltac:(congruence)) as Ha.
        pose proof (r_map _ _ _ _ Hok _ _ Hp') as (_ & Hpm' & _). unfold apart, PGSIZE in *. dlia.
  - intros q Hq Hown. apply (r_foreign _ _ _ _ Hok q Hq). rewrite (owned_delete h p k q Hp). by right.
  - intros i a Ha. destruct (r_arena _ _ _ _ Hok i a Ha) as (H1 & H2 & H3). repeat split; try done.
    intros H0. destruct (H3 H0) as (fl & Hp' & Hfl). exists fl. split; [|done].
    rewrite lookup_delete_ne; [done|]. intros E. by apply (Hid i a).
  - intros i b Hi Hb. destruct (r_free _ _ _ _ Hok i b Hi Hb) as (p' & fl & Hp' & Hbb & Hnfl).
    exists p', fl. split; [|done]. rewrite lookup_delete_ne; [done|]. intros <-.
    rewrite Hp in Hp'. simplify_eq. by apply (Hfr i fl b eq_refl Hbb).
  - intros p' i fl [Hne Hp']%lookup_delete_Some Hfl Hp'0. apply (r_full _ _ _ _ Hok p' i fl Hp' Hfl).
    destruct Hx as [->| ->]; congruence.
Qed.

Lemma wp_free_page x p k (Q : unit -> mstate -> Prop) s h :
  heap_ok x s h -> h_maps h !! p = Some k -> x = p \/ x = 0 ->
  (forall i fl b, k = PSmall i fl -> b ∈ blocks i p -> b ∉ h_free h i) ->
  (forall i a, caches s !! i = Some a -> idlepage a <> p) ->
  (forall s', heap_ok 0 s' (heap_map (delete p) h) -> mem s' = mem s -> caches s' = caches s -> Q tt s') ->
  wp (free_page p (map_pages k)) Q s.
Proof.
  intros Hok Hp Hx Hfr Hid HQ. pose proof (r_map _ _ _ _ Hok _ _ Hp) as (Hp0 & Hpm & Hn & Hpb & _).
  unfold wp, free_page, munmap. rewrite u64_id by (unfold PGSIZE in *; lia).
  assert ((p `mod` PGSIZE =? 0) && (0 <? map_pages k * PGSIZE) = true) as ->.
  { rewrite andb_true_iff, Z.eqb_eq, Z.ltb_lt. unfold PGSIZE in *. lia. }
  apply HQ; [|done|done]. by apply (heap_ok_munmap x s _ h p k).
Qed.

(** *** Reusing a page: the mapping at [p] becomes [k'] *)

Lemma heap_ok_update x x' s s' h p k k' free' :
  heap_ok x s h -> h_maps h !! p = Some k -> map_pages k' = map_pages k ->
  map_wf p k' -> map_rep (mem s') p k' -> mapped s' = mapped s -> length (caches s') = ncaches ->
  (forall y, ~ in_map p k y -> ibyte (mem s') y = ibyte (mem s) y) ->
  (forall i a, caches s' !! i = Some a ->
    block_size a = bsize i /\ freelist a = hd 0 (free' i) /\
    (idlepage a <> 0 -> exists fl, <[p := k']> (h_maps h) !! idlepage a = Some (PSmall i fl) /\
                                   Z.of_nat (length fl) = nblocks i)) ->
  (forall i b, (i < ncaches)%nat -> b ∈ free' i ->
    exists p' fl, <[p := k']> (h_maps h) !! p' = Some (PSmall i fl) /\ b ∈ blocks i p' /\ b ∉ fl) ->
  (forall i, (i < ncaches)%nat -> NoDup (free' i) /\ chain (mem s') (free' i)) ->
  (forall p' i fl, <[p := k']> (h_maps h) !! p' = Some (PSmall i fl) ->
    Z.of_nat (length fl) = nblocks i -> p' <> x' ->
    exists a, caches s' !! i = Some a /\ idlepage a = p') ->
  heap_ok x' s' (MkHeap (<[p := k']> (h_maps h)) free').
Proof.
  intros Hok Hp Hpg Hwf Hrep Hma Hca Hmem Har Hfr Hch Hfu.
  assert (forall q, owned (MkHeap (<[p := k']> (h_maps h)) free') q <-> owned h q) as Hown.
  { intros q. unfold owned. simpl. split.
    - intros (p' & k0 & [[<- <-]|[Hne Hp']]%lookup_insert_Some & Hq); [|by eauto].
      exists p, k. by rewrite <-Hpg.
    - intros (p' & k0 & Hp' & Hq). destruct (decide (p = p')) as [<-|Hne].
      + exists p, k'. rewrite lookup_insert_eq, Hpg. split; [done|]. congruence.
      + exists p', k0. by rewrite lookup_insert_ne. }
  constructor; simpl; try done.
  - intros p' k0 [[<- <-]|[Hne Hp']]%lookup_insert_Some; [done | by apply (r_map _ _ _ _ Hok)].
  - intros p' k0 [[<- <-]|[Hne Hp']]%lookup_insert_Some; [done|].
    apply (map_rep_other x s h); [done..|]. intros y Hy. apply Hmem. intros Hy'.
    by apply Hne, (in_map_unique x s h p k p' k0 y).
  - intros p1 k1 p2 k2 [[<- <-]|[Hne Hp1]]%lookup_insert_Some [[<- <-]|[Hne' Hp2]]%lookup_insert_Some;
      rewrite ?Hpg; try done; by apply (r_apart _ _ _ _ Hok).
  - intros q. rewrite Hma, (Hown q). apply (r_mapped _ _ _ _ Hok).
  - intros q. rewrite (Hown q). apply (r_foreign _ _ _ _ Hok).
Qed.

(** The links of blocks outside of the page, or untouched in it. *)
Lemma chain_keep x s h m' p k i :
  heap_ok x s h -> (i < ncaches)%nat ->
  (forall y, ~ in_map p k y -> ibyte m' y = ibyte (mem s) y) -> h_maps h !! p = Some k ->
  (forall fl b y, k = PSmall i fl -> b ∈ blocks i p -> b ∈ h_free h i -> b <= y < b + 8 ->
     ibyte m' y = ibyte (mem s) y) ->
  chain m' (h_free h i).
Proof.
  intros Hok Hi Hout Hp Hin. apply (free_chain_frame x s); [done|done|].
  intros p' fl b y Hp' Hb Hnfl Hbf Hy. destruct (decide (p' = p)) as [->|Hne].
  - rewrite Hp in Hp'. injection Hp' as ->. by apply (Hin fl b).
  - apply Hout. intros Hy'. apply Hne. apply (in_map_unique x s h p' (PSmall i fl) p k y); try done.
    apply (block_in_map p' i fl b y); [by apply (r_map _ _ _ _ Hok) | done | done].
Qed.

End Heap.
