(* ===== verification/MallocArena.v ===== *)
(** * The arenas: [arena_alloc] and the return of a block *)
From Stdlib Require Import ZArith Lia.
From stdpp Require Import base tactics list numbers list_numbers strings gmap.
From S2P Require Import Prelude Memory Malloc MallocRep MallocSpec MallocHeap.
Open Scope Z_scope.

Section Arena.
Context {os : Os} (foreign : Z -> bool).
Abbreviation heap_ok := (heap_ok foreign).

(** The objects and their contents stay. *)
Definition same_live (h h' : heap) : Prop := forall b k, live h' b k <-> live h b k.
Definition keeps (h : heap) (s s' : mstate) : Prop :=
  forall b k y, live h b k -> within b (usable k) y -> ibyte (mem s') y = ibyte (mem s) y.

#[local] Instance same_live_equiv : Equivalence same_live.
Proof.
  split.
  - by intros h b k.
  - intros h h' H b k. by rewrite (H b k).
  - intros h h' h'' H H' b k. by rewrite (H' b k), (H b k).
Qed.

Lemma keeps_trans h h' s s' s'' : same_live h h' -> keeps h s s' -> keeps h' s' s'' -> keeps h s s''.
Proof. intros Hl Hk Hk' b k y Hb Hy. rewrite (Hk' b k), (Hk b k); try done. by apply Hl. Qed.

(** Changes in a mapping that holds no object. *)
Lemma keeps_map x s s' h p m :
  heap_ok x s h -> h_maps h !! p = Some m -> (forall b k, ~ live_at (h_free h) p m b k) ->
  (forall y, ~ in_map p m y -> ibyte (mem s') y = ibyte (mem s) y) -> keeps h s s'.
Proof.
  intros Hok Hp Hno Hmem b k y (p' & m' & Hp' & Hl) Hy. apply Hmem. intros Hin.
  pose proof (live_at_inside _ _ _ _ _ (r_map _ _ _ _ Hok _ _ Hp') Hl).
  assert (p' = p) as ->.
  { apply (in_map_unique foreign x s h p' m' p m y Hok Hp' Hp); [|done]. unfold in_map, within in *. lia. }
  rewrite Hp in Hp'. simplify_eq. by apply (Hno b k).
Qed.

Lemma block_pos x s h p i fl b :
  heap_ok x s h -> h_maps h !! p = Some (PSmall i fl) -> b ∈ blocks i p -> 0 < b < 2 ^ 47.
Proof.
  intros Hok Hp Hb. pose proof (r_map _ _ _ _ Hok _ _ Hp) as Hwf.
  pose proof (block_bounds i p b (map_wf_small _ _ _ Hwf) Hb).
  destruct Hwf as (Hp0 & _ & _ & Hpb & _). simpl in Hpb. unfold sizeof_header, PGSIZE in *. lia.
Qed.

Lemma arena_exists x s h i : heap_ok x s h -> (i < ncaches)%nat -> exists a, caches s !! i = Some a.
Proof. intros Hok Hi. apply lookup_lt_is_Some. by rewrite (r_caches _ _ _ _ Hok). Qed.

(** An arena whose [freelist] is null has no free block. *)
Lemma free_null x s h i a :
  heap_ok x s h -> (i < ncaches)%nat -> caches s !! i = Some a -> freelist a = 0 -> h_free h i = [].
Proof.
  intros Hok Hi Ha Hz. destruct (r_arena _ _ _ _ Hok i a Ha) as (_ & Hf & _). rewrite Hz in Hf.
  destruct (h_free h i) as [|b l] eqn:E; [done|]. simpl in Hf.
  destruct (r_free _ _ _ _ Hok i b Hi) as (p & fl & Hp & Hb & _); [rewrite E; left|].
  pose proof (block_pos _ _ _ _ _ _ _ Hok Hp Hb). lia.
Qed.

(** *** A fresh page becomes a page of the arena *)

Lemma new_page_wf p i : (i < ncaches)%nat -> map_wf p (PRaw 1) -> map_wf p (PSmall i (rev (blocks i p))).
Proof.
  intros Hi (H1 & H2 & H3 & H4 & _). repeat split; try done.
  - apply NoDup_ListNoDup, NoDup_rev, NoDup_ListNoDup. by apply NoDup_blocks.
  - intros b Hb. by apply list_elem_of_In, in_rev, list_elem_of_In.
Qed.

Lemma heap_ok_new_page s s' h p i :
  heap_ok 0 s h -> h_maps h !! p = Some (PRaw 1) -> (i < ncaches)%nat ->
  only (within p PGSIZE) s s' -> page_rep (mem s') p i (rev (blocks i p)) ->
  heap_ok p s' (heap_map <[p := PSmall i (rev (blocks i p))]> h).
Proof.
  intros Hok Hp Hi (Hma & Hca & _ & Hmem) Hrep.
  pose proof (r_map _ _ _ _ Hok _ _ Hp) as Hwf.
  assert (forall p' j fl, h_maps h !! p' = Some (PSmall j fl) ->
            <[p := PSmall i (rev (blocks i p))]> (h_maps h) !! p' = Some (PSmall j fl)) as Hup.
  { intros p' j fl Hp'. rewrite lookup_insert_ne; [done | congruence]. }
  assert (forall y, ~ in_map p (PRaw 1) y -> ibyte (mem s') y = ibyte (mem s) y) as Hmem'.
  { intros y Hy. apply Hmem. unfold in_map, within in *. simpl in *. unfold PGSIZE in *. lia. }
  apply (heap_ok_update foreign 0 p s s' h p (PRaw 1)); try done.
  - by apply new_page_wf.
  - rewrite Hca. apply (r_caches _ _ _ _ Hok).
  - intros j a. rewrite Hca. intros Ha. destruct (r_arena _ _ _ _ Hok j a Ha) as (H1 & H2 & H3).
    repeat split; try done. intros H0. destruct (H3 H0) as (fl & Hp' & Hl). eauto.
  - intros j b Hj Hb. destruct (r_free _ _ _ _ Hok j b Hj Hb) as (p' & fl & Hp' & ?). eauto.
  - intros j Hj. split; [by apply (r_chain _ _ _ _ Hok)|].
    by apply (chain_keep foreign 0 s h (mem s') p (PRaw 1)).
  - intros p' j fl [[<- _]|[Hne Hp']]%lookup_insert_Some Hl Hx; [done|]. rewrite Hca.
    apply (r_full _ _ _ _ Hok p' j fl); [done|done|].
    pose proof (r_map _ _ _ _ Hok _ _ Hp') as (? & _). lia.
Qed.

(** Keeping a free page, which was the exception, as the idle page. *)
Lemma heap_ok_set_idle s h p i a fl :
  heap_ok p s h -> h_maps h !! p = Some (PSmall i fl) -> Z.of_nat (length fl) = nblocks i ->
  caches s !! i = Some a -> idlepage a = 0 ->
  heap_ok 0 (with_caches <[i := MkArena (freelist a) p (block_size a)]> s) h.
Proof.
  intros Hok Hp Hfl Ha Hid. pose proof (lookup_lt_Some _ _ _ Ha) as Hlt.
  destruct (r_arena _ _ _ _ Hok i a Ha) as (H1 & H2 & _).
  constructor; simpl; try apply Hok.
  - rewrite length_insert. apply (r_caches _ _ _ _ Hok).
  - intros j b [(<- & <- & _)|[Hne Hb]]%list_lookup_insert_Some; [|by apply (r_arena _ _ _ _ Hok)].
    simpl. eauto.
  - intros p' j fl' Hp' Hl' _. destruct (decide (p' = p)) as [->|Hne].
    + rewrite Hp in Hp'. simplify_eq. eexists. by rewrite list_lookup_insert_eq.
    + destruct (r_full _ _ _ _ Hok p' j fl' Hp' Hl' Hne) as (b & Hb & Hidb).
      destruct (decide (i = j)) as [<-|Hij].
      * rewrite Ha in Hb. simplify_eq. pose proof (r_map _ _ _ _ Hok _ _ Hp') as (? & _). lia.
      * exists b. by rewrite list_lookup_insert_ne.
Qed.

Lemma wp_arena_page i (Q : bool -> mstate -> Prop) s h a :
  heap_ok 0 s h -> (i < ncaches)%nat -> caches s !! i = Some a ->
  (forall s', os_mmap (mapped s) PGSIZE = None -> heap_ok 0 s' h -> keeps h s s' -> Q false s') ->
  (forall s' h' a', heap_ok 0 s' h' -> same_live h h' -> keeps h s s' -> caches s' !! i = Some a' ->
     idlepage a' <> 0 -> freelist a' = freelist a -> Q true s') ->
  wp (arena_page (arena_ptr i)) Q s.
Proof.
  intros Hok Hi Ha HNone HSome. unfold arena_page. mstep. apply (wp_get_arena i a); [done|].
  destruct (Z.eqb_spec (idlepage a) 0) as [Hid|Hid].
  2: { apply wp_ret, (HSome s h a); by try done. }
  mstep. apply (wp_alloc_page foreign 0 1 _ s h Hok); [lia| |].
  - intros Hmm. simpl. apply HNone; [done | by apply heap_ok_nalloc | by intros ?].
  - intros p s1 Hnone Hok1 Hca1 Hout Hzero.
    assert (h_maps (heap_map <[p := PRaw 1]> h) !! p = Some (PRaw 1)) as Hp by (simpl; by rewrite lookup_insert_eq).
    pose proof (r_map _ _ _ _ Hok1 _ _ Hp) as (Hp0 & Hpm & _ & Hpb & _). simpl in Hpb.
    assert ((p =? 0) = false) as -> by (apply Z.eqb_neq; lia).
    assert (block_size a = bsize i) as Hbs by apply (r_arena _ _ _ _ Hok i a Ha).
    mstep. apply (wp_page_header_init i p a); [done|by rewrite Hca1|done| |].
    { repeat split; [done|done|lia|]. exact (heap_page_mapped foreign 0 s1 _ p (PRaw 1) Hok1 Hp). }
    intros s2 Ho2 Hrep2.
    pose proof (heap_ok_new_page s1 s2 _ p i Hok1 Hp Hi Ho2 Hrep2) as Hok2.
    mstep. assert (caches s2 !! i = Some a) as Ha2 by (destruct Ho2 as (_ & -> & _); by rewrite Hca1).
    apply (wp_set_idlepage i a); [done|]. mstep.
    set (h2 := heap_map _ _) in Hok2.
    apply (HSome _ h2 (MkArena (freelist a) p (block_size a))).
    + apply (heap_ok_set_idle s2 h2 p i a (rev (blocks i p))); try done.
      * unfold h2. simpl. by rewrite lookup_insert_eq.
      * rewrite length_rev. by apply length_blocks.
    + intros b k. unfold h2. rewrite live_insert. simpl. split.
      * intros [(_ & Hb & Hnb & _)|(p' & m' & Hne & Hp' & Hl)].
        -- destruct Hnb. by apply list_elem_of_In, in_rev; rewrite rev_involutive; apply list_elem_of_In.
        -- rewrite lookup_insert_ne in Hp' by done. by exists p', m'.
      * intros (p' & m' & Hp' & Hl). right. exists p', m'. assert (p' <> p) by congruence.
        by rewrite lookup_insert_ne.
    + intros b k y (p' & m' & Hp' & Hl) Hy. assert (p' <> p) as Hne by congruence.
      pose proof (live_at_inside _ _ _ _ _ (r_map _ _ _ _ Hok _ _ Hp') Hl).
      assert (h_maps (heap_map <[p := PRaw 1]> h) !! p' = Some m') as Hp'' by (simpl; by rewrite lookup_insert_ne).
      pose proof (r_apart _ _ _ _ Hok1 _ _ _ _ Hp Hp'' ltac:(done)) as Hap. unfold apart, within in *. simpl in *.
      destruct Ho2 as (_ & _ & _ & Ho2). rewrite Ho2, Hout; [done| |]; unfold within; lia.
    + simpl. rewrite list_lookup_insert_eq; [done|]. by apply lookup_lt_Some in Ha2.
    + simpl. lia.
    + done.
Qed.

(** *** Seizing the blocks of the idle page *)

(** A free list with as many blocks as its page has them all. *)
Lemma full_all p i fl b :
  map_wf p (PSmall i fl) -> Z.of_nat (length fl) = nblocks i -> b ∈ blocks i p -> b ∈ fl.
Proof.
  intros (_ & _ & _ & _ & Hi & Hnd & Hsub) Hlen Hb.
  assert (fl ≡ₚ blocks i p) as ->; [|done]. apply submseteq_length_Permutation.
  - apply NoDup_submseteq; [done|]. intros c Hc. by apply Hsub.
  - apply Nat2Z.inj_le. rewrite length_blocks by done. lia.
Qed.

Lemma chain_wr_last m l :
  NoDup l -> (forall b c, b ∈ l -> c ∈ l -> b <> c -> apart b 8 c 8) -> chain m l ->
  chain (wr m (List.last l 0) (le 8 0)) l.
Proof.
  induction l as [|b l IH]; [done|]. intros [Hnb Hnd]%NoDup_cons Hap [Hb Hc].
  destruct l as [|c l]; simpl.
  - split; [|done]. rewrite ld_wr_at; lia.
  - change (match l with [] => c | _ :: _ => List.last l 0 end) with (List.last (c :: l) 0).
    split; [|apply IH; try done; intros d e Hd He; apply Hap; by right].
    rewrite ld_wr_apart; [done|lia|]. apply Hap; [left| |].
    + right. destruct (exists_last (l := c :: l)) as (l0 & z & ->); [done|].
      rewrite List.last_last. apply list_elem_of_In, in_or_app. right. by left.
    + intros ->. apply Hnb. destruct (exists_last (l := c :: l)) as (l0 & z & ->); [done|].
      rewrite List.last_last. apply list_elem_of_In, in_or_app. right. by left.
Qed.

Lemma last_elem (l : list Z) : l <> [] -> List.last l 0 ∈ l.
Proof.
  intros Hl. destruct (exists_last Hl) as (l0 & z & ->). rewrite List.last_last.
  apply list_elem_of_In, in_or_app. right. by left.
Qed.

Lemma page_blocks_apart p i fl b c :
  map_wf p (PSmall i fl) -> b ∈ fl -> c ∈ fl -> b <> c -> apart b 8 c 8.
Proof.
  intros (_ & _ & _ & _ & Hi & _ & Hsub) Hb Hc Hne.
  pose proof (block_bounds i p b Hi (Hsub _ Hb)).
  pose proof (block_separate i p b c Hi (Hsub _ Hb) (Hsub _ Hc) Hne). unfold apart. lia.
Qed.

(** The effect of [arena_seize] on the page. *)
Definition seized (s s' : mstate) (p : Z) (i : nat) (a : arena) (fl : list Z) : Prop :=
  mapped s' = mapped s /\ caches s' = <[i := MkArena (hd 0 fl) 0 (block_size a)]> (caches s) /\
  (forall y, ~ in_map p (PSmall i fl) y -> ibyte (mem s') y = ibyte (mem s) y) /\
  page_rep (mem s') p i [] /\ chain (mem s') fl.

Lemma wp_arena_seize_page i p fl a (Q : unit -> mstate -> Prop) s h :
  heap_ok 0 s h -> caches s !! i = Some a -> freelist a = 0 -> idlepage a = p ->
  h_maps h !! p = Some (PSmall i fl) -> Z.of_nat (length fl) = nblocks i ->
  (forall s', seized s s' p i a fl -> Q tt s') ->
  wp (arena_seize (arena_ptr i)) Q s.
Proof.
  intros Hok Ha Hfa Hid Hp Hlen HQ. pose proof (r_map _ _ _ _ Hok _ _ Hp) as Hwf.
  pose proof Hwf as (Hp0 & Hpm & _ & Hpb & Hi & Hnd & Hsub). simpl in Hpb.
  pose proof (nblocks_pos i Hi) as Hnb. pose proof (arena_ptr_range i Hi).
  pose proof (heap_page_mapped foreign 0 s h p _ Hok Hp) as Hma. simpl in Hma.
  assert (fl <> []) as Hne by (intros ->; simpl in Hlen; lia).
  pose proof (last_elem fl Hne) as Hlast. set (z := List.last fl 0) in *.
  pose proof (block_bounds i p z Hi (Hsub _ Hlast)) as Hz. unfold sizeof_header in Hz.
  pose proof (r_rep _ _ _ _ Hok _ _ Hp) as (R1 & (R2 & R3 & R4) & R5 & R6 & R7).
  unfold arena_seize. mstep. apply (wp_get_arena i a); [done|]. rewrite Hid, Hfa. cbn zeta.
  unfold h_are, h_fl, h_avail, h_magic, h_total, fl_first, fl_last in *.
  mstep. apply wp_MyAssert; [by apply Z.eqb_eq|]. do 2 mstep. rewrite R6.
  mstep. apply wp_MyAssert; [done|]. do 2 mstep. rewrite R1.
  mstep. apply wp_MyAssert; [apply Z.eqb_refl|]. do 2 mstep. rewrite R5, Hlen.
  mstep. apply wp_MyAssert; [apply Z.ltb_lt; lia|]. do 4 mstep. cbn [mem with_mem].
  rewrite ld_wr_apart, R3 by (unfold apart; lia). fold z. do 4 mstep. cbn [mem with_mem].
  rewrite !ld_wr_apart, R2 by (unfold apart; lia).
  set (s2 := with_mem _ (with_mem _ s)).
  assert (caches s2 !! i = Some a) as Ha2 by done.
  mstep. apply (wp_set_freelist i a); [done|]. mstep.
  set (s3 := with_caches _ s2).
  apply (wp_freelist_init p); [by repeat split|]. intros s4 Ho4 Hfl4.
  pose proof (lookup_lt_Some _ _ _ Ha) as Hlt.
  apply (wp_set_idlepage i (MkArena (hd 0 fl) (idlepage a) (block_size a))).
  { destruct Ho4 as (_ & -> & _). unfold s3. simpl. by rewrite list_lookup_insert_eq. }
  assert (forall n b, 0 <= n -> apart b n (p + 8) 16 ->
            ld n (mem s4) b = ld n (mem s2) b) as Hkeep.
  { intros n b Hn Hb. apply ld_frame. intros x Hx. apply Ho4. unfold apart, within, h_fl in *. lia. }
  assert (forall b, b ∈ fl -> p + 32 <= b /\ b + 8 <= p + PGSIZE) as Hbl.
  { intros b Hb. pose proof (block_bounds i p b Hi (Hsub _ Hb)). unfold sizeof_header in *. lia. }
  apply HQ. repeat split; simpl.
  - by destruct Ho4 as (-> & _).
  - destruct Ho4 as (_ & -> & _). simpl. by rewrite list_insert_insert_eq.
  - intros y Hy. unfold in_map, within in Hy. simpl in Hy. unfold PGSIZE in *.
    destruct Ho4 as (_ & _ & _ & Ho4). rewrite Ho4 by (unfold within, h_fl; lia). simpl.
    rewrite !ibyte_wr_le_out by lia. done.
  - unfold h_are. rewrite Hkeep by (unfold apart; lia). simpl. rewrite !ld_wr_apart by (unfold apart; lia). done.
  - apply Hfl4.
  - apply Hfl4.
  - unfold h_avail. rewrite Hkeep by (unfold apart; lia). simpl.
    rewrite ld_wr_apart by (unfold apart; lia). rewrite ld_wr_at; lia.
  - unfold h_magic. rewrite Hkeep by (unfold apart; lia). simpl. rewrite !ld_wr_apart by (unfold apart; lia). done.
  - unfold h_total. rewrite Hkeep by (unfold apart; lia). simpl. rewrite !ld_wr_apart by (unfold apart; lia). done.
  - apply (chain_frame (mem s2)).
    { intros b x Hb Hx. apply Ho4. specialize (Hbl b Hb). unfold within, h_fl. lia. }
    simpl. unfold z. apply chain_wr_last; [done| |].
    + intros b c Hb Hc. by apply (page_blocks_apart p i fl).
    + apply chain_wr; [lia| |done]. intros b Hb. specialize (Hbl b Hb). unfold apart. lia.
Qed.

(** The blocks of different pages are different. *)
Lemma block_page x s h p i fl p' j fl' b :
  heap_ok x s h -> h_maps h !! p = Some (PSmall i fl) -> h_maps h !! p' = Some (PSmall j fl') ->
  b ∈ blocks i p -> b ∈ blocks j p' -> p = p'.
Proof.
  intros Hok Hp Hp' Hb Hb'.
  apply (in_map_unique foreign x s h p (PSmall i fl) p' (PSmall j fl') b Hok Hp Hp').
  - apply (block_in_map p i fl b); [by apply (r_map _ _ _ _ Hok) | done | lia].
  - apply (block_in_map p' j fl' b); [by apply (r_map _ _ _ _ Hok) | done | lia].
Qed.

Lemma heap_ok_seize s s' h p i a fl :
  heap_ok 0 s h -> caches s !! i = Some a -> h_free h i = [] -> idlepage a = p ->
  h_maps h !! p = Some (PSmall i fl) -> Z.of_nat (length fl) = nblocks i ->
  seized s s' p i a fl ->
  heap_ok 0 s' (heap_free i fl (heap_map <[p := PSmall i []]> h)).
Proof.
  intros Hok Ha Hfr Hid Hp Hlen (Hma & Hca & Hmem & Hrep & Hch).
  pose proof (r_map _ _ _ _ Hok _ _ Hp) as Hwf. pose proof Hwf as (Hp0 & Hpm & Hn & Hpb & Hi & Hnd & Hsub).
  pose proof (lookup_lt_Some _ _ _ Ha) as Hlt. pose proof (nblocks_pos i Hi).
  destruct (r_arena _ _ _ _ Hok i a Ha) as (Hbs & _ & _).
  apply (heap_ok_update foreign 0 0 s s' h p (PSmall i fl)); try done.
  - repeat split; try done; [apply NoDup_nil_2 | by intros c ?%not_elem_of_nil].
  - rewrite Hca, length_insert. apply (r_caches _ _ _ _ Hok).
  - intros j b. rewrite Hca. intros [(<- & <- & _)|[Hne Hb]]%list_lookup_insert_Some.
    + simpl. rewrite decide_True by done. repeat split; [done | by intros].
    + rewrite decide_False by done. destruct (r_arena _ _ _ _ Hok j b Hb) as (H1 & H2 & H3).
      repeat split; try done. intros H0. destruct (H3 H0) as (fl' & Hp' & Hl'). exists fl'. split; [|done].
      rewrite lookup_insert_ne; [done|]. intros E. rewrite <-E, Hp in Hp'. congruence.
  - intros j b Hj. case_decide as Hji.
    + subst j. intros Hb. exists p, []. rewrite lookup_insert_eq. repeat split; [by apply Hsub | apply not_elem_of_nil].
    + intros Hb. destruct (r_free _ _ _ _ Hok j b Hj Hb) as (p' & fl' & Hp' & Hbb).
      exists p', fl'. split; [|done]. rewrite lookup_insert_ne; [done|]. intros <-. congruence.
  - intros j Hj. case_decide as Hji; [done|]. split; [by apply (r_chain _ _ _ _ Hok)|].
    apply (chain_keep foreign 0 s h (mem s') p (PSmall i fl)); try done. intros ? ? ? [= -> ->]. done.
  - intros p' j fl' [[<- [= -> <-]]|[Hne Hp']]%lookup_insert_Some Hl' Hx; [simpl in Hl'; lia|].
    destruct (r_full _ _ _ _ Hok p' j fl' Hp' Hl' Hx) as (b & Hb & Hidb). exists b. rewrite Hca.
    rewrite list_lookup_insert_ne; [done|]. intros ->. congruence.
Qed.

Lemma live_seize s h p i fl :
  heap_ok 0 s h -> h_free h i = [] -> h_maps h !! p = Some (PSmall i fl) ->
  Z.of_nat (length fl) = nblocks i ->
  same_live h (heap_free i fl (heap_map <[p := PSmall i []]> h)).
Proof.
  intros Hok Hfr Hp Hlen b k. pose proof (r_map _ _ _ _ Hok _ _ Hp) as Hwf.
  assert (forall b, b ∈ blocks i p -> b ∈ fl) as Hall by (intros c; by apply full_all).
  assert (fl ⊆ blocks i p) as Hsub by apply Hwf.
  unfold live. simpl. split.
  - intros (p' & m & [[<- <-]|[Hne Hp']]%lookup_insert_Some & Hl).
    + destruct Hl as (_ & Hb & _ & Hnb). rewrite decide_True in Hnb by done. by destruct Hnb; apply Hall.
    + exists p', m. split; [done|]. destruct m as [j fl'|n|n]; [|done..].
      destruct Hl as (-> & Hb & Hnb & Hnf). repeat split; try done. case_decide; [|done]. subst j.
      rewrite Hfr. apply not_elem_of_nil.
  - intros (p' & m & Hp' & Hl). destruct (decide (p' = p)) as [->|Hne].
    + rewrite Hp in Hp'. simplify_eq. destruct Hl as (_ & Hb & Hnb & _). by destruct Hnb; apply Hall.
    + exists p', m. rewrite lookup_insert_ne by done. split; [done|]. destruct m as [j fl'|n|n]; [|done..].
      destruct Hl as (-> & Hb & Hnb & Hnf). repeat split; try done. case_decide; [|done]. subst j.
      intros Hbf. apply Hne. by apply (block_page 0 s h p' i fl' p i fl b Hok Hp' Hp Hb), Hsub.
Qed.

Lemma wp_arena_seize i a (Q : unit -> mstate -> Prop) s h :
  heap_ok 0 s h -> (i < ncaches)%nat -> caches s !! i = Some a -> freelist a = 0 -> idlepage a <> 0 ->
  (forall s' h', heap_ok 0 s' h' -> same_live h h' -> keeps h s s' -> h_free h' i <> [] -> Q tt s') ->
  wp (arena_seize (arena_ptr i)) Q s.
Proof.
  intros Hok Hi Ha Hfa Hid HQ. destruct (r_arena _ _ _ _ Hok i a Ha) as (_ & _ & H3).
  destruct (H3 Hid) as (fl & Hp & Hlen). pose proof (free_null _ _ _ _ _ Hok Hi Ha Hfa) as Hfr.
  apply (wp_arena_seize_page i (idlepage a) fl a _ s h); try done. intros s' Hsz.
  apply (HQ s' (heap_free i fl (heap_map <[idlepage a := PSmall i []]> h))).
  - by apply (heap_ok_seize s s' h (idlepage a) i a fl).
  - by apply (live_seize s).
  - destruct Hsz as (_ & _ & Hmem & _). apply (keeps_map 0 s s' h _ _ Hok Hp); [|done].
    intros b k (_ & Hb & Hnb & _). apply Hnb. by apply (full_all (idlepage a) i fl b); [apply (r_map _ _ _ _ Hok)|..].
  - simpl. rewrite decide_True by done. intros ->. simpl in Hlen. pose proof (nblocks_pos i Hi). lia.
Qed.

(** *** Taking a block *)

Definition grows (h h' : heap) (b : Z) (k : kind) : Prop :=
  ~ (exists k', live h b k') /\ forall b' k', live h' b' k' <-> live h b' k' \/ (b' = b /\ k' = k).

Lemma wp_arena_pop i (Q : Z -> mstate -> Prop) s h :
  heap_ok 0 s h -> (i < ncaches)%nat -> h_free h i <> [] ->
  (forall b s' h', heap_ok 0 s' h' -> grows h h' b (Small i) -> mem s' = mem s -> Q b s') ->
  wp (arena_pop (arena_ptr i)) Q s.
Proof.
  intros Hok Hi Hne HQ. destruct (arena_exists _ _ _ _ Hok Hi) as [a Ha].
  destruct (h_free h i) as [|b l] eqn:E; [done|].
  destruct (r_arena _ _ _ _ Hok i a Ha) as (Hbs & Hf & Hid). rewrite E in Hf. simpl in Hf.
  destruct (r_free _ _ _ _ Hok i b Hi) as (p & fl & Hp & Hb & Hnb); [rewrite E; left|].
  pose proof (r_chain _ _ _ _ Hok i Hi) as [Hnd Hch]. rewrite E in Hnd, Hch. destruct Hch as [Hnx Hch].
  apply NoDup_cons in Hnd as [Hbl Hnd].
  pose proof (r_map _ _ _ _ Hok _ _ Hp) as (Hp0 & Hpm & _ & Hpb & _).
  pose proof (heap_page_mapped foreign 0 s h p _ Hok Hp) as Hma. simpl in Hma, Hpb.
  pose proof (block_bounds i p b Hi Hb) as Hbb. unfold sizeof_header in Hbb.
  unfold arena_pop. mstep. apply (wp_get_arena i a); [done|]. rewrite Hf. cbn zeta. do 2 mstep. rewrite Hnx.
  mstep. apply (wp_set_freelist i a); [done|]. mstep.
  pose proof (lookup_lt_Some _ _ _ Ha) as Hlt.
  apply (HQ b _ (heap_free i l h)); [| |done].
  - constructor; simpl; try apply Hok.
    + rewrite length_insert. apply (r_caches _ _ _ _ Hok).
    + intros j c [(<- & <- & _)|[Hij Hc]]%list_lookup_insert_Some; simpl.
      * by rewrite decide_True.
      * rewrite decide_False by done. by apply (r_arena _ _ _ _ Hok).
    + intros j c Hj. case_decide; [subst j; intros Hc; apply (r_free _ _ _ _ Hok i c Hi); rewrite E; by right|].
      by apply (r_free _ _ _ _ Hok).
    + intros j Hj. case_decide; [done|]. by apply (r_chain _ _ _ _ Hok).
    + intros p' j fl' Hp' Hl' Hx. destruct (r_full _ _ _ _ Hok p' j fl' Hp' Hl' Hx) as (c & Hc & Hidc).
      destruct (decide (i = j)) as [<-|Hij].
      * eexists. rewrite list_lookup_insert_eq by done. split; [done|]. simpl. congruence.
      * exists c. by rewrite list_lookup_insert_ne.
  - assert (forall p' i' fl', h_maps h !! p' = Some (PSmall i' fl') -> b ∈ blocks i' p' -> i' = i) as Huniq.
    { intros p' i' fl' Hp' Hb'. pose proof (block_page 0 s h p i fl p' i' fl' b Hok Hp Hp' Hb Hb') as <-. congruence. }
    split.
    + intros (k' & p' & m & Hp' & Hl). assert (in_map p' m b) as Hin.
      { pose proof (live_at_inside _ _ _ _ _ (r_map _ _ _ _ Hok _ _ Hp') Hl). unfold in_map, within. lia. }
      assert (p' = p) as ->.
      { apply (in_map_unique foreign 0 s h p' m p (PSmall i fl) b); try done.
        apply (block_in_map p i fl b); [by apply (r_map _ _ _ _ Hok) | done | lia]. }
      rewrite Hp in Hp'. simplify_eq. destruct Hl as (_ & _ & _ & Hnf). destruct Hnf. rewrite E. left.
    + intros b' k'. unfold live. simpl. split.
      * intros (p' & m & Hp' & Hl). destruct m as [j fl'|n|n]; [|left; by exists p', (PLarge n)|left; by exists p', (PRaw n)].
        destruct Hl as (-> & Hb' & Hnb' & Hnf). destruct (decide (j = i)) as [->|Hji].
        -- destruct (decide (b' = b)) as [->|Hbne]; [by right|]. left. exists p', (PSmall i fl').
           repeat split; try done. rewrite E. intros [?|?]%elem_of_cons; [done|]. by apply Hnf.
        -- left. exists p', (PSmall j fl'). repeat split; done.
      * intros [(p' & m & Hp' & Hl)|[-> ->]].
        -- exists p', m. split; [done|]. destruct m as [j fl'|n|n]; [|done..].
           destruct Hl as (-> & Hb' & Hnb' & Hnf). repeat split; try done. case_decide; [|done]. subst j.
           intros Hl. apply Hnf. rewrite E. by right.
        -- exists p, (PSmall i fl). repeat split; try done. by rewrite decide_True.
Qed.

Lemma wp_arena_alloc i (Q : Z -> mstate -> Prop) s h :
  heap_ok 0 s h -> (i < ncaches)%nat ->
  (forall s', os_mmap (mapped s) PGSIZE = None -> heap_ok 0 s' h -> keeps h s s' -> Q 0 s') ->
  (forall b s' h', heap_ok 0 s' h' -> grows h h' b (Small i) -> keeps h s s' -> Q b s') ->
  wp (arena_alloc (arena_ptr i)) Q s.
Proof.
  intros Hok Hi HNone HSome. destruct (arena_exists _ _ _ _ Hok Hi) as [a Ha].
  unfold arena_alloc. mstep. apply (wp_get_arena i a); [done|].
  destruct (Z.eqb_spec (freelist a) 0) as [Hf|Hf].
  - mstep. apply (wp_arena_page i _ s h a Hok Hi Ha).
    + intros s' Hmm Hok' Hk. simpl. apply wp_ret. by apply HNone.
    + intros s1 h1 a1 Hok1 Hl1 Hk1 Ha1 Hid1 Hf1. simpl. mstep.
      apply (wp_arena_seize i a1 _ s1 h1); try done; [congruence|].
      intros s2 h2 Hok2 Hl2 Hk2 Hne. apply (wp_arena_pop i _ s2 h2); try done.
      intros b s3 h3 Hok3 [Hg1 Hg2] Hm3. apply (HSome b s3 h3 Hok3).
      * split.
        -- intros (k & Hb). apply Hg1. exists k. by apply Hl2, Hl1.
        -- intros b' k'. rewrite (Hg2 b' k'), (Hl2 b' k'), (Hl1 b' k'). done.
      * intros b' k' y Hb' Hy. rewrite Hm3. by apply (keeps_trans h h1 s s1 s2 Hl1 Hk1 Hk2 b' k').
  - apply (wp_arena_pop i _ s h); try done.
    + intros E. destruct (r_arena _ _ _ _ Hok i a Ha) as (_ & Hfr & _). rewrite E in Hfr. done.
    + intros b s' h' Hok' Hg Hm. apply (HSome b s' h' Hok' Hg). intros b' k' y _ _. by rewrite Hm.
Qed.

End Arena.
