(* ===== verification/MallocFree.v ===== *)
(** * Large requests, and the return of memory: [mymalloc] and [myfree] *)
From Stdlib Require Import ZArith Lia.
From stdpp Require Import base tactics list numbers list_numbers strings gmap.
From S2P Require Import Prelude Memory Malloc MallocRep MallocSpec MallocHeap MallocArena.
Open Scope Z_scope.

Lemma block_to_page_in p b :
  p mod PGSIZE = 0 -> p <= b < p + PGSIZE -> block_to_page b = p.
Proof. unfold block_to_page, PGSIZE. intros. dlia. Qed.

(** Objects that [myfree] takes; bare pages are for [cpp_free]. *)
Definition freeable (k : kind) : Prop := match k with Raw _ => False | _ => True end.
Definition fits (size : Z) (k : kind) : Prop := size <= usable k /\ freeable k.
(** The object [mymalloc] chooses: a block of the first arena that is large enough,
    or pages for the request and their header. *)
Definition chosen (size : Z) (k : kind) : Prop :=
  if 1024 <? size then k = Large (u64 (u64 (size + sizeof_header) + PGSIZE - 1) / PGSIZE)
  else exists i, k = Small i /\ (i < ncaches)%nat /\ size <= bsize i /\ (i = 0%nat \/ bsize i < 2 * size).

Lemma chosen_fits size k :
  0 <= size < 2 ^ 64 - sizeof_header -> chosen size k -> 0 < usable k -> fits size k.
Proof.
  unfold chosen, fits, sizeof_header. intros Hs. destruct (Z.ltb_spec 1024 size) as [Hbig|Hsmall].
  - intros -> Hpos. split; [|done]. simpl in *. unfold sizeof_header, PGSIZE in *.
    rewrite (u64_id (size + 32)) in * by lia.
    destruct (decide (size + 32 + 4096 - 1 < 2 ^ 64)) as [Hlt|Hge]; [rewrite u64_id by lia; dlia|].
    assert (u64 (size + 32 + 4096 - 1) = size + 32 + 4096 - 1 - 2 ^ 64) as E.
    { unfold u64, wrap. rewrite <-(Z_mod_plus_full _ (-1)). apply Z.mod_small. lia. }
    rewrite E in Hpos. dlia.
  - intros (i & -> & Hi & Hsz & _) _. by split.
Qed.

Section Interface.
Context {os : Os} (foreign : Z -> bool).
Abbreviation heap_ok := (heap_ok foreign).

(** *** [mymalloc] *)

Lemma bsize_succ i : bsize (S i) = 2 * bsize i.
Proof. unfold bsize. rewrite Nat2Z.inj_succ, !Z.shiftl_mul_pow2 by lia. rewrite Z.pow_succ_r by lia. lia. Qed.

(** The loop stops at the first arena whose blocks are large enough. *)
Lemma wp_find_arena x s h size fuel j (Q : Z -> mstate -> Prop) :
  heap_ok x s h -> size <= 1024 -> (j < ncaches)%nat -> (ncaches <= j + S fuel)%nat ->
  (forall i, (i < ncaches)%nat -> (j <= i)%nat -> size <= bsize i ->
     i = j \/ bsize i < 2 * size -> Q (arena_ptr i) s) ->
  wp (find_arena fuel (arena_ptr j) size) Q s.
Proof.
  intros Hok Hs. revert j. induction fuel as [|fuel IH]; intros j Hj Hf HQ; simpl;
    destruct (arena_exists _ _ _ _ _ Hok Hj) as [a Ha];
    destruct (r_arena _ _ _ _ Hok j a Ha) as (Hbs & _ & _);
    mstep; (apply (wp_get_arena j a); [done|]); rewrite Hbs;
    (destruct (Z.ltb_spec (bsize j) size) as [Hlt|Hge]; [|apply wp_ret, HQ; [done|lia|done|by left]]).
  - assert (j = 6)%nat as -> by (unfold ncaches in *; lia). change (bsize 6) with 1024 in Hlt. lia.
  - assert (j <> 6)%nat by (intros ->; change (bsize 6) with 1024 in Hlt; lia).
    assert (arena_ptr j + sizeof_arena = arena_ptr (S j)) as Hnext by (unfold arena_ptr; lia).
    rewrite Hnext. mstep. apply wp_MyAssert.
    { apply Z.ltb_lt. unfold arena_ptr, sizeof_arena, ncaches in *. lia. }
    apply IH; [unfold ncaches in *; lia|lia|]. intros i Hi Hji Hsi Hmin. apply HQ; [done|lia|done|].
    right. destruct Hmin as [->|]; [|done]. rewrite bsize_succ. lia.
Qed.

(** Bare pages become a large object. *)
Lemma heap_ok_large s s' h p n :
  heap_ok 0 s h -> h_maps h !! p = Some (PRaw n) -> only (within p sizeof_header) s s' ->
  map_rep (mem s') p (PLarge n) -> heap_ok 0 s' (heap_map <[p := PLarge n]> h).
Proof.
  intros Hok Hp (Hma & Hca & _ & Hmem) Hrep. pose proof (r_map _ _ _ _ Hok _ _ Hp) as Hwf.
  assert (forall p' j fl, h_maps h !! p' = Some (PSmall j fl) ->
            <[p := PLarge n]> (h_maps h) !! p' = Some (PSmall j fl)) as Hup.
  { intros p' j fl Hp'. rewrite lookup_insert_ne; [done | congruence]. }
  assert (forall y, ~ in_map p (PRaw n) y -> ibyte (mem s') y = ibyte (mem s) y) as Hmem'.
  { intros y Hy. apply Hmem. destruct Hwf as (_ & _ & Hn & _).
    unfold in_map, within, sizeof_header, PGSIZE in *. simpl in *. lia. }
  apply (heap_ok_update foreign 0 0 s s' h p (PRaw n)); try done.
  - rewrite Hca. apply (r_caches _ _ _ _ Hok).
  - intros j a. rewrite Hca. intros Ha. destruct (r_arena _ _ _ _ Hok j a Ha) as (H1 & H2 & H3).
    repeat split; try done. intros H0. destruct (H3 H0) as (fl & Hp' & Hl). eauto.
  - intros j b Hj Hb. destruct (r_free _ _ _ _ Hok j b Hj Hb) as (p' & fl & Hp' & ?). eauto.
  - intros j Hj. split; [by apply (r_chain _ _ _ _ Hok)|].
    by apply (chain_keep foreign 0 s h (mem s') p (PRaw n)).
  - intros p' j fl [[<- ?]|[Hne Hp']]%lookup_insert_Some Hl Hx; [done|]. rewrite Hca.
    by apply (r_full _ _ _ _ Hok p' j fl).
Qed.

(** A fresh mapping with one object in it. *)
Lemma grows_insert x s h p m b k :
  heap_ok x s (heap_map <[p := m]> h) -> h_maps h !! p = None ->
  (forall b' k', live_at (h_free h) p m b' k' <-> b' = b /\ k' = k) -> grows h (heap_map <[p := m]> h) b k.
Proof.
  intros Hok Hp Hat. assert (live_at (h_free h) p m b k) as Hb by by apply Hat.
  assert (h_maps (heap_map <[p := m]> h) !! p = Some m) as Hpm by (simpl; by rewrite lookup_insert_eq).
  split.
  - intros (k' & p' & m' & Hp' & Hl). assert (p' <> p) as Hne by congruence.
    assert (h_maps (heap_map <[p := m]> h) !! p' = Some m') as Hpm' by (simpl; by rewrite lookup_insert_ne).
    pose proof (live_at_inside _ _ _ _ _ (r_map _ _ _ _ Hok _ _ Hpm) Hb).
    pose proof (live_at_inside _ _ _ _ _ (r_map _ _ _ _ Hok _ _ Hpm') Hl).
    pose proof (r_apart _ _ _ _ Hok _ _ _ _ Hpm Hpm' ltac:(done)) as Ha. unfold apart in Ha. lia.
  - intros b' k'. rewrite live_insert, Hat. split.
    + intros [[-> ->]|(p' & m' & _ & Hp' & Hl)]; [by right|]. left. by exists p', m'.
    + intros [(p' & m' & Hp' & Hl)|[-> ->]]; [|by left]. right. exists p', m'.
      assert (p' <> p) by congruence. done.
Qed.

(** The objects of the old heap are outside of a fresh mapping. *)
Lemma live_outside x s h p m b k y :
  heap_ok x s (heap_map <[p := m]> h) -> h_maps h !! p = None -> live h b k -> within b (usable k) y ->
  ~ within p (map_pages m * PGSIZE) y.
Proof.
  intros Hok Hp (p' & m' & Hp' & Hl) Hy Hin. assert (p' <> p) as Hne by congruence.
  assert (h_maps (heap_map <[p := m]> h) !! p = Some m) as Hpm by (simpl; by rewrite lookup_insert_eq).
  assert (h_maps (heap_map <[p := m]> h) !! p' = Some m') as Hpm' by (simpl; by rewrite lookup_insert_ne).
  pose proof (live_at_inside _ _ _ _ _ (r_map _ _ _ _ Hok _ _ Hpm') Hl).
  pose proof (r_apart _ _ _ _ Hok _ _ _ _ Hpm Hpm' ltac:(done)) as Ha. unfold apart, within in *. lia.
Qed.

(** What an allocation does: it fails without an effect, when the system gives no
    pages, or it gives out a new object of a kind in [P]. *)
Definition alloc_post (s : mstate) (h : heap) (P : kind -> Prop) (pt : Z) (s' : mstate) : Prop :=
  keeps h s s' /\
  ((pt = 0 /\ (exists len, os_mmap (mapped s) len = None) /\ heap_ok 0 s' h) \/
   (exists h' k, heap_ok 0 s' h' /\ grows h h' pt k /\ P k)).

Lemma wp_large pages (Q : Z -> mstate -> Prop) s h :
  heap_ok 0 s h -> 0 <= pages < 2 ^ 52 ->
  (forall pt s', alloc_post s h (eq (Large pages)) pt s' -> Q pt s') ->
  wp (ret ← alloc_page pages;
      if ret =? 0 then mret 0 else
      store 8 (ret + h_are) 0 ;;
      store 8 (ret + h_alloc_size) (u64 (pages * PGSIZE)) ;;
      store 2 (ret + h_magic) MAGIC ;;
      mret (ret + sizeof_header)) Q s.
Proof.
  intros Hok Hpages HQ. mstep. apply (wp_alloc_page foreign 0 pages _ s h Hok Hpages).
  { intros Hmm. simpl. apply wp_ret, HQ. split; [by intros ? ? ?|]. left.
    split; [done|]. split; [by eexists | by apply heap_ok_nalloc]. }
  intros p s1 Hnone Hok1 Hca1 Hout _.
  assert (h_maps (heap_map <[p := PRaw pages]> h) !! p = Some (PRaw pages)) as Hp by (simpl; by rewrite lookup_insert_eq).
  pose proof (r_map _ _ _ _ Hok1 _ _ Hp) as (Hp0 & Hpm & Hn & Hpb & _). simpl in Hn, Hpb.
  pose proof (heap_page_mapped foreign 0 s1 _ p _ Hok1 Hp) as Hma. simpl in Hma.
  assert ((p =? 0) = false) as -> by (apply Z.eqb_neq; lia).
  unfold h_are, h_alloc_size, h_magic. do 7 mstep. cbn [mem with_mem].
  rewrite u64_id by (unfold PGSIZE in *; lia). set (s2 := with_mem _ (with_mem _ (with_mem _ s1))).
  assert (only (within p sizeof_header) s1 s2) as Ho.
  { eapply only_trans; [|eapply only_trans]; apply only_wr; unfold within, sizeof_header; lia. }
  pose proof (heap_ok_large s1 s2 _ p pages Hok1 Hp Ho) as Hok2.
  assert (heap_map <[p := PLarge pages]> (heap_map <[p := PRaw pages]> h) = heap_map <[p := PLarge pages]> h) as Eh.
  { unfold heap_map. simpl. by rewrite insert_insert_eq. }
  rewrite Eh in Hok2.
  assert (heap_ok 0 s2 (heap_map <[p := PLarge pages]> h)) as Hok3.
  { apply Hok2. simpl. unfold h_are, h_alloc_size, h_magic, MAGIC. split; [|split].
    - rewrite !ld_wr_apart by (unfold apart; lia). rewrite ld_wr_at; lia.
    - rewrite ld_wr_apart by (unfold apart; lia). rewrite ld_wr_at; [lia|lia|lia|]. unfold PGSIZE in *. lia.
    - rewrite ld_wr_at; lia. }
  apply HQ. split.
  - intros b k y Hb Hy. pose proof (live_outside _ _ _ _ _ _ _ _ Hok1 Hnone Hb Hy) as Hno. simpl in Hno.
    destruct Ho as (_ & _ & _ & Ho). rewrite Ho, Hout; [done|done|].
    unfold within, sizeof_header, PGSIZE in *. lia.
  - right. eexists _, (Large pages). split; [exact Hok3|]. split; [|done].
    apply (grows_insert 0 s2); [done..|]. intros b' k'. simpl. tauto.
Qed.

Lemma alloc_post_mono s h (P P' : kind -> Prop) pt s' :
  alloc_post s h P pt s' -> (forall k, P k -> 0 < usable k -> P' k) -> alloc_post s h P' pt s'.
Proof.
  intros [Hk [Hnull|(h' & k & Hok & Hg & HP)]] Himp; (split; [done|]); [by left | right].
  exists h', k. split; [done|]. split; [done|]. apply Himp; [done|].
  assert (live h' pt k) as (p & m & Hp & Hl) by (apply (proj2 Hg); by right).
  apply (live_at_inside _ _ _ _ _ (r_map _ _ _ _ Hok _ _ Hp) Hl).
Qed.

Lemma wp_mymalloc_chosen size (Q : Z -> mstate -> Prop) s h :
  heap_ok 0 s h -> 0 <= size < 2 ^ 64 ->
  (forall pt s', alloc_post s h (chosen size) pt s' -> Q pt s') ->
  wp (mymalloc size) Q s.
Proof.
  intros Hok Hs HQ. unfold mymalloc, chosen in *. destruct (Z.ltb_spec 1024 size) as [Hbig|Hsmall].
  - cbn zeta. pose proof (u64_range (u64 (size + sizeof_header) + PGSIZE - 1)) as Hu.
    apply (wp_large _ _ _ h); [done|unfold PGSIZE in *; dlia|]. intros pt s' Hpost. apply HQ.
    apply (alloc_post_mono _ _ _ _ _ _ Hpost). by intros k <-.
  - mstep. apply (wp_find_arena 0 s h size); [done|done|unfold ncaches; lia|lia|].
    intros i Hi _ Hsi Hmin. apply (wp_arena_alloc foreign i _ s h Hok Hi).
    + intros s' Hmm Hok' Hk. apply HQ. split; [done|]. left. eauto.
    + intros b s' h' Hok' Hg Hk. apply HQ. split; [done|]. right. exists h', (Small i). eauto 10.
Qed.

Lemma wp_mymalloc size (Q : Z -> mstate -> Prop) s h :
  heap_ok 0 s h -> 0 <= size < 2 ^ 64 - sizeof_header ->
  (forall pt s', alloc_post s h (fits size) pt s' -> Q pt s') ->
  wp (mymalloc size) Q s.
Proof.
  intros Hok Hs HQ. apply (wp_mymalloc_chosen size _ s h Hok); [unfold sizeof_header in Hs; lia|].
  intros pt s' Hpost. apply HQ. apply (alloc_post_mono _ _ _ _ _ _ Hpost). intros k. by apply chosen_fits.
Qed.

(** *** [myfree] *)

Definition shrinks (h h' : heap) (b : Z) : Prop :=
  forall b' k', live h' b' k' <-> live h b' k' /\ b' <> b.

(** Room for the block that comes back. *)
Lemma put_wf p i fl b :
  map_wf p (PSmall i fl) -> b ∈ blocks i p -> b ∉ fl -> map_wf p (PSmall i (b :: fl)).
Proof.
  intros (H1 & H2 & H3 & H4 & H5 & H6 & H7) Hb Hnb. repeat split; try done.
  - by apply NoDup_cons.
  - intros c [->|Hc]%elem_of_cons; [done | by apply H7].
Qed.

Lemma free_length p i fl :
  map_wf p (PSmall i fl) -> Z.of_nat (length fl) <= nblocks i.
Proof.
  intros (_ & _ & _ & _ & Hi & Hnd & Hsub). rewrite <-(length_blocks i p Hi). apply Nat2Z.inj_le.
  apply submseteq_length, NoDup_submseteq; [done|]. intros c Hc. by apply Hsub.
Qed.

(** The page with the block back on its list; if that was the last one, the page
    is not yet the idle page. *)
Lemma heap_ok_put s s' h p i fl b :
  heap_ok 0 s h -> h_maps h !! p = Some (PSmall i fl) -> b ∈ blocks i p -> b ∉ fl -> b ∉ h_free h i ->
  only (fun y => within p sizeof_header y \/ within b 8 y) s s' -> page_rep (mem s') p i (b :: fl) ->
  heap_ok p s' (heap_map <[p := PSmall i (b :: fl)]> h).
Proof.
  intros Hok Hp Hb Hnfl Hnfr (Hma & Hca & _ & Hmem) Hrep.
  pose proof (r_map _ _ _ _ Hok _ _ Hp) as Hwf. pose proof (put_wf _ _ _ _ Hwf Hb Hnfl) as Hwf'.
  pose proof (map_wf_small _ _ _ Hwf) as Hi. pose proof (block_bounds i p b Hi Hb) as Hbb.
  assert (Z.of_nat (length fl) < nblocks i) as Hlen.
  { pose proof (free_length _ _ _ Hwf') as Hl. simpl in Hl. lia. }
  apply (heap_ok_update foreign 0 p s s' h p (PSmall i fl)); try done.
  - rewrite Hca. apply (r_caches _ _ _ _ Hok).
  - intros y Hy. apply Hmem. unfold in_map, within, sizeof_header, PGSIZE in *. simpl in *. lia.
  - intros j a. rewrite Hca. intros Ha. destruct (r_arena _ _ _ _ Hok j a Ha) as (H1 & H2 & H3).
    repeat split; try done. intros H0. destruct (H3 H0) as (fl' & Hp' & Hl). exists fl'. split; [|done].
    rewrite lookup_insert_ne; [done|]. intros E. rewrite <-E, Hp in Hp'. simplify_eq. lia.
  - intros j c Hj Hc. destruct (r_free _ _ _ _ Hok j c Hj Hc) as (p' & fl' & Hp' & Hcb & Hcn).
    destruct (decide (p' = p)) as [->|Hne].
    + rewrite Hp in Hp'. simplify_eq. eexists p, _. rewrite lookup_insert_eq. split; [done|]. split; [done|].
      intros [->|?]%elem_of_cons; [by apply Hnfr | by apply Hcn].
    + exists p', fl'. by rewrite lookup_insert_ne.
  - intros j Hj. split; [by apply (r_chain _ _ _ _ Hok)|].
    apply (free_chain_frame foreign 0 s); [done|done|]. intros p' fl' c y Hp' Hc Hcn Hcf Hy.
    pose proof (block_bounds j p' c Hj Hc).
    apply Hmem. intros [Hh|Hh].
    + destruct (decide (p' = p)) as [->|Hne]; [unfold within in Hh; lia|].
      pose proof (r_apart _ _ _ _ Hok _ _ _ _ Hp Hp' ltac:(done)) as Ha.
      unfold apart, within, sizeof_header, PGSIZE in *. simpl in Ha. lia.
    + assert (b <> c) as Hbc.
      { intros <-. pose proof (block_page foreign 0 s h p i fl p' j fl' b Hok Hp Hp' Hb Hc) as <-. congruence. }
      pose proof (small_apart _ _ _ _ _ _ _ _ _ _ _ _ Hok Hp Hb Hp' Hc Hbc) as Ha.
      unfold apart, within in *. lia.
  - intros p' j fl' [[<- _]|[Hne Hp']]%lookup_insert_Some Hl Hx; [done|]. rewrite Hca.
    apply (r_full _ _ _ _ Hok p' j fl'); [done|done|].
    pose proof (r_map _ _ _ _ Hok _ _ Hp') as (? & _). lia.
Qed.

Lemma shrinks_put x s h p i fl b :
  heap_ok x s h -> h_maps h !! p = Some (PSmall i fl) -> b ∈ blocks i p ->
  shrinks h (heap_map <[p := PSmall i (b :: fl)]> h) b.
Proof.
  intros Hok Hp Hb b' k'. rewrite live_insert, (live_split h p) by done. simpl. split.
  - intros [(-> & Hb' & Hn & Hf)|(p' & m & Hne & Hp' & Hl)].
    + rewrite not_elem_of_cons in Hn. split; [left; tauto | tauto].
    + split; [right; by exists p', m|]. intros ->. apply Hne.
      pose proof (live_at_inside _ _ _ _ _ (r_map _ _ _ _ Hok _ _ Hp') Hl).
      apply (in_map_unique foreign x s h p' m p (PSmall i fl) b); try done; [unfold in_map, within; lia|].
      apply (block_in_map p i fl b); [by apply (r_map _ _ _ _ Hok) | done | lia].
  - intros [[(-> & Hb' & Hn & Hf)|(p' & m & Hne & Hp' & Hl)] Hbb].
    + left. rewrite not_elem_of_cons. tauto.
    + right. by exists p', m.
Qed.

(** The page [x] is not free, or it is the idle page. *)
Lemma heap_ok_settle x s h :
  heap_ok x s h ->
  (forall i fl, h_maps h !! x = Some (PSmall i fl) -> Z.of_nat (length fl) <> nblocks i) -> heap_ok 0 s h.
Proof.
  intros Hok Hx. constructor; try apply Hok. intros p i fl Hp Hl _.
  apply (r_full _ _ _ _ Hok p i fl Hp Hl). intros ->. by apply (Hx i fl).
Qed.

Lemma wp_arena_add_idle i p fl a (Q : unit -> mstate -> Prop) s h :
  heap_ok p s h -> h_maps h !! p = Some (PSmall i fl) -> Z.of_nat (length fl) = nblocks i ->
  caches s !! i = Some a -> idlepage a <> p ->
  (forall s' h', heap_ok 0 s' h' -> same_live h h' -> mem s' = mem s -> Q tt s') ->
  wp (arena_add_idle (arena_ptr i) p) Q s.
Proof.
  intros Hok Hp Hlen Ha Hidp HQ. pose proof (r_map _ _ _ _ Hok _ _ Hp) as Hwf.
  pose proof Hwf as (Hp0 & Hpm & _ & Hpb & Hi & Hnd & Hsub). pose proof (nblocks_pos i Hi).
  pose proof (heap_page_mapped foreign _ s h p _ Hok Hp) as Hma. simpl in Hma.
  pose proof (r_rep _ _ _ _ Hok _ _ Hp) as (R1 & _ & R5 & R6 & _).
  unfold arena_add_idle, h_are, h_avail, h_magic in *.
  mstep. apply wp_MyAssert; [by apply Z.eqb_eq|]. do 2 mstep. rewrite R6.
  mstep. apply wp_MyAssert; [done|]. do 2 mstep. rewrite R1.
  mstep. apply wp_MyAssert; [apply Z.eqb_refl|]. do 2 mstep. rewrite R5, Hlen.
  mstep. apply wp_MyAssert; [apply Z.ltb_lt; lia|].
  mstep. apply (wp_get_arena i a); [done|].
  assert (forall b, b ∈ blocks i p -> b ∈ fl) as Hall by (intros b; by apply full_all).
  destruct (Z.eqb_spec (idlepage a) 0) as [Hid|Hid]; simpl.
  - apply (wp_set_idlepage i a); [done|]. eapply HQ; [by apply (heap_ok_set_idle foreign s h p i a fl)| |done].
    by intros b k.
  - apply (wp_free_page foreign p p (PSmall i fl) _ s h Hok Hp); [by left| | |].
    + intros j fl' b [= <- <-] Hb Hbf. destruct (r_free _ _ _ _ Hok i b Hi Hbf) as (p' & fl' & Hp' & Hb' & Hn).
      pose proof (block_page foreign p s h p i fl p' i fl' b Hok Hp Hp' Hb Hb') as <-.
      rewrite Hp in Hp'. simplify_eq. by apply Hn, Hall.
    + intros j a' Ha' Hidp'. destruct (r_arena _ _ _ _ Hok j a' Ha') as (_ & _ & H3).
      destruct (H3 ltac:(lia)) as (fl' & Hp' & _). rewrite Hidp', Hp in Hp'. simplify_eq.
    + intros s' Hok' Hm' _. apply (HQ s' _ Hok'); [|done]. intros b k.
      rewrite (live_delete h p (PSmall i fl)) by done. simpl. split; [by right|].
      intros [(_ & Hb & Hn & _)|]; [|done]. by destruct Hn; apply Hall.
Qed.

(** The bytes that the return of the block [b] changes. *)
Definition put_bytes (p b y : Z) : Prop := within p sizeof_header y \/ within b 8 y.

Lemma wp_free_block p i fl b (Q : unit -> mstate -> Prop) s h :
  heap_ok 0 s h -> h_maps h !! p = Some (PSmall i fl) -> b ∈ blocks i p -> b ∉ fl ->
  (forall s', only (put_bytes p b) s s' -> page_rep (mem s') p i (b :: fl) -> Q tt s') ->
  wp (avail ← load 2 (p + h_avail);
      store 2 (p + h_avail) (u16 (avail + 1)) ;;
      freelist_free (p + h_fl) b) Q s.
Proof.
  intros Hok Hp Hb Hnfl HQ. pose proof (r_map _ _ _ _ Hok _ _ Hp) as Hwf.
  pose proof Hwf as (Hp0 & Hpm & _ & Hpb & Hi & Hnd & Hsub). simpl in Hpb.
  pose proof (free_length _ _ _ (put_wf _ _ _ _ Hwf Hb Hnfl)) as Hlen. simpl in Hlen.
  pose proof (heap_page_mapped foreign _ s h p _ Hok Hp) as Hma. simpl in Hma.
  pose proof (r_rep _ _ _ _ Hok _ _ Hp) as (R1 & (R2 & R3 & R4) & R5 & R6 & R7).
  pose proof (block_bounds i p b Hi Hb) as Hbb. pose proof (nblocks_pos i Hi).
  assert (forall c, c ∈ fl -> p + 32 <= c /\ c + 8 <= p + PGSIZE /\ apart c 8 b 8) as Hbl.
  { intros c Hc. pose proof (block_bounds i p c Hi (Hsub _ Hc)).
    assert (c <> b) as Hcb by (intros ->; done).
    pose proof (block_separate i p c b Hi (Hsub _ Hc) Hb Hcb). unfold apart, sizeof_header in *. lia. }
  unfold h_are, h_fl, h_avail, h_magic, h_total, fl_first, fl_last, sizeof_header in *.
  do 4 mstep. rewrite R5, u16_id by lia. set (s1 := with_mem _ s).
  apply (wp_freelist_free p b fl); [by repeat split; [lia|lia|lia|] | by unfold sizeof_header; lia | lia | | by intros c Hc; unfold sizeof_header; apply Hbl |].
  - unfold fl_rep, h_fl, fl_first, fl_last. simpl. rewrite !ld_wr_apart by (unfold apart; lia).
    repeat split; try done. apply chain_wr; [lia| |done]. intros c Hc. specialize (Hbl c Hc). unfold apart in *. lia.
  - intros s2 Ho Hfl. apply HQ.
    + eapply (only_trans _ _ s1); [apply only_wr|].
      * lia.
      * unfold put_bytes, within, sizeof_header. lia.
      * eapply only_mono; [exact Ho|]. unfold put_region, put_bytes, within, sizeof_header, h_fl. lia.
    + assert (forall n a, 0 <= n -> p <= a -> a + n <= p + 32 -> apart a n (p + 8) 16 -> ld n (mem s2) a = ld n (mem s1) a) as Hk.
      { intros n a Hn Ha1 Ha2 Ha3. apply ld_frame. intros y Hy. apply Ho.
        unfold put_region, within, apart, h_fl in *. lia. }
      unfold page_rep, h_are, h_avail, h_magic, h_total. repeat split; try apply Hfl.
      * rewrite Hk by (unfold apart; lia). simpl. rewrite ld_wr_apart by (unfold apart; lia). done.
      * rewrite Hk by (unfold apart; lia). simpl. rewrite ld_wr_at; lia.
      * rewrite Hk by (unfold apart; lia). simpl. rewrite ld_wr_apart by (unfold apart; lia). done.
      * rewrite Hk by (unfold apart; lia). simpl. rewrite ld_wr_apart by (unfold apart; lia). done.
Qed.

Lemma wp_myfree_small p i fl b (Q : unit -> mstate -> Prop) s h :
  heap_ok 0 s h -> h_maps h !! p = Some (PSmall i fl) -> live_at (h_free h) p (PSmall i fl) b (Small i) ->
  (forall s' h', heap_ok 0 s' h' -> shrinks h h' b -> keeps h' s s' -> Q tt s') -> wp (myfree b) Q s.
Proof.
  intros Hok Hp Hl HQ. pose proof Hl as (_ & Hb & Hnfl & Hnfr).
  pose proof (r_map _ _ _ _ Hok _ _ Hp) as Hwf. pose proof Hwf as (Hp0 & Hpm & _ & Hpb & Hi & Hnd & Hsub).
  pose proof (heap_page_mapped foreign _ s h p _ Hok Hp) as Hma. simpl in Hma.
  pose proof (r_rep _ _ _ _ Hok _ _ Hp) as (R1 & _ & _ & R6 & _).
  pose proof (block_bounds i p b Hi Hb) as Hbb. pose proof (arena_ptr_range i Hi).
  unfold myfree. unfold sizeof_header in Hbb.
  assert ((b =? 0) = false) as -> by (apply Z.eqb_neq; lia).
  rewrite (block_to_page_in p b Hpm) by lia. cbn zeta. unfold h_are, h_magic in *.
  do 2 mstep. rewrite R6. simpl. do 2 mstep. rewrite R1.
  assert ((arena_ptr i =? 0) = false) as -> by (apply Z.eqb_neq; lia).
  match goal with |- wp (?c ≫= fun x => store ?n ?q (@?v x) ;; ?d ;; ?f) _ _ =>
    assert (wp (x ← c; store n q (v x) ;; d) (fun _ => wp f Q) s) as Hw end.
  { apply (wp_free_block p i fl b _ s h Hok Hp Hb Hnfl). intros s1 Ho Hrep.
    pose proof (heap_ok_put s s1 h p i fl b Hok Hp Hb Hnfl Hnfr Ho Hrep) as Hok1.
    pose proof (shrinks_put 0 s h p i fl b Hok Hp Hb) as Hsh.
    assert (keeps (heap_map <[p := PSmall i (b :: fl)]> h) s s1) as Hk.
    { intros b' k' y Hb' Hy. apply Ho. intros Hin. apply Hsh in Hb' as [Hb' Hne].
      pose proof (live_header_apart _ _ _ _ _ _ _ _ Hok Hb' Hp I) as Ha.
      assert (live h b (Small i)) as Hlb by (exists p, (PSmall i fl); done).
      pose proof (live_apart _ _ _ _ _ _ _ _ Hok Hb' Hlb Hne) as Ha'. simpl in Ha'.
      destruct Hin; unfold apart, within in *; lia. }
    pose proof (page_mapped_only _ _ _ _ _ Ho Hma) as Hma1.
    destruct Hrep as (R1' & _ & R5' & R6' & R7').
    unfold h_are, h_avail, h_magic, h_total in *. do 2 mstep. rewrite R5'. do 2 mstep. rewrite R7'.
    destruct (Z.eqb_spec (Z.of_nat (length (b :: fl))) (nblocks i)) as [Hfull|Hnot].
    - do 2 mstep. rewrite R1'. destruct (arena_exists _ _ _ _ _ Hok1 Hi) as [a Ha].
      eapply (wp_arena_add_idle i p (b :: fl) a _ s1 _ Hok1); [simpl; by rewrite lookup_insert_eq|done|done| |].
      + intros Hid. assert (caches s !! i = Some a) as Ha0 by (destruct Ho as (_ & <- & _); done).
        destruct (r_arena _ _ _ _ Hok i a Ha0) as (_ & _ & H3). destruct (H3 ltac:(lia)) as (fl' & Hp' & Hlen').
        rewrite Hid, Hp in Hp'. simplify_eq. simpl in Hfull. lia.
      + intros s2 h2 Hok2 Hsame Hm2. apply (HQ s2 h2 Hok2).
        * intros b' k'. rewrite (Hsame b' k'). apply Hsh.
        * intros b' k' y Hb' Hy. rewrite Hm2. apply (Hk b' k' y); [by apply Hsame | done].
    - apply wp_ret. eapply HQ; [|exact Hsh|exact Hk].
      apply (heap_ok_settle p); [done|]. intros j fl'. simpl. rewrite lookup_insert_eq. intros [= <- <-]. done. }
  revert Hw. unfold wp, mbind, cmd_bind.
  destruct (load 2 (p + h_avail) s) as [[x t]| | |]; [|done..].
  destruct (store 2 (p + h_avail) (u16 (x + 1)) t) as [[[] t']| | |]; [|done..].
  destruct (freelist_free (p + h_fl) b t') as [[[] t'']| | |]; done.
Qed.

Lemma wp_myfree_large p n (Q : unit -> mstate -> Prop) s h :
  heap_ok 0 s h -> h_maps h !! p = Some (PLarge n) ->
  (forall s' h', heap_ok 0 s' h' -> shrinks h h' (p + sizeof_header) -> keeps h' s s' -> Q tt s') ->
  wp (myfree (p + sizeof_header)) Q s.
Proof.
  intros Hok Hp HQ. pose proof (r_map _ _ _ _ Hok _ _ Hp) as (Hp0 & Hpm & Hn & Hpb & _). simpl in Hn, Hpb.
  pose proof (heap_page_mapped foreign _ s h p _ Hok Hp) as Hma. simpl in Hma.
  pose proof (r_rep _ _ _ _ Hok _ _ Hp) as (R1 & R2 & R3).
  unfold myfree. assert ((p + sizeof_header =? 0) = false) as -> by (apply Z.eqb_neq; unfold sizeof_header; lia).
  rewrite (block_to_page_in p) by (unfold sizeof_header, PGSIZE in *; lia). cbn zeta.
  unfold h_are, h_magic, h_alloc_size in *. do 2 mstep. rewrite R3. simpl. do 2 mstep. rewrite R1. simpl.
  do 2 mstep. rewrite R2. rewrite Z.div_mul by done.
  apply (wp_free_page foreign 0 p (PLarge n) _ s h Hok Hp); [by right | done | |].
  - intros i a Ha Hid. destruct (r_arena _ _ _ _ Hok i a Ha) as (_ & _ & H3).
    destruct (H3 ltac:(lia)) as (fl & Hp' & _). congruence.
  - intros s' Hok' Hm _. eapply HQ; [exact Hok'| |].
    + intros b' k'. rewrite (live_delete h p (PLarge n)) by done. simpl. split.
      * intros Hl. split; [by right|]. intros ->. destruct Hl as (p' & m' & Hp' & Hl). simpl in Hp'.
        pose proof (live_at_inside _ _ _ _ _ (r_map _ _ _ _ Hok' _ _ Hp') Hl).
        apply lookup_delete_Some in Hp' as [Hne Hp'].
        pose proof (r_apart _ _ _ _ Hok _ _ _ _ Hp Hp' Hne) as Ha. unfold apart, sizeof_header, PGSIZE in *. simpl in Ha. lia.
      * intros [[[-> ->]|Hl] Hne]; done.
    + intros b' k' y _ _. by rewrite Hm.
Qed.

Lemma wp_myfree b k (Q : unit -> mstate -> Prop) s h :
  heap_ok 0 s h -> live h b k -> freeable k ->
  (forall s' h', heap_ok 0 s' h' -> shrinks h h' b -> keeps h' s s' -> Q tt s') -> wp (myfree b) Q s.
Proof.
  intros Hok (p & m & Hp & Hl) Hf HQ. destruct m as [i fl|n|n].
  - pose proof Hl as (-> & _). by apply (wp_myfree_small p i fl b _ s h).
  - destruct Hl as [-> ->]. by apply (wp_myfree_large p n _ s h).
  - by destruct Hl as [-> _].
Qed.

End Interface.
