(* ===== verification/MallocTheorems.v ===== *)
(** * Correctness of the allocator

    The functions of [malloc.c] against the heap they promise: fresh objects,
    contents that survive, memory that comes back, and a client that can run any
    sequence of calls. *)
From Stdlib Require Import ZArith Lia.
From stdpp Require Import base tactics list numbers list_numbers strings gmap.
From S2P Require Import Prelude Memory Malloc MallocRep MallocSpec MallocHeap MallocArena MallocFree.
Open Scope Z_scope.

Section Theorems.
Context {os : Os} (foreign : Z -> bool).
Abbreviation heap_ok := (heap_ok foreign).
Abbreviation alloc_post := (alloc_post foreign).

(** *** Objects *)

Lemma live_pos x s h b k : heap_ok x s h -> live h b k -> 0 < b /\ 0 < usable k /\ b + usable k <= 2 ^ 47.
Proof.
  intros Hok (p & m & Hp & Hl). pose proof (r_map _ _ _ _ Hok _ _ Hp) as Hwf.
  pose proof (live_at_inside _ _ _ _ _ Hwf Hl). destruct Hwf as (? & _ & _ & ? & _). lia.
Qed.

Lemma live_kind_unique x s h b k k' : heap_ok x s h -> live h b k -> live h b k' -> k = k'.
Proof.
  intros Hok (p & m & Hp & Hl) (p' & m' & Hp' & Hl').
  pose proof (live_at_inside _ _ _ _ _ (r_map _ _ _ _ Hok _ _ Hp) Hl).
  pose proof (live_at_inside _ _ _ _ _ (r_map _ _ _ _ Hok _ _ Hp') Hl').
  assert (p = p') as <-.
  { apply (in_map_unique foreign x s h p m p' m' b); try done; unfold in_map, within; lia. }
  rewrite Hp in Hp'. injection Hp' as <-. destruct m; [destruct Hl as (-> & _), Hl' as (-> & _) | destruct Hl as [-> _], Hl' as [-> _]..]; done.
Qed.

Lemma live_accessible x s h b k n :
  heap_ok x s h -> live h b k -> n <= usable k -> accessible s b n = true.
Proof.
  intros Hok (p & m & Hp & Hl) Hn. pose proof (r_map _ _ _ _ Hok _ _ Hp) as Hwf.
  pose proof (live_at_inside _ _ _ _ _ Hwf Hl).
  apply (accessible_page s p (map_pages m)); [by apply Hwf | by apply (heap_page_mapped foreign x s h) | lia | lia].
Qed.

(** Objects are aligned for every type. *)
Lemma live_aligned x s h b k : heap_ok x s h -> live h b k -> b mod 16 = 0.
Proof.
  intros Hok (p & m & Hp & Hl). pose proof (r_map _ _ _ _ Hok _ _ Hp) as Hwf.
  pose proof Hwf as (_ & Hpm & _). unfold PGSIZE in Hpm. destruct m as [i fl|n|n]; simpl in Hl.
  - pose proof (map_wf_small _ _ _ Hwf) as Hi. destruct Hl as (_ & (j & Hj & ->)%elem_of_blocks & _).
    unfold block_at. geometry i Hi; dlia.
  - destruct Hl as [_ ->]. unfold sizeof_header. dlia.
  - destruct Hl as [_ ->]. dlia.
Qed.

Lemma grows_live h h' b k : grows h h' b k -> live h' b k.
Proof. intros [_ Hg]. apply Hg. by right. Qed.

Lemma grows_apart x s' h h' b k b' k' :
  heap_ok x s' h' -> grows h h' b k -> live h b' k' -> apart b (usable k) b' (usable k').
Proof.
  intros Hok [Hn Hg] Hl. apply (live_apart foreign x s' h'); [done|apply Hg; by right|apply Hg; by left|].
  intros <-. apply Hn. eauto.
Qed.

(** *** Filling and copying *)

Lemma wp_fill_object b k v n (Q : unit -> mstate -> Prop) s h :
  heap_ok 0 s h -> live h b k -> 0 <= n <= usable k ->
  (heap_ok 0 (with_mem (fun m => fill m b n (u8 v)) s) h -> Q tt (with_mem (fun m => fill m b n (u8 v)) s)) ->
  wp (Malloc.memset b v n) Q s.
Proof.
  intros Hok Hl Hn HQ. unfold wp, Malloc.memset. rewrite (live_accessible 0 s h b k n Hok Hl) by lia.
  apply HQ. apply (heap_ok_client foreign 0 s h (fill (mem s) b n (u8 v)) Hok). intros y Hy. exists b, k.
  split; [done|]. destruct (decide (b <= y < b + n)); [lia|]. destruct Hy. apply ibyte_fill_out. lia.
Qed.

Lemma wp_copy_object d k src ks n (Q : unit -> mstate -> Prop) s h :
  heap_ok 0 s h -> live h d k -> live h src ks -> d <> src -> 0 <= n -> n <= usable k -> n <= usable ks ->
  (heap_ok 0 (with_mem (fun m => copy m d src n) s) h -> Q tt (with_mem (fun m => copy m d src n) s)) ->
  wp (Malloc.memcpy d src n) Q s.
Proof.
  intros Hok Hd Hs Hne Hn Hnk Hns HQ. unfold wp, Malloc.memcpy.
  rewrite (live_accessible 0 s h d k n Hok Hd), (live_accessible 0 s h src ks n Hok Hs) by lia.
  pose proof (live_apart foreign 0 s h d k src ks Hok Hd Hs Hne) as Ha.
  assert ((d + n <=? src) || (src + n <=? d) || (n =? 0) = true) as ->.
  { rewrite !orb_true_iff, !Z.leb_le. unfold apart in Ha. lia. }
  apply HQ. apply (heap_ok_client foreign 0 s h (copy (mem s) d src n) Hok). intros y Hy. exists d, k.
  split; [done|]. destruct (decide (d <= y < d + n)); [lia|]. destruct Hy. apply ibyte_copy_out. lia.
Qed.

(** *** [myrealloc] *)

(** The move of an object [b] to [pt]: its contents are the old ones, as far as
    they went, and it takes the place of [b] among the objects. *)
Definition moved (s s' : mstate) (h h' : heap) (b : Z) (kb : kind) (pt : Z) (k : kind) : Prop :=
  (forall b' k', live h' b' k' <-> (live h b' k' /\ b' <> b) \/ (b' = pt /\ k' = k)) /\
  (forall i, 0 <= i < usable kb -> ibyte (mem s') (pt + i) = ibyte (mem s) (b + i)) /\
  (forall b' k' y, live h b' k' -> b' <> b -> within b' (usable k') y -> ibyte (mem s') y = ibyte (mem s) y).

Definition realloc_post (s : mstate) (h : heap) (b : Z) (kb : kind) (size pt : Z) (s' : mstate) : Prop :=
  (pt = b /\ s' = s /\ size <= usable kb) \/
  (pt = 0 /\ (exists len, os_mmap (mapped s) len = None) /\ heap_ok 0 s' h /\ keeps h s s') \/
  (exists h' k, pt <> 0 /\ heap_ok 0 s' h' /\ moved s s' h h' b kb pt k /\ fits size k /\
     ~ (exists k', live h pt k')).

(** Allocate, copy what fits in the old object, release it. *)
Lemma wp_move {A} size b kb n (c : cmd mstate A) (v : A -> Z) (Q : Z -> mstate -> Prop) s h :
  heap_ok 0 s h -> live h b kb -> freeable kb -> n = usable kb -> n < size < 2 ^ 64 - sizeof_header ->
  (forall s' h', heap_ok 0 s' h' -> live h' b kb -> keeps h s s' ->
     wp c (fun a t => t = s' /\ v a = n) s') ->
  (forall pt s', realloc_post s h b kb size pt s' -> Q pt s') ->
  wp (newpt ← mymalloc size;
      if newpt =? 0 then mret 0 else
      a ← c;
      Malloc.memcpy newpt b (v a) ;;
      myfree b ;;
      mret newpt) Q s.
Proof.
  intros Hok Hb Hf Hn Hsz Hc HQ. pose proof (live_pos _ _ _ _ _ Hok Hb).
  mstep. apply (wp_mymalloc foreign size _ s h Hok); [lia|].
  intros pt s1 [Hk1 [(-> & Hmm & Hok1)|(h1 & k & Hok1 & Hg & Hfit)]].
  { simpl. apply wp_ret, HQ. right. left. done. }
  pose proof (grows_live _ _ _ _ Hg) as Hpt. pose proof (live_pos _ _ _ _ _ Hok1 Hpt) as Hpos.
  assert ((pt =? 0) = false) as -> by (apply Z.eqb_neq; lia).
  assert (live h1 b kb) as Hb1 by (apply Hg; by left).
  assert (pt <> b) as Hne by (intros ->; apply Hg; by eexists).
  mstep. eapply wp_mono; [by apply (Hc s1 h1)|]. intros a t [-> ->].
  mstep. destruct Hfit as [Hfit Hfk]. apply (wp_copy_object pt k b kb n _ s1 h1); try done; [lia|lia|lia|].
  intros Hok2. mstep. apply (wp_myfree foreign b kb _ _ h1 Hok2 Hb1 Hf).
  intros s3 h3 Hok3 Hsh Hk3. mstep. apply HQ. right. right. exists h3, k.
  split; [lia|]. split; [done|]. split; [|split; [done|by apply Hg]].
  assert (forall b' k', live h3 b' k' <-> (live h b' k' /\ b' <> b) \/ (b' = pt /\ k' = k)) as Hl3.
  { intros b' k'. rewrite (Hsh b' k'). destruct Hg as [_ Hg]. rewrite (Hg b' k'). split.
    - intros [[?|?] ?]; auto.
    - intros [[? ?]|[-> ->]]; auto. }
  split; [done|]. split.
  - intros i Hi. rewrite (Hk3 pt k) by (first [apply Hl3; by right | unfold within; lia]). simpl.
    rewrite ibyte_copy_in by lia. replace (b + (pt + i - pt)) with (b + i) by lia.
    apply (Hk1 b kb); [done|]. unfold within. lia.
  - intros b' k' y Hb' Hbne Hy. rewrite (Hk3 b' k') by (first [done | apply Hl3; by left]). simpl.
    pose proof (grows_apart 0 s1 h h1 pt k b' k' Hok1 Hg Hb') as Ha. unfold apart, within in *.
    rewrite ibyte_copy_out by lia. by apply (Hk1 b' k').
Qed.

(** The header of the page of an object. *)
Lemma live_page x s h b k :
  heap_ok x s h -> live h b k -> freeable k ->
  exists p, 0 < p /\ p mod PGSIZE = 0 /\ page_mapped s p 1 /\ block_to_page b = p /\
    ld 2 (mem s) (p + h_magic) = MAGIC /\
    match k with
    | Small i => (i < ncaches)%nat /\ ld 8 (mem s) (p + h_are) = arena_ptr i
    | Large n => ld 8 (mem s) (p + h_are) = 0 /\ ld 8 (mem s) (p + h_alloc_size) = n * PGSIZE /\ 0 < n < 2 ^ 47
    | Raw _ => False
    end.
Proof.
  intros Hok (p & m & Hp & Hl) Hf. pose proof (r_map _ _ _ _ Hok _ _ Hp) as Hwf.
  pose proof (live_at_inside _ _ _ _ _ Hwf Hl) as Hin. pose proof (heap_page_mapped foreign x s h p m Hok Hp) as Hma.
  pose proof (r_rep _ _ _ _ Hok _ _ Hp) as Hrep. pose proof Hwf as (Hp0 & Hpm & Hn & Hpb & _).
  exists p. repeat split; [done|done| | | |].
  - intros q Hq. apply Hma. lia.
  - apply block_to_page_in; [done|]. destruct m as [i fl|n|n].
    + simpl in *. lia.
    + destruct Hl as [_ ->]. unfold sizeof_header, PGSIZE. lia.
    + by destruct Hl as [-> _].
  - destruct m; [apply Hrep | apply Hrep | by destruct Hl as [-> _]].
  - destruct m as [i fl|n|n]; [destruct Hl as (-> & _) | destruct Hl as (-> & _) | by destruct Hl as [-> _]].
    + split; [by apply (map_wf_small p i fl) | apply Hrep].
    + repeat split; [apply Hrep|apply Hrep|done|]. unfold PGSIZE in *. simpl in Hpb. lia.
Qed.

Lemma wp_myrealloc b kb size (Q : Z -> mstate -> Prop) s h :
  heap_ok 0 s h -> live h b kb -> freeable kb -> 0 <= size < 2 ^ 64 - sizeof_header ->
  (forall pt s', realloc_post s h b kb size pt s' -> Q pt s') -> wp (myrealloc b size) Q s.
Proof.
  intros Hok Hb Hf Hsz HQ. pose proof (live_pos _ _ _ _ _ Hok Hb) as Hpos.
  destruct (live_page _ _ _ _ _ Hok Hb Hf) as (p & Hp0 & Hpm & Hma & Epg & Hmg & Hk).
  unfold myrealloc. assert ((b =? 0) = false) as -> by (apply Z.eqb_neq; lia).
  rewrite Epg. cbn zeta. unfold h_magic, h_are, h_alloc_size in *.
  do 2 mstep. rewrite Hmg. mstep. apply wp_MyAssert; [done|]. do 2 mstep.
  destruct kb as [i|n|n]; [| |done].
  - destruct Hk as [Hi ->]. pose proof (arena_ptr_range i Hi).
    assert ((arena_ptr i =? 0) = false) as -> by (apply Z.eqb_neq; lia).
    assert (forall s' h', heap_ok 0 s' h' -> wp (get_arena (arena_ptr i)) (fun a t => t = s' /\ block_size a = bsize i) s') as Hget.
    { intros s' h' Hok'. destruct (arena_exists foreign 0 s' h' i Hok' Hi) as [a Ha].
      apply (wp_get_arena i a); [done|]. split; [done|]. apply (r_arena _ _ _ _ Hok' i a Ha). }
    mstep. eapply wp_mono; [by apply (Hget s h)|]. intros a t [-> ->].
    destruct (Z.leb_spec size (bsize i)) as [Hle|Hgt].
    { apply wp_ret, HQ. by left. }
    apply (wp_move size b (Small i) (bsize i) (get_arena (arena_ptr i)) block_size _ s h); try done; [lia|].
    intros s' h' Hok' _ _. by apply (Hget s' h').
  - destruct Hk as (-> & Hsize & Hn). simpl. do 2 mstep. rewrite Hsize.
    assert (u64 (n * PGSIZE - sizeof_header) = n * PGSIZE - sizeof_header) as Eu.
    { simpl in Hpos. apply u64_id. unfold PGSIZE, sizeof_header in *. lia. }
    rewrite Eu. destruct (Z.leb_spec size (n * PGSIZE - sizeof_header)) as [Hle|Hgt].
    { apply wp_ret, HQ. by left. }
    apply (wp_move size b (Large n) (n * PGSIZE - sizeof_header) (load 8 (p + 8)) (fun a => u64 (a - sizeof_header)) _ s h);
      try done; [lia|].
    intros s' h' Hok' Hb' _. destruct (live_page _ _ _ _ _ Hok' Hb' I) as (p' & Hp0' & Hpm' & Hma' & Epg' & _ & _ & Hsize' & _).
    rewrite Epg in Epg'. subst p'. unfold h_alloc_size in *. mstep. split; [done|]. by rewrite Hsize'.
Qed.

(** *** [calloc], [cpp_alloc], [cpp_free] *)

(** The object of [size] bytes that [cpp_alloc] gives: bare pages, or a block. *)
Definition cpp_fits (size : Z) (k : kind) : Prop :=
  if 1024 <? size then k = Raw (u64 (size + PGSIZE - 1) / PGSIZE) /\ size <= usable k else fits size k.

Lemma wp_cpp_alloc size (Q : Z -> mstate -> Prop) s h :
  heap_ok 0 s h -> 0 <= size < 2 ^ 64 ->
  (forall pt s', alloc_post s h (cpp_fits size) pt s' -> Q pt s') -> wp (cpp_alloc size) Q s.
Proof.
  intros Hok Hs HQ. unfold cpp_alloc, cpp_fits in *. destruct (Z.ltb_spec 1024 size) as [Hbig|Hsmall].
  - replace (size + (PGSIZE - 1)) with (size + PGSIZE - 1) by lia.
    pose proof (u64_range (size + PGSIZE - 1)) as Hu. set (n := u64 (size + PGSIZE - 1) / PGSIZE) in *.
    assert (0 <= n < 2 ^ 52) as Hn by (unfold n, PGSIZE in *; dlia).
    apply (wp_alloc_page foreign 0 n _ s h Hok Hn).
    + intros Hmm. apply HQ. split; [by intros ? ? ?|]. left. split; [done|].
      split; [by eexists | by apply heap_ok_nalloc].
    + intros p s' Hnone Hok' Hca Hout Hz. apply HQ.
      assert (h_maps (heap_map <[p := PRaw n]> h) !! p = Some (PRaw n)) as Hp by (simpl; by rewrite lookup_insert_eq).
      pose proof (r_map _ _ _ _ Hok' _ _ Hp) as (_ & _ & Hn0 & _). simpl in Hn0. split.
      * intros b k y Hb Hy. apply Hout. exact (live_outside foreign 0 s' h p (PRaw n) b k y Hok' Hnone Hb Hy).
      * right. eexists _, (Raw n). split; [exact Hok'|]. split; [|split; [done|]].
        -- apply (grows_insert foreign 0 s'); [done|done|]. intros b' k'. simpl. tauto.
        -- simpl. unfold n in *. destruct (decide (size + PGSIZE - 1 < 2 ^ 64)) as [Hlt|Hge].
           ++ unfold PGSIZE in *. rewrite u64_id in * by lia. dlia.
           ++ assert (u64 (size + PGSIZE - 1) = size + PGSIZE - 1 - 2 ^ 64) as E.
              { unfold u64, wrap. rewrite <-(Z_mod_plus_full _ (-1)). apply Z.mod_small. unfold PGSIZE in *. lia. }
              rewrite E in Hn0. unfold PGSIZE in *. dlia.
  - apply (wp_mymalloc foreign size _ s h Hok); [unfold sizeof_header; lia | done].
Qed.

Lemma wp_cpp_free b k size (Q : unit -> mstate -> Prop) s h :
  heap_ok 0 s h -> live h b k ->
  (if 1024 <? size then k = Raw (u64 (size + PGSIZE - 1) / PGSIZE) else freeable k) ->
  (forall s' h', heap_ok 0 s' h' -> shrinks h h' b -> keeps h' s s' -> Q tt s') -> wp (cpp_free b size) Q s.
Proof.
  intros Hok Hb Hk HQ. unfold cpp_free. destruct (Z.ltb_spec 1024 size) as [Hbig|Hsmall].
  - destruct Hb as (p & m & Hp & Hl). destruct m as [i fl|n|n];
      [by destruct Hl as [-> _] | by destruct Hl as [-> _] | destruct Hl as [-> ->]]. injection Hk as Hn.
    pose proof (r_map _ _ _ _ Hok _ _ Hp) as (Hp0 & Hpm & Hn0 & Hpb & _).
    mstep. apply wp_MyAssert; [by apply Z.eqb_eq|].
    assert ((p =? 0) = false) as -> by (apply Z.eqb_neq; lia). simpl. rewrite <-Hn.
    apply (wp_free_page foreign 0 p (PRaw n) _ s h Hok Hp); [by right | done | |].
    + intros i a Ha Hid. destruct (r_arena _ _ _ _ Hok i a Ha) as (_ & _ & H3).
      destruct (H3 ltac:(lia)) as (fl & Hp' & _). congruence.
    + intros s' Hok' Hm _. eapply HQ; [exact Hok'| |].
      * intros b' k'. rewrite (live_delete h p (PRaw n)) by done. simpl. split.
        -- intros Hl. split; [by right|]. intros ->. destruct Hl as (p' & m' & Hp' & Hl). simpl in Hp'.
           pose proof (live_at_inside _ _ _ _ _ (r_map _ _ _ _ Hok' _ _ Hp') Hl).
           apply lookup_delete_Some in Hp' as [Hne Hp'].
           pose proof (r_apart _ _ _ _ Hok _ _ _ _ Hp Hp' Hne) as Ha. unfold apart, PGSIZE in *. simpl in *. lia.
        -- intros [[[-> ->]|Hl] Hne]; done.
      * intros b' k' y _ _. by rewrite Hm.
  - by apply (wp_myfree foreign b k _ s h).
Qed.

Lemma wp_calloc nmemb size (Q : Z -> mstate -> Prop) s h :
  heap_ok 0 s h -> 0 <= nmemb * size < 2 ^ 64 - sizeof_header ->
  (forall pt s', alloc_post s h (fits (nmemb * size)) pt s' ->
     (pt <> 0 -> forall i, 0 <= i < nmemb * size -> ibyte (mem s') (pt + i) = 0) -> Q pt s') ->
  wp (calloc nmemb size) Q s.
Proof.
  intros Hok Hs HQ. unfold calloc. rewrite u64_id by (unfold sizeof_header in Hs; lia). cbn zeta.
  set (n := nmemb * size) in *. mstep. apply (wp_mymalloc foreign n _ s h Hok Hs).
  intros pt s1 [Hk1 [(-> & Hmm & Hok1)|(h1 & k & Hok1 & Hg & Hfit)]]; simpl.
  - do 3 mstep. apply HQ; [|done]. split; [done|]. by left.
  - pose proof (grows_live _ _ _ _ Hg) as Hpt. pose proof (live_pos _ _ _ _ _ Hok1 Hpt) as Hpos.
    assert ((pt =? 0) = false) as -> by (apply Z.eqb_neq; lia). simpl.
    mstep. destruct Hfit as [Hfit Hfk]. apply (wp_fill_object pt k 0 n _ s1 h1); [done|done|lia|].
    intros Hok2. mstep. apply HQ.
    + split; [|right; by exists h1, k]. intros b' k' y Hb' Hy. simpl.
      pose proof (grows_apart 0 s1 h h1 pt k b' k' Hok1 Hg Hb') as Ha. unfold apart, within in *.
      rewrite ibyte_fill_out by lia. by apply (Hk1 b' k').
    + intros _ i Hi. simpl. by rewrite ibyte_fill_in by lia.
Qed.

End Theorems.
