(* ===== verification/MallocClient.v ===== *)
(** * A client of the allocator

    A client calls the functions of [malloc.c] and writes to the objects it got.
    [exec] runs one call and keeps, next to the memory, the client's own view:
    the objects it holds, their sizes and the bytes it expects in them. *)
From Stdlib Require Import ZArith Lia.
From stdpp Require Import base tactics list numbers list_numbers strings gmap.
From S2P Require Import Prelude Memory Malloc MallocRep MallocSpec MallocHeap MallocArena MallocFree MallocTheorems.
Open Scope Z_scope.

(** An object: its size, whether [cpp_alloc] gave it as bare pages, its bytes. *)
Record obj : Type := Obj { o_size : Z; o_pages : bool; o_bytes : Z -> Z }.
Abbreviation view := (gmap Z obj).

Inductive call : Type :=
| CMalloc (n : Z)
| CCalloc (nmemb size : Z)
| CFree (pt : Z)
| CRealloc (pt n : Z)
| CCppAlloc (n : Z)
| CCppFree (pt n : Z)
| CWrite (pt i v : Z).

Section Client.
Context {os : Os} (foreign : Z -> bool).
Abbreviation heap_ok := (heap_ok foreign).

Definition contents (s : mstate) (pt i : Z) : Z := ibyte (mem s) (pt + i).
(** The client notes a pointer that is not null. *)
Definition note (pt : Z) (o : obj) (L : view) : view := if pt =? 0 then L else <[pt := o]> L.

Definition on_done {A} (c : cmd mstate A) (s : mstate) (f : A -> mstate -> view) : outcome (mstate * view) :=
  match c s with
  | Done (a, s') => Done (s', f a s')
  | AssertFail => AssertFail
  | Fault => Fault
  | Diverged => Diverged
  end.

Definition exec (c : call) (s : mstate) (L : view) : outcome (mstate * view) :=
  match c with
  | CMalloc n => on_done (malloc n) s (fun pt s' => note pt (Obj n false (contents s' pt)) L)
  | CCalloc a b => on_done (calloc a b) s (fun pt s' => note pt (Obj (a * b) false (fun _ => 0)) L)
  | CFree pt => on_done (free pt) s (fun _ _ => delete pt L)
  | CRealloc pt n => on_done (realloc pt n) s (fun pt' s' =>
      match L !! pt with
      | None => note pt' (Obj n false (contents s' pt')) L
      | Some o => if pt' =? 0 then L else
          <[pt' := Obj n false (fun i => if i <? o_size o then o_bytes o i else contents s' pt' i)]> (delete pt L)
      end)
  | CCppAlloc n => on_done (cpp_alloc n) s (fun pt s' => note pt (Obj n (1024 <? n) (contents s' pt)) L)
  | CCppFree pt n => on_done (cpp_free pt n) s (fun _ _ => delete pt L)
  | CWrite pt i v => on_done (store 1 (pt + i) v) s (fun _ _ =>
      alter (fun o => Obj (o_size o) (o_pages o) (fun j => if j =? i then v else o_bytes o j)) pt L)
  end.

(** The contract of a call: sizes that do not wrap around, and pointers that the
    client holds. *)
Definition holds (L : view) (pt : Z) (P : obj -> Prop) : Prop := exists o, L !! pt = Some o /\ P o.
Definition allowed (L : view) (c : call) : Prop :=
  match c with
  | CMalloc n => 0 <= n < 2 ^ 64 - sizeof_header
  | CCalloc a b => 0 <= a * b < 2 ^ 64 - sizeof_header
  | CFree pt => pt = 0 \/ holds L pt (fun o => o_pages o = false)
  | CRealloc pt n => 0 <= n < 2 ^ 64 - sizeof_header /\ (pt = 0 \/ holds L pt (fun o => o_pages o = false))
  | CCppAlloc n => 0 <= n < 2 ^ 64
  | CCppFree pt n => pt = 0 /\ n <= 1024 \/
      holds L pt (fun o => if 1024 <? n then o_pages o = true /\ o_size o = n else o_pages o = false)
  | CWrite pt i v => is_byte v /\ holds L pt (fun o => 0 <= i < o_size o)
  end.

(** The memory is what the client believes it to be. *)
Definition o_ok (o : obj) (k : kind) : Prop :=
  0 <= o_size o <= usable k /\
  if o_pages o then 1024 < o_size o /\ k = Raw (u64 (o_size o + PGSIZE - 1) / PGSIZE) else freeable k.
Definition agrees (s : mstate) (pt : Z) (o : obj) : Prop :=
  forall i, 0 <= i < o_size o -> ibyte (mem s) (pt + i) = o_bytes o i.
Definition consistent (s : mstate) (L : view) : Prop :=
  exists h, heap_ok 0 s h /\
    (forall pt o, L !! pt = Some o -> agrees s pt o /\ exists k, live h pt k /\ o_ok o k) /\
    (forall pt k, live h pt k -> is_Some (L !! pt)).

Lemma agrees_keeps h s s' pt o k :
  keeps h s s' -> live h pt k -> o_ok o k -> agrees s pt o -> agrees s' pt o.
Proof.
  intros Hk Hl [Hs _] Ha i Hi. rewrite (Hk pt k) by (first [done | unfold within; lia]). by apply Ha.
Qed.

Lemma consistent_alloc s s' h L (P : kind -> Prop) pt o :
  heap_ok 0 s h ->
  (forall pt o, L !! pt = Some o -> agrees s pt o /\ exists k, live h pt k /\ o_ok o k) ->
  (forall pt k, live h pt k -> is_Some (L !! pt)) ->
  alloc_post foreign s h P pt s' -> (forall k, P k -> o_ok o k) -> (pt <> 0 -> agrees s' pt o) ->
  consistent s' (note pt o L).
Proof.
  intros Hok HL Hl [Hk Hpost] HP Ho. unfold note. destruct Hpost as [(-> & _ & Hok')|(h' & k & Hok' & Hg & HPk)].
  - exists h. split; [done|]. split; [|done]. intros pt' o' Ho'.
    destruct (HL _ _ Ho') as (Ha & k & Hlk & Hok0). split; [by apply (agrees_keeps h s s' pt' o' k) | eauto].
  - pose proof (live_pos foreign 0 s' h' pt k Hok' (grows_live _ _ _ _ Hg)).
    assert ((pt =? 0) = false) as -> by (apply Z.eqb_neq; lia).
    exists h'. split; [done|]. split.
    + intros pt' o' [[<- <-]|[Hne Ho']]%lookup_insert_Some.
      * split; [apply Ho; lia|]. exists k. split; [exact (grows_live _ _ _ _ Hg) | by apply HP].
      * destruct (HL _ _ Ho') as (Ha & k' & Hlk & Hok0). split; [by apply (agrees_keeps h s s' pt' o' k')|].
        exists k'. split; [apply Hg; by left | done].
    + intros pt' k' Hl'. apply (proj2 Hg) in Hl' as [Hl'|[-> ->]]; [|by rewrite lookup_insert_eq].
      destruct (decide (pt = pt')) as [->|Hne]; [by rewrite lookup_insert_eq|].
      rewrite lookup_insert_ne by done. eauto.
Qed.

Lemma consistent_free s s' h h' L pt :
  (forall pt o, L !! pt = Some o -> agrees s pt o /\ exists k, live h pt k /\ o_ok o k) ->
  (forall pt k, live h pt k -> is_Some (L !! pt)) ->
  heap_ok 0 s' h' -> shrinks h h' pt -> keeps h' s s' -> consistent s' (delete pt L).
Proof.
  intros HL Hl Hok' Hsh Hk. exists h'. split; [done|]. split.
  - intros pt' o' [Hne Ho']%lookup_delete_Some. destruct (HL _ _ Ho') as (Ha & k' & Hlk & Hok0).
    assert (live h' pt' k') by (apply Hsh; auto).
    split; [by apply (agrees_keeps h' s s' pt' o' k') | by exists k'].
  - intros pt' k' [Hl' Hne]%Hsh. rewrite lookup_delete_ne by done. eauto.
Qed.

(** Evaluate a call from its weakest precondition. *)
Lemma on_done_wp {A} (c : cmd mstate A) s f (R : mstate -> view -> Prop) :
  wp c (fun a s' => R s' (f a s')) s -> exists s' L', on_done c s f = Done (s', L') /\ R s' L'.
Proof. unfold wp, on_done. destruct (c s) as [[a s']| | |]; naive_solver. Qed.

Lemma exec_free s L pt (c : cmd mstate unit) :
  consistent s L -> holds L pt (fun o => True) ->
  (forall h k o (Q : unit -> mstate -> Prop), heap_ok 0 s h -> L !! pt = Some o -> live h pt k -> o_ok o k ->
     (forall s' h', heap_ok 0 s' h' -> shrinks h h' pt -> keeps h' s s' -> Q tt s') -> wp c Q s) ->
  exists s' L', on_done c s (fun _ _ => delete pt L) = Done (s', L') /\ consistent s' L'.
Proof.
  intros (h & Hok & HL & Hl) (o & Ho & _) Hc. destruct (HL _ _ Ho) as (Ha & k & Hlk & Hoo).
  apply on_done_wp. apply (Hc h k o _ Hok Ho Hlk Hoo). intros s' h' Hok' Hsh Hk.
  by apply (consistent_free s s' h h').
Qed.

Lemma null_not_held s L o : consistent s L -> L !! 0 = Some o -> False.
Proof.
  intros (h & Hok & HL & _) Ho. destruct (HL _ _ Ho) as (_ & k & Hl & _).
  pose proof (live_pos foreign 0 s h 0 k Hok Hl). lia.
Qed.

Lemma consistent_null s L : consistent s L -> consistent s (delete 0 L).
Proof.
  intros Hc. rewrite delete_id; [done|]. destruct (L !! 0) as [o|] eqn:E; [|done].
  by destruct (null_not_held s L o Hc E).
Qed.

Lemma exec_malloc s L n (c : cmd mstate Z) :
  (forall h (Q : Z -> mstate -> Prop), heap_ok 0 s h ->
     (forall pt s', alloc_post foreign s h (fits n) pt s' -> Q pt s') -> wp c Q s) -> 0 <= n ->
  consistent s L ->
  exists s' L', on_done c s (fun pt s' => note pt (Obj n false (contents s' pt)) L) = Done (s', L') /\ consistent s' L'.
Proof.
  intros Hc Hn (h & Hok & HL & Hl). apply on_done_wp, (Hc h _ Hok). intros pt s' Hpost.
  apply (consistent_alloc s s' h L (fits n)); try done. intros k [Hf1 Hf2]. by repeat split.
Qed.

Lemma exec_realloc s L pt n :
  consistent s L -> 0 <= n < 2 ^ 64 - sizeof_header -> holds L pt (fun o => o_pages o = false) ->
  exists s' L', exec (CRealloc pt n) s L = Done (s', L') /\ consistent s' L'.
Proof.
  intros (h & Hok & HL & Hl) Hn (o & Ho & Hpg). destruct (HL _ _ Ho) as (Ha & k & Hlk & Hs & Hk).
  rewrite Hpg in Hk. cbn [exec]. rewrite Ho. apply on_done_wp.
  apply (wp_myrealloc foreign pt k n _ s h Hok Hlk Hk Hn).
  pose proof (live_pos foreign 0 s h pt k Hok Hlk) as Hpos.
  intros pt' s' [(-> & -> & Hfit)|[(-> & _ & Hok' & Hkp)|(h' & k' & Hnz & Hok' & (Hl' & Hcopy & Hothers) & [Hfit Hfk] & Hfresh)]].
  - assert ((pt =? 0) = false) as -> by (apply Z.eqb_neq; lia). exists h. split; [done|].
    rewrite insert_delete_eq. split.
    + intros q o' [[<- <-]|[Hne Hq]]%lookup_insert_Some; [|by apply HL]. split.
      * intros i Hi. simpl in *. destruct (Z.ltb_spec i (o_size o)); [apply Ha; lia | done].
      * exists k. split; [done|]. split; [simpl; lia | done].
    + intros q k'' Hq. apply Hl in Hq as Hsome.
      destruct (decide (pt = q)) as [->|Hne]; [by rewrite lookup_insert_eq | by rewrite lookup_insert_ne].
  - simpl. exists h. split; [done|]. split; [|done]. intros q o' Hq. destruct (HL _ _ Hq) as (Ha' & k' & Hlk' & Hok0).
    split; [by apply (agrees_keeps h s s' q o' k') | eauto].
  - assert ((pt' =? 0) = false) as -> by by apply Z.eqb_neq. exists h'. split; [done|]. split.
    + intros q o' [[<- <-]|[Hne Hq]]%lookup_insert_Some.
      * split; [|exists k'; split; [apply Hl'; by right | split; [simpl; lia | done]]].
        intros i Hi. simpl in *. destruct (Z.ltb_spec i (o_size o)); [|done].
        rewrite Hcopy by lia. apply Ha. lia.
      * apply lookup_delete_Some in Hq as [Hne' Hq]. destruct (HL _ _ Hq) as (Ha' & k'' & Hlk' & Hok0). split.
        -- intros i Hi. destruct Hok0 as [Hs' _]. rewrite (Hothers q k''); [by apply Ha'|done|done|unfold within; lia].
        -- exists k''. split; [apply Hl'; auto | done].
    + intros q k'' [[Hq Hne]|[-> ->]]%Hl'; [|by rewrite lookup_insert_eq].
      destruct (decide (pt' = q)) as [->|Hne']; [by rewrite lookup_insert_eq|].
      rewrite lookup_insert_ne, lookup_delete_ne by done. eauto.
Qed.

Lemma exec_write s L pt i v :
  consistent s L -> is_byte v -> holds L pt (fun o => 0 <= i < o_size o) ->
  exists s' L', exec (CWrite pt i v) s L = Done (s', L') /\ consistent s' L'.
Proof.
  intros (h & Hok & HL & Hl) Hv (o & Ho & Hi). destruct (HL _ _ Ho) as (Ha & k & Hlk & Hs & Hk).
  cbn [exec]. apply on_done_wp. apply wp_store.
  { destruct Hlk as (p & m & Hp & Hlm). pose proof (r_map _ _ _ _ Hok _ _ Hp) as Hwf.
    pose proof (live_at_inside _ _ _ _ _ Hwf Hlm).
    apply (accessible_page s p (map_pages m)); [by apply Hwf | by apply (heap_page_mapped foreign 0 s h) | lia | lia]. }
  assert (forall x, ibyte (wr (mem s) (pt + i) (le 1 v)) x = if x =? pt + i then v else ibyte (mem s) x) as Hwr.
  { intros x. destruct (Z.eqb_spec x (pt + i)) as [->|Hne]; [|apply ibyte_wr_le_out; lia].
    rewrite ibyte_wr_in by (rewrite length_le; lia). rewrite Z.sub_diag. unfold is_byte in Hv.
    unfold le. rewrite (Z_to_little_endian_succ 0) by lia. simpl. rewrite (Z.land_ones v 8) by lia. by apply Z.mod_small. }
  exists h. split.
  { apply (heap_ok_client foreign 0 s h _ Hok). intros y Hy. exists pt, k. split; [done|]. rewrite Hwr in Hy.
    destruct (Z.eqb_spec y (pt + i)); [lia | done]. }
  split.
  - intros q o' Hq. apply lookup_alter_Some in Hq as [(<- & o0 & Ho0 & ->)|[Hne Hq]].
    + rewrite Ho in Ho0. injection Ho0 as <-. split; [|by exists k]. intros j Hj. simpl in *. rewrite Hwr.
      destruct (Z.eqb_spec j i) as [->|Hji]; [by rewrite Z.eqb_refl|].
      assert ((pt + j =? pt + i) = false) as -> by (apply Z.eqb_neq; lia). by apply Ha.
    + destruct (HL _ _ Hq) as (Ha' & k' & Hlk' & Hok0). split; [|by exists k'].
      intros j Hj. simpl. rewrite Hwr. destruct (Z.eqb_spec (q + j) (pt + i)) as [E|]; [|by apply Ha'].
      pose proof (live_apart foreign 0 s h pt k q k' Hok Hlk Hlk' Hne) as Hap. destruct Hok0 as [Hs' _].
      unfold apart in Hap. lia.
  - intros q k' Hq%Hl. destruct (decide (pt = q)) as [->|Hne].
    + rewrite lookup_alter_eq, Ho. by eexists.
    + by rewrite lookup_alter_ne.
Qed.

(** Every call that keeps its contract returns and keeps the view consistent. *)
Lemma exec_consistent c s L :
  consistent s L -> allowed L c -> exists s' L', exec c s L = Done (s', L') /\ consistent s' L'.
Proof.
  intros Hc Hal. destruct c as [n|a b|pt|pt n|n|pt n|pt i v]; simpl in Hal.
  - apply (exec_malloc s L n); [|lia|done]. intros h Q Hok. by apply (wp_mymalloc foreign n _ s h).
  - destruct Hc as (h & Hok & HL & Hl). cbn [exec]. apply on_done_wp.
    apply (wp_calloc foreign a b _ s h Hok Hal). intros pt s' Hpost Hz.
    apply (consistent_alloc s s' h L (fits (a * b))); try done.
    intros k [Hf1 Hf2]. split; [simpl; lia | done].
  - destruct Hal as [->|(o & Ho & Hpg)].
    { exists s, (delete 0 L). split; [done | by apply consistent_null]. }
    apply exec_free; [done|by exists o|]. intros h k o' Q Hok Ho' Hlk [_ Hk]. rewrite Ho in Ho'. injection Ho' as <-.
    rewrite Hpg in Hk. by apply (wp_myfree foreign pt k _ s h).
  - destruct Hal as [Hn [->|Hh]]; [|by apply exec_realloc].
    assert (L !! 0 = None) as Hnone.
    { destruct (L !! 0) as [o|] eqn:E; [by destruct (null_not_held s L o Hc E) | done]. }
    unfold exec. rewrite Hnone. apply (exec_malloc s L n); [|lia|done].
    intros h Q Hok. by apply (wp_mymalloc foreign n _ s h).
  - destruct Hc as (h & Hok & HL & Hl). cbn [exec]. apply on_done_wp.
    apply (wp_cpp_alloc foreign n _ s h Hok Hal). intros pt s' Hpost.
    apply (consistent_alloc s s' h L (cpp_fits n)); try done.
    intros k Hk. unfold cpp_fits in Hk. unfold o_ok. simpl. destruct (Z.ltb_spec 1024 n) as [Hb|Hb].
    + destruct Hk as [-> Hk]. split; [lia | done].
    + destruct Hk as [Hk1 Hk2]. split; [lia | done].
  - destruct Hal as [[-> Hn]|(o & Ho & Hpg)].
    { exists s, (delete 0 L). split; [|by apply consistent_null]. cbn [exec]. unfold on_done, cpp_free.
      assert ((1024 <? n) = false) as -> by (apply Z.ltb_ge; lia). done. }
    apply exec_free; [done|by exists o|]. intros h k o' Q Hok Ho' Hlk [_ Hk]. rewrite Ho in Ho'. injection Ho' as <-.
    apply (wp_cpp_free foreign pt k n _ s h Hok Hlk). destruct (1024 <? n).
    + destruct Hpg as [Hpg Hsz]. rewrite Hpg, Hsz in Hk. by destruct Hk.
    + by rewrite Hpg in Hk.
  - destruct Hal as [Hv Hh]. by apply exec_write.
Qed.

End Client.
