(* ===== verification/MallocClaims.v ===== *)
(** * Theorems about the allocator [src/tlibc/malloc.c]

    The contract of each function, the safety of every sequence of calls that
    keeps the contract, and the sizes for which the arithmetic of the code wraps
    around. *)
From Stdlib Require Import ZArith Lia.
From stdpp Require Import base tactics list numbers list_numbers strings gmap.
From S2P Require Import Prelude Memory Malloc MallocRep MallocSpec MallocHeap MallocArena MallocFree MallocTheorems MallocClient.
Open Scope Z_scope.

(** ** Runs of a client *)

Inductive reachable {os : Os} (foreign : Z -> bool) : mstate -> view -> Prop :=
| reach_start s : mapped s = foreign -> caches s = initial_caches -> reachable foreign s ∅
| reach_call s L c s' L' :
    reachable foreign s L -> allowed L c -> exec c s L = Done (s', L') -> reachable foreign s' L'.

(** Nothing is allocated in the initial state. *)
Lemma heap_ok_start {os : Os} foreign s :
  mapped s = foreign -> caches s = initial_caches -> heap_ok foreign 0 s (MkHeap ∅ (fun _ => [])).
Proof.
  intros Hma Hca. constructor; simpl; try (intros; simplify_map_eq; done).
  - intros q. rewrite Hma. split; [by left|]. intros [?|(p & k & Hp & _)]; [done|]. simpl in Hp. by rewrite lookup_empty in Hp.
  - intros q _ (p & k & Hp & _). simpl in Hp. by rewrite lookup_empty in Hp.
  - by rewrite Hca.
  - intros i a. rewrite Hca. unfold initial_caches. rewrite list_lookup_fmap.
    intros (bs & Hbs & ->)%fmap_Some. simpl. repeat split; [|done].
    do 7 (destruct i as [|i]; [by injection Hbs as <-|]). done.
  - intros i b _ Hb. by apply not_elem_of_nil in Hb.
  - intros i _. split; [apply NoDup_nil_2 | done].
Qed.

Lemma live_start b k : ~ live (MkHeap ∅ (fun _ => [])) b k.
Proof. intros (p & m & Hp & _). simpl in Hp. by rewrite lookup_empty in Hp. Qed.

Lemma reachable_consistent {os : Os} foreign s L : reachable foreign s L -> consistent foreign s L.
Proof.
  induction 1 as [s Hma Hca|s L c s' L' _ IH Hal Hex].
  - exists (MkHeap ∅ (fun _ => [])). split; [by apply heap_ok_start|]. split.
    + intros pt o. by rewrite lookup_empty.
    + intros pt k Hl. by destruct (live_start pt k).
  - destruct (exec_consistent foreign c s L IH Hal) as (s1 & L1 & E & Hc). rewrite E in Hex. by injection Hex as <- <-.
Qed.

(** C12: after any sequence of calls of [malloc], [calloc], [free], [realloc],
    [cpp_alloc] and [cpp_free] and of writes to its objects, in which every call
    keeps its contract, a client that got its objects from the allocator finds
    each of them aligned, accessible and filled with the bytes it wrote or copied
    there; two objects never overlap, and no call can fault, fail an assertion,
    abort or loop. *)
Theorem allocator_safe {os : Os} (foreign : Z -> bool) s L :
  reachable foreign s L ->
  (forall pt o, L !! pt = Some o ->
     pt mod 16 = 0 /\ accessible s pt (o_size o) = true /\
     forall i, 0 <= i < o_size o -> ibyte (mem s) (pt + i) = o_bytes o i) /\
  (forall pt o pt' o', L !! pt = Some o -> L !! pt' = Some o' -> pt <> pt' ->
     apart pt (o_size o) pt' (o_size o')) /\
  (forall c, allowed L c -> exists s' L', exec c s L = Done (s', L')).
Proof.
  intros Hr%reachable_consistent. pose proof Hr as (h & Hok & HL & _). split; [|split].
  - intros pt o Ho. destruct (HL _ _ Ho) as (Ha & k & Hl & Hs & _).
    split; [by apply (live_aligned foreign 0 s h pt k)|]. split; [|done].
    apply (live_accessible foreign 0 s h pt k); [done|done|lia].
  - intros pt o pt' o' Ho Ho' Hne. destruct (HL _ _ Ho) as (_ & k & Hl & Hs & _).
    destruct (HL _ _ Ho') as (_ & k' & Hl' & Hs' & _).
    pose proof (live_apart foreign 0 s h pt k pt' k' Hok Hl Hl' Hne). unfold apart in *. lia.
  - intros c Hal. destruct (exec_consistent foreign c s L Hr Hal) as (s' & L' & E & _). eauto.
Qed.

(** C13: [mymalloc] with a size whose sum with the header does not wrap around
    returns; it gives null when the system refuses the pages, without touching any
    object, or an aligned and accessible object of at least [size] bytes, a block
    of the smallest arena that is large enough or pages of its own, that overlaps
    no object there was; the other objects keep their bytes. *)
Theorem mymalloc_correct {os : Os} (foreign : Z -> bool) s h size :
  heap_ok foreign 0 s h -> 0 <= size < 2 ^ 64 - sizeof_header ->
  exists pt s', mymalloc size s = Done (pt, s') /\ keeps h s s' /\
    ((pt = 0 /\ (exists len, os_mmap (mapped s) len = None) /\ heap_ok foreign 0 s' h) \/
     (exists h' k, heap_ok foreign 0 s' h' /\ grows h h' pt k /\ chosen size k /\ size <= usable k /\
        pt mod 16 = 0 /\ accessible s' pt (usable k) = true /\
        forall b kb, live h b kb -> apart pt (usable k) b (usable kb))).
Proof.
  intros Hok Hs. apply wp_run, (wp_mymalloc_chosen foreign size _ s h Hok); [unfold sizeof_header in Hs; lia|].
  intros pt s' [Hk [Hnull|(h' & k & Hok' & Hg & Hch)]]; (split; [done|]); [by left|right].
  pose proof (grows_live _ _ _ _ Hg) as Hl. pose proof (live_pos foreign 0 s' h' pt k Hok' Hl) as (_ & Hpos & _).
  exists h', k. split; [done|]. split; [done|]. split; [done|].
  split; [by apply (chosen_fits size k)|]. split; [by apply (live_aligned foreign 0 s' h' pt k)|].
  split; [by apply (live_accessible foreign 0 s' h' pt k)|].
  intros b kb Hb. by apply (grows_apart foreign 0 s' h h').
Qed.

(** [myfree] of an object that [mymalloc] gave returns, takes exactly this
    object from the heap, gives a page back or keeps it as idle page when its last
    block is free, and leaves the bytes of the other objects alone. *)
Theorem myfree_correct {os : Os} (foreign : Z -> bool) s h b k :
  heap_ok foreign 0 s h -> live h b k -> freeable k ->
  exists s' h', myfree b s = Done (tt, s') /\ heap_ok foreign 0 s' h' /\ shrinks h h' b /\ keeps h' s s'.
Proof.
  intros Hok Hb Hf.
  assert (wp (myfree b) (fun _ s' => exists h', heap_ok foreign 0 s' h' /\ shrinks h h' b /\ keeps h' s s') s) as Hw.
  { apply (wp_myfree foreign b k _ s h Hok Hb Hf). eauto. }
  apply wp_run in Hw as ([] & s' & E & h' & H). eauto.
Qed.

(** C14: [myrealloc] of an object returns the object itself when the size fits in
    it, null without an effect when the system refuses pages, or a new object that
    is large enough, with the bytes of the old one, which is released; all other
    objects keep their bytes. *)
Theorem myrealloc_correct {os : Os} (foreign : Z -> bool) s h b kb size :
  heap_ok foreign 0 s h -> live h b kb -> freeable kb -> 0 <= size < 2 ^ 64 - sizeof_header ->
  exists pt s', myrealloc b size s = Done (pt, s') /\
    ((pt = b /\ s' = s /\ size <= usable kb) \/
     (pt = 0 /\ (exists len, os_mmap (mapped s) len = None) /\ heap_ok foreign 0 s' h /\ keeps h s s') \/
     (exists h' k, pt <> 0 /\ heap_ok foreign 0 s' h' /\ moved s s' h h' b kb pt k /\ fits size k /\
        ~ (exists k', live h pt k'))).
Proof. intros Hok Hb Hf Hs. apply wp_run, (wp_myrealloc foreign b kb size _ s h Hok Hb Hf Hs). done. Qed.


(** [calloc] multiplies its arguments without looking at the overflow: when
    the product is a little above a multiple of [2^64], it succeeds with a block of
    at most 1024 bytes, less than was asked for. *)
Theorem calloc_overflows {os : Os} (foreign : Z -> bool) s h nmemb size :
  heap_ok foreign 0 s h -> 2 ^ 64 <= nmemb * size -> u64 (nmemb * size) <= 1024 ->
  exists pt s', calloc nmemb size s = Done (pt, s') /\
    (pt <> 0 -> exists h' k, heap_ok foreign 0 s' h' /\ grows h h' pt k /\ usable k <= 1024 /\ usable k < nmemb * size).
Proof.
  intros Hok Hbig Hr. apply wp_run. unfold calloc. pose proof (u64_range (nmemb * size)) as Hu.
  set (n := u64 (nmemb * size)) in *. cbn zeta. mstep.
  apply (wp_mymalloc_chosen foreign n _ s h Hok); [lia|].
  intros pt s' [Hk [(-> & _)|(h' & k & Hok' & Hg & Hch)]]; [simpl; do 3 mstep; done|].
  pose proof (grows_live _ _ _ _ Hg) as Hl. pose proof (live_pos foreign 0 s' h' pt k Hok' Hl) as Hpos.
  assert ((pt =? 0) = false) as -> by (apply Z.eqb_neq; lia). simpl. mstep.
  unfold chosen in Hch. assert ((1024 <? n) = false) as E by (apply Z.ltb_ge; lia). rewrite E in Hch.
  destruct Hch as (i & -> & Hi & Hsz & _).
  assert (usable (Small i) <= 1024) by (simpl; geometry i Hi; lia).
  apply (wp_fill_object foreign pt (Small i) 0 n _ s' h'); [done|done|simpl; lia|].
  intros Hok2. mstep. intros _. exists h', (Small i).
  split; [done|]. split; [done|]. lia.
Qed.

(** [calloc] whose product does not wrap around gives null or a fresh object
    whose first [nmemb * size] bytes are zero. *)
Theorem calloc_correct {os : Os} (foreign : Z -> bool) s h nmemb size :
  heap_ok foreign 0 s h -> 0 <= nmemb * size < 2 ^ 64 - sizeof_header ->
  exists pt s', calloc nmemb size s = Done (pt, s') /\
    alloc_post foreign s h (fits (nmemb * size)) pt s' /\
    (pt <> 0 -> forall i, 0 <= i < nmemb * size -> ibyte (mem s') (pt + i) = 0).
Proof. intros Hok Hs. apply wp_run, (wp_calloc foreign nmemb size _ s h Hok Hs). done. Qed.

(** [myfree] of an address in a page that does not have the magic number of the
    allocator aborts the program. *)
Theorem myfree_aborts {os : Os} s pt :
  pt <> 0 -> accessible s (block_to_page pt + h_magic) 2 = true ->
  ld 2 (mem s) (block_to_page pt + h_magic) <> MAGIC -> myfree pt s = AssertFail.
Proof.
  intros Hpt Hacc Hm. unfold myfree. rewrite (proj2 (Z.eqb_neq pt 0) Hpt). cbn zeta.
  erewrite bind_done by (unfold load; rewrite Hacc; reflexivity). by rewrite (proj2 (Z.eqb_neq _ _) Hm).
Qed.

(** *** The destructor *)

(** Pages kept by the arenas before number [n]. *)
Definition idle_before (s : mstate) (n : Z) (q : Z) : Prop :=
  exists i a, Z.of_nat i < n /\ caches s !! i = Some a /\ idlepage a <> 0 /\ q = idlepage a / PGSIZE.

(** [malloc_fini], which runs when the program exits, unmaps the idle pages of
    the arenas and no other page. *)
Theorem malloc_fini_unmaps {os : Os} (foreign : Z -> bool) s h :
  heap_ok foreign 0 s h ->
  exists s', malloc_fini s = Done (tt, s') /\ mem s' = mem s /\ caches s' = caches s /\
    forall q, mapped s' q = true <-> mapped s q = true /\ ~ idle_before s 7 q.
Proof.
  intros Hok. unfold malloc_fini. apply (wp_result _ _ tt). eapply (wp_for (fun n s' =>
    mem s' = mem s /\ caches s' = caches s /\ forall q, mapped s' q = true <-> mapped s q = true /\ ~ idle_before s n q)).
  - split; [done|]. split; [done|]. intros q. split; [|tauto]. intros Hq. split; [done|].
    intros (i & a & Hi & _). lia.
  - intros n s' Hn (Hm & Hca & Hmap). unfold ncaches in Hn. simpl in Hn.
    destruct (arena_exists foreign 0 s h (Z.to_nat n) Hok) as [a Ha]; [unfold ncaches; lia|].
    mstep. apply (wp_get_arena (Z.to_nat n) a); [by rewrite Hca|].
    assert (forall q, idle_before s (n + 1) q <-> idle_before s n q \/ (idlepage a <> 0 /\ q = idlepage a / PGSIZE)) as Hnext.
    { intros q. unfold idle_before. split.
      - intros (i & b & Hi & Hb & Hid & Hq). destruct (decide (Z.of_nat i = n)) as [E|]; [|left; exists i, b; repeat split; try done; lia].
        right. assert (i = Z.to_nat n) as -> by lia. rewrite Ha in Hb. injection Hb as <-. done.
      - intros [(i & b & Hi & Hb)|[Hid ->]]; [exists i, b; split; [lia | done]|].
        exists (Z.to_nat n), a. repeat split; try done. lia. }
    destruct (Z.eqb_spec (idlepage a) 0) as [Hid|Hid]; simpl.
    + apply wp_ret. split; [done|]. split; [done|]. intros q. rewrite Hmap, Hnext. tauto.
    + destruct (r_arena _ _ _ _ Hok _ _ Ha) as (_ & _ & H3). destruct (H3 Hid) as (fl & Hp & _).
      pose proof (r_map _ _ _ _ Hok _ _ Hp) as (Hp0 & Hpm & _). unfold wp, free_page, munmap.
      rewrite u64_id by (unfold PGSIZE; lia). rewrite Hpm. simpl. split; [done|]. split; [done|].
      intros q. rewrite andb_true_iff, negb_true_iff, andb_false_iff, !Z.leb_gt, Hmap, Hnext.
      unfold PGSIZE in *. replace ((idlepage a + 1 * 4096 - 1) / 4096) with (idlepage a / 4096) by dlia.
      split; [intros [[? ?] ?]; split; [done|]; intros [?|[_ ->]]; [done|lia]|].
      intros [? Hno]. split; [tauto|]. destruct (decide (q = idlepage a / 4096)); [tauto|lia].
  - intros s' (Hm & Hca & Hmap). done.
Qed.

(** ** A concrete system

    Pages are taken from the first free place of a small address space. *)
Definition demo_mmap (mapped : Z -> bool) (len : Z) : option Z :=
  if (0 <? len) && (len <=? 2 ^ 30) then
    match list_find (fun k => forallb (fun q => negb (mapped q)) (pages_of (k * PGSIZE) len) = true) (seqZ 16 64) with
    | Some (_, k) => Some (k * PGSIZE)
    | None => None
    end
  else None.

Lemma demo_mmap_ok mapped len p : demo_mmap mapped len = Some p ->
  0 < len /\ 0 < p /\ p mod PGSIZE = 0 /\ p + len <= 2 ^ 47 /\
  (forall q, p <= q < p + len -> mapped (q / PGSIZE) = false).
Proof.
  unfold demo_mmap. destruct ((0 <? len) && (len <=? 2 ^ 30)) eqn:E; [|done].
  apply andb_true_iff in E as [Hl%Z.ltb_lt Hu%Z.leb_le].
  destruct (list_find _ _) as [[i k]|] eqn:Ef; [|done]. intros [= <-].
  apply list_find_Some in Ef as (Hk & Hall & _). apply lookup_seqZ in Hk as [-> Hk].
  unfold PGSIZE in *. repeat split; [done|lia|by rewrite Z.mod_mul|lia|].
  intros q Hq. rewrite forallb_forall in Hall. apply negb_true_iff, Hall, list_elem_of_In.
  unfold pages_of, PGSIZE. apply elem_of_seqZ. dlia.
Qed.

Definition demo_os : Os.
Proof.
  refine {| os_mmap := demo_mmap; caches_addr := 4096; debug := true |}.
  - exact demo_mmap_ok.
  - lia.
Defined.

Definition demo_start : mstate :=
  MkMem (Img (2 ^ 64) (fun _ => 0)) (fun _ => false) initial_caches 0.
Definition no_pages : Z -> bool := fun _ => false.

Lemma demo_heap : @heap_ok demo_os no_pages 0 demo_start (MkHeap ∅ (fun _ => [])).
Proof. by apply heap_ok_start. Qed.

(** The pointer a call returns. *)
Definition result {A} (o : outcome (A * mstate)) : option A :=
  match o with Done (a, _) => Some a | _ => None end.

(** A heap with an object of at least [size] bytes. *)
Lemma demo_object size :
  0 <= size < 2 ^ 64 - sizeof_header -> default 0 (result (@mymalloc demo_os size demo_start)) <> 0 ->
  exists s h b k, @heap_ok demo_os no_pages 0 s h /\ live h b k /\ fits size k.
Proof.
  intros Hs Hnz.
  assert (wp (@mymalloc demo_os size) (fun pt s' => pt <> 0 -> exists h b k,
            @heap_ok demo_os no_pages 0 s' h /\ live h b k /\ fits size k) demo_start) as Hw.
  { apply (@wp_mymalloc demo_os no_pages size _ demo_start _ demo_heap Hs).
    intros pt s' [_ [(-> & _)|(h' & k & Hok & Hg & Hf)]] Hn; [done|].
    exists h', pt, k. split; [done|]. split; [exact (grows_live _ _ _ _ Hg) | done]. }
  apply wp_run in Hw as (pt & s' & E & H). rewrite E in Hnz. exists s'. by apply H.
Qed.

Definition demo_view (c : call) : mstate * view :=
  match @exec demo_os c demo_start ∅ with Done r => r | _ => (demo_start, ∅) end.

Lemma demo_reachable c :
  allowed ∅ c -> @reachable demo_os no_pages (demo_view c).1 (demo_view c).2.
Proof.
  intros Hal. assert (@reachable demo_os no_pages demo_start ∅) as Hr by by constructor.
  destruct (@exec_consistent demo_os no_pages c demo_start ∅) as (s' & L' & E & _); [|done|].
  - by apply reachable_consistent.
  - unfold demo_view. rewrite E. simpl. by apply (reach_call no_pages demo_start ∅ c).
Qed.

Lemma allocator_safe_witness :
  size (demo_view (CMalloc 100)).2 = 1%nat /\
  exists s' L', @exec demo_os (CRealloc 69504 200) (demo_view (CMalloc 100)).1 (demo_view (CMalloc 100)).2 = Done (s', L').
Proof.
  split; [by vm_compute|].
  apply (@allocator_safe demo_os no_pages _ _ (demo_reachable (CMalloc 100) ltac:(simpl; unfold sizeof_header; lia))).
  split; [unfold sizeof_header; lia|]. right.
  assert (from_option o_pages true ((demo_view (CMalloc 100)).2 !! 69504) = false) as H by (by vm_compute).
  destruct ((demo_view (CMalloc 100)).2 !! 69504) as [o|] eqn:E; [|done].
  exact (ex_intro _ o (conj E H)).
Defined.

Lemma mymalloc_correct_witness :
  result (@mymalloc demo_os 100 demo_start) = Some 69504 /\
  exists pt s', @mymalloc demo_os 100 demo_start = Done (pt, s') /\
    keeps (MkHeap ∅ (fun _ => [])) demo_start s'.
Proof.
  split; [by vm_compute|].
  destruct (@mymalloc_correct demo_os no_pages demo_start _ 100 demo_heap ltac:(unfold sizeof_header; lia))
    as (pt & s' & E & Hk & _). eauto.
Defined.

Lemma myfree_correct_witness :
  exists s h b k s' h', @heap_ok demo_os no_pages 0 s h /\ live h b k /\
    @myfree demo_os b s = Done (tt, s') /\ @heap_ok demo_os no_pages 0 s' h' /\ shrinks h h' b.
Proof.
  destruct (demo_object 100) as (s & h & b & k & Hok & Hl & Hf & Hfk); [unfold sizeof_header; lia | by vm_compute|].
  destruct (@myfree_correct demo_os no_pages s h b k Hok Hl Hfk) as (s' & h' & E & Hok' & Hsh & _).
  by exists s, h, b, k, s', h'.
Defined.

Lemma myrealloc_correct_witness :
  exists s h b k pt s', @heap_ok demo_os no_pages 0 s h /\ live h b k /\
    @myrealloc demo_os b 5000 s = Done (pt, s').
Proof.
  destruct (demo_object 100) as (s & h & b & k & Hok & Hl & Hf & Hfk); [unfold sizeof_header; lia | by vm_compute|].
  destruct (@myrealloc_correct demo_os no_pages s h b k 5000 Hok Hl Hfk ltac:(unfold sizeof_header; lia)) as (pt & s' & E & _).
  by exists s, h, b, k, pt, s'.
Defined.


Lemma calloc_overflows_witness :
  result (@calloc demo_os (2 ^ 60) 16 demo_start) = Some 69616 /\
  exists pt s', @calloc demo_os (2 ^ 60) 16 demo_start = Done (pt, s').
Proof.
  split; [by vm_compute|].
  destruct (@calloc_overflows demo_os no_pages demo_start _ (2 ^ 60) 16 demo_heap ltac:(lia) ltac:(by vm_compute))
    as (pt & s' & E & _). eauto.
Defined.

Lemma calloc_correct_witness :
  exists pt s', @calloc demo_os 10 8 demo_start = Done (pt, s') /\
    (pt <> 0 -> forall i, 0 <= i < 10 * 8 -> ibyte (mem s') (pt + i) = 0).
Proof.
  destruct (@calloc_correct demo_os no_pages demo_start _ 10 8 demo_heap ltac:(unfold sizeof_header; lia))
    as (pt & s' & E & _ & Hz). eauto.
Defined.

Lemma myfree_aborts_witness :
  @myfree demo_os 8208 (MkMem (Img (2 ^ 64) (fun _ => 0)) (fun q => q =? 2) initial_caches 0) = AssertFail.
Proof. apply (@myfree_aborts demo_os); [done | by vm_compute | by vm_compute]. Defined.

Lemma malloc_fini_unmaps_witness :
  exists s', @malloc_fini demo_os demo_start = Done (tt, s') /\ mem s' = mem demo_start.
Proof.
  destruct (@malloc_fini_unmaps demo_os no_pages demo_start _ demo_heap) as (s' & E & Hm & _). eauto.
Defined.
