(* ===== verification/MallocRoom.v ===== *)
(** * How many pages the allocator maps

    A system whose page limit is not reached grants a page.  An allocation of a small
    object maps one page at most and [free] maps none, so that a client that starts
    with room for [n] pages never gets null from its next [n] small allocations. *)
From Stdlib Require Import ZArith Lia.
From stdpp Require Import base tactics list numbers list_numbers strings gmap.
From S2P Require Import Prelude Memory Malloc MallocRep MallocSpec MallocHeap MallocArena MallocFree MallocTheorems MallocClient MallocClaims.
Open Scope Z_scope.

(** [c] maps [n] pages at most. *)
Definition adds {A} (n : nat) (c : cmd mstate A) : Prop :=
  forall s a s', c s = Done (a, s') -> exists l : list Z, (length l <= n)%nat /\ forall q, mapped s' q = true -> mapped s q = true \/ q ∈ l.

Lemma adds_ret {A} (a : A) : adds 0 (mret a : cmd mstate A).
Proof. intros s b s' [= _ <-]. exists []. split; [done|]. by left. Qed.
Lemma adds_bind {A B} n m (c : cmd mstate A) (k : A -> cmd mstate B) : adds n c -> (forall a, adds m (k a)) -> adds (n + m) (c ≫= k).
Proof.
  intros Hc Hk s b s' H. unfold mbind, cmd_bind in H. destruct (c s) as [[a s1]| | |] eqn:E; try done.
  destruct (Hc _ _ _ E) as (l1 & H1 & Hl1). destruct (Hk _ _ _ _ H) as (l2 & H2 & Hl2). exists (l1 ++ l2). rewrite length_app. split; [lia|].
  intros q Hq. rewrite elem_of_app. destruct (Hl2 q Hq) as [Hq'|]; [|tauto]. destruct (Hl1 q Hq'); tauto.
Qed.
Lemma adds_more {A} n m (c : cmd mstate A) : adds n c -> (n <= m)%nat -> adds m c.
Proof. intros Hc Hle s a s' E. destruct (Hc _ _ _ E) as (l & Hl & H). exists l. split; [lia | done]. Qed.
Lemma adds_same {A} (c : cmd mstate A) : (forall s a s', c s = Done (a, s') -> mapped s' = mapped s) -> adds 0 c.
Proof. intros H s a s' E. exists []. split; [done|]. intros q Hq. rewrite (H _ _ _ E) in Hq. by left. Qed.

Lemma adds_bind0 {A B} (c : cmd mstate A) (k : A -> cmd mstate B) : adds 0 c -> (forall a, adds 0 (k a)) -> adds 0 (c ≫= k).
Proof. by apply (adds_bind 0 0). Qed.
Lemma adds_load n a : adds 0 (load n a).
Proof. apply adds_same. intros s b s'. unfold load. destruct (accessible s a n); [|done]. by intros [= _ <-]. Qed.
Lemma adds_store n a v : adds 0 (store n a v).
Proof. apply adds_same. intros s b s'. unfold store. destruct (accessible s a n); [|done]. by intros [= _ <-]. Qed.
Lemma adds_update f : (forall s, mapped (f s) = mapped s) -> adds 0 (update f).
Proof. intros H. apply adds_same. intros s b s'. unfold update. intros [= _ <-]. apply H. Qed.
Lemma adds_assert b : adds 0 (c_assert b : cmd mstate unit).
Proof. apply adds_same. intros s a s'. unfold c_assert. destruct b; [|done]. by intros [= _ <-]. Qed.
Lemma adds_diverge {A} : adds 0 (c_diverge : cmd mstate A).
Proof. by intros s a s'. Qed.
Lemma adds_abort {A} : adds 0 (c_abort : cmd mstate A).
Proof. by intros s a s'. Qed.
Create HintDb adds.
#[export] Hint Resolve adds_abort adds_ret adds_load adds_store adds_assert adds_diverge : adds.
Ltac adds :=
  repeat first
    [ progress intros
    | solve [eauto with adds]
    | apply adds_update; done
    | apply adds_bind0
    | match goal with |- adds _ (match ?x with _ => _ end) => destruct x end ].

Section Room.
Context {os : Os}.

Lemma adds_MyAssert b : adds 0 (MyAssert b).
Proof. unfold MyAssert. destruct debug; adds. Qed.
Lemma adds_get_arena are : adds 0 (get_arena are).
Proof. apply adds_same. intros s a s'. unfold get_arena. destruct (caches s !! _); [|done]. destruct (are =? _); [|done]. by intros [= _ <-]. Qed.
Lemma adds_put_arena are a : adds 0 (put_arena are a).
Proof. unfold put_arena. apply adds_bind0; [apply adds_get_arena|]. adds. Qed.
#[local] Hint Resolve adds_MyAssert adds_get_arena adds_put_arena : adds.
Lemma adds_set_freelist are p : adds 0 (set_freelist are p).
Proof. unfold set_freelist. adds. Qed.
Lemma adds_set_idlepage are p : adds 0 (set_idlepage are p).
Proof. unfold set_idlepage. adds. Qed.
Lemma adds_free_page p n : adds 0 (free_page p n).
Proof.
  intros s a s'. unfold free_page, munmap. destruct (_ && _); intros [= _ <-]; exists []; (split; [done|]); [|by left].
  intros q [Hq _]%andb_true_iff. by left.
Qed.
#[local] Hint Resolve adds_set_freelist adds_set_idlepage adds_free_page : adds.
Lemma adds_freelist_init fl : adds 0 (freelist_init fl).
Proof. unfold freelist_init. adds. Qed.
Lemma adds_freelist_free fl b : adds 0 (freelist_free fl b).
Proof. unfold freelist_free. adds. Qed.
#[local] Hint Resolve adds_freelist_init adds_freelist_free : adds.
Lemma adds_skip_header fuel : forall b o, adds 0 (skip_header fuel b o).
Proof. induction fuel as [|fuel IH]; intros b o; cbn [skip_header]; adds. Qed.
Lemma adds_carve fuel : forall p b o, adds 0 (carve fuel p b o).
Proof. induction fuel as [|fuel IH]; intros p b o; cbn [carve]; adds. Qed.
#[local] Hint Resolve adds_skip_header adds_carve : adds.
Lemma adds_page_header_init are p : adds 0 (page_header_init are p).
Proof. unfold page_header_init. adds. Qed.
Lemma adds_find_arena fuel : forall are size, adds 0 (find_arena fuel are size).
Proof. induction fuel as [|fuel IH]; intros are size; cbn [find_arena]; adds. Qed.
#[local] Hint Resolve adds_page_header_init adds_find_arena : adds.

(** One page. *)
Lemma adds_alloc_page : adds 1 (alloc_page 1).
Proof.
  unfold alloc_page. apply (adds_bind 0 1); [adds|]. intros _. apply (adds_bind 1 0); [|adds].
  intros s a s'. unfold mmap. change (u64 (1 * PGSIZE)) with PGSIZE. destruct (os_mmap (mapped s) PGSIZE) as [p|] eqn:E.
  - intros [= _ <-]. apply os_mmap_ok in E as (_ & Hp & Hm & _). exists [p / PGSIZE]. split; [done|]. intros q Hq. cbn in Hq.
    apply orb_true_iff in Hq as [Hq|Hq]; [right | by left]. apply list_elem_of_singleton. unfold PGSIZE in *. dlia.
  - intros [= _ <-]. exists []. split; [simpl; lia|]. by left.
Qed.
Lemma adds_arena_alloc are : adds 1 (arena_alloc are).
Proof.
  unfold arena_alloc. apply (adds_bind 0 1); [adds|]. intros a. assert (adds 0 (arena_pop are)) as Hpop by (unfold arena_pop; adds).
  destruct (freelist a =? 0); [|by apply (adds_more 0); [|lia]].
  apply (adds_bind 1 0).
  - unfold arena_page. apply (adds_bind 0 1); [adds|]. intros b. destruct (idlepage b =? 0); [|apply (adds_more 0); [adds|lia]].
    apply (adds_bind 1 0); [apply adds_alloc_page | adds].
  - intros ok. unfold arena_seize. adds.
Qed.
Lemma adds_mymalloc size : size <= 1024 -> adds 1 (mymalloc size).
Proof.
  intros Hs. unfold mymalloc. rewrite (proj2 (Z.ltb_ge 1024 size)) by lia. apply (adds_bind 0 1); [adds|]. intros are. apply adds_arena_alloc.
Qed.
Lemma adds_myfree p : adds 0 (myfree p).
Proof. unfold myfree, arena_add_idle, block_to_page. adds. Qed.

(** A small allocation gives null only when the system refuses a page. *)
Lemma wp_small foreign size (Q : Z -> mstate -> Prop) s h :
  heap_ok foreign 0 s h -> 0 <= size <= 1024 ->
  (forall s', os_mmap (mapped s) PGSIZE = None -> Q 0 s') ->
  (forall pt s' h' i, heap_ok foreign 0 s' h' -> grows h h' pt (Small i) -> keeps h s s' -> Q pt s') ->
  wp (mymalloc size) Q s.
Proof.
  intros Hok Hs HN HQ. unfold mymalloc. rewrite (proj2 (Z.ltb_ge 1024 size)) by lia. apply wp_bind.
  apply (wp_find_arena foreign 0 s h size); [done|lia|unfold ncaches; lia|lia|]. intros i Hi _ _ _. apply (wp_arena_alloc foreign i _ s h Hok Hi).
  - intros s' Hmm _ _. by apply HN.
  - intros b s' h' Hok' Hg Hk. by eapply HQ.
Qed.
End Room.
