(* ===== verification/Boot.v ===== *)
(** * The boot loaders: [src/bootloader/serial.h], [mbr.c], [vmlinux.c], [bzimage.c]

    The loaders run on the bare machine: a flat 32-bit memory and port I/O.  They
    read sectors from an ATA disk through its ports, the first stage loads the
    second, and the second stage loads a kernel, as an ELF file ([vmlinux.c]) or
    as a bzImage ([bzimage.c]), and jumps to it. *)
From Stdlib Require Import ZArith Lia.
From stdpp Require Import base tactics list numbers list_numbers strings.
From S2P Require Import Prelude Memory.
Open Scope Z_scope.

(** ** The machine *)

(** Port I/O.  [D] is the state of the devices behind the ports. *)
Class Ports (D : Type) : Type := {
  port_in8 : Z -> D -> Z * D;
  port_in32 : Z -> D -> Z * D;
  port_in16 : Z -> D -> Z * D;
  port_out8 : Z -> Z -> D -> D;
  port_out16 : Z -> Z -> D -> D;
  port_out32 : Z -> Z -> D -> D;
}.

Record mach (D : Type) : Type := Mach { ram : image; dev : D }.
Arguments Mach {D} ram dev.
Arguments ram {D} m.
Arguments dev {D} m.

(** How a loader ends: it jumps to an address, with the values it passes, it calls
    the assembly routine [jump_to_setup], or it stops the machine. *)
Inductive ending : Type :=
| Jump (entry : Z) (passed : list Z)
| JumpToSetup (base_ptr heap_end : Z)
| Halt.

(** ** Packed structs *)

(** Bit fields of [struct SegmentDescriptor], with their widths. *)
Definition SegmentDescriptor : layout :=
  [("seg_limit_low", 16); ("base_low", 16); ("base_mid", 8); ("type", 4); ("S", 1); ("DPL", 2); ("P", 1);
   ("seg_limit_high", 4); ("AVL", 1); ("L", 1); ("DB", 1); ("G", 1); ("base_high", 8)]%string.
Definition SegmentSelector : layout := [("RPL", 2); ("TI", 1); ("Index", 13)]%string.
Definition DescriptorTable32 : layout := [("limit", 2); ("ptr", 4)]%string.
Definition DescriptorTable64 : layout := [("limit", 2); ("ptr", 8)]%string.

(** [elf.h] *)
Definition Elf32_Ehdr : layout :=
  [("e_ident", 16); ("e_type", 2); ("e_machine", 2); ("e_version", 4); ("e_entry", 4); ("e_phoff", 4);
   ("e_shoff", 4); ("e_flags", 4); ("e_ehsize", 2); ("e_phentsize", 2); ("e_phnum", 2); ("e_shentsize", 2);
   ("e_shnum", 2); ("e_shstrndx", 2)]%string.
Definition Elf64_Ehdr : layout :=
  [("e_ident", 16); ("e_type", 2); ("e_machine", 2); ("e_version", 4); ("e_entry", 8); ("e_phoff", 8);
   ("e_shoff", 8); ("e_flags", 4); ("e_ehsize", 2); ("e_phentsize", 2); ("e_phnum", 2); ("e_shentsize", 2);
   ("e_shnum", 2); ("e_shstrndx", 2)]%string.
Definition Elf32_Phdr : layout :=
  [("p_type", 4); ("p_offset", 4); ("p_vaddr", 4); ("p_paddr", 4); ("p_filesz", 4); ("p_memsz", 4);
   ("p_flags", 4); ("p_align", 4)]%string.
Definition Elf64_Phdr : layout :=
  [("p_type", 4); ("p_flags", 4); ("p_offset", 8); ("p_vaddr", 8); ("p_paddr", 8); ("p_filesz", 8);
   ("p_memsz", 8); ("p_align", 8)]%string.
Definition PT_LOAD : Z := 1.
Definition PF_X : Z := Z.shiftl 1 0.
Definition EM_X86_64 : Z := 62.

(** [bz_image.h] *)
Definition LINUX_SECTOR_SIZE : Z := 512.
Definition LOADED_HIGH : Z := Z.shiftl 1 0.
Definition setup_data : layout := [("next", 8); ("type", 4); ("len", 4)]%string.
Definition KernelHeader : layout :=
  [("unused", 0x1f1); ("setup_sects", 1); ("root_flags", 2); ("syssize", 4); ("ram_size", 2); ("vid_mode", 2);
   ("root_dev", 2); ("boot_flag", 2); ("jump", 2); ("header", 4); ("version", 2); ("realmode_swtch", 4);
   ("start_sys_seg", 2); ("kernel_version", 2); ("type_of_loader", 1); ("loadflags", 1); ("setup_move_size", 2);
   ("code32_start", 4); ("ramdisk_image", 4); ("ramdisk_size", 4); ("bootsect_kludge", 4); ("heap_end_ptr", 2);
   ("ext_loader_ver", 1); ("ext_loader_type", 1); ("cmd_line_ptr", 4); ("initrd_addr_max", 4);
   ("kernel_alignment", 4); ("relocatable_kernel", 1); ("min_alignment", 1); ("xloadflags", 2);
   ("cmdline_size", 4); ("hardware_subarch", 4); ("hardware_subarch_data", 8); ("payload_offset", 4);
   ("payload_length", 4); ("setup_data", 8); ("pref_address", 8); ("init_size", 4); ("handover_offset", 4);
   ("kernel_info_offset", 4); ("unused2", 2 * LINUX_SECTOR_SIZE - 0x26c)]%string.

(** The sizes of the structs that [__check_sizeof_int] and [__bzimage_check] assert; the
    one of the bit fields is in bits. *)
Definition __check_sizeof_int : bool :=
  (sizeof SegmentDescriptor =? 8 * 8) && (sizeof SegmentSelector =? 8 * 2) &&
  (sizeof DescriptorTable32 =? 6) && (sizeof DescriptorTable64 =? 10).
Definition __bzimage_check : bool :=
  __check_sizeof_int && (sizeof KernelHeader =? LINUX_SECTOR_SIZE * 2) &&
  (offsetof KernelHeader "boot_flag" =? 0x1fe) && (offsetof KernelHeader "kernel_info_offset" =? 0x268).
Example static_checks : __bzimage_check = true.
Proof. reflexivity. Qed.

Section Loaders.
Context {D : Type} {ports : Ports D}.
Abbreviation M := (cmd (mach D)).

(** ** [serial.h] *)

Definition SECTSIZE : Z := 512.

Definition inb (port : Z) : M Z := fun s =>
  let '(v, d) := port_in8 (u16 port) (dev s) in Done (u8 v, Mach (ram s) d).
Definition inl (port : Z) : M Z := fun s =>
  let '(v, d) := port_in32 (u16 port) (dev s) in Done (u32 v, Mach (ram s) d).
Definition outb (port data : Z) : M unit := fun s =>
  Done (tt, Mach (ram s) (port_out8 (u16 port) (u8 data) (dev s))).

Definition inw (port : Z) : M Z := fun s =>
  let '(v, d) := port_in16 (u16 port) (dev s) in Done (u16 v, Mach (ram s) d).
Definition outw (port data : Z) : M unit := fun s =>
  Done (tt, Mach (ram s) (port_out16 (u16 port) (u16 data) (dev s))).
Definition outl (port data : Z) : M unit := fun s =>
  Done (tt, Mach (ram s) (port_out32 (u16 port) (u32 data) (dev s))).

Definition COM1 : Z := 0x3f8.
Definition putch (ch : Z) : M unit := outb COM1 ch.

(** Accesses to the memory; addresses have 32 bits. *)
Definition mload (n a : Z) : M Z := fun s =>
  if in_range (ram s) (u32 a) n then Done (ld n (ram s) (u32 a), s) else Fault.
Definition mstore (n a v : Z) : M unit := fun s =>
  if in_range (ram s) (u32 a) n then Done (tt, Mach (wr (ram s) (u32 a) (le n v)) (dev s)) else Fault.

(** [while ((inb(0x1f7) & 0xc0) != 0x40);] *)
Fixpoint wait_disk (fuel : nat) : M unit :=
  match fuel with
  | O => c_diverge
  | S fuel' =>
      st ← inb 0x1f7;
      if negb (Z.land st 0xc0 =? 0x40) then wait_disk fuel' else mret tt
  end.

Definition read_disk (fuel : nat) (buf sect : Z) : M unit :=
  wait_disk fuel ;;
  outb 0x1f2 1 ;;
  outb 0x1f3 sect ;;
  outb 0x1f4 (Z.shiftr sect 8) ;;
  outb 0x1f5 (Z.shiftr sect 16) ;;
  outb 0x1f6 (Z.lor (Z.shiftr sect 24) 0xE0) ;;
  outb 0x1f7 0x20 ;;
  wait_disk fuel ;;
  c_for (Z.to_nat (SECTSIZE / 4)) 0 (fun i =>
    w ← inl 0x1f0;
    mstore 4 (buf + 4 * i) w).

(** The variant for [__BIOS__], which reads through a routine of the BIOS code. *)
Definition read_disk_bios (bios_read_disk : Z -> Z -> M unit) (buf sect : Z) : M unit :=
  let addr := if 1 * 1024 * 1024 <=? u32 buf then 0x1000 else u32 buf in
  bios_read_disk sect addr ;;
  if negb (addr =? u32 buf) then
    c_for (Z.to_nat (SECTSIZE / 4)) 0 (fun i =>
      w ← mload 4 (addr + 4 * i);
      mstore 4 (buf + 4 * i) w)
  else mret tt.

(** ** [mbr.c] *)
Definition __elf_start (fuel : nat) : M ending :=
  read_disk fuel 0x1200 (3 + 528) ;;
  mret (Jump 0x1200 [3 + 536]).

(** ** [vmlinux.c] *)
Definition SECTOR_DATA_START : Z := 0x1000.

Definition __k_memzero (addr size : Z) : M unit :=
  c_for (Z.to_nat size) 0 (fun i => mstore 1 (addr + i) 0).

Fixpoint readfile_loop (n fuel : nat) (dst fstart foff fsize : Z) : M unit :=
  if negb (fsize =? 0) then
    match n with
    | O => c_diverge
    | S n' =>
        let read_start := foff mod SECTSIZE in
        let sector := u32 (fstart + foff / SECTSIZE) in
        let nb := SECTSIZE - read_start in
        let nb := if fsize <? nb then fsize else nb in
        read_disk fuel SECTOR_DATA_START sector ;;
        c_for (Z.to_nat nb) 0 (fun i =>
          b ← mload 1 (SECTOR_DATA_START + (i + read_start));
          mstore 1 (dst + i) b) ;;
        readfile_loop n' fuel (dst + nb) fstart (u32 (foff + nb)) (u32 (fsize - nb))
    end
  else mret tt.

Definition __k_readfile (fuel : nat) (addr fstart foff fsize : Z) : M unit :=
  readfile_loop (S (Z.to_nat fsize)) fuel addr fstart foff fsize.

(** A field of a struct inside the array [data] of 512 bytes; [off] is the place
    of the struct in the array. *)
Definition data_field (data off : Z) (l : layout) (f : string) : M Z :=
  if off + offsetof l f + sizeof_field l f <=? 512
  then mload (sizeof_field l f) (data + off + offsetof l f) else c_fault.

(** The body of the loop over the program headers; [data] is the address of the
    local array. *)
Definition load_segment (fuel : nat) (data sector phoff i : Z) : M unit :=
  let off := u32 (phoff + i * sizeof Elf64_Phdr) in
  read_disk fuel data (u32 (sector + off / SECTSIZE)) ;;
  let phdr := off mod SECTSIZE in
  p_type ← data_field data phdr Elf64_Phdr "p_type";
  if negb (Z.land p_type PT_LOAD =? 0) then
    p_paddr ← data_field data phdr Elf64_Phdr "p_paddr";
    p_offset ← data_field data phdr Elf64_Phdr "p_offset";
    p_filesz ← data_field data phdr Elf64_Phdr "p_filesz";
    __k_readfile fuel (u32 p_paddr) sector (u32 p_offset) (u32 p_filesz) ;;
    p_paddr ← data_field data phdr Elf64_Phdr "p_paddr";
    p_filesz ← data_field data phdr Elf64_Phdr "p_filesz";
    p_memsz ← data_field data phdr Elf64_Phdr "p_memsz";
    __k_memzero (u32 (p_paddr + p_filesz)) (u32 (p_memsz - p_filesz))
  else mret tt.

Definition vmlinux_main (fuel : nat) (data sector : Z) : M ending :=
  read_disk fuel data sector ;;
  kernel_entry ← data_field data 0 Elf64_Ehdr "e_entry";
  phnum ← data_field data 0 Elf64_Ehdr "e_phnum";
  phoff ← data_field data 0 Elf64_Ehdr "e_phoff";
  c_for (Z.to_nat phnum) 0 (load_segment fuel data sector (u32 phoff)) ;;
  mret (Jump (u32 kernel_entry) []).

(** ** [bzimage.c] *)
Definition LINUX_CMD_LINE : list Z :=
  c_str "init=/init trace_clock=local console=ttyS0 earlyprintk root=/dev/sda1 rw".
Definition code16 : list Z :=
  [0x31; 0xc0; 0x05; 0x00; 0x02; 0x8e; 0xd8; 0x8e; 0xd0; 0x8e; 0xc0; 0x8e; 0xe0; 0x8e; 0xe8; 0x31; 0xc0; 0xff; 0xe0].
Definition message : list Z := c_str "DIE!".

Definition die : M ending :=
  c_foreach message 0 (fun _ c => putch c) ;; mret Halt.

Definition khdr_get (khdr : Z) (f : string) : M Z :=
  mload (sizeof_field KernelHeader f) (khdr + offsetof KernelHeader f).
Definition khdr_set (khdr : Z) (f : string) (v : Z) : M unit :=
  mstore (sizeof_field KernelHeader f) (khdr + offsetof KernelHeader f) v.

(** The sectors [i], ..., [i + n - 1] of the image, to consecutive addresses. *)
Definition load_sectors (fuel : nat) (sector load_addr i : Z) (n : nat) : M unit :=
  c_for n 0 (fun j => read_disk fuel (load_addr + LINUX_SECTOR_SIZE * j) (u32 (sector + (i + j)))).

(** What the loader writes to the header and to the memory behind it. *)
Definition boot_params (load_start : Z) : M unit :=
  khdr_set load_start "type_of_loader" 0xFF ;;
  let heap_end := 0x10000 in
  khdr_set load_start "heap_end_ptr" (heap_end - 0x200) ;;
  loadflags ← khdr_get load_start "loadflags";
  khdr_set load_start "loadflags" (Z.lor loadflags 0x80) ;;
  c_foreach LINUX_CMD_LINE 0 (fun i c => mstore 1 (load_start + heap_end + i) c) ;;
  mstore 1 (load_start + heap_end + Z.of_nat (length LINUX_CMD_LINE)) 0 ;;
  khdr_set load_start "cmd_line_ptr" (load_start + heap_end) ;;
  c_foreach code16 0 (fun i c => mstore 1 (load_start + 0x8000 + i) c).

Definition bzimage_main (fuel : nat) : M ending :=
  let sector := 539 in
  let load_start := 0x2000 in
  read_disk fuel load_start sector ;;
  read_disk fuel (load_start + LINUX_SECTOR_SIZE) (sector + 1) ;;
  setup_sects ← khdr_get load_start "setup_sects";
  let setup_sects := if setup_sects =? 0 then 4 else setup_sects in
  let setup_sects := u8 (setup_sects + 1) in
  boot_flag ← khdr_get load_start "boot_flag";
  header ← khdr_get load_start "header";
  if negb (boot_flag =? 0xaa55) || negb (header =? 0x53726448) then die else
  load_sectors fuel sector (load_start + LINUX_SECTOR_SIZE * 2) 2 (Z.to_nat (setup_sects - 2)) ;;
  syssize ← khdr_get load_start "syssize";
  let img_size := u32 (setup_sects * LINUX_SECTOR_SIZE + u32 (syssize * 16)) in
  protocol ← khdr_get load_start "version";
  loadflags ← khdr_get load_start "loadflags";
  if (Z.land loadflags LOADED_HIGH =? 0) || (protocol <? 0x0202) then die else
  load_sectors fuel sector 0x100000 setup_sects (Z.to_nat (img_size / LINUX_SECTOR_SIZE - setup_sects)) ;;
  boot_params load_start ;;
  mret (JumpToSetup load_start 0x10000).

(** The entry point of the second stage ([bzimage.S]): the boot sector has loaded
    one of its sectors, it loads the other itself. *)
Definition loader_start (fuel : nat) : M ending :=
  read_disk fuel 0x1400 532 ;; bzimage_main fuel.
(** The same for the ELF loader ([vmlinux.S]). *)
Definition vmlinux_start (fuel : nat) (data : Z) : M ending :=
  read_disk fuel 0x1400 532 ;; vmlinux_main fuel data 539.
End Loaders.
