(* ===== verification/BootDisk.v ===== *)
(** * The ATA disk behind the ports, and [read_disk]

    [AtaDisk] states what the loaders rely on: the registers of an ATA channel in
    PIO mode as far as the command READ SECTORS with a 28-bit sector address needs
    them.  Everything the loaders do is proved against this interface;
    [sim_disk] is a device that has it. *)
From Stdlib Require Import ZArith Lia.
From stdpp Require Import base tactics list numbers list_numbers strings.
From S2P Require Import Prelude Memory Boot.
Open Scope Z_scope.

(** ** The interface *)

(** What can be observed of the channel: how many times the status will still be
    busy, the task file registers and the words that can be read. *)
Record ata : Type := Ata {
  a_wait : nat; a_count : Z; a_lba0 : Z; a_lba1 : Z; a_lba2 : Z; a_drive : Z; a_queue : list Z }.

Definition set_wait (n : nat) (a : ata) : ata :=
  Ata n (a_count a) (a_lba0 a) (a_lba1 a) (a_lba2 a) (a_drive a) (a_queue a).
Definition set_queue (q : list Z) (a : ata) : ata :=
  Ata (a_wait a) (a_count a) (a_lba0 a) (a_lba1 a) (a_lba2 a) (a_drive a) q.
Definition set_reg (r v : Z) (a : ata) : ata :=
  Ata (a_wait a)
      (if r =? 0x1f2 then v else a_count a) (if r =? 0x1f3 then v else a_lba0 a)
      (if r =? 0x1f4 then v else a_lba1 a) (if r =? 0x1f5 then v else a_lba2 a)
      (if r =? 0x1f6 then v else a_drive a) (a_queue a).

(** The sector the registers address. *)
Definition a_lba (a : ata) : Z :=
  a_lba0 a + 2 ^ 8 * a_lba1 a + 2 ^ 16 * a_lba2 a + 2 ^ 24 * Z.land (a_drive a) 0xf.

(** The words of sector [n]. *)
Definition sector_words (disk : image) (n : Z) : list Z :=
  (fun i => ld 4 disk (SECTSIZE * n + 4 * i)) <$> seqZ 0 128.

Class AtaDisk (D : Type) {ports : Ports D} (disk : image) : Type := {
  ata_view : D -> ata;
  max_wait : nat;
  disk_bytes : image_wf disk;
  ata_finite : forall d, (a_wait (ata_view d) <= max_wait)%nat;
  ata_busy : forall d n v d', port_in8 0x1f7 d = (v, d') -> a_wait (ata_view d) = S n ->
    is_byte v /\ Z.land v 0xc0 <> 0x40 /\ ata_view d' = set_wait n (ata_view d);
  ata_ready : forall d v d', port_in8 0x1f7 d = (v, d') -> a_wait (ata_view d) = O ->
    is_byte v /\ Z.land v 0xc0 = 0x40 /\ ata_view d' = ata_view d;
  ata_register : forall d r v, 0x1f2 <= r <= 0x1f6 -> is_byte v -> a_wait (ata_view d) = O ->
    ata_view (port_out8 r v d) = set_reg r v (ata_view d);
  ata_read : forall d, a_wait (ata_view d) = O -> a_count (ata_view d) = 1 ->
    Z.land (a_drive (ata_view d)) 0xe0 = 0xe0 ->
    exists n, ata_view (port_out8 0x1f7 0x20 d) =
      set_queue (sector_words disk (a_lba (ata_view d))) (set_wait n (ata_view d));
  ata_data : forall d w q v d', port_in32 0x1f0 d = (v, d') -> a_wait (ata_view d) = O ->
    a_queue (ata_view d) = w :: q -> v = w /\ ata_view d' = set_queue q (ata_view d);
}.

(** ** Writing a range of the memory *)

(** [m'] is [m] with the [n] bytes at [a] replaced by [f 0], [f 1], ... *)
Definition put (m : image) (a n : Z) (f : Z -> Z) (m' : image) : Prop := m' ≡ splice m a n f.

Lemma put_byte m a n f m' x : put m a n f m' ->
  ibyte m' x = if (a <=? x) && (x <? a + n) then f (x - a) else ibyte m x.
Proof. intros [_ H]. by rewrite H, ibyte_splice. Qed.

Lemma put_size m a n f m' : put m a n f m' -> isize m' = isize m.
Proof. by intros [H _]. Qed.

Lemma put_nil m a f m' : m' = m -> put m a 0 f m'.
Proof.
  intros ->. split; [done|]. intros x. rewrite ibyte_splice.
  destruct (Z.leb_spec a x), (Z.ltb_spec x (a + 0)); simpl; done || lia.
Qed.

(** Extending a range that was written. *)
Lemma put_app m a n k f m1 m2 :
  put m a n f m1 -> 0 <= n -> 0 <= k -> put m1 (a + n) k (fun i => f (n + i)) m2 -> put m a (n + k) f m2.
Proof.
  intros H1 Hn Hk H2. split; [by rewrite (put_size _ _ _ _ _ H2), (put_size _ _ _ _ _ H1)|].
  intros x. rewrite (put_byte _ _ _ _ _ x H2), (put_byte _ _ _ _ _ x H1), ibyte_splice.
  destruct (Z.leb_spec (a + n) x), (Z.ltb_spec x (a + n + k)), (Z.leb_spec a x), (Z.ltb_spec x (a + n)),
    (Z.ltb_spec x (a + (n + k))); simpl; try lia; try done. f_equal. lia.
Qed.

Lemma put_wr m a bs f :
  (forall i, 0 <= i < Z.of_nat (length bs) -> nth (Z.to_nat i) bs 0 = f i) ->
  put m a (Z.of_nat (length bs)) f (wr m a bs).
Proof.
  intros H. split; [done|]. intros x. unfold wr. rewrite !ibyte_splice.
  destruct (Z.leb_spec a x), (Z.ltb_spec x (a + Z.of_nat (length bs))); simpl; try done. apply H. lia.
Qed.

Section Disk.
Context {D : Type} {ports : Ports D} {disk : image} {ata_disk : AtaDisk D disk}.
Abbreviation mach := (mach D).

(** ** Waiting *)

Lemma wp_wait_disk fuel (Q : unit -> mach -> Prop) s :
  (max_wait < fuel)%nat ->
  (forall d, ata_view d = set_wait O (ata_view (dev s)) -> Q tt (Mach (ram s) d)) ->
  wp (wait_disk fuel) Q s.
Proof.
  intros Hfuel HQ. pose proof (ata_finite (dev s)) as Hfin.
  assert (a_wait (ata_view (dev s)) < fuel)%nat as Hlt by lia. clear Hfuel Hfin.
  revert s HQ Hlt. induction fuel as [|fuel IH]; intros s HQ Hlt; [lia|]. simpl.
  apply wp_bind. unfold wp at 1, inb. change (u16 0x1f7) with 0x1f7.
  destruct (port_in8 0x1f7 (dev s)) as [v d] eqn:E.
  destruct (a_wait (ata_view (dev s))) as [|n] eqn:En.
  - destruct (ata_ready _ _ _ E En) as (Hb & Hv & Hview). unfold is_byte in Hb. rewrite u8_id, Hv by lia. simpl.
    apply wp_ret, HQ. rewrite Hview. destruct (ata_view (dev s)); simpl in *. by subst.
  - destruct (ata_busy _ _ _ _ E En) as (Hb & Hv & Hview). unfold is_byte in Hb. rewrite u8_id by lia.
    rewrite (proj2 (Z.eqb_neq _ _) Hv). simpl. apply IH; simpl.
    + intros d' Hd'. apply HQ. rewrite Hd', Hview. done.
    + rewrite Hview. simpl. lia.
Qed.

Lemma wp_outb_reg r v (Q : unit -> mach -> Prop) s :
  0x1f2 <= r <= 0x1f6 -> a_wait (ata_view (dev s)) = O ->
  (forall d, ata_view d = set_reg r (u8 v) (ata_view (dev s)) -> Q tt (Mach (ram s) d)) ->
  wp (outb r v) Q s.
Proof.
  intros Hr Hw HQ. unfold wp, outb. apply HQ. rewrite u16_id by lia.
  apply ata_register; [done| |done]. apply u8_range.
Qed.

Lemma wp_outb_read (Q : unit -> mach -> Prop) s :
  a_wait (ata_view (dev s)) = O -> a_count (ata_view (dev s)) = 1 ->
  Z.land (a_drive (ata_view (dev s))) 0xe0 = 0xe0 ->
  (forall d n, ata_view d = set_queue (sector_words disk (a_lba (ata_view (dev s)))) (set_wait n (ata_view (dev s))) ->
     Q tt (Mach (ram s) d)) ->
  wp (outb 0x1f7 0x20) Q s.
Proof.
  intros Hw Hc Hd HQ. unfold wp, outb. destruct (ata_read _ Hw Hc Hd) as [n Hn]. by apply (HQ _ n).
Qed.

Lemma wp_inl (Q : Z -> mach -> Prop) s w q :
  a_wait (ata_view (dev s)) = O -> a_queue (ata_view (dev s)) = w :: q ->
  (forall d, ata_view d = set_queue q (ata_view (dev s)) -> Q (u32 w) (Mach (ram s) d)) ->
  wp (inl 0x1f0) Q s.
Proof.
  intros Hw Hq HQ. unfold wp, inl. change (u16 0x1f0) with 0x1f0.
  destruct (port_in32 0x1f0 (dev s)) as [v d] eqn:E.
  destruct (ata_data _ _ _ _ _ E Hw Hq) as [-> Hv]. by apply HQ.
Qed.

(** ** Memory *)

Lemma wp_mload n a (Q : Z -> mach -> Prop) s :
  0 <= a -> 0 <= n -> a + n <= isize (ram s) <= 2 ^ 32 -> a < 2 ^ 32 -> Q (ld n (ram s) a) s -> wp (mload n a) Q s.
Proof. intros. unfold wp, mload. rewrite u32_id, in_range_true by lia. done. Qed.

Lemma wp_mstore n a v (Q : unit -> mach -> Prop) s :
  0 <= a -> 0 <= n -> a + n <= isize (ram s) <= 2 ^ 32 -> a < 2 ^ 32 ->
  Q tt (Mach (wr (ram s) a (le n v)) (dev s)) -> wp (mstore n a v) Q s.
Proof. intros. unfold wp, mstore. rewrite u32_id, in_range_true by lia. done. Qed.

(** ** Reading a sector *)

Definition sector_byte (sect i : Z) : Z := ibyte disk (SECTSIZE * sect + i).

Lemma lookup_sector_words n i :
  0 <= i < 128 -> drop (Z.to_nat i) (sector_words disk n) =
    ld 4 disk (SECTSIZE * n + 4 * i) :: drop (Z.to_nat (i + 1)) (sector_words disk n).
Proof.
  intros Hi. replace (Z.to_nat (i + 1)) with (S (Z.to_nat i)) by lia. apply drop_S.
  unfold sector_words. rewrite list_lookup_fmap, lookup_seqZ_lt by lia. simpl. do 2 f_equal. lia.
Qed.

(** The sector that the bytes of the registers address. *)
Lemma lba_of_bytes n : 0 <= n < 2 ^ 28 ->
  u8 n + 2 ^ 8 * u8 (Z.shiftr n 8) + 2 ^ 16 * u8 (Z.shiftr n 16) +
  2 ^ 24 * Z.land (u8 (Z.lor (Z.shiftr n 24) 0xE0)) 0xf = n.
Proof.
  intros Hn. rewrite !Z.shiftr_div_pow2 by lia.
  assert (Z.land (u8 (Z.lor (n / 2 ^ 24) 0xE0)) 0xf = n / 2 ^ 24) as ->.
  { assert (0 <= n / 2 ^ 24 < 16) as Hh by dlia. generalize (n / 2 ^ 24) Hh. intros h Hh'.
    assert (In h (seqZ 0 16)) as Hin by (apply list_elem_of_In, elem_of_seqZ; lia).
    clear -Hin. simpl in Hin. repeat destruct Hin as [<-|Hin]; try reflexivity. done. }
  unfold u8, wrap. dlia.
Qed.

Lemma drive_bits n : 0 <= n < 2 ^ 28 -> Z.land (u8 (Z.lor (Z.shiftr n 24) 0xE0)) 0xe0 = 0xe0.
Proof.
  intros Hn. rewrite Z.shiftr_div_pow2 by lia.
  assert (0 <= n / 2 ^ 24 < 16) as Hh by dlia. generalize (n / 2 ^ 24) Hh. intros h Hh'.
  assert (In h (seqZ 0 16)) as Hin by (apply list_elem_of_In, elem_of_seqZ; lia).
  clear -Hin. simpl in Hin. repeat destruct Hin as [<-|Hin]; try reflexivity. done.
Qed.

(** [read_disk] puts the sector at [buf]. *)
Lemma wp_read_disk fuel buf sect (Q : unit -> mach -> Prop) s :
  (max_wait < fuel)%nat -> 0 <= buf -> buf + SECTSIZE <= isize (ram s) <= 2 ^ 32 -> 0 <= sect < 2 ^ 28 ->
  (forall s', put (ram s) buf SECTSIZE (sector_byte sect) (ram s') -> Q tt s') ->
  wp (read_disk fuel buf sect) Q s.
Proof.
  intros Hfuel Hb1 Hb2 Hs HQ. unfold read_disk, SECTSIZE in *.
  apply wp_bind, wp_wait_disk; [done|]. intros d0 V0.
  apply wp_bind, wp_outb_reg; [lia|cbn [dev]; by rewrite V0|]. intros d1 V1. cbn [dev ram] in *.
  apply wp_bind, wp_outb_reg; [lia|cbn [dev]; by rewrite V1, V0|]. intros d2 V2. cbn [dev ram] in *.
  apply wp_bind, wp_outb_reg; [lia|cbn [dev]; by rewrite V2, V1, V0|]. intros d3 V3. cbn [dev ram] in *.
  apply wp_bind, wp_outb_reg; [lia|cbn [dev]; by rewrite V3, V2, V1, V0|]. intros d4 V4. cbn [dev ram] in *.
  apply wp_bind, wp_outb_reg; [lia|cbn [dev]; by rewrite V4, V3, V2, V1, V0|]. intros d5 V5. cbn [dev ram] in *.
  rewrite V4, V3, V2, V1, V0 in V5. clear d0 d1 d2 d3 d4 V0 V1 V2 V3 V4. unfold set_reg, set_wait in V5. simpl in V5.
  apply wp_bind, wp_outb_read; cbn [dev]; rewrite ?V5; [done|done|by apply drive_bits|].
  intros d6 n V6. cbn [dev ram] in *.
  assert (a_lba (ata_view d5) = sect) as El by (rewrite V5; by apply lba_of_bytes).
  rewrite V5 in El. rewrite El in V6. clear V5 El.
  apply wp_bind, wp_wait_disk; [done|]. intros d7 V7. cbn [dev ram] in *. rewrite V6 in V7.
  apply (wp_for (fun i s' => a_wait (ata_view (dev s')) = O /\
    a_queue (ata_view (dev s')) = drop (Z.to_nat i) (sector_words disk sect) /\
    put (ram s) buf (4 * i) (sector_byte sect) (ram s'))).
  - cbn [dev ram]. rewrite V7. repeat split. by apply put_nil.
  - change (Z.of_nat (Z.to_nat (512 / 4))) with 128. intros i s' Hi (Hw & Hq & Hput).
    rewrite lookup_sector_words in Hq by lia. pose proof (put_size _ _ _ _ _ Hput) as Hsz.
    apply wp_bind, (wp_inl _ _ _ _ Hw Hq). intros d Hd. rewrite u32_id.
    2: { apply (ld_range 4); [lia|apply disk_bytes]. }
    apply wp_mstore; cbn [ram dev]; [lia|lia|lia|lia|]. rewrite Hd. repeat split; cbn [set_queue a_queue a_wait]; try done.
    replace (4 * (i + 1)) with (4 * i + 4) by lia. apply (put_app _ _ _ _ _ (ram s')); [done|lia|lia|].
    unfold ld. rewrite le_unle; [|by rewrite length_rd|apply rd_bytes, disk_bytes].
    pose proof (put_wr (ram s') (buf + 4 * i) (rd disk (SECTSIZE * sect + 4 * i) 4) (fun j => sector_byte sect (4 * i + j))) as Hpw.
    rewrite length_rd in Hpw. apply Hpw. intros j Hj. rewrite rd_lookup by lia. unfold sector_byte. f_equal. lia.
  - change (0 + Z.of_nat (Z.to_nat (512 / 4))) with 128. intros s' (_ & _ & Hput). by apply HQ.
Qed.

End Disk.

(** ** A device with the interface: busy for two status reads after a command *)

Definition sim_view (d : ata) : ata := set_wait (Nat.min (a_wait d) 2) d.

Definition sim_ports (disk : image) : Ports ata := {|
  port_in8 r d :=
    if r =? 0x1f7 then
      match a_wait (sim_view d) with S n => (0x80, set_wait n d) | O => (0x40, d) end
    else (0, d);
  port_in32 r d :=
    if r =? 0x1f0 then match a_queue d with w :: q => (w, set_queue q d) | [] => (0, d) end else (0, d);
  port_in16 _ d := (0, d);
  port_out16 _ _ d := d;
  port_out32 _ _ d := d;
  port_out8 r v d :=
    if (0x1f2 <=? r) && (r <=? 0x1f6) then set_reg r v d
    else if (r =? 0x1f7) && (v =? 0x20) then set_queue (sector_words disk (a_lba d)) (set_wait 2 d)
    else d |}.

Definition sim_disk (disk : image) (Hwf : image_wf disk) : @AtaDisk ata (sim_ports disk) disk.
Proof.
  refine (@Build_AtaDisk ata (sim_ports disk) disk sim_view 2 Hwf _ _ _ _ _ _).
  - intros d. simpl. lia.
  - intros d n v d' E Hn. simpl in E. simpl in Hn. rewrite Hn in E. injection E as <- <-.
    split; [unfold is_byte; lia|]. split; [done|].
    unfold sim_view, set_wait. simpl. f_equal. lia.
  - intros d v d' E Hn. simpl in E. simpl in Hn. rewrite Hn in E. injection E as <- <-.
    split; [unfold is_byte; lia | done].
  - intros d r v Hr Hv Hw. simpl. rewrite (proj2 (Z.leb_le _ _)), (proj2 (Z.leb_le r _)) by lia. done.
  - intros d Hw Hc Hd. simpl in *. exists 2%nat. done.
  - intros d w q v d' E Hw Hq. simpl in *. rewrite Hq in E. injection E as <- <-. done.
Defined.
