(* ===== verification/BootLoad.v ===== *)
(** * Loading files and segments: the functions of [vmlinux.c] over [read_disk] *)
From Stdlib Require Import ZArith Lia.
From stdpp Require Import base tactics list numbers list_numbers strings.
From S2P Require Import Prelude Memory Boot BootDisk.
Open Scope Z_scope.

Lemma le_1 v : le 1 v = [u8 v].
Proof.
  unfold le. rewrite (Z_to_little_endian_succ 0) by lia. simpl. f_equal.
  rewrite (Z.land_ones v 8) by lia. done.
Qed.

Lemma ld_1 m a : ld 1 m a = ibyte m a.
Proof.
  unfold ld, unle, rd. change (seqZ a 1) with [0 + a]. simpl. by rewrite Z.lor_0_r.
Qed.

Definition inside (a n x : Z) : Prop := a <= x < a + n.
(** Two ranges without a common byte. *)
Definition separate (a n b k : Z) : Prop := a + n <= b \/ b + k <= a.

(** [m'] differs from [m] only in the places where [R] holds. *)
Definition changes (R : Z -> Prop) (m m' : image) : Prop :=
  isize m' = isize m /\ forall x, ~ R x -> ibyte m' x = ibyte m x.

Lemma changes_trans R m m1 m2 : changes R m m1 -> changes R m1 m2 -> changes R m m2.
Proof. intros [H1 H2] [H3 H4]. split; [congruence|]. intros x Hx. by rewrite H4, H2. Qed.

Lemma changes_mono (R R' : Z -> Prop) m m' : changes R m m' -> (forall x, R x -> R' x) -> changes R' m m'.
Proof. intros [H1 H2] H. split; [done|]. intros x Hx. apply H2. auto. Qed.

Lemma put_changes m a n f m' : put m a n f m' -> changes (inside a n) m m'.
Proof.
  intros H. split; [by apply (put_size _ _ _ _ _ H)|]. intros x Hx. rewrite (put_byte _ _ _ _ _ x H).
  unfold inside in Hx. destruct (Z.leb_spec a x), (Z.ltb_spec x (a + n)); simpl; done || lia.
Qed.

Lemma put_inside m a n f m' x : put m a n f m' -> a <= x < a + n -> ibyte m' x = f (x - a).
Proof.
  intros H Hx. rewrite (put_byte _ _ _ _ _ x H).
  destruct (Z.leb_spec a x), (Z.ltb_spec x (a + n)); simpl; done || lia.
Qed.

(** A step of a loop that writes bytes one after the other. *)
Lemma put_step m a i f m1 v :
  put m a i f m1 -> 0 <= i -> u8 v = f i -> put m a (i + 1) f (wr m1 (a + i) (le 1 v)).
Proof.
  intros H Hi Hv. apply (put_app _ _ _ _ _ m1); [done|done|lia|]. rewrite le_1.
  apply (put_wr m1 (a + i) [u8 v]). simpl. intros j Hj. assert (j = 0) as -> by lia. by rewrite Z.add_0_r.
Qed.

(** After a change elsewhere the buffer is as it was. *)
Lemma put_refl m data n f m1 m2 :
  put m data n f m1 -> isize m2 = isize m1 ->
  (forall x, inside data n x -> ibyte m2 x = ibyte m1 x) -> put m2 data n f m2.
Proof.
  intros Hp Hs Hin. split; [done|]. intros x. rewrite ibyte_splice. unfold inside in Hin.
  destruct (Z.leb_spec data x), (Z.ltb_spec x (data + n)); simpl; try done.
  rewrite Hin by lia. apply (put_inside _ _ _ _ _ _ Hp). lia.
Qed.

Section Loading.
Context {D : Type} {ports : Ports D} {disk : image} {ata_disk : AtaDisk D disk}.
Abbreviation mach := (mach D).

Lemma wp_memzero addr size (Q : unit -> mach -> Prop) s :
  0 <= addr -> 0 <= size -> addr + size <= isize (ram s) <= 2 ^ 32 ->
  (forall s', put (ram s) addr size (fun _ => 0) (ram s') -> Q tt s') -> wp (__k_memzero addr size) Q s.
Proof.
  intros Ha Hs Hr HQ. unfold __k_memzero.
  apply (wp_for (fun i s' => put (ram s) addr i (fun _ => 0) (ram s'))).
  - by apply put_nil.
  - rewrite Z2Nat.id by done. intros i s' Hi Hput. pose proof (put_size _ _ _ _ _ Hput).
    apply wp_mstore; [lia|lia|lia|lia|]. cbn [ram]. by apply put_step; [|lia|].
  - rewrite Z2Nat.id, Z.add_0_l by done. done.
Qed.

(** The bytes of the file that starts at sector [fstart]. *)
Definition file_byte (fstart j : Z) : Z := ibyte disk (SECTSIZE * fstart + j).

(** The loop that copies out of the sector buffer. *)
Lemma wp_copy_out dst start nb (Q : unit -> mach -> Prop) s :
  0 <= start -> 0 <= nb -> start + nb <= SECTSIZE -> 0 <= dst -> dst + nb <= isize (ram s) <= 2 ^ 32 ->
  SECTOR_DATA_START + SECTSIZE <= isize (ram s) -> separate dst nb SECTOR_DATA_START SECTSIZE ->
  (forall j, 0 <= j < nb -> is_byte (ibyte (ram s) (SECTOR_DATA_START + (j + start)))) ->
  (forall s', put (ram s) dst nb (fun j => ibyte (ram s) (SECTOR_DATA_START + (j + start))) (ram s') -> Q tt s') ->
  wp (c_for (Z.to_nat nb) 0 (fun i =>
        b ← mload 1 (SECTOR_DATA_START + (i + start));
        mstore 1 (dst + i) b)) Q s.
Proof.
  unfold SECTOR_DATA_START, SECTSIZE, separate. intros Hst Hnb Hsn Hd Hr Hb Hsep Hbytes HQ.
  apply (wp_for (fun i s' => put (ram s) dst i (fun j => ibyte (ram s) (0x1000 + (j + start))) (ram s'))).
  - by apply put_nil.
  - rewrite Z2Nat.id by done. intros i s' Hi Hput. pose proof (put_size _ _ _ _ _ Hput).
    apply wp_bind, wp_mload; [lia|lia|lia|lia|].
    apply wp_mstore; [lia|lia|lia|lia|]. cbn [ram]. apply put_step; [done|lia|].
    assert (ibyte (ram s') (0x1000 + (i + start)) = ibyte (ram s) (0x1000 + (i + start))) as E.
    { apply (put_changes _ _ _ _ _ Hput). unfold inside. lia. }
    rewrite ld_1, E. apply u8_id, Hbytes. lia.
  - rewrite Z2Nat.id, Z.add_0_l by done. done.
Qed.

Lemma wp_readfile_loop fuel n dst fstart foff fsize (Q : unit -> mach -> Prop) s :
  (max_wait < fuel)%nat ->
  fsize < Z.of_nat n -> 0 <= fsize -> 0 <= foff -> foff + fsize < 2 ^ 32 -> 0 <= fstart ->
  SECTSIZE * fstart + foff + fsize <= SECTSIZE * 2 ^ 28 ->
  0 <= dst -> dst + fsize <= isize (ram s) <= 2 ^ 32 -> SECTOR_DATA_START + SECTSIZE <= isize (ram s) ->
  separate dst fsize SECTOR_DATA_START SECTSIZE ->
  (forall s', changes (fun x => inside dst fsize x \/ inside SECTOR_DATA_START SECTSIZE x) (ram s) (ram s') ->
     (forall j, 0 <= j < fsize -> ibyte (ram s') (dst + j) = file_byte fstart (foff + j)) -> Q tt s') ->
  wp (readfile_loop n fuel dst fstart foff fsize) Q s.
Proof.
  intros Hfuel. revert dst foff fsize s. induction n as [|n IH]; intros dst foff fsize s Hn Hsz Hoff Hof Hst Hlba Hd Hr Hb Hsep HQ; [lia|].
  cbn [readfile_loop]. destruct (Z.eqb_spec fsize 0) as [->|Hnz]; cbn [negb].
  { apply wp_ret, HQ; [by split | lia]. }
  cbn zeta. set (start := foff mod SECTSIZE).
  set (nb := if fsize <? SECTSIZE - start then fsize else SECTSIZE - start).
  assert (0 <= start < SECTSIZE) as Hstart by (unfold start, SECTSIZE; dlia).
  assert (0 < nb <= fsize /\ start + nb <= SECTSIZE) as Hnb.
  { unfold nb. destruct (Z.ltb_spec fsize (SECTSIZE - start)); lia. }
  assert (SECTSIZE * (fstart + foff / SECTSIZE) + start = SECTSIZE * fstart + foff) as Hpos.
  { unfold start, SECTSIZE. dlia. }
  assert (0 <= fstart + foff / SECTSIZE < 2 ^ 28) as Hsect.
  { unfold SECTSIZE in *. split; [dlia|]. unfold start in *. dlia. }
  rewrite (u32_id (fstart + foff / SECTSIZE)) by lia.
  apply wp_bind, wp_read_disk; [done|unfold SECTOR_DATA_START; lia|lia|done|]. intros s1 Hp1.
  pose proof (put_size _ _ _ _ _ Hp1) as Hs1.
  assert (forall j, 0 <= j < nb -> ibyte (ram s1) (SECTOR_DATA_START + (j + start)) = file_byte fstart (foff + j)) as Hbuf.
  { intros j Hj. rewrite (put_inside _ _ _ _ _ _ Hp1) by lia. unfold sector_byte, file_byte. f_equal. lia. }
  apply wp_bind, wp_copy_out; try lia.
  { unfold separate in *. lia. }
  { intros j Hj. rewrite Hbuf by lia. apply disk_bytes. }
  intros s2 Hp2. pose proof (put_size _ _ _ _ _ Hp2) as Hs2.
  rewrite !u32_id by lia. apply IH; try lia.
  { unfold separate in *. lia. }
  intros s3 Hch Hbytes. apply HQ.
  - eapply changes_trans; [eapply changes_mono; [exact (put_changes _ _ _ _ _ Hp1)|tauto]|].
    eapply changes_trans; eapply changes_mono; [exact (put_changes _ _ _ _ _ Hp2)| |exact Hch|];
      intros x; unfold inside in *; lia.
  - intros j Hj. destruct (Z.lt_ge_cases j nb) as [Hlt|Hge].
    + destruct Hch as [_ Hch]. rewrite Hch by (unfold inside, separate in *; lia).
      rewrite (put_inside _ _ _ _ _ _ Hp2) by lia. replace (dst + j - dst) with j by lia. apply Hbuf; lia.
    + specialize (Hbytes (j - nb) ltac:(lia)). replace (dst + nb + (j - nb)) with (dst + j) in Hbytes by lia.
      rewrite Hbytes. f_equal. lia.
Qed.

(** ** Segments *)

(** A program header in the file at sector [sector]. *)
Record segment : Type := Seg { sg_type : Z; sg_offset : Z; sg_paddr : Z; sg_filesz : Z; sg_memsz : Z }.
Definition ph_field (base : Z) (f : string) : Z :=
  ld (sizeof_field Elf64_Phdr f) disk (base + offsetof Elf64_Phdr f).
Definition segment_at (sector off : Z) : segment :=
  let base := SECTSIZE * sector + off in
  Seg (ph_field base "p_type") (ph_field base "p_offset") (ph_field base "p_paddr")
      (ph_field base "p_filesz") (ph_field base "p_memsz").
Definition loadable (g : segment) : bool := negb (Z.land (sg_type g) PT_LOAD =? 0).

(** What a segment looks like in memory: its bytes of the file, then zeros. *)
Definition seg_byte (sector : Z) (g : segment) (j : Z) : Z :=
  if j <? sg_filesz g then file_byte sector (sg_offset g + j) else 0.
Definition seg_loaded (sector : Z) (m : image) (g : segment) : Prop :=
  forall j, 0 <= j < sg_memsz g -> ibyte m (sg_paddr g + j) = seg_byte sector g j.

(** A segment that fits in the memory of [size] bytes, away from the buffers. *)
Definition seg_ok (size data sector : Z) (g : segment) : Prop :=
  sg_filesz g <= sg_memsz g /\ sg_paddr g + sg_memsz g <= size /\ sg_paddr g + sg_memsz g < 2 ^ 32 /\
  sg_offset g + sg_filesz g < 2 ^ 32 /\
  SECTSIZE * sector + sg_offset g + sg_filesz g <= SECTSIZE * 2 ^ 28 /\
  separate (sg_paddr g) (sg_memsz g) SECTOR_DATA_START SECTSIZE /\
  separate (sg_paddr g) (sg_memsz g) data 512.

(** The memory the loader works in. *)
Definition work (data x : Z) : Prop := inside SECTOR_DATA_START SECTSIZE x \/ inside data 512 x.

Lemma seg_ranges sector off :
  let g := segment_at sector off in
  0 <= sg_type g < 2 ^ 32 /\ 0 <= sg_offset g < 2 ^ 64 /\ 0 <= sg_paddr g < 2 ^ 64 /\
  0 <= sg_filesz g < 2 ^ 64 /\ 0 <= sg_memsz g < 2 ^ 64.
Proof.
  simpl. unfold ph_field.
  pose proof (fun n a (H : 0 <= n) => ld_range n disk a H disk_bytes) as Hld.
  repeat split; apply Hld; by vm_compute.
Qed.

(** A field of the header in the buffer is the field in the file. *)
Lemma wp_data_field data off l f m (Q : Z -> mach -> Prop) s base :
  put m data 512 (fun j => ibyte disk (base + j)) (ram s) ->
  0 <= data -> data + 512 <= isize (ram s) <= 2 ^ 32 -> 0 <= off -> 0 <= offsetof l f -> 0 <= sizeof_field l f ->
  off + offsetof l f + sizeof_field l f <= 512 ->
  Q (ld (sizeof_field l f) disk (base + off + offsetof l f)) s -> wp (data_field data off l f) Q s.
Proof.
  intros Hp Hd Hr Ho Hf Hs Hin HQ. unfold data_field. rewrite (proj2 (Z.leb_le _ _) Hin).
  destruct (decide (sizeof_field l f = 0)) as [Hz|Hz].
  - unfold wp, mload. rewrite Hz in *. unfold ld in *. rewrite !rd_0 in *.
    assert (0 <= u32 (data + off + offsetof l f) /\ u32 (data + off + offsetof l f) + 0 <= isize (ram s)) as Hu.
    { pose proof (u32_range (data + off + offsetof l f)).
      destruct (decide (data + off + offsetof l f < 2 ^ 32)); [rewrite u32_id by lia; lia|].
      assert (data + off + offsetof l f = 2 ^ 32) as -> by lia. change (u32 (2 ^ 32)) with 0. lia. }
    rewrite in_range_true by lia. done.
  - apply wp_mload; [lia|lia|lia|lia|].
    assert (ld (sizeof_field l f) (ram s) (data + off + offsetof l f) =
            ld (sizeof_field l f) disk (base + off + offsetof l f)) as ->; [|done].
    unfold ld. f_equal. apply rd_ext. intros i Hi. rewrite (put_inside _ _ _ _ _ _ Hp) by lia. f_equal. lia.
Qed.

(** The header at [off] lies in one sector. *)
Definition header_ok (sector off : Z) : Prop :=
  0 <= off < 2 ^ 32 /\ off mod SECTSIZE + sizeof Elf64_Phdr <= SECTSIZE /\ sector + off / SECTSIZE < 2 ^ 28.

Lemma phdr_field_bounds f :
  0 <= offsetof Elf64_Phdr f /\ 0 <= sizeof_field Elf64_Phdr f /\
  offsetof Elf64_Phdr f + sizeof_field Elf64_Phdr f <= sizeof Elf64_Phdr.
Proof.
  pose proof (find_field_bounds Elf64_Phdr f 0) as H. unfold offsetof, sizeof_field, fld.
  assert (Forall (fun p => 0 <= p.2) Elf64_Phdr) as Hp by (repeat constructor; simpl; lia).
  specialize (H Hp). lia.
Qed.

(** Reading a field of the header after [read_disk]. *)
Lemma wp_phdr data sector off f m (Q : Z -> mach -> Prop) s :
  0 <= sector -> header_ok sector off ->
  put m data SECTSIZE (sector_byte (disk := disk) (sector + off / SECTSIZE)) (ram s) ->
  0 <= data -> data + SECTSIZE <= isize (ram s) <= 2 ^ 32 ->
  Q (ph_field (SECTSIZE * sector + off) f) s ->
  wp (data_field data (off mod SECTSIZE) Elf64_Phdr f) Q s.
Proof.
  intros Hs (Ho & Hin & Hl) Hp Hd Hr HQ. pose proof (phdr_field_bounds f) as (H1 & H2 & H3).
  assert (0 <= off mod SECTSIZE) by (unfold SECTSIZE; dlia).
  apply (wp_data_field data _ Elf64_Phdr f m _ s (SECTSIZE * (sector + off / SECTSIZE))); try done; try (unfold SECTSIZE in *; lia).
  replace (SECTSIZE * (sector + off / SECTSIZE) + off mod SECTSIZE) with (SECTSIZE * sector + off); [done|].
  unfold SECTSIZE. dlia.
Qed.

Lemma wp_load_segment fuel data sector phoff i (Q : unit -> mach -> Prop) s :
  let off := phoff + i * sizeof Elf64_Phdr in
  let g := segment_at sector off in
  (max_wait < fuel)%nat -> 0 <= sector -> header_ok sector off ->
  0 <= data -> data + SECTSIZE <= isize (ram s) <= 2 ^ 32 -> SECTOR_DATA_START + SECTSIZE <= isize (ram s) ->
  separate data 512 SECTOR_DATA_START SECTSIZE ->
  (loadable g = true -> seg_ok (isize (ram s)) data sector g) ->
  (forall s', changes (fun x => work data x \/ loadable g = true /\ inside (sg_paddr g) (sg_memsz g) x) (ram s) (ram s') ->
     (loadable g = true -> seg_loaded sector (ram s') g) -> Q tt s') ->
  wp (load_segment fuel data sector phoff i) Q s.
Proof.
  intros off g Hfuel Hs Hh Hd Hr Hb Hdat Hok HQ. pose proof Hh as (Ho & Hin & Hl). unfold load_segment.
  fold off. rewrite (u32_id off) by lia. cbn zeta.
  assert (0 <= sector + off / SECTSIZE) as Hl0 by (unfold SECTSIZE; dlia).
  rewrite (u32_id (sector + off / SECTSIZE)) by lia.
  apply wp_bind, wp_read_disk; [done|done|done|lia|]. intros s1 Hp1. pose proof (put_size _ _ _ _ _ Hp1) as Hs1.
  assert (changes (fun x => work data x \/ loadable g = true /\ inside (sg_paddr g) (sg_memsz g) x) (ram s) (ram s1)) as Hch1.
  { eapply changes_mono; [exact (put_changes _ _ _ _ _ Hp1)|]. unfold work, SECTSIZE. tauto. }
  assert (forall f (Q' : Z -> mach -> Prop), Q' (ph_field (SECTSIZE * sector + off) f) s1 ->
            wp (data_field data (off mod SECTSIZE) Elf64_Phdr f) Q' s1) as Hfld.
  { intros f Q' HQ'. apply (wp_phdr data sector off f (ram s)); try done. lia. }
  apply wp_bind, Hfld. change (ph_field (SECTSIZE * sector + off) "p_type") with (sg_type g).
  fold (loadable g). destruct (loadable g) eqn:El; [|by apply wp_ret, HQ].
  specialize (Hok eq_refl). destruct Hok as (Hfm & Hpm & Hp32 & Hof & Hlba & Hsep1 & Hsep2).
  pose proof (seg_ranges sector off) as Hrg. cbv zeta in Hrg. fold g in Hrg.
  apply wp_bind, Hfld, wp_bind, Hfld, wp_bind, Hfld.
  change (ph_field (SECTSIZE * sector + off) "p_paddr") with (sg_paddr g).
  change (ph_field (SECTSIZE * sector + off) "p_offset") with (sg_offset g).
  change (ph_field (SECTSIZE * sector + off) "p_filesz") with (sg_filesz g).
  rewrite (u32_id (sg_paddr g)), (u32_id (sg_offset g)), (u32_id (sg_filesz g)) by lia.
  apply wp_bind. unfold __k_readfile. apply wp_readfile_loop; try lia.
  { unfold separate in *. lia. }
  intros s2 Hch2 Hb2. pose proof (proj1 Hch2) as Hs2.
  assert (put (ram s2) data SECTSIZE (sector_byte (disk := disk) (sector + off / SECTSIZE)) (ram s2)) as Hp2.
  { apply (put_refl (ram s) _ _ _ (ram s1)); [done|done|]. intros x Hx. apply Hch2.
    unfold inside, separate, SECTSIZE, SECTOR_DATA_START in *. lia. }
  assert (forall f (Q' : Z -> mach -> Prop), Q' (ph_field (SECTSIZE * sector + off) f) s2 ->
            wp (data_field data (off mod SECTSIZE) Elf64_Phdr f) Q' s2) as Hfld2.
  { intros f Q' HQ'. apply (wp_phdr data sector off f (ram s2)); try done. lia. }
  apply wp_bind, Hfld2, wp_bind, Hfld2, wp_bind, Hfld2.
  change (ph_field (SECTSIZE * sector + off) "p_paddr") with (sg_paddr g).
  change (ph_field (SECTSIZE * sector + off) "p_filesz") with (sg_filesz g).
  change (ph_field (SECTSIZE * sector + off) "p_memsz") with (sg_memsz g).
  rewrite (u32_id (sg_paddr g + sg_filesz g)), (u32_id (sg_memsz g - sg_filesz g)) by lia.
  apply wp_memzero; try lia. intros s3 Hp3. apply HQ.
  - eapply changes_trans; [exact Hch1|]. eapply changes_trans.
    + eapply changes_mono; [exact Hch2|]. intros x [Hx|Hx]; [right; split; [done|]; unfold inside in *; lia | left; by left].
    + eapply changes_mono; [exact (put_changes _ _ _ _ _ Hp3)|]. intros x Hx. right. split; [done|]. unfold inside in *. lia.
  - intros _ j Hj. unfold seg_byte. destruct (Z.ltb_spec j (sg_filesz g)).
    + rewrite (proj2 (put_changes _ _ _ _ _ Hp3)) by (unfold inside; lia). apply Hb2. lia.
    + rewrite (put_inside _ _ _ _ _ _ Hp3) by lia. done.
Qed.

End Loading.
