(* ===== verification/BootBz.v ===== *)
(** * The bzImage loader: [src/bootloader/bzimage.c] *)
From Stdlib Require Import ZArith Lia.
From stdpp Require Import base tactics list numbers list_numbers strings.
From S2P Require Import Prelude Memory Boot BootDisk BootLoad.
Open Scope Z_scope.

(** The struct has the size and the offsets that [__bzimage_check] asserts, and
    the ones the comments of the struct give. *)
Example KernelHeader_offsets :
  sizeof KernelHeader = LINUX_SECTOR_SIZE * 2 /\
  (offsetof KernelHeader <$> ["setup_sects"; "syssize"; "boot_flag"; "header"; "version"; "type_of_loader";
     "loadflags"; "heap_end_ptr"; "cmd_line_ptr"; "payload_offset"; "payload_length"; "setup_data";
     "kernel_info_offset"]%string) =
  [0x1f1; 0x1f4; 0x1fe; 0x202; 0x206; 0x210; 0x211; 0x224; 0x228; 0x248; 0x24c; 0x250; 0x268].
Proof. split; reflexivity. Qed.

Section BzImage.
Context {D : Type} {ports : Ports D} {disk : image} {ata_disk : AtaDisk D disk}.
Abbreviation mach := (mach D).

(** ** Loading sectors *)

Lemma wp_load_sectors fuel sector a i n (Q : unit -> mach -> Prop) s :
  (max_wait < fuel)%nat -> 0 <= sector -> 0 <= i -> 0 <= n -> sector + i + n <= 2 ^ 28 ->
  0 <= a -> a + LINUX_SECTOR_SIZE * n <= isize (ram s) <= 2 ^ 32 ->
  (forall s', put (ram s) a (LINUX_SECTOR_SIZE * n) (fun j => file_byte (disk := disk) (sector + i) j) (ram s') -> Q tt s') ->
  wp (load_sectors fuel sector a i (Z.to_nat n)) Q s.
Proof.
  unfold LINUX_SECTOR_SIZE. intros Hf Hs Hi Hn Hl Ha Hr HQ. unfold load_sectors.
  apply (wp_for (fun k s' => put (ram s) a (512 * k) (fun j => file_byte (disk := disk) (sector + i) j) (ram s'))).
  - by apply put_nil.
  - rewrite Z2Nat.id by done. intros k s' Hk Hput. pose proof (put_size _ _ _ _ _ Hput).
    unfold LINUX_SECTOR_SIZE. rewrite u32_id by lia.
    apply wp_read_disk; [done|lia|unfold SECTSIZE; lia|lia|]. intros s2 Hp2.
    replace (512 * (k + 1)) with (512 * k + SECTSIZE) by (unfold SECTSIZE; lia).
    apply (put_app _ _ _ _ _ (ram s')); [done|lia|unfold SECTSIZE; lia|].
    destruct Hp2 as [Hsz Hb]. split; [done|]. intros x. rewrite Hb, !ibyte_splice.
    destruct (_ && _); [|done]. unfold sector_byte, file_byte, SECTSIZE. f_equal. lia.
  - rewrite Z2Nat.id, Z.add_0_l by done. done.
Qed.

(** Storing a string byte by byte. *)
Lemma wp_store_bytes_at a l (Q : unit -> mach -> Prop) s :
  Forall is_byte l -> 0 <= a -> a + Z.of_nat (length l) <= isize (ram s) -> isize (ram s) <= 2 ^ 32 ->
  (forall s', put (ram s) a (Z.of_nat (length l)) (fun i => nth (Z.to_nat i) l 0) (ram s') -> Q tt s') ->
  wp (c_foreach l 0 (fun i c => mstore 1 (a + i) c)) Q s.
Proof.
  intros Hl Ha Hr Hr' HQ.
  apply (wp_foreach (fun p s' => put (ram s) a (Z.of_nat (length p)) (fun i => nth (Z.to_nat i) l 0) (ram s'))).
  - by apply put_nil.
  - intros p x q s' -> Hput. pose proof (put_size _ _ _ _ _ Hput). rewrite length_app in Hr. simpl in Hr.
    apply wp_mstore; [lia|lia|lia|lia|]. cbn [ram]. rewrite length_app, Nat2Z.inj_add, Z.add_0_l. simpl length.
    apply put_step; [done|lia|]. rewrite Nat2Z.id, app_nth2, Nat.sub_diag by lia. simpl.
    apply u8_id. apply Forall_app in Hl as [_ [Hx _]%Forall_cons]. exact Hx.
  - done.
Qed.

(** ** The fields of the header *)

(** A field of the header of the image that starts at sector [sector]. *)
Definition kh (sector : Z) (f : string) : Z :=
  ld (sizeof_field KernelHeader f) disk (SECTSIZE * sector + offsetof KernelHeader f).

Definition bz_start : Z := 539.
(** The sectors of the real-mode code, the boot sector among them. *)
Definition real_sects : Z := (if kh bz_start "setup_sects" =? 0 then 4 else kh bz_start "setup_sects") + 1.
(** The sectors of the protected-mode code that are read: the last one only if it
    is full. *)
Definition kernel_sects : Z := (kh bz_start "syssize" * 16) / LINUX_SECTOR_SIZE.

Definition magic_ok : bool := (kh bz_start "boot_flag" =? 0xaa55) && (kh bz_start "header" =? 0x53726448).
Definition protocol_ok : bool :=
  negb (Z.land (kh bz_start "loadflags") LOADED_HIGH =? 0) && (0x0202 <=? kh bz_start "version").

Lemma kh_range sector f : 0 <= sizeof_field KernelHeader f -> 0 <= kh sector f < 2 ^ (8 * sizeof_field KernelHeader f).
Proof. intros H. apply ld_range; [done | apply disk_bytes]. Qed.

(** Reading a field of the header of an image in memory. *)
Lemma wp_khdr_get m n f (Q : Z -> mach -> Prop) s :
  put m 0x2000 n (fun j => file_byte (disk := disk) bz_start j) (ram s) ->
  0 <= offsetof KernelHeader f -> 0 <= sizeof_field KernelHeader f ->
  offsetof KernelHeader f + sizeof_field KernelHeader f <= n -> n <= 2 ^ 20 -> 0x2000 + n <= isize (ram s) <= 2 ^ 32 ->
  Q (kh bz_start f) s -> wp (khdr_get 0x2000 f) Q s.
Proof.
  intros Hp Ho Hs Hn Hn' Hr HQ. unfold khdr_get. apply wp_mload; [lia|lia|lia|lia|].
  assert (ld (sizeof_field KernelHeader f) (ram s) (0x2000 + offsetof KernelHeader f) = kh bz_start f) as ->; [|done].
  unfold kh, ld. f_equal. apply rd_ext. intros i Hi. rewrite (put_inside _ _ _ _ _ _ Hp) by lia.
  unfold file_byte. f_equal. lia.
Qed.

(** ** The parts of the loader *)

Lemma wp_die (Q : ending -> mach -> Prop) s : (forall s', Q Halt s') -> wp die Q s.
Proof.
  intros HQ. unfold die. apply wp_bind, (wp_foreach (fun _ _ => True)); [done| |].
  - intros p x q s' _ _. done.
  - intros s' _. apply wp_ret, HQ.
Qed.

(** What the loader leaves behind, in terms of the memory [m] that has the image. *)
Record params_set (m m' : image) : Prop := {
  ps_size : isize m' = isize m;
  ps_loader : ld 1 m' 0x2210 = 0xFF;
  ps_flags : ld 1 m' 0x2211 = u8 (Z.lor (ld 1 m 0x2211) 0x80);
  ps_heap : ld 2 m' 0x2224 = 0xFE00;
  ps_cmd_ptr : ld 4 m' 0x2228 = 0x12000;
  ps_cmd : rd m' 0x12000 (Z.of_nat (length LINUX_CMD_LINE) + 1) = LINUX_CMD_LINE ++ [0];
  ps_code : rd m' 0xa000 (Z.of_nat (length code16)) = code16;
  ps_rest : forall x, (x < 0x2210 \/ 0x2212 <= x) -> (x < 0x2224 \/ 0x2226 <= x) -> (x < 0x2228 \/ 0x222c <= x) ->
    (x < 0xa000 \/ 0xa000 + Z.of_nat (length code16) <= x) ->
    (x < 0x12000 \/ 0x12000 + Z.of_nat (length LINUX_CMD_LINE) + 1 <= x) -> ibyte m' x = ibyte m x;
}.

Lemma put_rd m a l m' :
  put m a (Z.of_nat (length l)) (fun i => nth (Z.to_nat i) l 0) m' -> rd m' a (Z.of_nat (length l)) = l.
Proof.
  intros Hp. apply list_eq. intros i. unfold rd. rewrite list_lookup_fmap.
  destruct (decide (i < length l)%nat) as [Hi|Hi].
  - rewrite lookup_seqZ_lt by lia. simpl. rewrite (put_inside _ _ _ _ _ _ Hp) by lia.
    replace (Z.to_nat (a + Z.of_nat i - a)) with i by lia.
    destruct (nth_lookup_or_length l i 0) as [H|H]; [done | lia].
  - rewrite lookup_seqZ_ge by lia. simpl. symmetry. apply lookup_ge_None. lia.
Qed.

Lemma put_rd_out m a n f m' b k : put m a n f m' -> b + k <= a \/ a + n <= b -> rd m' b k = rd m b k.
Proof. intros Hp H. apply rd_ext. intros i Hi. apply (put_changes _ _ _ _ _ Hp). unfold inside. lia. Qed.

Lemma wp_boot_params (Q : unit -> mach -> Prop) s :
  0x13000 <= isize (ram s) <= 2 ^ 32 ->
  (forall s', params_set (ram s) (ram s') -> Q tt s') -> wp (boot_params 0x2000) Q s.
Proof.
  intros Hr HQ. unfold boot_params, khdr_set, khdr_get. cbn zeta. eval_layout.
  assert (Forall is_byte LINUX_CMD_LINE) as Hcmd by (apply Forall_forall; intros x Hx; vm_compute in Hx; unfold is_byte;
    apply list_elem_of_In in Hx; simpl in Hx; repeat destruct Hx as [<-|Hx]; done || lia).
  assert (Forall is_byte code16) as Hcode by (repeat constructor; unfold is_byte; lia).
  change (Z.of_nat (length LINUX_CMD_LINE)) with 72 in *.
  wp_step. apply wp_mstore; [lia|lia|lia|lia|].
  wp_step. apply wp_mstore; cbn [ram]; rewrite ?isize_wr; [lia|lia|lia|lia|].
  wp_step. apply wp_mload; cbn [ram]; rewrite ?isize_wr; [lia|lia|lia|lia|].
  wp_step. apply wp_mstore; cbn [ram]; rewrite ?isize_wr; [lia|lia|lia|lia|].
  wp_step. apply (wp_store_bytes_at 0x12000); cbn [ram]; rewrite ?isize_wr; [done|lia|change (Z.of_nat (length LINUX_CMD_LINE)) with 72; lia|lia|].
  change (Z.of_nat (length LINUX_CMD_LINE)) with 72. intros s4 Hp4. pose proof (put_size _ _ _ _ _ Hp4) as Hs4.
  rewrite !isize_wr in Hs4.
  wp_step. apply wp_mstore; [lia|lia|lia|lia|].
  wp_step. apply wp_mstore; cbn [ram]; rewrite ?isize_wr; [lia|lia|lia|lia|].
  apply (wp_store_bytes_at 0xa000); cbn [ram]; rewrite ?isize_wr; [done|lia|simpl; lia|lia|].
  intros s7 Hp7. change (Z.of_nat (length code16)) with 19 in Hp7. apply HQ.
  pose proof (put_size _ _ _ _ _ Hp7) as Hs7. rewrite !isize_wr in Hs7. cbn [ram] in *. set (m := ram s) in *.
  assert (forall b k, b + k <= 0xa000 \/ 0xa013 <= b -> rd (ram s7) b k =
            rd (wr (wr (ram s4) 0x12048 (le 1 0)) 0x2228 (le 4 0x12000)) b k) as H7.
  { intros b k Hb. apply (put_rd_out _ _ _ _ _ _ _ Hp7). lia. }
  assert (forall b k, b + k <= 0x12000 \/ 0x12048 <= b -> rd (ram s4) b k =
            rd (wr (wr (wr m 0x2210 (le 1 0xFF)) 0x2224 (le 2 0xFE00)) 0x2211
               (le 1 (Z.lor (ld 1 (wr (wr m 0x2210 (le 1 0xFF)) 0x2224 (le 2 0xFE00)) 0x2211) 0x80))) b k) as H4.
  { intros b k Hb. apply (put_rd_out _ _ _ _ _ _ _ Hp4). lia. }
  constructor.
  - congruence.
  - unfold ld. rewrite H7 by lia. rd_simpl. rewrite H4 by lia. rd_simpl. by rewrite unle_le by lia.
  - unfold ld at 1. rewrite H7 by lia. rd_simpl. rewrite H4 by lia. rd_simpl. rewrite unle_le by lia.
    unfold ld. rd_simpl. done.
  - unfold ld. rewrite H7 by lia. rd_simpl. rewrite H4 by lia. rd_simpl. by rewrite unle_le by lia.
  - unfold ld. rewrite H7 by lia. rd_simpl. by rewrite unle_le by lia.
  - rewrite H7 by lia. rd_simpl. change (Z.of_nat (length LINUX_CMD_LINE)) with 72.
    rewrite (rd_app _ _ 72 1) by lia. apply (f_equal2 (@app Z)).
    + rewrite rd_wr_le_out by lia. exact (put_rd _ _ LINUX_CMD_LINE _ Hp4).
    + rd_simpl. by rewrite le_1.
  - exact (put_rd _ _ code16 _ Hp7).
  - change (Z.of_nat (length LINUX_CMD_LINE)) with 72. change (Z.of_nat (length code16)) with 19.
    intros x H1 H2 H3 Hc1 Hc2. rewrite (proj2 (put_changes _ _ _ _ _ Hp7)) by (unfold inside; lia). cbn [ram].
    rewrite !ibyte_wr_le_out by lia. rewrite (proj2 (put_changes _ _ _ _ _ Hp4)) by (unfold inside; lia).
    rewrite !ibyte_wr_le_out by lia. done.
Qed.

(** ** The whole loader *)

(** The first two sectors are read and the magic numbers looked at. *)
Lemma wp_bz_head fuel (Q : unit -> mach -> Prop) s :
  (max_wait < fuel)%nat -> 0x2400 <= isize (ram s) <= 2 ^ 32 ->
  (forall s', put (ram s) 0x2000 1024 (fun j => file_byte (disk := disk) bz_start j) (ram s') -> Q tt s') ->
  wp (read_disk fuel 0x2000 539 ;; read_disk fuel (0x2000 + LINUX_SECTOR_SIZE) (539 + 1)) Q s.
Proof.
  intros Hf Hr HQ. unfold LINUX_SECTOR_SIZE. wp_step. apply wp_read_disk; [done|lia|unfold SECTSIZE; lia|lia|].
  intros s1 Hp1. pose proof (put_size _ _ _ _ _ Hp1).
  apply wp_read_disk; [done|lia|unfold SECTSIZE; lia|lia|]. intros s2 Hp2. apply HQ.
  apply (put_app _ _ 512 512 _ (ram s1)); [|lia|lia|].
  - destruct Hp1 as [Hsz Hb]. split; [done|]. intros x. rewrite Hb. done.
  - destruct Hp2 as [Hsz Hb]. split; [done|]. intros x. rewrite Hb, !ibyte_splice. unfold SECTSIZE.
    destruct (_ && _); [|done]. unfold sector_byte, file_byte, bz_start, SECTSIZE. f_equal. lia.
Qed.

Lemma real_sects_range : 2 <= real_sects <= 256.
Proof.
  unfold real_sects. pose proof (kh_range bz_start "setup_sects" ltac:(by vm_compute)) as H.
  change (2 ^ (8 * sizeof_field KernelHeader "setup_sects")) with 256 in H.
  destruct (Z.eqb_spec (kh bz_start "setup_sects") 0); lia.
Qed.

(** Sizes for which nothing wraps around, the parts do not overlap and everything
    fits in the memory and on the disk. *)
Record bz_fits (size : Z) : Prop := {
  bf_real : real_sects <= 64;
  bf_img : real_sects * LINUX_SECTOR_SIZE + kh bz_start "syssize" * 16 < 2 ^ 32;
  bf_ram : 0x100000 + LINUX_SECTOR_SIZE * kernel_sects <= size <= 2 ^ 32;
  bf_low : 0x13000 <= size;
  bf_disk : bz_start + real_sects + kernel_sects <= 2 ^ 28;
}.

(** The memory when the loader calls [jump_to_setup]. *)
Record bz_loaded (m m' : image) : Prop := {
  bz_kernel : forall j, 0 <= j < LINUX_SECTOR_SIZE * kernel_sects ->
    ibyte m' (0x100000 + j) = ibyte disk (SECTSIZE * (bz_start + real_sects) + j);
  bz_tail : forall x, 0x100000 + LINUX_SECTOR_SIZE * kernel_sects <= x -> ibyte m' x = ibyte m x;
  bz_real : forall j, 0 <= j < LINUX_SECTOR_SIZE * real_sects ->
    (j < 0x210 \/ 0x212 <= j) -> (j < 0x224 \/ 0x226 <= j) -> (j < 0x228 \/ 0x22c <= j) ->
    ibyte m' (0x2000 + j) = ibyte disk (SECTSIZE * bz_start + j);
  bz_below : forall x, x < 0x2000 -> ibyte m' x = ibyte m x;
  bz_loader : ld 1 m' 0x2210 = 0xFF;
  bz_flags : ld 1 m' 0x2211 = u8 (Z.lor (kh bz_start "loadflags") 0x80);
  bz_heap : ld 2 m' 0x2224 = 0xFE00;
  bz_cmd_ptr : ld 4 m' 0x2228 = 0x12000;
  bz_cmd : rd m' 0x12000 (Z.of_nat (length LINUX_CMD_LINE) + 1) = LINUX_CMD_LINE ++ [0];
  bz_code : rd m' 0xa000 (Z.of_nat (length code16)) = code16;
}.

(** Loading both parts and writing the parameters gives that memory. *)
Lemma bz_loaded_intro m m1 m2 m3 :
  real_sects <= 64 -> 0 <= kernel_sects ->
  put m 0x2000 (LINUX_SECTOR_SIZE * real_sects) (fun j => file_byte (disk := disk) bz_start j) m1 ->
  put m1 0x100000 (LINUX_SECTOR_SIZE * kernel_sects) (fun j => file_byte (disk := disk) (bz_start + real_sects) j) m2 ->
  params_set m2 m3 -> bz_loaded m m3.
Proof.
  unfold LINUX_SECTOR_SIZE. intros Hrs Hks H1 H2 [P0 P1 P2 P3 P4 P5 P6 P7]. pose proof real_sects_range.
  change (Z.of_nat (length code16)) with 19 in *. change (Z.of_nat (length LINUX_CMD_LINE)) with 72 in *.
  assert (forall x, x < 0x100000 -> ibyte m2 x = ibyte m1 x) as H21.
  { intros x Hx. apply (put_changes _ _ _ _ _ H2). unfold inside. lia. }
  constructor; try done; unfold LINUX_SECTOR_SIZE.
  - intros j Hj. rewrite P7 by lia. rewrite (put_inside _ _ _ _ _ _ H2) by lia. unfold file_byte. f_equal. lia.
  - intros x Hx. rewrite P7 by lia. rewrite (proj2 (put_changes _ _ _ _ _ H2)) by (unfold inside; lia).
    apply (put_changes _ _ _ _ _ H1). unfold inside. lia.
  - intros j Hj Hj1 Hj2 Hj3. rewrite P7 by lia. rewrite H21 by lia.
    rewrite (put_inside _ _ _ _ _ _ H1) by lia. unfold file_byte. f_equal. lia.
  - intros x Hx. rewrite P7, H21 by lia. apply (put_changes _ _ _ _ _ H1). unfold inside. lia.
  - rewrite P2, !ld_1, H21 by lia. rewrite (put_inside _ _ _ _ _ _ H1) by lia. unfold kh.
    change (sizeof_field KernelHeader "loadflags") with 1. rewrite ld_1. done.
Qed.

(** The checks of the loader, up to the protected-mode code. *)
Lemma wp_bz_setup fuel (Q : ending -> mach -> Prop) s :
  (max_wait < fuel)%nat -> real_sects <= 64 -> 0xa000 <= isize (ram s) <= 2 ^ 32 ->
  (magic_ok && protocol_ok = false -> forall s', Q Halt s') ->
  (magic_ok && protocol_ok = true -> forall s',
     put (ram s) 0x2000 (512 * real_sects) (fun j => file_byte (disk := disk) bz_start j) (ram s') ->
     wp (load_sectors fuel bz_start 0x100000 real_sects
           (Z.to_nat (u32 (real_sects * 512 + u32 (kh bz_start "syssize" * 16)) / 512 - real_sects)) ;;
         boot_params 0x2000 ;; mret (JumpToSetup 0x2000 0x10000)) Q s') ->
  wp (bzimage_main fuel) Q s.
Proof.
  intros Hf Hrs Hram Hbad Hgood. pose proof real_sects_range as Hrr. assert (bz_start = 539) as Hbz by done.
  unfold bzimage_main, LINUX_SECTOR_SIZE in *. cbn zeta. rewrite <- Hbz.
  apply wp_assoc, wp_bz_head; [done|lia|]. intros s1 Hp1. pose proof (put_size _ _ _ _ _ Hp1) as Hs1.
  wp_step. eapply (wp_khdr_get _ 1024); [exact Hp1|by vm_compute|by vm_compute|by vm_compute|lia|lia|].
  wp_step. eapply (wp_khdr_get _ 1024); [exact Hp1|by vm_compute|by vm_compute|by vm_compute|lia|lia|].
  wp_step. eapply (wp_khdr_get _ 1024); [exact Hp1|by vm_compute|by vm_compute|by vm_compute|lia|lia|].
  rewrite <- negb_andb. fold magic_ok. destruct magic_ok; cbn [negb andb] in *; [|by apply wp_die; auto].
  assert (u8 ((if kh bz_start "setup_sects" =? 0 then 4 else kh bz_start "setup_sects") + 1) = real_sects) as Ers.
  { apply u8_id. fold real_sects. lia. }
  rewrite Ers.
  wp_step. apply wp_load_sectors; unfold LINUX_SECTOR_SIZE; try done; try lia.
  intros s2 Hp2. pose proof (put_size _ _ _ _ _ Hp2) as Hs2.
  assert (put (ram s) 0x2000 (512 * real_sects) (fun j => file_byte (disk := disk) bz_start j) (ram s2)) as Hp12.
  { replace (512 * real_sects) with (1024 + 512 * (real_sects - 2)) by lia.
    apply (put_app _ _ _ _ _ (ram s1)); [done|lia|lia|]. destruct Hp2 as [Hsz Hb]. split; [done|].
    intros x. rewrite Hb, !ibyte_splice. destruct (_ && _); [|done]. unfold file_byte, SECTSIZE. f_equal. lia. }
  wp_step. eapply (wp_khdr_get _ (512 * real_sects)); [exact Hp12|by vm_compute|by vm_compute| |lia|lia|].
  { change (offsetof KernelHeader "syssize" + sizeof_field KernelHeader "syssize") with 0x1f8. lia. }
  wp_step. eapply (wp_khdr_get _ (512 * real_sects)); [exact Hp12|by vm_compute|by vm_compute| |lia|lia|].
  { change (offsetof KernelHeader "version" + sizeof_field KernelHeader "version") with 0x208. lia. }
  wp_step. eapply (wp_khdr_get _ (512 * real_sects)); [exact Hp12|by vm_compute|by vm_compute| |lia|lia|].
  { change (offsetof KernelHeader "loadflags" + sizeof_field KernelHeader "loadflags") with 0x212. lia. }
  unfold protocol_ok in *. rewrite Z.ltb_antisym, <- (negb_involutive (Z.land _ _ =? 0)), <- negb_andb.
  destruct (negb _ && _); cbn [negb]; [by apply Hgood | by apply wp_die; auto].
Qed.

(** A bad magic number, or a protocol that is too old, stops the machine. *)
Lemma wp_bzimage_die fuel (Q : ending -> mach -> Prop) s :
  (max_wait < fuel)%nat -> magic_ok && protocol_ok = false -> real_sects <= 64 -> 0xa000 <= isize (ram s) <= 2 ^ 32 ->
  (forall s', Q Halt s') -> wp (bzimage_main fuel) Q s.
Proof. intros Hf Hbad Hrs Hram HQ. apply wp_bz_setup; try done. congruence. Qed.

Lemma wp_bzimage_main fuel (Q : ending -> mach -> Prop) s :
  (max_wait < fuel)%nat -> magic_ok && protocol_ok = true -> bz_fits (isize (ram s)) ->
  (forall s', bz_loaded (ram s) (ram s') -> Q (JumpToSetup 0x2000 0x10000) s') ->
  wp (bzimage_main fuel) Q s.
Proof.
  intros Hf Hok [Hrs Himg Hram Hlow Hdsk] HQ. pose proof real_sects_range as Hrr.
  pose proof (kh_range bz_start "syssize" ltac:(by vm_compute)) as Hsys.
  assert (0 <= kernel_sects) as Hks by (unfold kernel_sects, LINUX_SECTOR_SIZE; dlia).
  unfold LINUX_SECTOR_SIZE in *. assert (0 <= bz_start) by done.
  apply wp_bz_setup; [done|done|lia|congruence|]. intros _ s2 Hp2. pose proof (put_size _ _ _ _ _ Hp2) as Hs2.
  rewrite (u32_id (kh bz_start "syssize" * 16)), u32_id by lia.
  replace ((real_sects * 512 + kh bz_start "syssize" * 16) / 512 - real_sects) with kernel_sects
    by (unfold kernel_sects, LINUX_SECTOR_SIZE; dlia).
  wp_step. apply wp_load_sectors; unfold LINUX_SECTOR_SIZE; try done; try lia.
  intros s3 Hp3. pose proof (put_size _ _ _ _ _ Hp3) as Hs3.
  wp_step. apply wp_boot_params; [lia|]. intros s4 Hp4. apply wp_ret, HQ.
  by apply (bz_loaded_intro _ (ram s2) (ram s3)).
Qed.

End BzImage.
