(* ===== verification/BootTheorems.v ===== *)
(** * Theorems about the boot loaders *)
From Stdlib Require Import ZArith Lia.
From stdpp Require Import base tactics list numbers list_numbers strings.
From S2P Require Import Prelude Memory Boot BootDisk BootLoad BootBz.
Open Scope Z_scope.

(** [read_disk] with a sector number below [2^28], on a disk that answers in a
    bounded number of status reads, returns with the 512 bytes of the sector at
    [buf] and every other byte of the memory as it was. *)
Theorem read_disk_reads_sector {D : Type} {ports : Ports D} {disk : image} {ata_disk : AtaDisk D disk} fuel buf sect s :
  (max_wait < fuel)%nat -> 0 <= buf -> buf + SECTSIZE <= isize (ram s) <= 2 ^ 32 -> 0 <= sect < 2 ^ 28 ->
  exists s', read_disk fuel buf sect s = Done (tt, s') /\ isize (ram s') = isize (ram s) /\
    rd (ram s') buf SECTSIZE = rd disk (SECTSIZE * sect) SECTSIZE /\
    forall x, x < buf \/ buf + SECTSIZE <= x -> ibyte (ram s') x = ibyte (ram s) x.
Proof.
  intros Hf Hb Hr Hs. apply (wp_result _ _ tt), wp_read_disk; try done. intros s' Hp. split; [done|].
  split; [by apply (put_size _ _ _ _ _ Hp)|]. split.
  - apply rd_ext. intros i Hi. rewrite (put_inside _ _ _ _ _ _ Hp) by lia. unfold sector_byte. f_equal. lia.
  - intros x Hx. apply (put_changes _ _ _ _ _ Hp). unfold inside. lia.
Qed.

(** ** The ELF loader *)

Section Elf.
Context {D : Type} {ports : Ports D} {disk : image} {ata_disk : AtaDisk D disk}.

(** The fields of the ELF header of the file at [sector], and its segments. *)
Definition eh_field (sector : Z) (f : string) : Z :=
  ld (sizeof_field Elf64_Ehdr f) disk (SECTSIZE * sector + offsetof Elf64_Ehdr f).
Definition seg (sector i : Z) : segment :=
  segment_at (disk := disk) sector (eh_field sector "e_phoff" + i * sizeof Elf64_Phdr).
Definition loaded_seg (sector i : Z) : Prop :=
  0 <= i < eh_field sector "e_phnum" /\ loadable (seg sector i) = true.

(** An executable that the loader can load into a memory of [size] bytes: every
    program header in one sector, every segment to be loaded in the memory and
    away from the buffers and from the other segments. *)
Record elf_ok (size data sector : Z) : Prop := {
  e_sector : 0 <= sector < 2 ^ 28;
  e_data : 0 <= data /\ data + SECTSIZE <= size <= 2 ^ 32;
  e_buffer : SECTOR_DATA_START + SECTSIZE <= size /\ separate data 512 SECTOR_DATA_START SECTSIZE;
  e_phoff : eh_field sector "e_phoff" < 2 ^ 32;
  e_headers : forall i, 0 <= i < eh_field sector "e_phnum" ->
    header_ok sector (eh_field sector "e_phoff" + i * sizeof Elf64_Phdr);
  e_segments : forall i, loaded_seg sector i -> seg_ok size data sector (seg sector i);
  e_separate : forall i j, loaded_seg sector i -> loaded_seg sector j -> i <> j ->
    separate (sg_paddr (seg sector i)) (sg_memsz (seg sector i)) (sg_paddr (seg sector j)) (sg_memsz (seg sector j));
}.

(** Bytes of the segments before number [k]. *)
Definition seg_bytes (sector k x : Z) : Prop :=
  exists i, i < k /\ loaded_seg sector i /\ inside (sg_paddr (seg sector i)) (sg_memsz (seg sector i)) x.

Lemma ehdr_field_bounds f :
  0 <= offsetof Elf64_Ehdr f /\ 0 <= sizeof_field Elf64_Ehdr f /\
  offsetof Elf64_Ehdr f + sizeof_field Elf64_Ehdr f <= 512.
Proof.
  pose proof (find_field_bounds Elf64_Ehdr f 0) as H. unfold offsetof, sizeof_field, fld.
  assert (Forall (fun p => 0 <= p.2) Elf64_Ehdr) as Hp by (repeat constructor; simpl; lia).
  specialize (H Hp). change (sizeof Elf64_Ehdr) with 64 in H. lia.
Qed.

Lemma wp_vmlinux_main fuel data sector s (Q : ending -> mach D -> Prop) :
  (max_wait < fuel)%nat -> elf_ok (isize (ram s)) data sector ->
  (forall s', changes (fun x => work data x \/ seg_bytes sector (eh_field sector "e_phnum") x) (ram s) (ram s') ->
     (forall i, loaded_seg sector i -> seg_loaded (disk := disk) sector (ram s') (seg sector i)) ->
     Q (Jump (u32 (eh_field sector "e_entry")) []) s') ->
  wp (vmlinux_main fuel data sector) Q s.
Proof.
  intros Hfuel [Hsec [Hd Hr] [Hb Hdat] Hpo Hhd Hsg Hsep] HQ. unfold vmlinux_main.
  apply wp_bind, wp_read_disk; [done|done|done|done|]. intros s1 Hp1. pose proof (put_size _ _ _ _ _ Hp1) as Hs1.
  assert (forall f (Q' : Z -> mach D -> Prop), Q' (eh_field sector f) s1 -> wp (data_field data 0 Elf64_Ehdr f) Q' s1) as Hfld.
  { intros f Q' HQ'. pose proof (ehdr_field_bounds f) as (H1 & H2 & H3).
    apply (wp_data_field (disk := disk) data 0 Elf64_Ehdr f (ram s) _ s1 (SECTSIZE * sector)); try done; try (unfold SECTSIZE in *; lia).
    by rewrite Z.add_0_r. }
  apply wp_bind, Hfld, wp_bind, Hfld, wp_bind, Hfld.
  assert (0 <= eh_field sector "e_phnum") as Hn by (apply (ld_range 2); [lia|apply disk_bytes]).
  assert (0 <= eh_field sector "e_phoff") as Hp0 by (apply (ld_range 8); [lia|apply disk_bytes]).
  rewrite (u32_id (eh_field sector "e_phoff")) by lia.
  apply wp_bind, (wp_for (fun k s' =>
    changes (fun x => work data x \/ seg_bytes sector k x) (ram s) (ram s') /\
    forall i, i < k -> loaded_seg sector i -> seg_loaded (disk := disk) sector (ram s') (seg sector i))).
  - split; [|intros i Hi [Hi' _]; lia]. eapply changes_mono; [exact (put_changes _ _ _ _ _ Hp1)|].
    intros x Hx. left. by right.
  - rewrite Z2Nat.id by done. intros k s2 Hk [Hch Hld]. pose proof (proj1 Hch) as Hs2.
    apply wp_load_segment; rewrite ?Hs2; try done; [lia|apply Hhd; lia| |].
    { intros Hl. apply Hsg. split; [lia | done]. }
    intros s3 Hch3 Hld3. split.
    + eapply changes_trans; (eapply changes_mono; [eassumption|]).
      * intros x [Hx|(i & Hi & Hx)]; [by left|]. right. exists i. split; [lia | done].
      * intros x [Hx|[Hl Hx]]; [by left|]. right. exists k. split; [lia|]. split; [split; [lia | done] | done].
    + intros i Hi Hli. destruct (decide (i = k)) as [->|Hne]; [by apply Hld3, Hli|].
      intros j Hj. rewrite (proj2 Hch3); [apply Hld; [lia | done | done]|].
      pose proof (Hsg i Hli) as (_ & _ & _ & _ & _ & Hw1 & Hw2).
      intros [Hw|[Hl Hw]].
      * unfold work, inside, separate, SECTSIZE in *. lia.
      * assert (loaded_seg sector k) as Hlk by (split; [lia | done]).
        specialize (Hsep i k Hli Hlk Hne). fold (seg sector k) in Hw. unfold inside, separate in *. lia.
  - rewrite Z2Nat.id, Z.add_0_l by done. intros s' [Hch Hld]. apply wp_ret, HQ; [done|].
    intros i Hi. apply Hld; [|done]. by destruct Hi as [[_ ?] _].
Qed.
End Elf.

(** C21: for an ELF executable on the disk whose segments fit in the memory, apart
    from each other and from the buffers, the ELF loader jumps to its entry point
    with every segment in memory: the bytes of the file at the physical address and
    zeros up to the size in memory.  Outside the segments and the two sector buffers
    the memory is unchanged. *)
Theorem vmlinux_loads_kernel {D : Type} {ports : Ports D} {disk : image} {ata_disk : AtaDisk D disk} fuel data sector s :
  (max_wait < fuel)%nat -> elf_ok (disk := disk) (isize (ram s)) data sector ->
  exists s', vmlinux_main fuel data sector s =
      Done (Jump (u32 (eh_field (disk := disk) sector "e_entry")) [], s') /\
    (forall i, loaded_seg (disk := disk) sector i -> forall j, 0 <= j < sg_memsz (seg (disk := disk) sector i) ->
       ibyte (ram s') (sg_paddr (seg (disk := disk) sector i) + j) =
       if j <? sg_filesz (seg (disk := disk) sector i)
       then ibyte disk (SECTSIZE * sector + sg_offset (seg (disk := disk) sector i) + j) else 0) /\
    (forall x, ~ work data x -> ~ seg_bytes (disk := disk) sector (eh_field (disk := disk) sector "e_phnum") x ->
       ibyte (ram s') x = ibyte (ram s) x).
Proof.
  intros Hf Hok. apply wp_result, wp_vmlinux_main; [done|done|]. intros s' Hch Hld. split; [done|]. split.
  - intros i Hi j Hj. rewrite (Hld i Hi j Hj). unfold seg_byte, file_byte. destruct (_ <? _); [|done]. f_equal. lia.
  - intros x Hw Hx. apply Hch. tauto.
Qed.

(** ** The bzImage loader *)


(** Without the magic numbers, with a protocol before 2.02 or without the flag
    LOADED_HIGH the loader halts the machine. *)
Theorem bzimage_refuses {D : Type} {ports : Ports D} {disk : image} {ata_disk : AtaDisk D disk} fuel s :
  (max_wait < fuel)%nat -> magic_ok (disk := disk) && protocol_ok (disk := disk) = false ->
  real_sects (disk := disk) <= 64 -> 0xa000 <= isize (ram s) <= 2 ^ 32 ->
  exists s', bzimage_main fuel s = Done (Halt, s').
Proof.
  intros Hf Hbad Hrs Hram.
  assert (wp (bzimage_main fuel) (fun a _ => a = Halt) s) as (a & s' & E & ->)%wp_done by (by apply wp_bzimage_die).
  by exists s'.
Qed.

(** ** Machines for the witnesses *)

Definition empty_ram (n : Z) : mach ata := Mach (Img n (fun _ => 0)) (Ata 1 0 0 0 0 0 []).

Definition disk_of (parts : list (Z * list Z)) : image :=
  foldr (fun p m => wr m p.1 p.2) (Img (2 ^ 30) (fun _ => 0)) parts.

Lemma disk_of_wf parts : forallb (fun p => forallb (fun b => (0 <=? b) && (b <? 256)) p.2) parts = true -> image_wf (disk_of parts).
Proof.
  induction parts as [|p parts IH]; intros H; [by intros i|]. simpl in H. apply andb_true_iff in H as [H1 H2].
  apply image_wf_wr; [by apply IH | by apply bytes_check].
Qed.

(** An executable with one segment of four bytes in the file and eight in memory. *)
Definition elf_parts : list (Z * list Z) :=
  [(512 + 24, le 8 0x10000); (512 + 32, le 8 64); (512 + 56, le 2 1);
   (512 + 64, le 4 1); (512 + 64 + 8, le 8 128); (512 + 64 + 24, le 8 0x10000);
   (512 + 64 + 32, le 8 4); (512 + 64 + 40, le 8 8); (512 + 128, [0xf4; 0xeb; 0xfd; 0x90])].

(** A bzImage with one setup sector and a kernel of one full sector and 16 bytes. *)
Definition bz_parts : list (Z * list Z) :=
  let b := 512 * 539 in
  [(b + 0x1f1, [1]); (b + 0x1f4, le 4 33); (b + 0x1fe, le 2 0xaa55); (b + 0x202, le 4 0x53726448);
   (b + 0x206, le 2 0x20f); (b + 0x211, [1]); (b + 1024, [0x90; 0xf4])].

Definition elf_wf := disk_of_wf elf_parts eq_refl.
Definition bz_wf := disk_of_wf bz_parts eq_refl.

Lemma read_disk_reads_sector_witness :
  exists s', @read_disk ata (sim_ports (disk_of elf_parts)) 3 0x1000 1 (empty_ram 0x20000) = Done (tt, s') /\
    isize (ram s') = 0x20000 /\ rd (ram s') 0x1000 SECTSIZE = rd (disk_of elf_parts) (SECTSIZE * 1) SECTSIZE /\
    forall x, x < 0x1000 \/ 0x1000 + SECTSIZE <= x -> ibyte (ram s') x = 0.
Proof.
  apply (read_disk_reads_sector (ata_disk := sim_disk _ elf_wf) 3 0x1000 1 (empty_ram 0x20000));
    unfold SECTSIZE; simpl; lia.
Defined.

Lemma elf_parts_seg : seg (disk := disk_of elf_parts) 1 0 = Seg 1 128 0x10000 4 8.
Proof. by vm_compute. Qed.

Lemma elf_parts_ok : elf_ok (disk := disk_of elf_parts) 0x20000 0x3000 1.
Proof.
  assert (eh_field (disk := disk_of elf_parts) 1 "e_phnum" = 1) as En by (by vm_compute).
  assert (eh_field (disk := disk_of elf_parts) 1 "e_phoff" = 64) as Eo by (by vm_compute).
  assert (forall i, loaded_seg (disk := disk_of elf_parts) 1 i -> i = 0) as H0 by (intros i [Hi _]; lia).
  constructor; rewrite ?En, ?Eo; try (unfold separate, SECTOR_DATA_START, SECTSIZE; lia).
  - intros i Hi. assert (i = 0) as -> by lia. unfold header_ok. vm_compute. repeat split; congruence.
  - intros i ->%H0. rewrite elf_parts_seg. unfold seg_ok, separate, SECTOR_DATA_START, SECTSIZE. simpl. lia.
  - intros i j ->%H0 ->%H0. done.
Qed.

Lemma vmlinux_loads_kernel_witness :
  exists s', @vmlinux_main ata (sim_ports (disk_of elf_parts)) 3 0x3000 1 (empty_ram 0x20000) =
      Done (Jump 0x10000 [], s') /\
    (ibyte (ram s') <$> [0x10000; 0x10001; 0x10002; 0x10003; 0x10004]) = [0xf4; 0xeb; 0xfd; 0x90; 0].
Proof.
  destruct (vmlinux_loads_kernel (ata_disk := sim_disk _ elf_wf) 3 0x3000 1 (empty_ram 0x20000)) as (s' & E & Hs & _).
  { simpl. lia. }
  { exact elf_parts_ok. }
  exists s'. split; [exact E|].
  assert (loaded_seg (disk := disk_of elf_parts) 1 0) as H0 by (split; [vm_compute; split; congruence | by vm_compute]).
  specialize (Hs 0 H0). rewrite elf_parts_seg in Hs. cbn [sg_paddr sg_memsz sg_filesz sg_offset] in Hs.
  simpl. f_equal; [exact (Hs 0 ltac:(lia))|]. f_equal; [exact (Hs 1 ltac:(lia))|]. f_equal; [exact (Hs 2 ltac:(lia))|].
  f_equal; [exact (Hs 3 ltac:(lia))|]. f_equal. exact (Hs 4 ltac:(lia)).
Defined.

Lemma bz_parts_fits : bz_fits (disk := disk_of bz_parts) 0x200000.
Proof. constructor; vm_compute; try split; congruence. Qed.


Lemma bzimage_refuses_witness :
  exists s', @bzimage_main ata (sim_ports (disk_of elf_parts)) 3 (empty_ram 0x20000) = Done (Halt, s').
Proof.
  apply (bzimage_refuses (ata_disk := sim_disk _ elf_wf)); [simpl; lia | by vm_compute | vm_compute; congruence | simpl; lia].
Defined.
