(* ===== verification/DiskBoot.v ===== *)
(** * The disk that [mkgpt] builds boots

    The composition of the disk builder ([src/gpt/mkgpt.c]) with the boot sector
    ([src/bootloader/mbr.c]) and the bzImage loader ([bzimage.c]).  The three
    programs agree on sector numbers that are written out in each of them; the
    hypotheses here speak of the input files only. *)
From Stdlib Require Import ZArith Lia.
From stdpp Require Import base tactics list numbers list_numbers strings.
From S2P Require Import Prelude Memory Endian Gpt Fat FatSpec FatRep FatCreate FatSuper FatFrame FatCopy Disk DiskTheorems ProgTheorems Boot BootDisk BootLoad BootBz BootTheorems.
Open Scope Z_scope.

(** ** A file on a device *)

(** A device with the image on it: its bytes are the ones of the image, 8 bits each. *)
Definition holds_image (m device : image) : Prop :=
  forall x, 0 <= x < isize m -> ibyte device x = u8 (ibyte m x).

(** The bytes of a file from sector [sector] of the device on. *)
Definition on_disk (device : image) (sector : Z) (data : list Z) : Prop :=
  rd device (SECTSIZE * sector) (Z.of_nat (length data)) = data.

Lemma take_rd m a n k : 0 <= k <= n -> take (Z.to_nat k) (rd m a n) = rd m a k.
Proof.
  intros H. replace n with (k + (n - k)) by lia. rewrite rd_app by lia. apply take_app_length'. by rewrite length_rd.
Qed.

Lemma drop_rd m a n k : 0 <= k <= n -> drop (Z.to_nat k) (rd m a n) = rd m (a + k) (n - k).
Proof.
  intros H. replace n with (k + (n - k)) at 1 by lia. rewrite rd_app by lia. apply drop_app_length'. by rewrite length_rd.
Qed.

(** A part of a file. *)
Definition part (data : list Z) (a n : Z) : list Z := take (Z.to_nat n) (drop (Z.to_nat a) data).

Section OnDisk.
Context (device : image) (sector : Z) (data : list Z) (Hon : on_disk device sector data).

Lemma on_disk_part a n :
  0 <= a -> 0 <= n -> a + n <= Z.of_nat (length data) -> rd device (SECTSIZE * sector + a) n = part data a n.
Proof. intros. unfold part. rewrite <-Hon at 1. by rewrite drop_rd, take_rd by lia. Qed.

Lemma on_disk_byte a : 0 <= a < Z.of_nat (length data) -> ibyte device (SECTSIZE * sector + a) = nth (Z.to_nat a) data 0.
Proof. intros. rewrite <-Hon. by rewrite rd_lookup by lia. Qed.
End OnDisk.

Lemma holds_on_disk m device a sector data :
  holds_image m device -> Forall is_byte data -> a = SECTSIZE * sector -> 0 <= a ->
  a + Z.of_nat (length data) <= isize m -> rd m a (Z.of_nat (length data)) = data -> on_disk device sector data.
Proof.
  intros Hd Hb -> Ha Hl Hr. unfold on_disk. rewrite <-Hr at 2. apply list_fmap_ext. intros i x Hi.
  apply lookup_seqZ in Hi as [-> Hi]. rewrite Hd by lia. apply u8_id.
  rewrite <-Hr in Hb. rewrite Forall_forall in Hb. apply Hb. unfold rd. apply list_elem_of_fmap.
  eexists. split; [done|]. apply elem_of_seqZ. lia.
Qed.

(** The contents of a file of a finished disk, at the sector that the copy returned. *)
Lemma disk_file_on_disk `{Host} c ps g fs code m device i f b :
  disk_holds c ps g fs code m -> holds_image m device -> geom_wf g -> g_end g <= gvolume c * 512 ->
  g_bps g = 512 -> g_buf g = 512 * b -> next_free g fs <= g_maxC g ->
  fs !! i = Some f -> Forall is_byte (a_data f) -> on_disk device (b + file_sector g (take i fs)) (a_data f).
Proof.
  intros Hm Hd Hwf Hend Hb Hbuf Hroom Hi Hf. pose proof (dh_data _ _ _ _ _ _ Hm i f Hi) as Hr.
  pose proof (file_sector_addr g (take i fs)) as Ha. pose proof (dh_size _ _ _ _ _ _ Hm) as Hs.
  pose proof (first_cluster_bound g fs i f Hi) as [F1 F2]. unfold first_cluster in *.
  pose proof (data_clusters_bounds g Hwf f) as (D1 & D2 & _).
  pose proof (g_addr_mono g Hwf _ _ F2) as Hm1.
  pose proof (geom_addrs g Hwf) as (A0 & A1 & A2 & A3 & Hb2 & Hbpc & Hle & A5).
  assert (g_addr g (next_free g (take i fs) + clusters g f) <= g_end g).
  { etransitivity; [apply (g_addr_mono g Hwf _ (g_maxC g)); lia|]. unfold g_addr. nia. }
  assert (g_addr g (next_free g (take i fs)) + a_size f <= g_end g) by (unfold g_addr in *; nia).
  pose proof (g_addr_mono g Hwf _ _ F1). assert (0 <= g_addr g 3) by (unfold g_addr; pose proof (geom_facts g Hwf); nia).
  apply (holds_on_disk m _ (g_buf g + file_sector g (take i fs) * g_bps g)); [done|done| | |fold (a_size f); lia|done].
  - unfold SECTSIZE. lia.
  - lia.
Qed.

(** ** The kernel, as a file *)

(** The fields of the header of a bzImage; [bz_image.h] gives the places. *)
Definition khdr (kernel : list Z) (f : string) : Z :=
  unle (part kernel (offsetof KernelHeader f) (sizeof_field KernelHeader f)).
(** The sizes of the two parts, in sectors. *)
Definition setup_sectors (kernel : list Z) : Z :=
  1 + if khdr kernel "setup_sects" =? 0 then 4 else khdr kernel "setup_sects".
Definition full_sectors (kernel : list Z) : Z := khdr kernel "syssize" * 16 / 512.

(** A kernel the loader accepts, for a memory of [size] bytes. *)
Record bz_file (size : Z) (kernel : list Z) : Prop := {
  k_bytes : Forall is_byte kernel;
  k_boot_flag : khdr kernel "boot_flag" = 0xaa55;
  k_magic : khdr kernel "header" = 0x53726448;
  k_version : 0x0202 <= khdr kernel "version";
  k_high : Z.land (khdr kernel "loadflags") LOADED_HIGH <> 0;
  k_setup : setup_sectors kernel <= 64;
  k_complete : 512 * (setup_sectors kernel + full_sectors kernel) <= Z.of_nat (length kernel) < 2 ^ 28;
  k_fits : 0x100000 + 512 * full_sectors kernel <= size <= 2 ^ 32;
  k_low : 0x13000 <= size }.

(** The kernel in memory, ready to run. *)
Record kernel_loaded (kernel : list Z) (m : image) : Prop := {
  kl_system : rd m 0x100000 (512 * full_sectors kernel)
    = part kernel (512 * setup_sectors kernel) (512 * full_sectors kernel);
  kl_setup : forall j, 0 <= j < 512 * setup_sectors kernel ->
    (j < 0x210 \/ 0x212 <= j) -> (j < 0x224 \/ 0x226 <= j) -> (j < 0x228 \/ 0x22c <= j) ->
    ibyte m (0x2000 + j) = nth (Z.to_nat j) kernel 0;
  kl_loader : ld 1 m 0x2210 = 0xFF;
  kl_heap : ld 2 m 0x2224 = 0xFE00 /\ ld 1 m 0x2211 = u8 (Z.lor (khdr kernel "loadflags") 0x80);
  kl_cmd : rd m (ld 4 m 0x2228) (Z.of_nat (length LINUX_CMD_LINE) + 1) = LINUX_CMD_LINE ++ [0] }.

Section Kernel.
Context (size : Z) (kernel : list Z) (Hk : bz_file size kernel).

Lemma khdr_range f : 0 <= khdr kernel f.
Proof.
  apply unle_range. unfold part. apply Forall_take, Forall_drop, (k_bytes _ _ Hk).
Qed.

Lemma setup_sectors_range : 2 <= setup_sectors kernel.
Proof.
  unfold setup_sectors. pose proof (khdr_range "setup_sects").
  destruct (Z.eqb_spec (khdr kernel "setup_sects") 0); lia.
Qed.

Lemma full_sectors_range : 0 <= full_sectors kernel.
Proof. unfold full_sectors. pose proof (khdr_range "syssize"). dlia. Qed.

(** The header on the disk is the header of the file. *)
Context {D : Type} {ports : Ports D} {device : image} {ata_disk : AtaDisk D device}.
Context (Hon : on_disk device bz_start kernel).

Lemma kh_file f :
  0 <= offsetof KernelHeader f -> 0 <= sizeof_field KernelHeader f ->
  offsetof KernelHeader f + sizeof_field KernelHeader f <= 1024 -> kh (disk := device) bz_start f = khdr kernel f.
Proof.
  intros Ho Hs Hl. pose proof setup_sectors_range. pose proof full_sectors_range.
  pose proof (k_complete _ _ Hk). unfold kh, ld, khdr. f_equal. apply on_disk_part; (done || lia).
Qed.

Lemma real_sects_file : real_sects (disk := device) = setup_sectors kernel.
Proof. unfold real_sects, setup_sectors. rewrite kh_file by (by vm_compute). lia. Qed.

Lemma kernel_sects_file : kernel_sects (disk := device) = full_sectors kernel.
Proof. unfold kernel_sects, full_sectors. by rewrite kh_file by (by vm_compute). Qed.

Lemma bz_file_accepted : magic_ok (disk := device) && protocol_ok (disk := device) = true.
Proof.
  unfold magic_ok, protocol_ok. rewrite !kh_file by (by vm_compute).
  rewrite (k_boot_flag _ _ Hk), (k_magic _ _ Hk). rewrite (proj2 (Z.eqb_neq _ _) (k_high _ _ Hk)).
  by rewrite (proj2 (Z.leb_le _ _) (k_version _ _ Hk)).
Qed.

Lemma bz_file_fits : bz_fits (disk := device) size.
Proof.
  pose proof setup_sectors_range. pose proof (k_complete _ _ Hk). pose proof (k_setup _ _ Hk).
  pose proof (k_fits _ _ Hk). pose proof full_sectors_range. pose proof (khdr_range "syssize").
  split; rewrite ?real_sects_file, ?kernel_sects_file; unfold LINUX_SECTOR_SIZE, bz_start; try lia.
  rewrite kh_file by (by vm_compute). unfold full_sectors in *. dlia.
Qed.

Lemma bz_loaded_file m m' : bz_loaded (disk := device) m m' -> kernel_loaded kernel m'.
Proof.
  intros [B1 _ B3 _ B5 B6 B7 B8 B9 _]. pose proof (k_complete _ _ Hk). pose proof setup_sectors_range.
  pose proof full_sectors_range. rewrite real_sects_file, kernel_sects_file in *. unfold LINUX_SECTOR_SIZE in *.
  split.
  - rewrite <-(on_disk_part device bz_start kernel Hon) by lia. apply rd_ext. intros i Hi. rewrite B1 by lia.
    unfold SECTSIZE. f_equal. lia.
  - intros j Hj J1 J2 J3. rewrite B3 by done. apply on_disk_byte; [done|lia].
  - done.
  - split; [done|]. rewrite B6. by rewrite kh_file by (by vm_compute).
  - by rewrite B8.
Qed.
End Kernel.

(** ** The start of the machine *)

Section Start.
Context {D : Type} {ports : Ports D} {device : image} {ata_disk : AtaDisk D device}.

(** The sector of the second stage, as [mbr.c] has it. *)
Definition loader_sector : Z := 3 + 528.

(** The boot sector loads the first sector of the second stage and enters it. *)
Lemma wp_elf_start fuel (Q : ending -> mach D -> Prop) s :
  (max_wait < fuel)%nat -> 0x1400 <= isize (ram s) <= 2 ^ 32 ->
  (forall s', put (ram s) 0x1200 512 (fun j => file_byte (disk := device) loader_sector j) (ram s') ->
     Q (Jump 0x1200 [bz_start]) s') ->
  wp (__elf_start fuel) Q s.
Proof.
  intros Hf Hr HQ. unfold __elf_start. apply wp_bind, wp_read_disk; unfold SECTSIZE; [done|lia..|].
  intros s' Hp. by apply wp_ret, HQ.
Qed.

(** The second stage loads its other sector and then the kernel. *)
Lemma wp_loader_start fuel kernel m (Q : ending -> mach D -> Prop) s :
  (max_wait < fuel)%nat -> bz_file (isize (ram s)) kernel -> on_disk device bz_start kernel ->
  put m 0x1200 512 (fun j => file_byte (disk := device) loader_sector j) (ram s) ->
  (forall s', kernel_loaded kernel (ram s') -> rd (ram s') 0x1200 1024 = rd device (SECTSIZE * loader_sector) 1024 ->
     Q (JumpToSetup 0x2000 0x10000) s') ->
  wp (loader_start fuel) Q s.
Proof.
  intros Hf Hk Hon Hp HQ. pose proof (k_low _ _ Hk). pose proof (k_fits _ _ Hk).
  unfold loader_start. apply wp_bind, wp_read_disk; unfold SECTSIZE; [done|lia..|].
  intros s2 Hp2. pose proof (put_size _ _ _ _ _ Hp2) as Hs2. rewrite <-Hs2 in Hk.
  apply wp_bzimage_main; [done | by apply (bz_file_accepted _ _ Hk) | by apply (bz_file_fits _ _ Hk) |].
  intros s3 Hl. apply HQ; [by apply (bz_loaded_file _ _ Hk (device := device) Hon _ _ Hl)|].
  assert (put m 0x1200 (512 + 512) (fun j => file_byte (disk := device) loader_sector j) (ram s2)) as Hp12.
  { apply (put_app _ _ _ _ _ (ram s)); [done|lia|lia|]. destruct Hp2 as [Hsz Hb]. split; [done|].
    intros x. rewrite Hb, !ibyte_splice. destruct (_ && _); [|done]. unfold sector_byte, file_byte, loader_sector, SECTSIZE. f_equal. lia. }
  apply rd_ext. intros i Hi. rewrite (bz_below _ _ Hl) by lia. rewrite (put_inside _ _ _ _ _ _ Hp12) by lia.
  unfold file_byte. f_equal. lia.
Qed.
End Start.

(** ** The built disk boots *)

Section WithHost.
Context {host : Host}.

(** A boot file of at most two sectors, not empty, and a kernel that the loader
    accepts, for a machine with a memory of [size] bytes. *)
Record boot_inputs (size : Z) (boot kernel : list Z) : Prop := {
  bi_boot : (1 <= length boot <= 1024)%nat;
  bi_bytes : Forall is_byte boot;
  bi_kernel : bz_file size kernel }.

(** What a booting machine does with the disk: on any machine with a memory of [size]
    bytes whose ATA disk holds [disk], the boot sector loads the start of the boot file and
    jumps to it with the sector of the kernel; from there the second stage completes
    itself, loads the kernel and jumps to its setup code. *)
Definition boots (size : Z) (boot kernel : list Z) (disk : image) : Prop :=
  forall (D : Type) (ports : Ports D) (device : image) (ata_disk : AtaDisk D device) wait (s : mach D),
  holds_image disk device -> (max_wait < wait)%nat -> isize (ram s) = size ->
  exists s1 s2,
    __elf_start wait s = Done (Jump 0x1200 [539], s1) /\
    (forall j, (j < Nat.min 512 (length boot))%nat -> ibyte (ram s1) (0x1200 + Z.of_nat j) = nth j boot 0) /\
    loader_start wait s1 = Done (JumpToSetup 0x2000 0x10000, s2) /\
    kernel_loaded kernel (ram s2) /\ rd (ram s2) 0x1200 (Z.of_nat (length boot)) = boot.

(** The first stage, on a device that has the boot file where the boot sector looks for it. *)
Lemma first_stage {D} {ports : Ports D} {device} {ata_disk : AtaDisk D device} wait boot (s : mach D) :
  (max_wait < wait)%nat -> 0x1400 <= isize (ram s) <= 2 ^ 32 -> on_disk device loader_sector boot ->
  exists s1, __elf_start wait s = Done (Jump 0x1200 [539], s1) /\
    put (ram s) 0x1200 512 (fun j => file_byte (disk := device) loader_sector j) (ram s1) /\
    forall j, (j < Nat.min 512 (length boot))%nat -> ibyte (ram s1) (0x1200 + Z.of_nat j) = nth j boot 0.
Proof.
  intros Hw Hs Hon. apply wp_result, wp_elf_start; [done..|]. intros s1 Hp. split; [done|]. split; [done|].
  intros j Hj. rewrite (put_inside _ _ _ _ _ _ Hp) by lia. unfold file_byte. rewrite (on_disk_byte _ _ _ Hon) by lia. f_equal. lia.
Qed.

Lemma boots_intro size boot kernel disk :
  boot_inputs size boot kernel ->
  (forall device, holds_image disk device -> on_disk device loader_sector boot /\ on_disk device bz_start kernel) ->
  boots size boot kernel disk.
Proof.
  intros [Hlen _ Hk] Hon D ports device ata wait s Hd Hw Hs. destruct (Hon device Hd) as [Hon1 Hon2].
  pose proof (k_low _ _ Hk). pose proof (k_fits _ _ Hk).
  destruct (first_stage wait boot s Hw ltac:(lia) Hon1) as (s1 & E1 & Hp & Hb).
  assert (wp (loader_start wait) (fun r s2 => r = JumpToSetup 0x2000 0x10000 /\ kernel_loaded kernel (ram s2) /\
    rd (ram s2) 0x1200 1024 = rd device (SECTSIZE * loader_sector) 1024) s1) as (r & s2 & E2 & -> & Hl & Hr)%wp_done.
  { apply (wp_loader_start _ kernel (ram s)); [done| |done|done|done].
    by rewrite (put_size _ _ _ _ _ Hp), Hs. }
  exists s1, s2. split_and!; try done. rewrite <-(take_rd _ _ 1024), Hr, take_rd by lia. exact Hon1.
Qed.

(** A volume at sector 3 with clusters of 8 sectors and tables of 256, whose first two files
    are the boot file and the kernel: both are where the loaders look for them. *)
Lemma volume_files boot kernel nm1 nm2 rest c ps g code disk device :
  let fs := MkAFile nm1 5 boot :: MkAFile nm2 5 kernel :: rest in
  (1 <= length boot <= 1024)%nat -> Forall is_byte boot -> Forall is_byte kernel ->
  disk_holds c ps g fs code disk -> holds_image disk device ->
  geom_wf g -> g_end g <= gvolume c * 512 -> g_bps g = 512 -> g_buf g = 512 * 3 -> g_spc g = 8 -> g_fat g = 256 ->
  next_free g fs <= g_maxC g -> on_disk device loader_sector boot /\ on_disk device bz_start kernel.
Proof.
  intros fs Hl Hb Hk Hm Hd Hwf Hend Hbps Hbuf Hspc Hfat Hroom.
  assert (forall i f, fs !! i = Some f -> Forall is_byte (a_data f) -> on_disk device (3 + file_sector g (take i fs)) (a_data f)) as Hf.
  { intros i f. by apply (disk_file_on_disk _ _ _ _ _ _ _ _ _ 3 Hm Hd Hwf). }
  assert (forall l, file_sector g l = 528 + 8 * used g l) as Hsec by (intros l; unfold file_sector, next_free; rewrite Hspc, Hfat; lia).
  assert (used g (take 1 fs) = 1) as Hu.
  { simpl. unfold clusters, data_clusters, a_size. simpl a_data. assert (g_bpc g = 4096) as -> by (unfold g_bpc; lia). dlia. }
  split.
  - pose proof (Hf 0%nat _ eq_refl Hb) as H. rewrite Hsec in H. exact H.
  - pose proof (Hf 1%nat _ eq_refl Hk) as H. by rewrite Hsec, Hu in H.
Qed.

Lemma volume_boots size boot kernel nm1 nm2 rest c ps g code disk :
  let fs := MkAFile nm1 5 boot :: MkAFile nm2 5 kernel :: rest in
  boot_inputs size boot kernel -> disk_holds c ps g fs code disk ->
  geom_wf g -> g_end g <= gvolume c * 512 -> g_bps g = 512 -> g_buf g = 512 * 3 -> g_spc g = 8 -> g_fat g = 256 ->
  next_free g fs <= g_maxC g -> boots size boot kernel disk.
Proof.
  intros fs Hb Hm Hwf Hend Hbps Hbuf Hspc Hfat Hroom. apply boots_intro; [done|]. intros device Hd.
  destruct Hb as [Hl Hb Hk]. by apply (volume_files boot kernel nm1 nm2 rest c ps g code disk device Hl Hb (k_bytes _ _ Hk) Hm Hd).
Qed.


(** The same for [installer], when the first partition is given 128 MiB. *)
Theorem installer_disk_boots fuel e argv a bz d bb size m boot kernel busybox init code s0 memory :
  host_order = LittleEndian ->
  Installer.parse_args fuel argv 1 Installer.no_args = Done a -> Installer.print_help a = false ->
  Installer.path_bzimage a = Some bz -> Installer.dst a = Some d -> Installer.path_busybox a = Some bb ->
  installer_inputs e bz d bb size m boot kernel busybox init code ->
  Installer.arg_boot_size a = 128 ->
  let D := size / 4096 * 4096 in
  let fs := installer_files boot kernel busybox init in
  128 * 2 ^ 20 + 32768 <= D -> D < 2 ^ 63 -> next_free (installer_geom 128) fs <= g_maxC (installer_geom 128) ->
  boot_inputs memory boot kernel ->
  exists disk, Installer.installer_main fuel e argv s0 = Done (Go (installer_offsets 128 bz bb fs), disk) /\ boots memory boot kernel disk.
Proof.
  intros Hh Hargs Hhelp Hbz Hd Hbb Hin Hmib D fs Hfit HD Hroom Hb. apply wp_result.
  apply (wp_installer_main fuel e argv a bz d bb size m boot kernel busybox init code); rewrite ?Hmib; try done.
  intros disk Hm. split; [done|].
  pose proof (config_geom_wf 1536 (installer_fat 128) ltac:(lia) (installer_fat_ok 128 ltac:(lia)) : geom_wf (installer_geom 128)) as Hwf.
  assert (128 * 2048 + 64 <= D / 512) by (apply Z.div_le_lower_bound; lia).
  apply (volume_boots memory boot kernel _ _ _ _ _ _ _ _ Hb Hm Hwf); try done; try (vm_compute; congruence).
  change (g_end (installer_geom 128)) with (1536 + 512 * 262144). simpl gvolume. fold D. lia.
Qed.

(** It is the only size for which the second stage is where the boot sector looks for it. *)
Theorem installer_boot_size mib : 1 <= mib < 4096 ->
  3 + file_sector (installer_geom mib) [] = loader_sector <-> mib = 128.
Proof.
  intros Hm. assert (forallb (fun i => Bool.eqb (3 + file_sector (installer_geom (Z.of_nat i)) [] =? loader_sector) (Z.of_nat i =? 128)) (seq 1 4095) = true) as H
    by (by vm_compute).
  rewrite forallb_forall in H. specialize (H (Z.to_nat mib) ltac:(apply in_seq; lia)). rewrite Z2Nat.id in H by lia.
  apply Bool.eqb_prop in H. rewrite <-!Z.eqb_eq, H. done.
Qed.

(** On a disk that [installer]
    partitions by default, with 64 MiB for the first partition, sector 531
    belongs to the kernel: the boot sector loads byte 126976 of the kernel file
    instead of the second stage, and jumps to it. *)
Theorem installer_default_boots_kernel_data c ps loader kernel busybox init code disk :
  let fs := installer_files loader kernel busybox init in
  disk_holds c ps (installer_geom 64) fs code disk -> g_end (installer_geom 64) <= gvolume c * 512 ->
  next_free (installer_geom 64) fs <= g_maxC (installer_geom 64) ->
  (length loader <= 4096)%nat -> Forall is_byte kernel -> 127488 <= Z.of_nat (length kernel) ->
  forall (D : Type) (ports : Ports D) (device : image) (ata_disk : AtaDisk D device) wait (s : mach D),
  holds_image disk device -> (max_wait < wait)%nat -> 0x1400 <= isize (ram s) <= 2 ^ 32 ->
  exists s1, __elf_start wait s = Done (Jump 0x1200 [539], s1) /\ rd (ram s1) 0x1200 512 = part kernel 126976 512.
Proof.
  intros fs Hm Hend Hroom Hl Hb Hk D ports device ata wait s Hd Hw Hs.
  pose proof (config_geom_wf 1536 (installer_fat 64) ltac:(lia) (installer_fat_ok 64 ltac:(lia)) : geom_wf (installer_geom 64)) as Hwf.
  assert (file_sector (installer_geom 64) (take 1 fs) = 280) as Hsec.
  { unfold file_sector, next_free. simpl take. unfold used. simpl foldr. unfold clusters, data_clusters, a_size.
    simpl a_data. change (g_bpc (installer_geom 64)) with 4096. change (g_fat (installer_geom 64)) with 128.
    change (g_spc (installer_geom 64)) with 8. dlia. }
  assert (on_disk device 283 kernel) as Hon.
  { change 283 with (3 + 280). rewrite <-Hsec.
    by apply (disk_file_on_disk _ _ _ _ _ _ _ 1 (MkAFile (name11 (c_str "kernel")) 5 kernel) 3 Hm Hd Hwf). }
  apply wp_result, wp_elf_start; [done..|]. intros s1 Hp. split; [done|].
  rewrite <-(on_disk_part _ _ _ Hon) by lia. apply rd_ext. intros i Hi.
  rewrite (put_inside _ _ _ _ _ _ Hp) by lia. unfold file_byte, loader_sector, SECTSIZE. f_equal. lia.
Qed.
End WithHost.

(** ** A run *)
Section Demo.
#[local] Instance boot_host : Host := LittleEndian.

Definition demo_boot : list Z := [0xf4; 0xeb; 0xfd].
(** A kernel with one sector of setup code besides the boot sector, and one system
    sector. *)
Definition demo_kernel : list Z :=
  replicate 0x1f1 0 ++ [1; 0; 0] ++ le 4 32 ++ replicate 6 0 ++ le 2 0xaa55 ++ [0; 0] ++ le 4 0x53726448 ++ le 2 0x20f ++
  replicate 9 0 ++ [1] ++ replicate 494 0 ++ replicate 512 0x90.

Definition boot_env : Mkgpt.mkgpt_env :=
  Mkgpt.MkEnv true true (fun p => Some (file_fd
    (if decide (p = c_str "../bootloader/linuz.bin") then demo_boot
     else if decide (p = c_str "../bootloader/kernel") then demo_kernel else small_file))) Mkgpt.disk_size.

Lemma demo_boot_inputs : boot_inputs 0x200000 demo_boot demo_kernel.
Proof.
  split; [vm_compute; lia | by apply bytes_check |].
  split; try (by apply bytes_check); vm_compute; try split; congruence.
Qed.

End Demo.
