(* ===== verification/DiskBootElf.v ===== *)
(** * The disk that [mkgpt] builds boots an ELF kernel

    The same composition as in DiskBoot.v with the ELF loader ([vmlinux.c]) as the second
    stage and an executable as the kernel file. *)
From Stdlib Require Import ZArith Lia.
From stdpp Require Import base tactics list numbers list_numbers strings.
From S2P Require Import Prelude Memory Endian Gpt Fat FatSpec FatRep FatCreate FatSuper FatFrame FatCopy Disk DiskTheorems ProgTheorems Boot BootDisk BootLoad BootBz BootTheorems DiskBoot.
Open Scope Z_scope.

(** ** The kernel, as a file *)

(** A file as an image: its header and segments are the ones that the loader would find at
    sector 0. *)
Definition kernel_image (kernel : list Z) : image := Img (Z.of_nat (length kernel)) (fun x => nth (Z.to_nat x) kernel 0).
Abbreviation file_field kernel := (eh_field (disk := kernel_image kernel) 0).
Abbreviation file_seg kernel := (seg (disk := kernel_image kernel) 0).
Abbreviation file_loads kernel := (loaded_seg (disk := kernel_image kernel) 0).

(** An executable that the ELF loader can load into a memory of [size] bytes, with its array
    at [data]: [elf_ok], everything it refers to is in the file, and nothing is loaded
    over the loader. *)
Record elf_file (size data : Z) (kernel : list Z) : Prop := {
  ef_ok : elf_ok (disk := kernel_image kernel) size data 0;
  ef_bytes : Forall is_byte kernel;
  ef_header : 64 <= Z.of_nat (length kernel) < 2 ^ 28;
  ef_table : file_field kernel "e_phoff" + sizeof Elf64_Phdr * file_field kernel "e_phnum" <= Z.of_nat (length kernel);
  ef_segment : forall i, file_loads kernel i -> sg_offset (file_seg kernel i) + sg_filesz (file_seg kernel i) <= Z.of_nat (length kernel);
  ef_loader : (forall i, file_loads kernel i -> separate (sg_paddr (file_seg kernel i)) (sg_memsz (file_seg kernel i)) 0x1200 0x400) /\
    separate data 512 0x1200 0x400 }.

Lemma kernel_image_wf kernel : Forall is_byte kernel -> image_wf (kernel_image kernel).
Proof.
  intros Hk x. change (is_byte (nth (Z.to_nat x) kernel 0)). destruct (nth_lookup_or_length kernel (Z.to_nat x) 0) as [H|H]; [|by rewrite nth_overflow by lia].
  rewrite Forall_forall in Hk. apply Hk. by apply list_elem_of_lookup_2 in H.
Qed.

Section Transfer.
Context (size data : Z) (kernel : list Z) (Hk : elf_file size data kernel).
Context (device : image) (sector : Z) (Hs : 0 <= sector <= 2 ^ 20) (Hon : on_disk device sector kernel).

Lemma ld_file n a : 0 <= a -> 0 <= n -> a + n <= Z.of_nat (length kernel) ->
  ld n device (SECTSIZE * sector + a) = ld n (kernel_image kernel) (SECTSIZE * 0 + a).
Proof.
  intros Ha Hn Hl. unfold ld. f_equal. apply rd_ext. intros i Hi.
  replace (SECTSIZE * sector + a + i) with (SECTSIZE * sector + (a + i)) by lia.
  rewrite (on_disk_byte _ _ _ Hon) by lia. done.
Qed.

Lemma eh_field_file f : eh_field (disk := device) sector f = file_field kernel f.
Proof.
  pose proof (find_field_bounds Elf64_Ehdr f 0) as H. pose proof (ef_header _ _ _ Hk).
  assert (Forall (fun p => 0 <= p.2) Elf64_Ehdr) as Hp by (repeat constructor; simpl; lia).
  specialize (H Hp). change (sizeof Elf64_Ehdr) with 64 in H.
  unfold eh_field. apply ld_file; unfold offsetof, sizeof_field, fld; lia.
Qed.

Lemma segment_at_file off : 0 <= off -> off + sizeof Elf64_Phdr <= Z.of_nat (length kernel) ->
  segment_at (disk := device) sector off = segment_at (disk := kernel_image kernel) 0 off.
Proof.
  intros Ho Hl. assert (forall f, ph_field (disk := device) (SECTSIZE * sector + off) f = ph_field (disk := kernel_image kernel) (SECTSIZE * 0 + off) f) as Hf.
  { intros f. pose proof (phdr_field_bounds f) as (H1 & H2 & H3). unfold ph_field. rewrite <-!Z.add_assoc. apply ld_file; lia. }
  unfold segment_at. by rewrite !Hf.
Qed.

Lemma field_range f : 0 <= sizeof_field Elf64_Ehdr f -> 0 <= file_field kernel f.
Proof. intros H. apply ld_range; [done|]. apply kernel_image_wf, (ef_bytes _ _ _ Hk). Qed.

Lemma seg_file i : 0 <= i < file_field kernel "e_phnum" -> seg (disk := device) sector i = file_seg kernel i.
Proof.
  intros Hi. pose proof (ef_table _ _ _ Hk). pose proof (field_range "e_phoff" ltac:(by vm_compute)).
  unfold seg. rewrite eh_field_file. change (sizeof Elf64_Phdr) with 56 in *.
  apply segment_at_file; change (sizeof Elf64_Phdr) with 56; lia.
Qed.

Lemma loaded_seg_file i : loaded_seg (disk := device) sector i <-> file_loads kernel i.
Proof. unfold loaded_seg. rewrite eh_field_file. split; intros [Hi Hl]; (split; [done|]); by rewrite seg_file in *. Qed.

Lemma elf_ok_file : elf_ok (disk := device) size data sector.
Proof.
  pose proof (ef_ok _ _ _ Hk) as [_ H2 H3 H4 H5 H6 H7]. pose proof (ef_header _ _ _ Hk). pose proof (ef_table _ _ _ Hk) as Ht.
  assert (forall i, loaded_seg (disk := device) sector i -> file_loads kernel i /\ seg (disk := device) sector i = file_seg kernel i) as Hl.
  { intros i Hi%loaded_seg_file. split; [done|]. by apply seg_file, Hi. }
  split; rewrite ?eh_field_file; try done; [lia|..].
  - intros i Hi. specialize (H5 i Hi). unfold header_ok in *. destruct H5 as (A & B & _). split; [done|]. split; [done|].
    change (sizeof Elf64_Phdr) with 56 in *. unfold SECTSIZE in *.
    assert ((file_field kernel "e_phoff" + i * 56) / 512 <= 2 ^ 20) by (apply Z.div_le_upper_bound; lia). lia.
  - intros i [Hi ->]%Hl. pose proof (ef_segment _ _ _ Hk i Hi). specialize (H6 i Hi). unfold seg_ok in *.
    destruct H6 as (A & B & C & E & _ & F). repeat (split; [done|]). split; [unfold SECTSIZE in *; lia|done].
  - intros i j [Hi ->]%Hl [Hj ->]%Hl. by apply H7.
Qed.
End Transfer.

(** ** The machine *)

Definition boots_elf (size data : Z) (boot kernel : list Z) (disk : image) : Prop :=
  forall (D : Type) (ports : Ports D) (device : image) (ata_disk : AtaDisk D device) wait (s : mach D),
  holds_image disk device -> (max_wait < wait)%nat -> isize (ram s) = size ->
  exists s1 s2,
    __elf_start wait s = Done (Jump 0x1200 [539], s1) /\
    (forall j, (j < Nat.min 512 (length boot))%nat -> ibyte (ram s1) (0x1200 + Z.of_nat j) = nth j boot 0) /\
    vmlinux_start wait data s1 = Done (Jump (u32 (file_field kernel "e_entry")) [], s2) /\
    (forall i, file_loads kernel i -> forall j, 0 <= j < sg_memsz (file_seg kernel i) ->
       ibyte (ram s2) (sg_paddr (file_seg kernel i) + j) =
       if j <? sg_filesz (file_seg kernel i) then nth (Z.to_nat (sg_offset (file_seg kernel i) + j)) kernel 0 else 0) /\
    rd (ram s2) 0x1200 (Z.of_nat (length boot)) = boot.

(** The second stage loads its other sector and then the kernel. *)
Lemma wp_vmlinux_start {D} {ports : Ports D} {device} {ata_disk : AtaDisk D device} fuel size data kernel m (Q : ending -> mach D -> Prop) s :
  (max_wait < fuel)%nat -> elf_file size data kernel -> isize (ram s) = size -> on_disk device bz_start kernel ->
  0x1600 <= size -> put m 0x1200 512 (fun j => file_byte (disk := device) loader_sector j) (ram s) ->
  (forall s', (forall i, file_loads kernel i -> seg_loaded (disk := device) bz_start (ram s') (file_seg kernel i)) ->
     rd (ram s') 0x1200 1024 = rd device (SECTSIZE * loader_sector) 1024 ->
     Q (Jump (u32 (file_field kernel "e_entry")) []) s') ->
  wp (vmlinux_start fuel data) Q s.
Proof.
  intros Hf Hk Hs Hon Hsize Hp HQ. pose proof (ef_ok _ _ _ Hk) as [_ [_ Hr] _ _ _ _ _]. assert (0 <= bz_start <= 2 ^ 20) as Hbz by done.
  unfold vmlinux_start. apply wp_bind, wp_read_disk; unfold SECTSIZE in *; [done|lia..|].
  intros s2 Hp2. pose proof (put_size _ _ _ _ _ Hp2) as Hs2.
  assert (put m 0x1200 (512 + 512) (fun j => file_byte (disk := device) loader_sector j) (ram s2)) as Hp12.
  { apply (put_app _ _ _ _ _ (ram s)); [done|lia|lia|]. destruct Hp2 as [Hsz Hb]. split; [done|].
    intros x. rewrite Hb, !ibyte_splice. destruct (_ && _); [|done]. unfold sector_byte, file_byte, loader_sector, SECTSIZE. f_equal. lia. }
  apply wp_vmlinux_main; [done| |].
  { rewrite Hs2, Hs. by apply (elf_ok_file size data kernel Hk). }
  intros s3 Hch Hld. change 539 with bz_start in *. rewrite (eh_field_file size data kernel Hk device bz_start Hon). apply HQ.
  - intros i Hi. rewrite <-(seg_file size data kernel Hk device bz_start Hon) by apply Hi.
    by apply Hld, (loaded_seg_file size data kernel Hk device bz_start Hon).
  - apply rd_ext. intros x Hx. rewrite (proj2 Hch).
    + rewrite (put_inside _ _ _ _ _ _ Hp12) by lia. unfold file_byte, SECTSIZE. f_equal. lia.
    + destruct (ef_loader _ _ _ Hk) as [Hsegs Hdata].
      intros [Hw|(i & _ & Hi%(loaded_seg_file size data kernel Hk device bz_start Hon) & Hw)].
      * unfold work, inside, separate, SECTOR_DATA_START, SECTSIZE in *. lia.
      * rewrite (seg_file size data kernel Hk device bz_start Hon) in Hw by apply Hi. specialize (Hsegs i Hi). unfold inside, separate in *. lia.
Qed.

Section WithHost.
Context {host : Host}.

(** With an executable as the kernel file and the ELF loader as the boot file, the disk of
    [mkgpt] boots as well: every segment that the loader takes is in memory, its bytes of
    the file followed by zeros, when it jumps to the entry point. *)
Theorem mkgpt_disk_boots_elf fuel e boot kernel busybox init code s0 size data :
  host_order = LittleEndian -> mkgpt_inputs e boot kernel busybox init code ->
  let fs := mkgpt_files boot kernel busybox init in
  next_free mkgpt_geom fs <= g_maxC mkgpt_geom ->
  (1 <= length boot <= 1024)%nat -> Forall is_byte boot -> elf_file size data kernel -> 0x1600 <= size ->
  exists disk, Mkgpt.mkgpt_main fuel e s0 = Done (Go (mkgpt_offsets fs), disk) /\ boots_elf size data boot kernel disk.
Proof.
  intros Hh Hin fs Hroom Hl Hb Hk Hsize. apply wp_result, (wp_mkgpt_main fuel e boot kernel busybox init code); [done..|].
  intros disk Hm. split; [done|]. intros D ports device ata wait s Hd Hw Hs.
  pose proof (config_geom_wf 1536 mkgpt_fat ltac:(lia) mkgpt_fat_ok : geom_wf mkgpt_geom) as Hwf.
  assert (on_disk device loader_sector boot /\ on_disk device bz_start kernel) as [Hon1 Hon2].
  { apply (volume_files boot kernel _ _ _ _ _ _ _ _ device Hl Hb (ef_bytes _ _ _ Hk) Hm Hd Hwf); (done || vm_compute; congruence). }
  pose proof (ef_ok _ _ _ Hk) as [_ [_ Hr] _ _ _ _ _].
  destruct (first_stage wait boot s Hw ltac:(lia) Hon1) as (s1 & E1 & Hp & Hbytes).
  assert (wp (vmlinux_start wait data) (fun r s2 => r = Jump (u32 (file_field kernel "e_entry")) [] /\
    (forall i, file_loads kernel i -> seg_loaded (disk := device) bz_start (ram s2) (file_seg kernel i)) /\
    rd (ram s2) 0x1200 1024 = rd device (SECTSIZE * loader_sector) 1024) s1) as (r & s2 & E2 & -> & Hsg & Hbo)%wp_done.
  { apply (wp_vmlinux_start wait size data kernel (ram s)); try done. by rewrite (put_size _ _ _ _ _ Hp). }
  exists s1, s2. split_and!; try done.
  - intros i Hi j Hj. rewrite (Hsg i Hi j Hj). unfold seg_byte, file_byte. destruct (Z.ltb_spec j (sg_filesz (file_seg kernel i))); [|done].
    apply on_disk_byte; [done|]. pose proof (ef_segment _ _ _ Hk i Hi).
    assert (0 <= sg_offset (file_seg kernel i)) by (apply ld_range; [done|]; apply kernel_image_wf, (ef_bytes _ _ _ Hk)). lia.
  - rewrite <-(take_rd _ _ 1024), Hbo, take_rd by lia. exact Hon1.
Qed.
End WithHost.

(** ** A run *)
Section Demo.
#[local] Instance boot_elf_host : Host := LittleEndian.

(** An executable with one segment of four bytes in the file and eight in memory. *)
Definition demo_elf : list Z :=
  replicate 24 0 ++ le 8 0x10000 ++ le 8 64 ++ replicate 16 0 ++ le 2 1 ++ replicate 6 0 ++
  le 4 1 ++ le 4 5 ++ le 8 128 ++ le 8 0 ++ le 8 0x10000 ++ le 8 4 ++ le 8 8 ++ replicate 16 0 ++ [0xf4; 0xeb; 0xfd; 0x90].

Lemma demo_elf_seg : file_seg demo_elf 0 = Seg 1 128 0x10000 4 8.
Proof. by vm_compute. Qed.

Lemma demo_elf_ok : elf_file 0x20000 0x3000 demo_elf.
Proof.
  assert (file_field demo_elf "e_phnum" = 1) as En by (by vm_compute).
  assert (file_field demo_elf "e_phoff" = 64) as Eo by (by vm_compute).
  assert (forall i, file_loads demo_elf i -> i = 0) as H0 by (intros i [Hi _]; lia).
  split; rewrite ?En, ?Eo.
  - constructor; rewrite ?En, ?Eo; try (unfold separate, SECTOR_DATA_START, SECTSIZE; lia).
    + intros i Hi. assert (i = 0) as -> by lia. unfold header_ok. vm_compute. repeat split; congruence.
    + intros i ->%H0. rewrite demo_elf_seg. unfold seg_ok, separate, SECTOR_DATA_START, SECTSIZE. simpl. lia.
    + intros i j ->%H0 ->%H0. done.
  - by apply bytes_check.
  - by vm_compute.
  - by vm_compute.
  - intros i ->%H0. rewrite demo_elf_seg. by vm_compute.
  - split; [|unfold separate; lia]. intros i ->%H0. rewrite demo_elf_seg. unfold separate. simpl. lia.
Qed.

Definition boot_elf_env : Mkgpt.mkgpt_env :=
  Mkgpt.MkEnv true true (fun p => Some (file_fd
    (if decide (p = c_str "../bootloader/linuz.bin") then demo_boot
     else if decide (p = c_str "../bootloader/kernel") then demo_elf else small_file))) Mkgpt.disk_size.

Lemma mkgpt_disk_boots_elf_run : exists disk out,
  Mkgpt.mkgpt_main 0 boot_elf_env (Img 0 (fun _ => 0)) = Done (Go out, disk) /\ boots_elf 0x20000 0x3000 demo_boot demo_elf disk.
Proof.
  assert (mkgpt_inputs boot_elf_env demo_boot demo_elf small_file small_file small_file) as Hin.
  { split; try done; try (eexists; split; [reflexivity | try apply file_fd_reads; done]). simpl. lia. }
  destruct (mkgpt_disk_boots_elf 0 boot_elf_env _ _ _ _ _ (Img 0 (fun _ => 0)) 0x20000 0x3000 eq_refl Hin
    ltac:(vm_compute; congruence) ltac:(simpl; lia) ltac:(by apply bytes_check) demo_elf_ok ltac:(lia)) as (disk & Hrun & Hboot).
  exists disk. eexists. split; [exact Hrun | exact Hboot].
Qed.
End Demo.
