(* ===== verification/UserStart.v ===== *)
(** * The first programs: the command line of the loader and [src/gpt/init.c]

    The loader tells the kernel to run [/init], which runs the shell of [/busybox].  Both
    are files in the root directory of the volume that [mkgpt] builds. *)
From Stdlib Require Import ZArith Lia.
From stdpp Require Import base tactics list numbers list_numbers strings.
From S2P Require Import Prelude Memory Endian Gpt Fat FatSpec FatRep FatCreate FatSuper FatFrame FatCopy Disk DiskTheorems ProgTheorems Boot.
Open Scope Z_scope.

(** ** [init.c] *)

Definition init_argv : list (list Z) := c_str <$> ["/busybox"; "sh"]%string.
Definition init_envp : list (list Z) :=
  c_str <$> ["PATH=/:/bin:/usr/bin"; "TERM=linux"; "HOME=/"; "HOSTTYPE=x86_64"; "PWD=/"]%string.

(** The system call [execve] replaces the program with the file at a path, or returns when
    [loads] refuses it; [exit] ends the process. *)
Inductive process : Type := Running (path : list Z) (argv envp : list (list Z)) | Exited (code : Z).
Definition execve (loads : list Z -> option (list Z)) (filename : list Z) (argv envp : list (list Z)) : option process :=
  match loads filename with Some _ => Some (Running filename argv envp) | None => None end.
Definition init_start (loads : list Z -> option (list Z)) : process :=
  match execve loads (hd [] init_argv) init_argv init_envp with Some p => p | None => Exited 1 end.

(** ** Names in the root directory *)

(** The file with a name, read by the reference reader: the first entry with this name. *)
Fixpoint find_file (g : geom) (fuel n : nat) (m : image) (i : Z) (name : list Z) : option (list Z) :=
  match n with
  | O => None
  | S n =>
      match read_file g fuel m i with
      | Some f => if decide (a_name f = name) then Some (a_data f) else find_file g fuel n m (i + 1) name
      | None => None
      end
  end.
(** A file in the root directory by its path. *)
Definition root_file (g : geom) (fuel : nat) (m : image) (path : list Z) : option (list Z) :=
  match path with 47 :: name => find_file g fuel (Z.to_nat (g_numRoot g)) m 0 (name11 name) | _ => None end.

Lemma find_file_spec g fuel m (fs : list afile) :
  (forall i f, fs !! i = Some f -> read_file g fuel m (Z.of_nat i) = Some f) ->
  forall k n i f, fs !! (k + i)%nat = Some f -> (i < n)%nat ->
  (forall j f', (j < i)%nat -> fs !! (k + j)%nat = Some f' -> a_name f' <> a_name f) ->
  find_file g fuel n m (Z.of_nat k) (a_name f) = Some (a_data f).
Proof.
  intros Hr k n. revert k. induction n as [|n IH]; intros k i f Hi Hn Hnew; [lia|]. cbn [find_file].
  destruct i as [|i].
  - rewrite Nat.add_0_r in Hi. rewrite (Hr k f Hi). by rewrite decide_True.
  - destruct (fs !! k) as [f0|] eqn:E0; [|apply lookup_ge_None in E0; apply lookup_lt_Some in Hi; lia].
    rewrite (Hr k f0 E0), decide_False by (intros Hf; apply (Hnew 0%nat f0); [lia | by rewrite Nat.add_0_r | done]).
    replace (Z.of_nat k + 1) with (Z.of_nat (S k)) by lia. apply (IH (S k) i f); [by rewrite <-Nat.add_succ_comm in Hi |lia|].
    intros j f' Hj Hf'. apply (Hnew (S j) f'); [lia|]. by rewrite <-Nat.add_succ_comm.
Qed.

(** ** The command line *)

(** The value of an option of the kernel's command line: the words are divided by blanks. *)
Fixpoint words_of (acc line : list Z) : list (list Z) :=
  match line with
  | [] => [acc]
  | c :: line => if c =? 32 then acc :: words_of [] line else words_of (acc ++ [c]) line
  end.
Definition option_value (key : list Z) (line : list Z) : option (list Z) :=
  list_find (fun w => take (length key + 1) w = key ++ [61]) (words_of [] line) ≫= fun '(_, w) => Some (drop (length key + 1) w).

(** The four names of the volume are different. *)
Lemma names_differ boot kernel busybox init i j f f' :
  let fs := mkgpt_files boot kernel busybox init in
  fs !! i = Some f -> (j < i)%nat -> fs !! j = Some f' -> a_name f' <> a_name f.
Proof.
  intros fs Hi Hj Hf Heq.
  assert (NoDup (a_name <$> fs)) as Hd by (apply (bool_decide_unpack _); by vm_compute).
  enough (j = i) by lia. apply (NoDup_lookup _ j i (a_name f) Hd); rewrite list_lookup_fmap; [by rewrite Hf, <-Heq|by rewrite Hi].
Qed.

Section WithHost.
Context {host : Host}.

(** C23: the names that the programs of the start pass on are the names on the disk.  The
    file that the loader's command line names as [init] is in the volume that
    [mkgpt] built, with the contents of its input [init]; that program runs [/busybox]
    as [sh], and this file is there too, with the contents of [/usr/bin/busybox]. *)
Theorem init_runs_busybox fuel e boot kernel busybox init code s0 fuel' :
  host_order = LittleEndian -> mkgpt_inputs e boot kernel busybox init code ->
  let fs := mkgpt_files boot kernel busybox init in
  next_free mkgpt_geom fs <= g_maxC mkgpt_geom -> Forall (fun f => clusters mkgpt_geom f <= Z.of_nat fuel') fs ->
  exists disk, Mkgpt.mkgpt_main fuel e s0 = Done (Go (mkgpt_offsets fs), disk) /\
    let file := root_file mkgpt_geom fuel' disk in
    (option_value (c_str "init") LINUX_CMD_LINE ≫= file) = Some init /\
    init_start file = Running (c_str "/busybox") init_argv init_envp /\ file (c_str "/busybox") = Some busybox.
Proof.
  intros Hh Hin fs Hroom Hfuel. apply wp_result, (wp_mkgpt_main fuel e boot kernel busybox init code); [done..|].
  intros disk Hm. split; [done|]. set (file := root_file mkgpt_geom fuel' disk).
  assert (forall i f, fs !! i = Some f -> read_file mkgpt_geom fuel' disk (Z.of_nat i) = Some f) as Hr.
  { intros i f Hi. apply (dh_files _ _ _ _ _ _ Hm); [done|]. rewrite Forall_forall in Hfuel. by apply Hfuel, list_elem_of_lookup_2 with i. }
  assert (forall i f, fs !! i = Some f -> find_file mkgpt_geom fuel' (Z.to_nat (g_numRoot mkgpt_geom)) disk 0 (a_name f) = Some (a_data f)) as Hfind.
  { intros i f Hi. apply (find_file_spec mkgpt_geom fuel' disk fs Hr 0 _ i f Hi).
    - apply lookup_lt_Some in Hi. simpl in Hi. assert (4 <= Z.to_nat (g_numRoot mkgpt_geom))%nat by (vm_compute; lia). lia.
    - intros j f' Hj Hf'. exact (names_differ boot kernel busybox init i j f f' Hi Hj Hf'). }
  assert (file (c_str "/busybox") = Some busybox) as Hbb by exact (Hfind 2%nat _ eq_refl).
  split; [|split; [|done]].
  - assert (option_value (c_str "init") LINUX_CMD_LINE = Some (c_str "/init")) as -> by (by vm_compute).
    exact (Hfind 3%nat _ eq_refl).
  - unfold init_start, execve. change (hd [] init_argv) with (c_str "/busybox"). by rewrite Hbb.
Qed.

(** Without the file, [init] ends with the code 1. *)
Lemma init_without_busybox loads : loads (c_str "/busybox") = None -> init_start loads = Exited 1.
Proof. intros E. unfold init_start, execve. change (hd [] init_argv) with (c_str "/busybox"). by rewrite E. Qed.
End WithHost.

(** ** A run *)
Section Demo.
#[local] Instance start_host : Host := LittleEndian.

Lemma init_runs_busybox_witness : exists disk, Mkgpt.mkgpt_main 0 mkgpt_demo (Img 0 (fun _ => 0)) = Done (Go
    (mkgpt_offsets (mkgpt_files small_file small_file small_file small_file)), disk) /\
  init_start (root_file mkgpt_geom 1 disk) = Running (c_str "/busybox") init_argv init_envp.
Proof.
  assert (mkgpt_inputs mkgpt_demo small_file small_file small_file small_file small_file) as Hin.
  { split; try done; try (exists (file_fd small_file); split; [reflexivity | try apply file_fd_reads; done]). simpl. lia. }
  destruct (init_runs_busybox 0 mkgpt_demo _ _ _ _ _ (Img 0 (fun _ => 0)) 1 eq_refl Hin
    ltac:(vm_compute; congruence) ltac:(repeat constructor; vm_compute; congruence)) as (disk & Hrun & _ & Hi & _).
  exists disk. split; [exact Hrun | exact Hi].
Defined.
End Demo.
