(* ===== verification/ElfTools.v ===== *)
(** * The file tools of the boot loader: [src/bootloader/gettext.c], [getpayload.c]

    [gettext] copies the executable segments of an ELF file to an image;
    [getpayload] copies the compressed kernel out of a bzImage.  The state of
    [gettext] is the position in the input and the bytes written so far. *)
From Stdlib Require Import ZArith Lia.
From stdpp Require Import base tactics list numbers list_numbers strings.
From S2P Require Import Prelude Memory Disk Boot.
Open Scope Z_scope.

(** Signed 64-bit integers: [off_t]. *)
Definition s64 (x : Z) : Z := let y := u64 x in if y <? 2 ^ 63 then y else y - 2 ^ 64.

(** A field of a struct in an array of bytes. *)
Definition bfield (l : layout) (f : string) (bs : list Z) : Z :=
  unle (take (Z.to_nat (sizeof_field l f)) (drop (Z.to_nat (offsetof l f)) bs)).

Module Gettext.

(** The input file, the result of [write] for the bytes written before and the
    bytes to write, and whether the files can be opened. *)
Record gettext_env : Type := MkEnv {
  src : list Z; src_opens : bool; dst_opens : bool; write_result : list Z -> list Z -> Z }.

Record tool : Type := MkTool { pos : Z; written : list Z }.

(** A command of the tool goes on or exits. *)
Definition act (A : Type) : Type := cmd tool (ctl A).
#[export] Instance act_ret : MRet act := fun A a s => Done (Go a, s).
#[export] Instance act_bind : MBind act := fun A B f c s =>
  match c s with
  | Done (Go a, s') => f a s'
  | Done (Exit e, s') => Done (Exit e, s')
  | AssertFail => AssertFail
  | Fault => Fault
  | Diverged => Diverged
  end.
Definition quit {A} (code : Z) : act A := fun s => Done (Exit code, s).

Section WithEnv.
Variable env : gettext_env.

(** [lseek] to a negative offset fails with -1 and leaves the position. *)
Definition lseek (offset : Z) : act Z := fun s =>
  if offset <? 0 then Done (Go (-1), s) else Done (Go offset, MkTool offset (written s)).
(** [read] of a regular file: short only at its end. *)
Definition read (count : Z) : act (list Z) := fun s =>
  let bs := take (Z.to_nat count) (drop (Z.to_nat (pos s)) (src env)) in
  Done (Go bs, MkTool (pos s + Z.of_nat (length bs)) (written s)).
Definition write (bs : list Z) : act Z := fun s =>
  let n := write_result env (written s) bs in
  Done (Go n, MkTool (pos s) (written s ++ take (Z.to_nat n) bs)).

Definition xreadat (offset count : Z) : act (list Z) :=
  r ← lseek offset;
  if negb (r =? offset) then quit 1
  else
    bs ← read count;
    if negb (Z.of_nat (length bs) =? count) then quit 1 else mret bs.

Fixpoint xfcopy_loop (n : nat) (count offset : Z) : act unit :=
  if count =? 0 then mret tt
  else match n with
  | O => fun _ => Diverged
  | S n' =>
      let nr := if count >? 512 then 512 else count in
      buf ← xreadat offset nr;
      w ← write buf;
      if negb (w =? nr) then quit 1 else xfcopy_loop n' (count - nr) (s64 (offset + nr))
  end.
Definition xfcopy (count offset : Z) : act unit := xfcopy_loop (Z.to_nat count) count offset.

(** The loops over the program headers of both classes. *)
Fixpoint phdrs (l : layout) (phoff : Z) (n : nat) (i : Z) : act unit :=
  match n with
  | O => mret tt
  | S n' =>
      p ← xreadat (s64 (phoff + sizeof l * i)) (sizeof l);
      _ ← (if negb (Z.land (bfield l "p_flags" p) PF_X =? 0) && (bfield l "p_type" p =? PT_LOAD)
           then xfcopy (bfield l "p_filesz" p) (s64 (bfield l "p_offset" p)) else mret tt);
      phdrs l phoff n' (i + 1)
  end.

Definition gettext_main (argc : Z) : act unit :=
  if negb (argc =? 3) then quit 1
  else if negb (src_opens env) then quit 1
  else if negb (dst_opens env) then quit 1
  else
    e32 ← xreadat 0 (sizeof Elf32_Ehdr);
    if bfield Elf32_Ehdr "e_machine" e32 =? EM_X86_64 then
      e64 ← xreadat 0 (sizeof Elf64_Ehdr);
      _ ← phdrs Elf64_Phdr (s64 (bfield Elf64_Ehdr "e_phoff" e64))
            (Z.to_nat (bfield Elf64_Ehdr "e_phnum" e64)) 0;
      quit 0
    else
      _ ← phdrs Elf32_Phdr (bfield Elf32_Ehdr "e_phoff" e32)
            (Z.to_nat (bfield Elf32_Ehdr "e_phnum" e32)) 0;
      quit 0.
End WithEnv.
End Gettext.

Module Getpayload.

(** [BiCheck]: 0 for a header with both magic numbers. *)
Definition BiCheck (m : image) : outcome Z :=
  if in_range m 0 (sizeof KernelHeader) then
    if negb (ld 2 m (offsetof KernelHeader "boot_flag") =? 0xaa55) then Done 1
    else if negb (ld 4 m (offsetof KernelHeader "header") =? 0x53726448) then Done 1
    else Done 0
  else Fault.

(** The offset and the length of the payload; [None] is the null pointer. *)
Definition BiGetPayload (m : image) : outcome (option (Z * Z)) :=
  match BiCheck m with
  | Done c =>
      if negb (c =? 0) then Done None
      else
        let skip_sects := ld 1 m (offsetof KernelHeader "setup_sects") in
        let skip_sects := if skip_sects =? 0 then 4 else skip_sects in
        let skip_sects := u8 (skip_sects + 1) in
        let payload_len := ld 4 m (offsetof KernelHeader "payload_length") in
        let offset := ld 4 m (offsetof KernelHeader "payload_offset") in
        Done (Some (u64 (offset + LINUX_SECTOR_SIZE * skip_sects), payload_len))
  | AssertFail => AssertFail | Fault => Fault | Diverged => Diverged
  end.

(** The size of the input, when it can be opened, and of its status; the mapping
    for a length; whether the output can be created; the result of [write] of
    mapped bytes.  A [write] of bytes that are not all mapped is short or fails. *)
Record getpayload_env : Type := MkEnv {
  input : option (option Z); mmap : Z -> option image; dst_opens : bool; write_result : list Z -> Z }.

(** The exit code and the bytes written when all of them are. *)
Definition getpayload_main (argc : Z) (e : getpayload_env) : outcome (Z * option (list Z)) :=
  if negb (argc =? 2) && negb (argc =? 3) then Done (1, None)
  else match input e with
  | None | Some None => Done (1, None)
  | Some (Some st_size) =>
      let file_size := u64 (u64 (st_size + 4095) / 4096 * 4096) in
      match mmap e file_size with
      | None => Done (1, None)
      | Some filedata =>
          match BiGetPayload filedata with
          | Done None => Done (1, None)
          | Done (Some (addr, len)) =>
              if negb (dst_opens e) then Done (1, None)
              else if in_range filedata addr len then
                if write_result e (rd filedata addr len) =? len then Done (0, Some (rd filedata addr len))
                else Done (1, None)
              else Done (1, None)
          | AssertFail => AssertFail | Fault => Fault | Diverged => Diverged
          end
      end
  end.
End Getpayload.
