(* ===== verification/ElfTheorems.v ===== *)
(** * Theorems about the file tools: what [gettext] and [getpayload] write

    The specification of [gettext] reads slices of the file as a mathematical
    list; the tool, with its seeks and reads of at most 512 bytes, refines it. *)
From Stdlib Require Import ZArith Lia.
From stdpp Require Import base tactics list numbers list_numbers strings.
From S2P Require Import Prelude Memory Disk Boot ElfTools.
Open Scope Z_scope.

(** ** Specification *)

(** The [n] bytes of the file at [off], when the file has all of them. *)
Definition slice (f : list Z) (off n : Z) : option (list Z) :=
  if (0 <=? off) && (off + n <=? Z.of_nat (length f))
  then Some (take (Z.to_nat n) (drop (Z.to_nat off) f)) else None.

Definition executable (l : layout) (p : list Z) : bool :=
  negb (Z.land (bfield l "p_flags" p) PF_X =? 0) && (bfield l "p_type" p =? PT_LOAD).

Definition segment_bytes (f : list Z) (l : layout) (p : list Z) : option (list Z) :=
  if executable l p && negb (bfield l "p_filesz" p =? 0)
  then slice f (s64 (bfield l "p_offset" p)) (bfield l "p_filesz" p) else Some [].

(** The executable segments among [n] headers from number [i] on, joined. *)
Fixpoint text_of (f : list Z) (l : layout) (phoff : Z) (n : nat) (i : Z) : option (list Z) :=
  match n with
  | O => Some []
  | S n' =>
      p ← slice f (s64 (phoff + sizeof l * i)) (sizeof l);
      b ← segment_bytes f l p;
      rest ← text_of f l phoff n' (i + 1);
      Some (b ++ rest)
  end.

(** The program headers of a file: their layout, offset and number. *)
Definition program_headers (f : list Z) : option (layout * Z * nat) :=
  e32 ← slice f 0 (sizeof Elf32_Ehdr);
  if bfield Elf32_Ehdr "e_machine" e32 =? EM_X86_64 then
    e64 ← slice f 0 (sizeof Elf64_Ehdr);
    Some (Elf64_Phdr, s64 (bfield Elf64_Ehdr "e_phoff" e64), Z.to_nat (bfield Elf64_Ehdr "e_phnum" e64))
  else
    Some (Elf32_Phdr, bfield Elf32_Ehdr "e_phoff" e32, Z.to_nat (bfield Elf32_Ehdr "e_phnum" e32)).

Definition elf_text (f : list Z) : option (list Z) :=
  '(l, phoff, n) ← program_headers f; text_of f l phoff n 0.

(** No header and no segment is placed at offset -1, the value that [lseek] also
    returns for an error. *)
Definition no_error_offset (f : list Z) : Prop :=
  forall l phoff n i, program_headers f = Some (l, phoff, n) -> 0 <= i < Z.of_nat n ->
    s64 (phoff + sizeof l * i) <> -1 /\
    forall p, slice f (s64 (phoff + sizeof l * i)) (sizeof l) = Some p -> s64 (bfield l "p_offset" p) <> -1.

(** ** Slices *)

Lemma slice_length f off n bs : 0 <= n -> slice f off n = Some bs -> Z.of_nat (length bs) = n.
Proof.
  unfold slice. intros Hn. destruct (Z.leb_spec 0 off), (Z.leb_spec (off + n) (Z.of_nat (length f)));
    simpl; intros E; simplify_eq. rewrite length_take, length_drop. lia.
Qed.

Lemma slice_inside f off n bs : slice f off n = Some bs -> 0 <= off /\ off + n <= Z.of_nat (length f).
Proof.
  unfold slice. destruct (Z.leb_spec 0 off), (Z.leb_spec (off + n) (Z.of_nat (length f))); try done.
Qed.

(** A slice in two parts. *)
Lemma slice_split f off a b :
  0 <= a -> 0 < b ->
  slice f off (a + b) = (x ← slice f off a; y ← slice f (off + a) b; Some (x ++ y)).
Proof.
  intros Ha Hb. unfold slice.
  destruct (Z.leb_spec 0 off); simpl; [|done].
  destruct (Z.leb_spec (off + (a + b)) (Z.of_nat (length f))).
  - rewrite (proj2 (Z.leb_le (off + a) _)) by lia. simpl.
    rewrite (proj2 (Z.leb_le 0 (off + a))), (proj2 (Z.leb_le (off + a + b) _)) by lia. simpl.
    f_equal. rewrite !Z2Nat.inj_add by lia. by rewrite <- drop_drop, take_take_drop.
  - destruct (Z.leb_spec (off + a) (Z.of_nat (length f))); simpl; [|done].
    rewrite (proj2 (Z.leb_gt (off + a + b) _)) by lia. by rewrite andb_false_r.
Qed.

Lemma bfield_range l f bs :
  Forall is_byte bs -> 0 <= sizeof_field l f -> 0 <= bfield l f bs < 2 ^ (8 * sizeof_field l f).
Proof.
  intros Hb Hs. unfold bfield. set (bs' := take _ _).
  assert (Forall is_byte bs') as Hb' by (by apply Forall_take, Forall_drop).
  pose proof (unle_range bs' Hb') as Hr. split; [lia|]. eapply Z.lt_le_trans; [apply Hr|].
  apply Z.pow_le_mono_r; [lia|]. unfold bs'. rewrite length_take. lia.
Qed.

Lemma slice_bytes f off n bs : Forall is_byte f -> slice f off n = Some bs -> Forall is_byte bs.
Proof.
  unfold slice. intros Hf. destruct (_ && _); intros E; simplify_eq. by apply Forall_take, Forall_drop.
Qed.

Lemma s64_id x : 0 <= x < 2 ^ 63 -> s64 x = x.
Proof. intros Hx. unfold s64. cbn zeta. rewrite u64_id by lia. by rewrite (proj2 (Z.ltb_lt _ _)) by lia. Qed.

(** ** [gettext] *)

Section Gettext.
Import Gettext.
Context (env : gettext_env).
Hypothesis writes : forall w bs, write_result env w bs = Z.of_nat (length bs).
Hypothesis small : Z.of_nat (length (src env)) < 2 ^ 62.
Hypothesis bytes : Forall is_byte (src env).

(** What a command does: it goes on with [a] after writing [bs], or exits with 1. *)
Definition does {A} (c : act A) (r : option (A * list Z)) : Prop :=
  forall s, exists p,
    match r with
    | Some (a, bs) => c s = Done (Go a, MkTool p (written s ++ bs))
    | None => exists w, c s = Done (Exit 1, MkTool p w)
    end.

Lemma act_go {A B} (c : act A) (k : A -> act B) s a s' : c s = Done (Go a, s') -> (c ≫= k) s = k a s'.
Proof. unfold mbind, act_bind. by intros ->. Qed.
Lemma act_exit {A B} (c : act A) (k : A -> act B) s e s' :
  c s = Done (Exit e, s') -> (c ≫= k) s = Done (Exit e, s').
Proof. unfold mbind, act_bind. by intros ->. Qed.

Lemma does_bind {A B} (c : act A) (k : A -> act B) r r' :
  does c r -> (forall a bs, r = Some (a, bs) -> exists r1, does (k a) r1 /\ r' = ('(b, bs') ← r1; Some (b, bs ++ bs'))) ->
  (r = None -> r' = None) -> does (c ≫= k) r'.
Proof.
  intros Hc Hk Hn s. destruct (Hc s) as [p Hp]. destruct r as [[a bs]|].
  - rewrite (act_go _ _ _ _ _ Hp). destruct (Hk a bs eq_refl) as (r1 & H1 & ->).
    destruct (H1 (MkTool p (written s ++ bs))) as [q Hq]. exists q. destruct r1 as [[b bs']|]; simpl in *; [|done].
    rewrite Hq. by rewrite app_assoc.
  - destruct Hp as [w Hw]. rewrite Hn by done. exists p. exists w. by apply act_exit.
Qed.

(** A command that writes nothing. *)
Lemma does_read {A B} (c : act A) (k : A -> act B) (o : option A) r :
  does c (a ← o; Some (a, [])) ->
  (forall a, o = Some a -> does (k a) (r a)) -> does (c ≫= k) (a ← o; r a).
Proof.
  intros Hc Hk. apply (does_bind _ _ _ _ Hc).
  - intros a bs E. destruct o as [a'|]; simplify_eq/=. exists (r a). split; [by apply Hk|].
    by destruct (r a) as [[b bs']|].
  - by destruct o.
Qed.

Lemma does_ret {A} (a : A) : does (mret a) (Some (a, [])).
Proof. intros s. exists (pos s). rewrite app_nil_r. by destruct s. Qed.

Lemma does_xreadat off n : off <> -1 -> 0 < n -> does (xreadat env off n) (bs ← slice (src env) off n; Some (bs, [])).
Proof.
  intros Ho Hn [q w]. unfold xreadat, slice. destruct (Z.leb_spec 0 off); cbn [andb].
  - rewrite (act_go _ _ _ off (MkTool off w)) by (unfold lseek; by rewrite (proj2 (Z.ltb_ge off 0))).
    rewrite Z.eqb_refl. cbn [negb]. unfold read. set (bs := take _ _).
    exists (off + Z.of_nat (length bs)). rewrite (act_go _ _ _ bs (MkTool (off + Z.of_nat (length bs)) w)) by done.
    assert (Z.of_nat (length bs) = n `min` ((Z.of_nat (length (src env)) - off) `max` 0)) as El.
    { unfold bs. rewrite length_take, length_drop. simpl. lia. }
    destruct (Z.leb_spec (off + n) (Z.of_nat (length (src env)))).
    + rewrite (proj2 (Z.eqb_eq _ n)) by lia. cbn. by rewrite app_nil_r.
    + rewrite (proj2 (Z.eqb_neq _ n)) by lia. by exists w.
  - exists q. exists w. rewrite (act_go _ _ _ (-1) (MkTool q w)) by (unfold lseek; by rewrite (proj2 (Z.ltb_lt off 0))).
    by rewrite (proj2 (Z.eqb_neq (-1) off)) by lia.
Qed.

Lemma does_xfcopy_loop n count off :
  0 <= count <= Z.of_nat n -> off <> -1 ->
  does (xfcopy_loop env n count off)
    (if count =? 0 then Some (tt, []) else bs ← slice (src env) off count; Some (tt, bs)).
Proof.
  revert count off. induction n as [|n IH]; intros count off Hc Ho.
  - assert (count = 0) as -> by lia. apply does_ret.
  - cbn [xfcopy_loop]. destruct (Z.eqb_spec count 0) as [->|Hnz]; [apply does_ret|]. cbn zeta.
    set (nr := if count >? 512 then 512 else count).
    assert (0 < nr <= count) as Hnr by (unfold nr; destruct (Z.gtb_spec count 512); lia).
    assert ((bs ← slice (src env) off count; Some (tt, bs)) =
            (x ← slice (src env) off nr; if count - nr =? 0 then Some (tt, x)
             else y ← slice (src env) (off + nr) (count - nr); Some (tt, x ++ y))) as ->.
    { destruct (Z.eqb_spec (count - nr) 0); [by replace nr with count by lia|].
      replace count with (nr + (count - nr)) at 1 by lia. rewrite slice_split by lia.
      destruct (slice (src env) off nr); [|done]. simpl. by destruct (slice _ _ _). }
    apply does_read; [apply does_xreadat; lia|]. intros x Hx.
    assert (Z.of_nat (length x) = nr) as Hl by (apply (slice_length (src env) off nr x ltac:(lia) Hx)).
    apply (does_bind _ _ (Some (nr, x))).
    + intros s. exists (pos s). unfold write. rewrite writes, Hl. by rewrite take_ge by lia.
    + intros a bs [= <- <-]. rewrite Z.eqb_refl. cbn [negb].
      pose proof (slice_inside _ _ _ _ Hx) as Hoff.
      rewrite s64_id by lia. eexists. split; [apply IH; lia|].
      destruct (count - nr =? 0); simpl; [by rewrite app_nil_r|]. by destruct (slice _ (off + nr) _).
    + done.
Qed.

Lemma phdr_sizes l : l = Elf32_Phdr \/ l = Elf64_Phdr -> 0 < sizeof l /\ 0 <= sizeof_field l "p_filesz" <= 8.
Proof. intros [-> | ->]; eval_layout; lia. Qed.

Lemma does_phdrs l phoff n i :
  l = Elf32_Phdr \/ l = Elf64_Phdr ->
  (forall j, i <= j < i + Z.of_nat n -> s64 (phoff + sizeof l * j) <> -1 /\
     forall p, slice (src env) (s64 (phoff + sizeof l * j)) (sizeof l) = Some p -> s64 (bfield l "p_offset" p) <> -1) ->
  does (phdrs env l phoff n i) (bs ← text_of (src env) l phoff n i; Some (tt, bs)).
Proof.
  intros Hl. pose proof (phdr_sizes l Hl) as [Hs1 Hs2]. revert i. induction n as [|n IH]; intros i Hok; [apply does_ret|].
  cbn [phdrs text_of]. destruct (Hok i) as [Ho Hp]; [lia|].
  assert (forall o, (bs ← (p ← slice (src env) (s64 (phoff + sizeof l * i)) (sizeof l); o p); Some (tt, bs)) =
            (p ← slice (src env) (s64 (phoff + sizeof l * i)) (sizeof l); bs ← o p; Some (tt, bs))) as ->.
  { intros o. by destruct (slice _ _ _). }
  apply does_read; [by apply does_xreadat|]. intros p Ep. specialize (Hp p Ep).
  apply (does_bind _ _ (b ← segment_bytes (src env) l p; Some (tt, b))).
  - unfold segment_bytes, executable. destruct (_ && (bfield l "p_type" p =? PT_LOAD)); cbn [andb]; [|apply does_ret].
    pose proof (bfield_range l "p_filesz" p (slice_bytes _ _ _ _ bytes Ep) ltac:(lia)) as Hr.
    pose proof (does_xfcopy_loop (Z.to_nat (bfield l "p_filesz" p)) (bfield l "p_filesz" p) (s64 (bfield l "p_offset" p)) ltac:(lia) Hp) as Hx.
    unfold xfcopy. by destruct (bfield l "p_filesz" p =? 0).
  - intros [] bs E. exists (rest ← text_of (src env) l phoff n (i + 1); Some (tt, rest)). split.
    + apply IH. intros j Hj. apply Hok. lia.
    + destruct (segment_bytes _ _ _) as [b|]; simplify_eq/=. by destruct (text_of _ _ _ _ _).
  - by destruct (segment_bytes _ _ _).
Qed.
End Gettext.

Import Gettext.

(** C24: on a file of which every header and segment is placed at an offset other
    than -1, and when every [write] succeeds, [gettext] exits with 0 after writing
    exactly the bytes of the executable LOAD segments, in the order of the program
    headers, if the headers and segments lie in the file, and exits with 1
    otherwise.  The header decides between the 32-bit and the 64-bit layout. *)
Theorem gettext_extracts_text env :
  src_opens env = true -> dst_opens env = true ->
  (forall w bs, write_result env w bs = Z.of_nat (length bs)) ->
  Z.of_nat (length (src env)) < 2 ^ 62 -> Forall is_byte (src env) -> no_error_offset (src env) ->
  exists code p w, gettext_main env 3 (MkTool 0 []) = Done (Exit code, MkTool p w) /\
    match elf_text (src env) with Some t => code = 0 /\ w = t | None => code = 1 end.
Proof.
  intros Hs Hd Hw Hlen Hb Hok. unfold gettext_main. rewrite Hs, Hd. cbn [negb Z.eqb Pos.eqb].
  assert (forall A (c : act A) r, does c r -> (forall a bs, r = Some (a, bs) -> False) ->
            exists code p w, c (MkTool 0 []) = Done (Exit code, MkTool p w) /\ code = 1) as Hfail.
  { intros A c r Hc Hn. destruct (Hc (MkTool 0 [])) as [p Hp]. destruct r as [[a bs]|]; [by destruct (Hn a bs)|].
    destruct Hp as [w ->]. by exists 1, p, w. }
  assert (forall l phoff n, program_headers (src env) = Some (l, phoff, n) -> l = Elf32_Phdr \/ l = Elf64_Phdr ->
    forall s, written s = [] -> exists code p w, (_ ← phdrs env l phoff n 0; quit 0 : act unit) s = Done (Exit code, MkTool p w) /\
      match elf_text (src env) with Some t => code = 0 /\ w = t | None => code = 1 end) as Hmain.
  { intros l phoff n E Hl s Hsw. unfold elf_text. rewrite E. simpl.
    destruct (does_phdrs env Hw Hlen Hb l phoff n 0 Hl (fun j Hj => Hok l phoff n j E ltac:(lia)) s) as [p Hp].
    destruct (text_of _ _ _ _ _) as [t|]; simpl in Hp.
    - exists 0, p, t. rewrite (act_go _ _ _ _ _ Hp), Hsw. done.
    - destruct Hp as [w Hp]. exists 1, p, w. by rewrite (act_exit _ _ _ _ _ Hp). }
  unfold elf_text, program_headers in *.
  destruct (does_xreadat env 0 (sizeof Elf32_Ehdr) ltac:(done) ltac:(by vm_compute) (MkTool 0 [])) as [p1 H1].
  destruct (slice (src env) 0 (sizeof Elf32_Ehdr)) as [e32|]; simpl in H1.
  2: { destruct H1 as [w H1]. exists 1, p1, w. by rewrite (act_exit _ _ _ _ _ H1). }
  rewrite (act_go _ _ _ _ _ H1). cbn [mbind option_bind] in *.
  destruct (_ =? EM_X86_64).
  - destruct (does_xreadat env 0 (sizeof Elf64_Ehdr) ltac:(done) ltac:(by vm_compute) (MkTool p1 [])) as [p2 H2].
    destruct (slice (src env) 0 (sizeof Elf64_Ehdr)) as [e64|]; simpl in H2.
    2: { destruct H2 as [w H2]. exists 1, p2, w. by rewrite (act_exit _ _ _ _ _ H2). }
    rewrite (act_go _ _ _ _ _ H2). apply Hmain; auto.
  - apply Hmain; auto.
Qed.

(** *** Exits *)

(** A command that returns, or exits with 0 or 1, whatever the calls do. *)
Definition exits {A} (c : act A) : Prop :=
  forall s, exists r s', c s = Done (r, s') /\ match r with Go _ => True | Exit e => e = 0 \/ e = 1 end.

Lemma exits_bind {A B} (c : act A) (k : A -> act B) :
  exits c -> (forall a s s', c s = Done (Go a, s') -> exits (k a)) -> exits (c ≫= k).
Proof.
  intros Hc Hk s. destruct (Hc s) as (r & s' & E & Hr). destruct r as [a|e].
  - rewrite (act_go _ _ _ _ _ E). apply (Hk a s s' E).
  - exists (Exit e), s'. by rewrite (act_exit _ _ _ _ _ E).
Qed.

Lemma exits_quit {A} e : e = 0 \/ e = 1 -> exits (quit e : act A).
Proof. intros He s. by exists (Exit e), s. Qed.
Lemma exits_ret {A} (a : A) : exits (mret a).
Proof. intros s. by exists (Go a), s. Qed.

#[local] Hint Resolve exits_quit exits_ret : core.

Lemma exits_xreadat env off n : exits (xreadat env off n).
Proof.
  apply exits_bind; [intros s; unfold lseek; destruct (off <? 0); eexists _, _; done|].
  intros r _ _ _. destruct (negb _); [auto|]. apply exits_bind; [intros s; unfold read; eexists _, _; done|].
  intros bs _ _ _. destruct (negb _); auto.
Qed.

Lemma exits_xfcopy_loop env n count off : 0 <= count <= Z.of_nat n -> exits (xfcopy_loop env n count off).
Proof.
  revert count off. induction n as [|n IH]; intros count off Hc; cbn [xfcopy_loop].
  { assert (count = 0) as -> by lia. apply exits_ret. }
  destruct (Z.eqb_spec count 0); [auto|]. cbn zeta. apply exits_bind; [apply exits_xreadat|]. intros buf _ _ _.
  apply exits_bind; [intros s; unfold write; eexists _, _; done|]. intros w _ _ _. destruct (negb _); [auto|].
  apply IH. destruct (Z.gtb_spec count 512); lia.
Qed.

(** What [xreadat] returns are bytes of the file. *)
Lemma xreadat_bytes env off n s bs s' :
  Forall is_byte (src env) -> xreadat env off n s = Done (Go bs, s') -> Forall is_byte bs.
Proof.
  intros Hb. unfold xreadat, mbind, act_bind, lseek, read.
  destruct (off <? 0); destruct (negb (_ =? off)); try done; destruct (negb _); try done;
    intros [= <- _]; by apply Forall_take, Forall_drop.
Qed.

Lemma exits_phdrs env l phoff n i :
  Forall is_byte (src env) -> 0 <= sizeof_field l "p_filesz" -> exits (phdrs env l phoff n i).
Proof.
  intros Hb Hl. revert i. induction n as [|n IH]; intros i; cbn [phdrs]; [auto|].
  apply exits_bind; [apply exits_xreadat|]. intros p s s' E. apply exits_bind; [|auto].
  destruct (_ && _); [|auto]. apply exits_xfcopy_loop.
  pose proof (bfield_range l "p_filesz" p (xreadat_bytes _ _ _ _ _ _ Hb E) Hl). lia.
Qed.

(** For every input file and whatever [open] and [write] return, [gettext]
    comes to an end, with exit code 0 or 1: the copy loop is bounded by the size in
    the header and the reads by the file. *)
Theorem gettext_terminates env argc s :
  Forall is_byte (src env) -> exists code t, gettext_main env argc s = Done (Exit code, t) /\ (code = 0 \/ code = 1).
Proof.
  intros Hb.
  assert (exits (gettext_main env argc)) as H.
  { unfold gettext_main. destruct (negb _); [auto|]. destruct (negb _); [auto|]. destruct (negb _); [auto|].
    apply exits_bind; [apply exits_xreadat|]. intros e32 _ _ _. destruct (_ =? EM_X86_64).
    - apply exits_bind; [apply exits_xreadat|]. intros e64 _ _ _.
      apply exits_bind; [apply exits_phdrs; [done|by vm_compute]|auto].
    - apply exits_bind; [apply exits_phdrs; [done|by vm_compute]|auto]. }
  destruct (H s) as (r & t & E & Hr). destruct r as [[]|e]; [|by exists e, t].
  exfalso. revert E. unfold gettext_main. do 3 (destruct (negb _); [done|]).
  unfold mbind, act_bind. destruct (xreadat _ _ _ _) as [[[e32|e] s1]| | |]; try done. destruct (_ =? EM_X86_64).
  - destruct (xreadat _ _ _ _) as [[[e64|e] s2]| | |]; try done. by destruct (phdrs _ _ _ _ _ _) as [[[[]|e] s3]| | |].
  - by destruct (phdrs _ _ _ _ _ _) as [[[[]|e] s3]| | |].
Qed.

(** ** [getpayload] *)

(** The mapping of a file: [n] bytes, zeros past the end of the file. *)
Definition file_image (f : list Z) (n : Z) : image := Img n (fun i => nth (Z.to_nat i) f 0).
Definition bz_field (f : list Z) (name : string) : Z :=
  ld (sizeof_field KernelHeader name) (file_image f 0) (offsetof KernelHeader name).
Definition is_bzimage (f : list Z) : bool :=
  (bz_field f "boot_flag" =? 0xaa55) && (bz_field f "header" =? 0x53726448).
(** The payload is behind the boot sector and the setup sectors. *)
Definition payload_start (f : list Z) : Z :=
  bz_field f "payload_offset" +
  LINUX_SECTOR_SIZE * (1 + (if bz_field f "setup_sects" =? 0 then 4 else bz_field f "setup_sects")).
Definition round_page (n : Z) : Z := (n + 4095) / 4096 * 4096.

Lemma file_image_wf f n : Forall is_byte f -> image_wf (file_image f n).
Proof.
  intros Hf i. change (is_byte (nth (Z.to_nat i) f 0)). destruct (nth_lookup_or_length f (Z.to_nat i) 0) as [H|H]; [|by rewrite nth_overflow by lia].
  by apply (Forall_lookup_1 _ _ _ _ Hf H).
Qed.

Lemma bz_field_range f name : Forall is_byte f -> 0 <= sizeof_field KernelHeader name ->
  0 <= bz_field f name < 2 ^ (8 * sizeof_field KernelHeader name).
Proof. intros Hf Hs. by apply ld_range, file_image_wf. Qed.

Lemma BiGetPayload_spec f n :
  Forall is_byte f -> sizeof KernelHeader <= n -> bz_field f "setup_sects" < 255 ->
  Getpayload.BiGetPayload (file_image f n) =
    Done (if is_bzimage f then Some (payload_start f, bz_field f "payload_length") else None).
Proof.
  intros Hf Hn Hs. change (sizeof KernelHeader) with 1024 in Hn. unfold Getpayload.BiGetPayload, Getpayload.BiCheck.
  change (sizeof KernelHeader) with 1024. rewrite (in_range_true _ 0) by (cbn [isize file_image]; lia).
  pose proof (bz_field_range f "setup_sects" Hf ltac:(done)) as H1.
  pose proof (bz_field_range f "payload_offset" Hf ltac:(done)) as H2.
  change (2 ^ (8 * sizeof_field KernelHeader "setup_sects")) with 256 in H1.
  change (2 ^ (8 * sizeof_field KernelHeader "payload_offset")) with 4294967296 in H2.
  change (ld 2 (file_image f n) (offsetof KernelHeader "boot_flag")) with (bz_field f "boot_flag").
  change (ld 4 (file_image f n) (offsetof KernelHeader "header")) with (bz_field f "header").
  change (ld 1 (file_image f n) (offsetof KernelHeader "setup_sects")) with (bz_field f "setup_sects").
  change (ld 4 (file_image f n) (offsetof KernelHeader "payload_length")) with (bz_field f "payload_length").
  change (ld 4 (file_image f n) (offsetof KernelHeader "payload_offset")) with (bz_field f "payload_offset").
  unfold is_bzimage, payload_start, LINUX_SECTOR_SIZE.
  destruct (bz_field f "boot_flag" =? 0xaa55), (bz_field f "header" =? 0x53726448); cbn [negb andb Z.eqb]; try done.
  destruct (Z.eqb_spec (bz_field f "setup_sects") 0); rewrite u8_id, u64_id by lia; do 3 f_equal; lia.
Qed.

(** The bytes of the payload: those of the file, and zeros behind its end. *)
Definition padded (f : list Z) (off n : Z) : list Z := (fun i => nth (Z.to_nat i) f 0) <$> seqZ off n.

Lemma padded_slice f off n : 0 <= n -> forall bs, slice f off n = Some bs -> padded f off n = bs.
Proof.
  intros Hn bs Hs. pose proof (slice_inside _ _ _ _ Hs) as [H1 H2]. unfold slice in Hs.
  rewrite (proj2 (Z.leb_le 0 off)), (proj2 (Z.leb_le (off + n) _)) in Hs by lia. simplify_eq/=.
  apply list_eq. intros i. unfold padded. rewrite list_lookup_fmap.
  destruct (decide (i < Z.to_nat n)%nat) as [Hi|Hi].
  - rewrite lookup_seqZ_lt by lia. rewrite lookup_take_lt, lookup_drop by lia. simpl.
    replace (Z.to_nat (off + Z.of_nat i)) with (Z.to_nat off + i)%nat by lia.
    destruct (nth_lookup_or_length f (Z.to_nat off + i) 0) as [H|H]; [done | lia].
  - rewrite lookup_seqZ_ge by lia. rewrite lookup_take_ge by lia. done.
Qed.


(** ** Concrete files *)

(** A 64-bit executable with two headers: a segment that is not executable, and one
    with three bytes of code. *)
Definition elf_file : list Z :=
  rd (foldr (fun p m => wr m p.1 p.2) (Img 256 (fun _ => 0))
        [(18, le 2 62); (32, le 8 64); (56, le 2 2);
         (64, le 4 1); (68, le 4 4); (64 + 32, le 8 16);
         (120, le 4 1); (124, le 4 5); (128, le 8 200); (120 + 32, le 8 3); (200, [0x31; 0xc0; 0xf4])]) 0 256.

Definition elf_env : gettext_env := MkEnv elf_file true true (fun _ bs => Z.of_nat (length bs)).

Lemma elf_file_bytes : Forall is_byte elf_file.
Proof. apply bytes_check. by vm_compute. Qed.

Lemma elf_file_offsets : no_error_offset elf_file.
Proof.
  intros l phoff n i E Hi. assert (Some (l, phoff, n) = Some (Elf64_Phdr, 64, 2%nat)) as [= -> -> ->] by (rewrite <- E; by vm_compute).
  assert (i = 0 \/ i = 1) as [-> | ->] by lia.
  - split; [by vm_compute|]. intros p Hp.
    assert (Some p = slice elf_file 64 56) as [= ->] by (rewrite <- Hp; by vm_compute). by vm_compute.
  - split; [by vm_compute|]. intros p Hp.
    assert (Some p = slice elf_file 120 56) as [= ->] by (rewrite <- Hp; by vm_compute). by vm_compute.
Qed.

Lemma gettext_extracts_text_witness :
  exists p, gettext_main elf_env 3 (MkTool 0 []) = Done (Exit 0, MkTool p [0x31; 0xc0; 0xf4]).
Proof.
  destruct (gettext_extracts_text elf_env) as (code & p & w & E & Hw); try done.
  - exact elf_file_bytes.
  - exact elf_file_offsets.
  - assert (elf_text (src elf_env) = Some [0x31; 0xc0; 0xf4]) as Ht by (by vm_compute).
    rewrite Ht in Hw. destruct Hw as [-> ->]. by exists p.
Defined.

Lemma gettext_terminates_witness :
  exists code t, gettext_main (MkEnv elf_file true true (fun _ _ => -1)) 3 (MkTool 0 []) = Done (Exit code, t) /\
    (code = 0 \/ code = 1).
Proof. apply gettext_terminates. exact elf_file_bytes. Defined.

(** A bzImage with one setup sector whose payload of four bytes is at offset 2 of the
    protected-mode code. *)
Definition bz_file : list Z :=
  rd (foldr (fun p m => wr m p.1 p.2) (Img 1100 (fun _ => 0))
        [(0x1f1, [1]); (0x1fe, le 2 0xaa55); (0x202, le 4 0x53726448); (0x248, le 4 2); (0x24c, le 4 4);
         (1024 + 2, [0x1f; 0x8b; 0x08; 0x00])]) 0 1100.

Definition bz_env : Getpayload.getpayload_env :=
  Getpayload.MkEnv (Some (Some 1100)) (fun n => Some (file_image bz_file n)) true (fun bs => Z.of_nat (length bs)).

