(* ===== verification/Devices.v ===== *)
(** * The character devices: [src/device/zero/init.c], [src/device/null/init.c]

    The memory of the calling process is an image that only [copy_to_user] of the
    kernel writes, behind the interface [UserAccess]; a module keeps its major
    number and the kernel the registered numbers. *)
From Stdlib Require Import ZArith Lia.
From stdpp Require Import base tactics list numbers list_numbers strings.
From S2P Require Import Prelude Memory Boot BootDisk BootLoad ElfTools.
Open Scope Z_scope.

Definition EFAULT : Z := 14.

(** ** The kernel *)

(** [copy_to_user to from n] returns the number of bytes it could not copy; [ok m a n]
    says that the process may write the [n] bytes at [a].  What was copied before
    a fault, if anything, lies in the range. *)
Class UserAccess : Type := {
  copy_to_user : image -> Z -> list Z -> Z * image;
  user_ok : Z -> Z -> bool;
  copy_all : forall m a bs, user_ok a (Z.of_nat (length bs)) = true -> copy_to_user m a bs = (0, wr m a bs);
  copy_fault : forall m a bs, user_ok a (Z.of_nat (length bs)) = false ->
    0 < (copy_to_user m a bs).1 /\ changes (inside a (Z.of_nat (length bs))) m (copy_to_user m a bs).2;
  user_ok_split : forall a n k, 0 <= n -> 0 <= k -> user_ok a (n + k) = user_ok a n && user_ok (a + n) k;
}.

(** The registered devices, and the major number kept by the module. *)
Record chrdevs : Type := MkDevs { registered : list (Z * string); major : Z }.

(** [register_chrdev] with a free number: [Some] number, or an error code. *)
Definition register_chrdev (result : Z) (name : string) (d : chrdevs) : Z * chrdevs :=
  (result, if result <? 0 then d else MkDevs ((result, name) :: registered d) (major d)).
Definition unregister_chrdev (mj : Z) (d : chrdevs) : chrdevs :=
  MkDevs (filter (fun p => p.1 <> mj) (registered d)) (major d).

(** ** [zero] *)
Module Zero.
Section WithUser.
Context {user : UserAccess}.

Definition buf : list Z := replicate 512 0.

(** The loop of the read handler: it returns [tread] or an error code. *)
Fixpoint read_loop (n : nat) (m : image) (user_buffer count tread : Z) : option (Z * image) :=
  if count =? 0 then Some (tread, m)
  else match n with
  | O => None
  | S n' =>
      let bread := if 512 >? count then count else 512 in
      let '(uncopied, m) := copy_to_user m user_buffer (take (Z.to_nat bread) buf) in
      if negb (uncopied =? 0) then Some (- EFAULT, m)
      else read_loop n' m (user_buffer + bread) (u64 (count - bread)) (u64 (tread + bread))
  end.

(** The result, the new position and the memory. *)
Definition device_file_read (m : image) (user_buffer count position : Z) : option (Z * Z * image) :=
  match read_loop (Z.to_nat count) m user_buffer count 0 with
  | None => None
  | Some (r, m) => if r <? 0 then Some (r, position, m) else Some (s64 r, s64 (position + r), m)
  end.
End WithUser.

Definition device_file_write (count position : Z) : Z * Z := (s64 count, position).

Definition device_name : string := "zero".

Definition register_device (result : Z) (d : chrdevs) : Z * chrdevs :=
  let '(result, d) := register_chrdev result device_name d in
  if result <? 0 then (result, d) else (0, MkDevs (registered d) result).
Definition unregister_device (d : chrdevs) : chrdevs :=
  if negb (major d =? 0) then unregister_chrdev (major d) d else d.

Definition my_init (result : Z) (d : chrdevs) : Z * chrdevs :=
  let '(_, d) := register_device result d in (0, d).
Definition my_exit (d : chrdevs) : chrdevs := d.
End Zero.

(** ** [null] *)
Module Null.
Definition null_read (count position : Z) : Z * Z := (0, position).
Definition null_write (count position : Z) : Z * Z := (s64 count, s64 (position + count)).
Definition null_name : string := "null".

Definition null_init (result : Z) (d : chrdevs) : Z * chrdevs :=
  let '(result, d) := register_chrdev result null_name d in
  if result <? 0 then (result, d) else (0, MkDevs (registered d) result).
Definition null_exit (d : chrdevs) : chrdevs := d.
End Null.

(** ** Theorems *)

Section Read.
Context {user : UserAccess}.
Import Zero.

Lemma length_chunk bread : 0 <= bread <= 512 -> Z.of_nat (length (take (Z.to_nat bread) buf)) = bread.
Proof. intros H. rewrite length_take. change (length buf) with 512%nat. lia. Qed.

Lemma put_zero m a bread : 0 <= bread <= 512 -> put m a bread (fun _ => 0) (wr m a (take (Z.to_nat bread) buf)).
Proof.
  intros H. pose proof (put_wr m a (take (Z.to_nat bread) buf) (fun _ => 0)) as Hp. rewrite length_chunk in Hp by done.
  apply Hp. intros i Hi. unfold buf. rewrite take_replicate. apply nth_zeros.
Qed.

Lemma read_loop_spec n m a count tread :
  0 <= count <= Z.of_nat n -> 0 <= tread -> tread + count < 2 ^ 64 ->
  exists r m', read_loop n m a count tread = Some (r, m') /\ changes (inside a count) m m' /\
    (if user_ok a count || (count =? 0) then r = tread + count /\ put m a count (fun _ => 0) m' else r = - EFAULT).
Proof.
  revert m a count tread. induction n as [|n IH]; intros m a count tread Hc Ht Hs; cbn [read_loop].
  { assert (count = 0) as -> by lia. exists tread, m. rewrite orb_true_r. split; [done|]. split; [done|]. split; [lia|]. by apply put_nil. }
  destruct (Z.eqb_spec count 0) as [->|Hnz].
  { exists tread, m. rewrite orb_true_r. split; [done|]. split; [done|]. split; [lia|]. by apply put_nil. }
  rewrite orb_false_r. cbn zeta. set (bread := if 512 >? count then count else 512).
  assert (0 < bread <= 512 /\ bread <= count) as [Hb1 Hb2] by (unfold bread; destruct (Z.gtb_spec 512 count); lia).
  pose proof (user_ok_split a bread (count - bread) ltac:(lia) ltac:(lia)) as Hok.
  replace (bread + (count - bread)) with count in Hok by lia. rewrite Hok.
  pose proof (length_chunk bread ltac:(lia)) as Hl. destruct (user_ok a bread) eqn:Eb; cbn [andb].
  - rewrite copy_all by (by rewrite Hl). cbn [negb Z.eqb].
    rewrite (u64_id (count - bread)), (u64_id (tread + bread)) by lia.
    pose proof (put_zero m a bread ltac:(lia)) as Hp.
    destruct (IH (wr m a (take (Z.to_nat bread) buf)) (a + bread) (count - bread) (tread + bread)) as (r & m' & E & Hch & Hr); [lia..|].
    exists r, m'. split; [done|]. split.
    + eapply changes_trans; (eapply changes_mono; [first [exact (put_changes _ _ _ _ _ Hp) | exact Hch]|]);
        unfold inside; intros x; lia.
    + destruct (Z.eqb_spec (count - bread) 0) as [Hz|Hz]; [rewrite orb_true_r in Hr | rewrite orb_false_r in Hr].
      * destruct Hr as [-> Hr]. assert (user_ok (a + bread) (count - bread) = true) as ->.
        { pose proof (user_ok_split a bread 0 ltac:(lia) ltac:(lia)) as H0. rewrite Z.add_0_r, Eb in H0. by rewrite Hz. }
        split; [lia|]. replace count with (bread + (count - bread)) by lia. by apply (put_app _ _ _ _ _ _ _ Hp); [lia..|].
      * destruct (user_ok (a + bread) (count - bread)); [|done]. destruct Hr as [-> Hr]. split; [lia|].
        replace count with (bread + (count - bread)) by lia. by apply (put_app _ _ _ _ _ _ _ Hp); [lia..|].
  - destruct (copy_fault m a (take (Z.to_nat bread) buf) ltac:(by rewrite Hl)) as [Hn Hch].
    rewrite Hl in Hch. destruct (copy_to_user _ _ _) as [uncopied m1]. simpl in *.
    rewrite (proj2 (Z.eqb_neq uncopied 0)) by lia. cbn [negb]. exists (- EFAULT), m1. split; [done|]. split; [|done].
    eapply changes_mono; [exact Hch|]. unfold inside. intros x. lia.
Qed.
End Read.

(** Reading [count] bytes of [zero] comes to an end; if the process may write the
    whole range, it returns [count], the range holds zeros and the position has moved
    by [count]; otherwise it returns -EFAULT and the position is unchanged.  No byte
    outside the range changes. *)
Theorem zero_read_fills {user : UserAccess} m a count position :
  0 <= count < 2 ^ 63 -> 0 <= position -> position + count < 2 ^ 63 ->
  exists r p m', Zero.device_file_read m a count position = Some (r, p, m') /\
    (forall x, ~ inside a count x -> ibyte m' x = ibyte m x) /\
    (if user_ok a count || (count =? 0)
     then r = count /\ p = position + count /\ forall i, 0 <= i < count -> ibyte m' (a + i) = 0
     else r = - EFAULT /\ p = position).
Proof.
  intros Hc Hp Hs. unfold Zero.device_file_read.
  destruct (read_loop_spec (Z.to_nat count) m a count 0) as (r & m' & -> & [_ Hch] & Hr); [lia..|].
  destruct (user_ok a count || (count =? 0)).
  - destruct Hr as [-> Hr]. rewrite Z.add_0_l, (proj2 (Z.ltb_ge _ 0)) by lia.
    assert (forall x, 0 <= x < 2 ^ 63 -> s64 x = x) as Hs64.
    { intros x Hx. unfold s64. rewrite u64_id by lia. cbn zeta. by rewrite (proj2 (Z.ltb_lt _ _)) by lia. }
    rewrite !Hs64 by lia. exists count, (position + count), m'. repeat split; try done.
    intros i Hi. by rewrite (put_inside _ _ _ _ _ _ Hr) by lia.
  - subst r. cbn. exists (- EFAULT), position, m'. done.
Qed.

(** [zero] reports success even when the registration failed. *)
Lemma zero_init_ignores_error result d : result < 0 -> Zero.my_init result d = (0, d).
Proof.
  intros H. unfold Zero.my_init, Zero.register_device, register_chrdev.
  by rewrite (proj2 (Z.ltb_lt _ _)) by done.
Qed.

(** Neither module takes its registration back when it is unloaded. *)
Lemma devices_stay_registered result d : 0 < result ->
  (result, "zero"%string) ∈ registered (Zero.my_exit (Zero.my_init result d).2) /\
  (result, "null"%string) ∈ registered (Null.null_exit (Null.null_init result d).2).
Proof.
  intros H. unfold Zero.my_init, Zero.register_device, Null.null_init, register_chrdev.
  rewrite (proj2 (Z.ltb_ge _ _)) by lia. cbn. split; left.
Qed.

(** A process that may write below 0x8000. *)
#[local] Instance demo_user : UserAccess.
Proof.
  refine {| copy_to_user m a bs := if (0 <=? a) && (a + Z.of_nat (length bs) <=? 0x8000) then (0, wr m a bs) else (1, m);
            user_ok a n := (0 <=? a) && (a + n <=? 0x8000) |}.
  - intros m a bs ->. done.
  - intros m a bs ->. simpl. split; [lia|]. by split.
  - intros a n k Hn Hk. destruct (Z.leb_spec 0 a), (Z.leb_spec (a + (n + k)) 0x8000), (Z.leb_spec (a + n) 0x8000),
      (Z.leb_spec 0 (a + n)), (Z.leb_spec (a + n + k) 0x8000); simpl; done || lia.
Defined.

Lemma zero_read_fills_witness :
  exists r p m', Zero.device_file_read (Img 0x10000 (fun _ => 7)) 0x100 1000 5 = Some (r, p, m') /\
    r = 1000 /\ p = 1005 /\ ibyte m' 0x100 = 0 /\ ibyte m' (0x100 + 1000) = 7.
Proof.
  destruct (zero_read_fills (Img 0x10000 (fun _ => 7)) 0x100 1000 5) as (r & p & m' & E & Hout & Hr & Hp & Hin); [lia..|].
  exists r, p, m'. split; [exact E|]. split; [exact Hr|]. split; [exact Hp|]. split; [exact (Hin 0 ltac:(lia))|].
  apply Hout. unfold inside. lia.
Defined.
