(* ===== verification/AptList.v ===== *)
(** * Package lists: [src/apt/aptlist.h], [src/apt/aptlist.cpp]

    The dependency expressions, the parser of a dependency field, and the parser of
    the records of a package list.  Strings are lists of bytes; the [c_str()] of a
    string ends at its first zero byte. *)
From Stdlib Require Import ZArith Lia.
From stdpp Require Import base tactics list numbers strings gmap.
From S2P Require Import Prelude.
Open Scope Z_scope.

Definition str : Type := list Z.
Definition str_eqb (a b : str) : bool := bool_decide (a = b).

(** ** The C library *)

Definition isblank (c : Z) : bool := (c =? 32) || (c =? 9).
Definition isspace (c : Z) : bool := (c =? 32) || ((9 <=? c) && (c <=? 13)).

(** What [c_str()] points to. *)
Fixpoint cstr (s : str) : str :=
  match s with [] => [] | c :: s' => if c =? 0 then [] else c :: cstr s' end.

(** The longest prefix of bytes with [p], and the rest. *)
Fixpoint span (p : Z -> bool) (s : str) : str * str :=
  match s with
  | [] => ([], [])
  | c :: s' => if p c then let '(a, b) := span p s' in (c :: a, b) else ([], s)
  end.

(** [s.substr(pos, n)] throws when [pos] is past the end. *)
Definition substr (s : str) (pos n : Z) : outcome str :=
  if pos >? Z.of_nat (length s) then AssertFail
  else Done (take (Z.to_nat n) (drop (Z.to_nat pos) s)).

Definition digit_of (base c : Z) : option Z :=
  let v := if (48 <=? c) && (c <=? 57) then c - 48
           else if (97 <=? c) && (c <=? 122) then c - 87
           else if (65 <=? c) && (c <=? 90) then c - 55 else base in
  if v <? base then Some v else None.
Fixpoint number (base acc : Z) (s : str) : Z :=
  match s with
  | c :: s' => match digit_of base c with Some d => number base (base * acc + d) s' | None => acc end
  | [] => acc
  end.
(** Spaces, a sign and digits. *)
Definition signed_number (base : Z) (s : str) : Z :=
  match (span isspace s).2 with
  | c :: s' => if c =? 45 then - number base 0 s' else if c =? 43 then number base 0 s' else number base 0 (c :: s')
  | [] => 0
  end.
(** A value that is no [long] is undefined. *)
Definition atol (s : str) : outcome Z :=
  let v := signed_number 10 s in if (- 2 ^ 63 <=? v) && (v <? 2 ^ 63) then Done v else Fault.
(** [strtoul] of at most two characters, cast to a byte. *)
Definition hex_byte (a b : Z) : Z := u8 (signed_number 16 (cstr [a; b])).

(** ** Sets of strings: [std::set<std::string>], in the order of its iteration *)

Fixpoint str_ltb (a b : str) : bool :=
  match a, b with
  | _, [] => false
  | [], _ :: _ => true
  | x :: a', y :: b' => (x <? y) || ((x =? y) && str_ltb a' b')
  end.

Definition sset : Type := list str.
Fixpoint set_insert (x : str) (s : sset) : sset :=
  match s with
  | [] => [x]
  | y :: s' => if str_ltb x y then x :: s else if str_eqb x y then s else y :: set_insert x s'
  end.
Definition set_insert_all (xs s : sset) : sset := foldl (fun s x => set_insert x s) s xs.

(** ** Expressions *)

Inductive ExprNode : Type :=
| ValueNode (package_ : str)
| OperatorNode (op_ : Z) (left_ right_ : ExprNode).

Definition OR : Z := 124.
Definition AND : Z := 44.

(** The result is 0 when the expression can be satisfied; the state is the set of
    packages. *)
Fixpoint satisfy (exists_ : str -> bool) (n : ExprNode) : cmd sset Z := fun packages =>
  match n with
  | ValueNode package_ =>
      if negb (exists_ package_) then Done (1, packages) else Done (0, set_insert package_ packages)
  | OperatorNode op_ left_ right_ =>
      if op_ =? OR then
        match satisfy exists_ left_ [] with
        | Done (ret, tempSet) =>
            if ret =? 0 then Done (0, set_insert_all tempSet packages)
            else
              match satisfy exists_ right_ [] with
              | Done (ret, tempSet) =>
                  if ret =? 0 then Done (0, set_insert_all tempSet packages) else Done (1, packages)
              | AssertFail => AssertFail | Fault => Fault | Diverged => Diverged
              end
        | AssertFail => AssertFail | Fault => Fault | Diverged => Diverged
        end
      else if op_ =? AND then
        (ret ← satisfy exists_ left_;
         ret' ← satisfy exists_ right_;
         mret (Z.lor ret ret')) packages
      else AssertFail
  end.

Fixpoint print (n : ExprNode) : str :=
  match n with
  | ValueNode package_ => cstr package_
  | OperatorNode op_ left_ right_ =>
      print left_ ++ (if op_ =? AND then [op_; 32] else [32; op_; 32]) ++ print right_
  end.

(** ** The parser of dependencies *)

(** The tokens of [depstr], a string without zero bytes. *)
Fixpoint tokenize (fuel : nat) (depstr : str) : outcome (list str) :=
  match depstr with
  | [] => Done []
  | ch :: rest =>
      match fuel with
      | O => Diverged
      | S fuel' =>
          let emit (t : str) (r : str) :=
            match tokenize fuel' r with
            | Done ts => Done (t :: ts)
            | AssertFail => AssertFail | Fault => Fault | Diverged => Diverged
            end in
          if isblank ch then tokenize fuel' rest
          else if ch =? 44 then emit [44] rest
          else if ch =? 40 then tokenize fuel' (drop 1 (span (fun c => negb (c =? 41)) rest).2)
          else let '(t, r) := span (fun c => negb (isblank c) && negb (c =? 44)) depstr in emit t r
      end
  end.

Definition precedence (op : str) : outcome Z :=
  if str_eqb op [124] then Done 2 else if str_eqb op [44] then Done 1 else AssertFail.

(** The stacks, their tops first. *)
Record stacks : Type := MkStacks { values : list ExprNode; ops : list str }.

Definition pop_value : cmd stacks ExprNode := fun s =>
  match values s with
  | ret :: vs => Done (ret, MkStacks vs (ops s))
  | [] => AssertFail
  end.
Definition push_value (n : ExprNode) : cmd stacks unit := fun s => Done (tt, MkStacks (n :: values s) (ops s)).
Definition push_op (t : str) : cmd stacks unit := fun s => Done (tt, MkStacks (values s) (t :: ops s)).
Definition pop_op : cmd stacks unit := fun s => Done (tt, MkStacks (values s) (drop 1 (ops s))).
Definition lift {S A} (o : outcome A) : cmd S A := fun s =>
  match o with Done a => Done (a, s) | AssertFail => AssertFail | Fault => Fault | Diverged => Diverged end.
Definition get_ops : cmd stacks (list str) := fun s => Done (ops s, s).

(** [op[0]] of a string that is not empty. *)
Definition operator (op : str) (l r : ExprNode) : ExprNode := OperatorNode (default 0 (head op)) l r.

(** The loop that reduces the operators that bind at least as tight as [pred]. *)
Fixpoint reduce (pred : Z) (os : list str) : cmd stacks unit :=
  match os with
  | [] => mret tt
  | o :: os' =>
      p ← lift (precedence o);
      if p <? pred then mret tt
      else
        right ← pop_value;
        left ← pop_value;
        pop_op ;;
        push_value (operator o left right) ;;
        reduce pred os'
  end.

Definition parse_token (token : str) : cmd stacks unit :=
  os ← get_ops;
  if str_eqb token [44] || str_eqb token [124] then
    pred ← lift (precedence token);
    match os with
    | [] => push_op token
    | o :: _ =>
        p ← lift (precedence o);
        if p <? pred then push_op token else reduce pred os ;; push_op token
    end
  else
    match os with
    | o :: _ =>
        left ← pop_value;
        pop_op ;;
        push_value (operator o left (ValueNode token))
    | [] => push_value (ValueNode token)
    end.

(** [None] is the null pointer. *)
Definition ParseDep (depstr : str) : outcome (option ExprNode) :=
  match tokenize (length depstr) depstr with
  | Done tokens =>
      match c_foreach tokens 0 (fun _ t => parse_token t) (MkStacks [] []) with
      | Done (_, s) => Done (head (values s))
      | AssertFail => AssertFail | Fault => Fault | Diverged => Diverged
      end
  | AssertFail => AssertFail | Fault => Fault | Diverged => Diverged
  end.

(** ** Records *)

Record PackageDetail : Type := MkDetail {
  md5sum_ : list Z; deps_ : option ExprNode; pre_deps_ : option ExprNode; filename_ : str; size_ : Z }.

Definition startswith (c : str) (line : str) : bool := str_eqb (take (length c) (cstr line)) c.

(** The character at an index of the buffer of [line], its terminator included. *)
Definition char_at (line : str) (i : Z) : outcome Z :=
  if i <=? Z.of_nat (length line) then Done (nth (Z.to_nat i) line 0) else Fault.

Definition bind_out {A B} (o : outcome A) (k : A -> outcome B) : outcome B :=
  match o with Done a => k a | AssertFail => AssertFail | Fault => Fault | Diverged => Diverged end.

Fixpoint parse_md5 (n : nat) (line : str) (i : Z) : outcome (list Z) :=
  match n with
  | O => Done []
  | S n' =>
      bind_out (char_at line (8 + i * 2)) (fun a =>
      bind_out (char_at line (8 + (i * 2 + 1))) (fun b =>
      bind_out (parse_md5 n' line (i + 1)) (fun bs => Done (hex_byte a b :: bs))))
  end.

(** One line of a record; the package name and the details so far. *)
Definition parse_field (line : str) (package : str) (d : PackageDetail) : outcome (str * PackageDetail) :=
  if startswith (c_str "Package:") line then
    bind_out (substr line 9 (u64 (Z.of_nat (length line) - 9))) (fun p => Done (p, d))
  else if startswith (c_str "Size:") line then
    bind_out (atol (drop 5 (cstr line))) (fun n =>
    Done (package, MkDetail (md5sum_ d) (deps_ d) (pre_deps_ d) (filename_ d) (u64 n)))
  else if startswith (c_str "Depends:") line then
    bind_out (ParseDep (drop 8 (cstr line))) (fun e =>
    Done (package, MkDetail (md5sum_ d) e (pre_deps_ d) (filename_ d) (size_ d)))
  else if startswith (c_str "Filename:") line then
    bind_out (substr line 10 (u64 (Z.of_nat (length line) - 10))) (fun f =>
    Done (package, MkDetail (md5sum_ d) (deps_ d) (pre_deps_ d) f (size_ d)))
  else if startswith (c_str "Pre-Depends:") line then
    bind_out (ParseDep (drop 12 (cstr line))) (fun e =>
    Done (package, MkDetail (md5sum_ d) (deps_ d) e (filename_ d) (size_ d)))
  else if startswith (c_str "MD5sum:") line then
    bind_out (parse_md5 16 line 0) (fun bs =>
    Done (package, MkDetail bs (deps_ d) (pre_deps_ d) (filename_ d) (size_ d)))
  else Done (package, d).

Definition no_detail : PackageDetail := MkDetail (replicate 16 0) None None [] 0.

(** The loop over the lines, which are what [std::getline] returns; the rest of the
    file is returned with the record. *)
Fixpoint record_loop (lines : list str) (parse : bool) (package : str) (d : PackageDetail) :
    outcome (str * PackageDetail * list str) :=
  match lines with
  | [] => Done (package, d, [])
  | line :: lines' =>
      match line with
      | [] => if parse then Done (package, d, lines') else record_loop lines' parse package d
      | _ :: _ => bind_out (parse_field line package d) (fun '(package, d) => record_loop lines' true package d)
      end
  end.
Definition AptParse (lines : list str) : outcome (str * PackageDetail * list str) :=
  record_loop lines false [] no_detail.

(** Both tables; the loop ends at a record of size 0. *)
Fixpoint AptParse_table (fuel : nat) (lines : list str) (table : gmap str PackageDetail) :
    outcome (gmap str PackageDetail) :=
  match fuel with
  | O => Diverged
  | S fuel' =>
      bind_out (AptParse lines) (fun '(package, d, rest) =>
      if size_ d =? 0 then Done table else AptParse_table fuel' rest (<[package := d]> table))
  end.
Fixpoint AptParse_lists (fuel : nat) (lines : list str) (table : gmap str (list PackageDetail)) :
    outcome (gmap str (list PackageDetail)) :=
  match fuel with
  | O => Diverged
  | S fuel' =>
      bind_out (AptParse lines) (fun '(package, d, rest) =>
      if size_ d =? 0 then Done table
      else AptParse_lists fuel' rest (<[package := default [] (table !! package) ++ [d]]> table))
  end.

Definition hex_digit (n : Z) : Z := if n <? 10 then 48 + n else 87 + n.
Definition hex2 (b : Z) : str := [hex_digit (b / 16); hex_digit (b mod 16)].

Definition print_detail (d : PackageDetail) : str :=
  c_str "Filename: " ++ cstr (filename_ d) ++ [10] ++
  c_str "Depends: " ++ match deps_ d with Some e => print e | None => [] end ++ [10] ++
  c_str "Pre-Depends: " ++ match pre_deps_ d with Some e => print e | None => [] end ++ [10] ++
  c_str "MD5sum: " ++ concat (hex2 <$> md5sum_ d) ++ [10].

(** The lines of a file. *)
Fixpoint lines_from (cur : str) (s : str) : list str :=
  match s with
  | [] => match cur with [] => [] | _ => [rev cur] end
  | c :: s' => if c =? 10 then rev cur :: lines_from [] s' else lines_from (c :: cur) s'
  end.
Definition lines_of (s : str) : list str := lines_from [] s.

(** The parser does not give | a higher precedence than the comma. *)
Example ParseDep_left_to_right :
  ParseDep (c_str "a, b | c") =
    Done (Some (OperatorNode OR (OperatorNode AND (ValueNode (c_str "a")) (ValueNode (c_str "b"))) (ValueNode (c_str "c")))).
Proof. vm_compute. reflexivity. Qed.
Example ParseDep_or_needs_blanks : ParseDep (c_str "a|b") = Done (Some (ValueNode (c_str "a|b"))).
Proof. vm_compute. reflexivity. Qed.
Example ParseDep_two_commas : ParseDep (c_str "a,, b") = AssertFail.
Proof. vm_compute. reflexivity. Qed.
Example AptParse_short_name : AptParse [c_str "Package:"] = AssertFail.
Proof. vm_compute. reflexivity. Qed.
(** A record without a size ends the whole file. *)
Example AptParse_lists_stops :
  AptParse_lists 3 (lines_of (c_str "Package: a" ++ [10; 10] ++ c_str "Package: b" ++ [10] ++ c_str "Size: 1")) ∅ = Done ∅.
Proof. vm_compute. reflexivity. Qed.
