(* ===== verification/AptSet.v ===== *)
(** * Sets of packages and the meaning of dependency expressions *)
From Stdlib Require Import ZArith Lia Sorting.Sorted.
From stdpp Require Import base tactics list numbers strings gmap.
From S2P Require Import Prelude AptList.
Open Scope Z_scope.

(** ** The order of the strings *)

Lemma str_eqb_spec a b : reflect (a = b) (str_eqb a b).
Proof. unfold str_eqb. apply iff_reflect. by rewrite bool_decide_eq_true. Qed.

Lemma str_ltb_irrefl a : str_ltb a a = false.
Proof. induction a as [|x a IH]; simpl; [done|]. by rewrite Z.ltb_irrefl, Z.eqb_refl, IH. Qed.

Lemma str_ltb_cons x a y b : str_ltb (x :: a) (y :: b) = true <-> x < y \/ (x = y /\ str_ltb a b = true).
Proof. simpl. rewrite orb_true_iff, andb_true_iff, Z.ltb_lt, Z.eqb_eq. done. Qed.

Lemma str_ltb_trans a b c : str_ltb a b = true -> str_ltb b c = true -> str_ltb a c = true.
Proof.
  revert b c. induction a as [|x a IH]; intros [|y b] [|z c]; try done.
  rewrite !str_ltb_cons. intros [H1|[-> H1]] [H2|[-> H2]]; try (left; lia). right. split; [done|]. by apply (IH b).
Qed.

Lemma str_ltb_total a b : str_ltb a b = true \/ a = b \/ str_ltb b a = true.
Proof.
  revert b. induction a as [|x a IH]; intros [|y b]; auto.
  rewrite !str_ltb_cons. destruct (Z.lt_trichotomy x y) as [H|[-> |H]]; [auto| |auto].
  destruct (IH b) as [H|[-> |H]]; auto.
Qed.

(** ** Insertion *)

Definition sset_ok (s : sset) : Prop := StronglySorted (fun a b => str_ltb a b = true) s.

Lemma elem_set_insert x y s : x ∈ set_insert y s <-> x = y \/ x ∈ s.
Proof.
  induction s as [|z s IH]; simpl; [by rewrite list_elem_of_singleton, elem_of_nil; tauto|].
  destruct (str_ltb y z); [by rewrite (elem_of_cons _ _ y)|].
  destruct (str_eqb_spec y z) as [->|_]; [rewrite elem_of_cons; tauto|].
  rewrite !elem_of_cons, IH. tauto.
Qed.

Lemma set_insert_ok y s : sset_ok s -> sset_ok (set_insert y s).
Proof.
  unfold sset_ok. induction 1 as [|z s Hs IH Hz]; simpl; [by repeat constructor|].
  destruct (str_ltb y z) eqn:E.
  - constructor; [by constructor|]. constructor; [done|]. eapply Forall_impl; [exact Hz|]. intros w. by apply str_ltb_trans.
  - destruct (str_eqb_spec y z) as [->|Hn]; [by constructor|]. constructor; [done|].
    apply Forall_forall. intros w [-> |Hw]%elem_set_insert.
    + destruct (str_ltb_total y z) as [H|[H|H]]; congruence.
    + rewrite Forall_forall in Hz. auto.
Qed.

Lemma elem_set_insert_all x l s : x ∈ set_insert_all l s <-> x ∈ l \/ x ∈ s.
Proof.
  revert s. induction l as [|y l IH]; intros s; simpl; [rewrite elem_of_nil; tauto|].
  rewrite IH, elem_set_insert, elem_of_cons. tauto.
Qed.

Lemma set_insert_all_ok l s : sset_ok s -> sset_ok (set_insert_all l s).
Proof. revert s. induction l as [|y l IH]; intros s Hs; simpl; [done|]. by apply IH, set_insert_ok. Qed.

(** A sorted list is determined by its elements. *)
Lemma sset_ext s t : sset_ok s -> sset_ok t -> (forall x, x ∈ s <-> x ∈ t) -> s = t.
Proof.
  intros Hs. revert t. induction Hs as [|x s Hs IH Hx]; intros t Ht He.
  - destruct t as [|y t]; [done|]. exfalso. apply (not_elem_of_nil y). apply He. left.
  - destruct Ht as [|y t Ht Hy]; [exfalso; apply (not_elem_of_nil x), He; left|].
    rewrite Forall_forall in Hx. rewrite Forall_forall in Hy.
    assert (x = y) as ->.
    { pose proof (proj1 (He x) (list_elem_of_here _ _)) as H1. pose proof (proj2 (He y) (list_elem_of_here _ _)) as H2.
      apply elem_of_cons in H1 as [H1|H1]; [done|]. apply elem_of_cons in H2 as [H2|H2]; [done|].
      specialize (Hy x H1). specialize (Hx y H2). pose proof (str_ltb_trans _ _ _ Hx Hy) as H. by rewrite str_ltb_irrefl in H. }
    f_equal. apply IH; [done|]. intros z. specialize (He z). rewrite !elem_of_cons in He.
    split; intros Hz; (destruct (proj1 He (or_intror Hz)) as [->|?] || destruct (proj2 He (or_intror Hz)) as [->|?]); try done.
    + specialize (Hx y Hz). by rewrite str_ltb_irrefl in Hx.
    + specialize (Hy y Hz). by rewrite str_ltb_irrefl in Hy.
Qed.

(** ** The meaning of an expression *)

Fixpoint eval (P : str -> bool) (n : ExprNode) : bool :=
  match n with
  | ValueNode p => P p
  | OperatorNode op l r => if op =? OR then eval P l || eval P r else eval P l && eval P r
  end.

Fixpoint names (n : ExprNode) : list str :=
  match n with ValueNode p => [p] | OperatorNode _ l r => names l ++ names r end.

(** The operators are the two that the code knows. *)
Fixpoint wf_expr (n : ExprNode) : Prop :=
  match n with ValueNode _ => True | OperatorNode op l r => (op = OR \/ op = AND) /\ wf_expr l /\ wf_expr r end.

Definition mem (s : sset) (p : str) : bool := bool_decide (p ∈ s).

Lemma eval_mono (P Q : str -> bool) n : (forall p, P p = true -> Q p = true) -> eval P n = true -> eval Q n = true.
Proof.
  intros H. induction n as [p|op l IHl r IHr]; simpl; [auto|].
  destruct (op =? OR); [rewrite !orb_true_iff | rewrite !andb_true_iff]; tauto.
Qed.

Lemma eval_mem_mono s t n : (forall x, x ∈ s -> x ∈ t) -> eval (mem s) n = true -> eval (mem t) n = true.
Proof. intros H. apply eval_mono. intros p. unfold mem. rewrite !bool_decide_eq_true. auto. Qed.

(** What [satisfy] does to the set: nothing is removed, and only packages of the
    expression that exist are added. *)
Definition grows (ex : str -> bool) (n : ExprNode) (s s' : sset) : Prop :=
  (sset_ok s -> sset_ok s') /\ (forall x, x ∈ s -> x ∈ s') /\
  (forall x, x ∈ s' -> x ∈ s \/ (x ∈ names n /\ ex x = true)).

Lemma grows_all ex n s t : (forall x, x ∈ t -> x ∈ names n /\ ex x = true) -> grows ex n s (set_insert_all t s).
Proof.
  intros Ht. split; [by apply set_insert_all_ok|]. split; intros x; rewrite elem_set_insert_all; [tauto|].
  intros [H|H]; auto.
Qed.

Lemma satisfy_spec ex n s :
  wf_expr n -> exists ret s', satisfy ex n s = Done (ret, s') /\
    ret = (if eval ex n then 0 else 1) /\ grows ex n s s' /\ (ret = 0 -> eval (mem s') n = true).
Proof.
  revert s. induction n as [p|op l IHl r IHr]; intros s Hwf.
  - simpl. destruct (ex p) eqn:E; simpl.
    + exists 0, (set_insert p s). split; [done|]. split; [done|]. split.
      * split; [by apply set_insert_ok|]. split; intros x; rewrite elem_set_insert; [tauto|].
        intros [-> |H]; [right; split; [by left|done] | tauto].
      * intros _. unfold mem. rewrite bool_decide_eq_true, elem_set_insert. tauto.
    + exists 1, s. split; [done|]. split; [done|]. split; [split; [done|]; split; [done|]; tauto | done].
  - destruct Hwf as ([-> | ->] & Hl & Hr); cbn [satisfy eval].
    + rewrite Z.eqb_refl.
      destruct (IHl [] Hl) as (r1 & t1 & -> & -> & (_ & _ & Hg1) & He1).
      destruct (eval ex l) eqn:El; cbn [Z.eqb orb].
      * exists 0, (set_insert_all t1 s). split; [done|]. split; [done|]. split.
        { apply grows_all. intros x Hx. destruct (Hg1 x Hx) as [H|[H H']]; [by apply not_elem_of_nil in H|].
          split; [|done]. simpl. apply elem_of_app. tauto. }
        intros _. apply orb_true_iff. left. apply (eval_mem_mono t1); [|by apply He1].
        intros x Hx. apply elem_set_insert_all. tauto.
      * destruct (IHr [] Hr) as (r2 & t2 & -> & -> & (_ & _ & Hg2) & He2).
        destruct (eval ex r) eqn:Er; cbn [Z.eqb].
        { exists 0, (set_insert_all t2 s). split; [done|]. split; [done|]. split.
          { apply grows_all. intros x Hx. destruct (Hg2 x Hx) as [H|[H H']]; [by apply not_elem_of_nil in H|].
            split; [|done]. simpl. apply elem_of_app. tauto. }
          intros _. apply orb_true_iff. right. apply (eval_mem_mono t2); [|by apply He2].
          intros x Hx. apply elem_set_insert_all. tauto. }
        exists 1, s. split; [done|]. split; [done|]. split; [split; [done|]; split; [done|]; tauto | done].
    + change (AND =? OR) with false. cbn iota. rewrite Z.eqb_refl.
      destruct (IHl s Hl) as (r1 & s1 & E1 & -> & (Ho1 & Hi1 & Hg1) & He1).
      destruct (IHr s1 Hr) as (r2 & s2 & E2 & -> & (Ho2 & Hi2 & Hg2) & He2).
      unfold mbind, cmd_bind. rewrite E1, E2.
      exists (Z.lor (if eval ex l then 0 else 1) (if eval ex r then 0 else 1)), s2. split; [done|].
      split; [by destruct (eval ex l), (eval ex r)|]. split.
      * split; [auto|]. split; [auto|]. intros x Hx. simpl. rewrite elem_of_app.
        destruct (Hg2 x Hx) as [H|H]; [destruct (Hg1 x H)|]; tauto.
      * intros H0. destruct (eval ex l), (eval ex r); try done. apply andb_true_iff. split; [|by apply He2].
        apply (eval_mem_mono s1); [done|]. by apply He1.
Qed.
