(* ===== verification/AptListTheorems.v ===== *)
(** * Theorems about dependency fields and package lists *)
From Stdlib Require Import ZArith Lia.
From stdpp Require Import base tactics list numbers strings gmap.
From S2P Require Import Prelude AptList AptSet.
Open Scope Z_scope.

(** ** The tokenizer *)

Lemma span_app p s : s = (span p s).1 ++ (span p s).2.
Proof. induction s as [|c s IH]; simpl; [done|]. destruct (p c); [|done]. destruct (span p s). simpl in *. by rewrite <- IH. Qed.

Lemma span_all p a b : Forall (fun c => p c = true) a -> (forall c, head b = Some c -> p c = false) -> span p (a ++ b) = (a, b).
Proof.
  intros Ha Hb. induction Ha as [|c a Hc Ha IH]; simpl.
  - destruct b as [|c b]; [done|]. simpl. by rewrite (Hb c).
  - by rewrite Hc, IH.
Qed.

Lemma span_length p s : (length (span p s).2 <= length s)%nat.
Proof. rewrite (span_app p s) at 2. rewrite length_app. lia. Qed.

Definition simple (c : Z) : bool := negb (isblank c) && negb (c =? 44).

Lemma span_simple c s : isblank c = false -> (c =? 44) = false ->
  exists a r, span simple (c :: s) = (c :: a, r) /\ (length r <= length s)%nat.
Proof.
  intros H1 H2. simpl. assert (simple c = true) as -> by (unfold simple; by rewrite H1, H2).
  pose proof (span_length simple s). destruct (span simple s) as [a r]. by exists a, r.
Qed.

(** The tokens of a string; the fuel is the number of its characters. *)
Definition toks (s : str) : outcome (list str) := tokenize (length s) s.

Lemma tokenize_fuel f s : (length s <= f)%nat -> tokenize f s = toks s.
Proof.
  unfold toks. intros Hf. remember (length s) as n eqn:En. assert (length s <= n)%nat as Hn by lia. clear En.
  revert f n s Hf Hn. intros f n. revert f. induction n as [|n IH]; intros f [|c s] Hf Hn; simpl in Hn; try lia; try by destruct f.
  destruct f as [|f]; [lia|]. cbn [length tokenize].
  pose proof (span_length (fun c => negb (c =? 41)) s) as Hp.
  destruct (isblank c) eqn:Eb; [apply IH; lia|]. destruct (c =? 44) eqn:Ec; [by rewrite (IH f s) by lia|].
  destruct (c =? 40); [apply IH; [lia|]; rewrite length_drop; lia|].
  destruct (span_simple c s Eb Ec) as (a & r & E & Hl). unfold simple in E. rewrite E. by rewrite (IH f r) by lia.
Qed.

Definition emit (t : str) (o : outcome (list str)) : outcome (list str) := bind_out o (fun ts => Done (t :: ts)).

(** The equations of the tokenizer. *)
Lemma toks_blank c s : isblank c = true -> toks (c :: s) = toks s.
Proof. intros H. unfold toks. simpl. by rewrite H. Qed.

Lemma toks_comma s : toks (44 :: s) = emit [44] (toks s).
Proof. done. Qed.

Lemma toks_paren v s : Forall (fun c => negb (c =? 41) = true) v -> toks (40 :: v ++ 41 :: s) = toks s.
Proof.
  intros Hv. unfold toks at 1. cbn [length tokenize]. change (isblank 40) with false. change (40 =? 44) with false. change (40 =? 40) with true. cbn iota.
  rewrite span_all; [|done|by intros c [= <-]]. simpl. rewrite (tokenize_fuel _ s); [done|].
  rewrite length_app. simpl. lia.
Qed.

Lemma toks_simple c n s :
  Forall (fun c => simple c = true) (c :: n) -> c <> 40 -> (forall d, head s = Some d -> simple d = false) ->
  toks ((c :: n) ++ s) = emit (c :: n) (toks s).
Proof.
  intros Hn Hc Hs. pose proof Hn as [Hc' _]%Forall_cons. apply andb_true_iff in Hc' as [H1%negb_true_iff H2%negb_true_iff].
  unfold toks at 1. cbn [length tokenize app]. rewrite H1, H2, (proj2 (Z.eqb_neq c 40)) by done.
  change (c :: n ++ s) with ((c :: n) ++ s). rewrite (span_all simple) by done.
  rewrite tokenize_fuel; [done|]. rewrite length_app. lia.
Qed.

(** The tokenizer comes to an end, and its tokens are not empty. *)
Lemma toks_total s : exists ts, toks s = Done ts /\ Forall (fun t => t <> []) ts.
Proof.
  induction s as [s IH] using (induction_ltof1 _ (@length Z)). unfold ltof in IH. destruct s as [|c s]; [by exists []|].
  destruct (isblank c) eqn:Eb; [rewrite toks_blank by done; apply IH; simpl; lia|].
  unfold toks. cbn [length tokenize]. rewrite Eb.
  destruct (c =? 44) eqn:Ec.
  { destruct (IH s) as (ts & E & H); [simpl; lia|]. unfold toks in E. rewrite E. eexists. split; [done|]. by constructor. }
  destruct (c =? 40).
  { pose proof (span_length (fun c => negb (c =? 41)) s). rewrite tokenize_fuel by (rewrite length_drop; lia).
    apply IH. rewrite length_drop. simpl. lia. }
  destruct (span_simple c s Eb Ec) as (a & r & E & Hl). unfold simple in E. rewrite E.
  rewrite tokenize_fuel by lia. destruct (IH r) as (ts & -> & H); [simpl; lia|]. eexists. split; [done|]. by constructor.
Qed.

(** ** The parser *)

Definition is_op (t : str) : Prop := t = [44] \/ t = [124].
Definition stacks_ok (s : stacks) : Prop := Forall wf_expr (values s) /\ Forall is_op (ops s).

Lemma precedence_op o : is_op o -> exists p, precedence o = Done p.
Proof. intros [-> | ->]; eexists; done. Qed.

Lemma operator_wf o l r : is_op o -> wf_expr l -> wf_expr r -> wf_expr (operator o l r).
Proof. intros [-> | ->] Hl Hr; simpl; unfold AND, OR; auto. Qed.

(** The outcome of a parser step: a state of well-formed stacks, or a failed
    assertion. *)
Definition step_ok {A} (c : cmd stacks A) : Prop :=
  forall s, stacks_ok s -> c s = AssertFail \/ exists a s', c s = Done (a, s') /\ stacks_ok s'.

Lemma step_bind {A B} (c : cmd stacks A) (k : A -> cmd stacks B) :
  step_ok c -> (forall a, step_ok (k a)) -> step_ok (c ≫= k).
Proof.
  intros Hc Hk s Hs. unfold mbind, cmd_bind. destruct (Hc s Hs) as [-> | (a & s' & -> & Hs')]; [by left|]. by apply Hk.
Qed.

Lemma step_ret {A} (a : A) : step_ok (mret a).
Proof. intros s Hs. right. by exists a, s. Qed.
Lemma step_lift_op o : is_op o -> step_ok (lift (precedence o)).
Proof. intros Ho s Hs. right. destruct (precedence_op o Ho) as [p ->]. by exists p, s. Qed.
Lemma step_push_op t : is_op t -> step_ok (push_op t).
Proof. intros Ht [vs os] [Hv Ho]. right. exists tt, (MkStacks vs (t :: os)). split; [done|]. split; [done|]. by constructor. Qed.
Lemma step_pop_op : step_ok pop_op.
Proof. intros [vs os] [Hv Ho]. right. exists tt, (MkStacks vs (drop 1 os)). split; [done|]. split; [done|]. by apply Forall_drop. Qed.

(** Popping a value gives a well-formed one. *)
Lemma step_pop {B} (k : ExprNode -> cmd stacks B) : (forall n, wf_expr n -> step_ok (k n)) -> step_ok (pop_value ≫= k).
Proof.
  intros Hk [[|n vs] os] [Hv Ho]; [by left|]. simpl in *. apply Forall_cons in Hv as [Hn Hv].
  unfold mbind, cmd_bind. simpl. by apply Hk.
Qed.
Lemma step_push n : wf_expr n -> step_ok (push_value n).
Proof. intros Hn [vs os] [Hv Ho]. right. exists tt, (MkStacks (n :: vs) os). split; [done|]. split; [by constructor | done]. Qed.

Lemma step_reduce pred os : Forall is_op os -> step_ok (reduce pred os).
Proof.
  induction 1 as [|o os Ho Hos IH]; cbn [reduce]; [apply step_ret|].
  apply step_bind; [by apply step_lift_op|]. intros p. destruct (p <? pred); [apply step_ret|].
  apply step_pop. intros r Hr. apply step_pop. intros l Hl. apply step_bind; [apply step_pop_op|]. intros _.
  apply step_bind; [apply step_push; by apply operator_wf | done].
Qed.

Lemma step_get_ops {B} (k : list str -> cmd stacks B) :
  (forall os, Forall is_op os -> step_ok (k os)) -> step_ok (get_ops ≫= k).
Proof. intros Hk s Hs. exact (Hk (ops s) (proj2 Hs) s Hs). Qed.

Lemma step_token t : step_ok (parse_token t).
Proof.
  apply step_get_ops. intros os Ho. destruct (str_eqb t [44] || str_eqb t [124]) eqn:E.
  - assert (is_op t) as Ht.
    { apply orb_true_iff in E as [E|E]; [left; by destruct (str_eqb_spec t [44]) | right; by destruct (str_eqb_spec t [124])]. }
    apply step_bind; [by apply step_lift_op|]. intros pred.
    destruct os as [|o os]; [by apply step_push_op|]. pose proof Ho as [Ho1 _]%Forall_cons.
    apply step_bind; [by apply step_lift_op|]. intros p. destruct (p <? pred); [by apply step_push_op|].
    apply step_bind; [by apply step_reduce | intros _; by apply step_push_op].
  - destruct os as [|o os]; [by apply step_push|]. apply Forall_cons in Ho as [Ho _].
    apply step_pop. intros l Hl. apply step_bind; [apply step_pop_op|]. intros _.
    apply step_push. by apply operator_wf.
Qed.

Lemma step_foreach ts i : step_ok (c_foreach ts i (fun _ t => parse_token t)).
Proof.
  revert i. induction ts as [|t ts IH]; intros i; cbn [c_foreach]; [apply step_ret|].
  apply step_bind; [apply step_token | intros _; apply IH].
Qed.

Lemma ParseDep_cases depstr :
  ParseDep depstr = AssertFail \/
  exists o, ParseDep depstr = Done o /\ match o with Some e => wf_expr e | None => True end.
Proof.
  unfold ParseDep. fold (toks depstr). destruct (toks_total depstr) as (ts & -> & _).
  destruct (step_foreach ts 0 (MkStacks [] [])) as [-> | ([] & s' & -> & Hv & _)]; [by split; constructor|by left|].
  right. eexists. split; [done|]. destruct (values s') as [|e vs]; [done|]. by apply Forall_cons in Hv as [He _].
Qed.

(** C39: for every string the dependency parser comes to an end, with no value, with an
    expression made of the operators | and comma only, or in a failed assertion; it
    never reads outside the string. *)
Theorem ParseDep_wf depstr :
  ParseDep depstr = AssertFail \/
  exists o, ParseDep depstr = Done o /\ match o with Some e => wf_expr e | None => True end.
Proof. apply ParseDep_cases. Qed.

(** ** The text of a dependency field *)

(** A package, with the version in parentheses that the parser skips. *)
Record dep : Type := MkDep { dname : str; dver : option str }.

Definition name_ok (n : str) : Prop :=
  n <> [] /\ Forall (fun c => simple c = true /\ c <> 0) n /\ head n <> Some 40 /\ n <> [124].
Definition dep_ok (d : dep) : Prop :=
  name_ok (dname d) /\ match dver d with Some v => Forall (fun c => c <> 41 /\ c <> 0) v | None => True end.

Definition dep_text (d : dep) : str :=
  dname d ++ match dver d with Some v => [32; 40] ++ v ++ [41] | None => [] end.
Definition op_text (o : Z) : str := if o =? AND then [o; 32] else [32; o; 32].

(** A field: packages with operators between them, and the expression the parser
    makes of it, from the left to the right. *)
Definition field : Type := dep * list (Z * dep).
Fixpoint rest_text (l : list (Z * dep)) : str :=
  match l with [] => [] | (o, d) :: l' => op_text o ++ dep_text d ++ rest_text l' end.
Definition field_text (f : field) : str := dep_text f.1 ++ rest_text f.2.
Definition field_tree (f : field) : ExprNode :=
  foldl (fun e p => OperatorNode p.1 e (ValueNode (dname p.2))) (ValueNode (dname f.1)) f.2.
Definition field_ok (f : field) : Prop :=
  dep_ok f.1 /\ Forall (fun p => (p.1 = OR \/ p.1 = AND) /\ dep_ok p.2) f.2.

Lemma toks_dep d s :
  dep_ok d -> (forall c, head s = Some c -> simple c = false) -> toks (dep_text d ++ s) = emit (dname d) (toks s).
Proof.
  intros [(Hne & Hn & Hh & _) Hv] Hs. unfold dep_text. destruct (dname d) as [|c n] eqn:E; [done|].
  assert (Forall (fun c => simple c = true) (c :: n)) as Hn' by (eapply Forall_impl; [exact Hn|]; by intros x [Hx _]).
  assert (c <> 40) as Hc by (intros ->; by apply Hh).
  rewrite <- app_assoc. destruct (dver d) as [v|]; simpl ((match _ with Some _ => _ | None => _ end) ++ s).
  - assert (toks (32 :: 40 :: (v ++ [41]) ++ s) = toks s) as Ht.
    { rewrite toks_blank by done. rewrite <- app_assoc. apply toks_paren.
      eapply Forall_impl; [exact Hv|]. simpl. intros x [Hx _]. apply negb_true_iff, Z.eqb_neq, Hx. }
    rewrite <- Ht. apply toks_simple; [done|done|by intros d' [= <-]].
  - by apply toks_simple.
Qed.

(** The tokens of the rest of a field. *)
Definition rest_tokens (l : list (Z * dep)) : list str := concat ((fun p => [[p.1]; dname p.2]) <$> l).

Lemma toks_bar s : toks (OR :: 32 :: s) = emit [OR] (toks (32 :: s)).
Proof. apply (toks_simple OR [] (32 :: s)); [by repeat constructor|done|by intros c [= <-]]. Qed.

Lemma rest_head l c :
  Forall (fun p => (p.1 = OR \/ p.1 = AND) /\ dep_ok p.2) l ->
  head (rest_text l) = Some c -> simple c = false.
Proof.
  destruct 1 as [|[o d] l [Ho _] _]; [done|]. cbn [fst] in Ho. destruct Ho as [-> | ->]; simpl; by intros [= <-].
Qed.

Lemma toks_rest l :
  Forall (fun p => (p.1 = OR \/ p.1 = AND) /\ dep_ok p.2) l ->
  toks (rest_text l) = Done (rest_tokens l).
Proof.
  induction 1 as [|[o d] l [Ho Hd] Hl IH]; [done|]. cbn [fst snd] in *.
  assert (toks (dep_text d ++ rest_text l) = emit (dname d) (Done (rest_tokens l))) as Ht.
  { rewrite toks_dep by (done || (intros c; by apply rest_head)). by rewrite IH. }
  cbn [rest_text]. destruct Ho as [-> | ->]; cbn [op_text app Z.eqb AND OR Pos.eqb].
  - rewrite toks_blank by done. rewrite toks_bar, toks_blank by done. by rewrite Ht.
  - rewrite toks_comma, toks_blank by done. by rewrite Ht.
Qed.

Lemma parse_name n s : name_ok n -> ops s = [] -> parse_token n s = Done (tt, MkStacks (ValueNode n :: values s) []).
Proof.
  intros (Hne & Hn & Hh & H124) Ho. destruct s as [vs os]. simpl in Ho. subst os.
  assert (str_eqb n [44] || str_eqb n [124] = false) as E.
  { destruct (str_eqb_spec n [44]) as [->|]; [|by destruct (str_eqb_spec n [124])].
    apply Forall_cons in Hn as [[Hn _] _]. done. }
  unfold parse_token, get_ops, mbind, cmd_bind. cbn [ops]. by rewrite E.
Qed.

Lemma parse_op_name o n e vs i ts :
  o = OR \/ o = AND -> name_ok n ->
  c_foreach ([o] :: n :: ts) i (fun _ t => parse_token t) (MkStacks (e :: vs) []) =
  c_foreach ts (i + 1 + 1) (fun _ t => parse_token t) (MkStacks (OperatorNode o e (ValueNode n) :: vs) []).
Proof.
  intros Ho (Hne & Hn & Hh & H124). cbn [c_foreach].
  rewrite (bind_done _ _ _ tt (MkStacks (e :: vs) [[o]])).
  2: { destruct Ho as [-> | ->]; reflexivity. }
  rewrite (bind_done _ _ _ tt (MkStacks (OperatorNode o e (ValueNode n) :: vs) [])); [done|].
  assert (str_eqb n [44] || str_eqb n [124] = false) as E.
  { destruct (str_eqb_spec n [44]) as [->|]; [|by destruct (str_eqb_spec n [124])].
    apply Forall_cons in Hn as [[Hn _] _]. done. }
  unfold parse_token, get_ops, mbind, cmd_bind. cbn [ops]. by rewrite E.
Qed.

Lemma parse_rest l e i :
  Forall (fun p => (p.1 = OR \/ p.1 = AND) /\ dep_ok p.2) l ->
  c_foreach (rest_tokens l) i (fun _ t => parse_token t) (MkStacks [e] []) =
  Done (tt, MkStacks [foldl (fun e p => OperatorNode p.1 e (ValueNode (dname p.2))) e l] []).
Proof.
  intros H. revert e i. induction H as [|[o d] l [Ho [Hd _]] Hl IH]; intros e i; [done|].
  unfold rest_tokens in *. cbn [fmap list_fmap concat app foldl fst snd] in *. rewrite parse_op_name by done. apply IH.
Qed.

Lemma ParseDep_field f : field_ok f -> ParseDep (field_text f) = Done (Some (field_tree f)).
Proof.
  destruct f as [d l]. intros [Hd Hl]. simpl in *. unfold ParseDep, field_text. cbn [fst snd].
  fold (toks (dep_text d ++ rest_text l)).
  rewrite toks_dep; [|done|].
  2: { intros c. by apply rest_head. }
  rewrite toks_rest by done. cbn [emit bind_out c_foreach].
  rewrite (bind_done _ _ _ tt (MkStacks [ValueNode (dname d)] [])) by (apply parse_name; [apply Hd | done]).
  by rewrite parse_rest.
Qed.

Lemma cstr_no_zero s : Forall (fun c => c <> 0) s -> cstr s = s.
Proof. induction 1 as [|c s Hc _ IH]; simpl; [done|]. by rewrite (proj2 (Z.eqb_neq c 0)), IH. Qed.

(** The field without its versions. *)
Definition bare (f : field) : field := (MkDep (dname f.1) None, (fun p => (p.1, MkDep (dname p.2) None)) <$> f.2).

Lemma print_field f : field_ok f -> print (field_tree f) = field_text (bare f).
Proof.
  assert (forall d, dep_ok d -> print (ValueNode (dname d)) = dep_text (MkDep (dname d) None)) as Hc.
  { intros d [(_ & H & _) _]. unfold dep_text. simpl. rewrite app_nil_r. apply cstr_no_zero.
    eapply Forall_impl; [exact H|]. by intros c [_ Hc]. }
  destruct f as [d l]. unfold field_tree, field_text, bare. intros [Hd Hl]. cbn [fst snd] in *. rewrite <- Hc by done.
  generalize (ValueNode (dname d)). clear Hd. induction Hl as [|[o d'] l [Ho Hd] Hl IH]; intros e.
  - simpl. by rewrite app_nil_r.
  - cbn [foldl]. rewrite IH. rewrite fmap_cons. cbn [fst snd print rest_text] in *.
    rewrite <- (Hc d') by done. rewrite <- !app_assoc. done.
Qed.

Lemma bare_ok f : field_ok f -> field_ok (bare f).
Proof.
  destruct f as [d l]. intros [[Hd _] Hl]. split; [by split|]. simpl in *. apply Forall_fmap.
  eapply Forall_impl; [exact Hl|]. intros [o d'] [Ho [Hd' _]]. by split.
Qed.

Lemma field_tree_bare f : field_tree (bare f) = field_tree f.
Proof.
  destruct f as [d l]. unfold field_tree, bare. cbn [fst snd dname]. generalize (ValueNode (dname d)).
  induction l as [|[o d'] l IH]; intros e; [done|]. rewrite fmap_cons. simpl. apply IH.
Qed.

(** C29: a dependency field, packages with optional versions in parentheses and the
    operators | and comma between them, is parsed to the expression that combines
    the packages from the left to the right, both operators with the same
    precedence; printing the expression and parsing it again gives it back. *)
Theorem ParseDep_roundtrip f :
  field_ok f -> ParseDep (field_text f) = Done (Some (field_tree f)) /\
    ParseDep (print (field_tree f)) = Done (Some (field_tree f)).
Proof.
  intros Hf. split; [by apply ParseDep_field|]. rewrite print_field, ParseDep_field by (done || by apply bare_ok).
  by rewrite field_tree_bare.
Qed.

Definition dep_field : field :=
  (MkDep (c_str "libc6") (Some (c_str ">= 2.34")), [(AND, MkDep (c_str "gawk") None); (OR, MkDep (c_str "mawk") (Some (c_str "<< 2")))]).

Lemma name_check (n : str) : forallb (fun c => simple c && negb (c =? 0)) n = true ->
  match n with [] => False | [c] => c <> 40 /\ c <> 124 | c :: _ => c <> 40 end -> name_ok n.
Proof.
  intros H Hn. split; [by destruct n|]. split.
  - apply Forall_forall. intros c Hc%list_elem_of_In. rewrite forallb_forall in H. specialize (H c Hc).
    apply andb_true_iff in H as [H1 H2%negb_true_iff%Z.eqb_neq]. done.
  - destruct n as [|c [|d n]]; [done|..]; simpl; split; congruence || (intros [=]; lia).
Qed.

Lemma dep_field_ok : field_ok dep_field.
Proof.
  split; [split; [by apply name_check|] | repeat constructor; try (by apply name_check)];
    repeat constructor; done || (unfold OR; tauto) || (unfold AND; tauto).
Qed.

Lemma ParseDep_roundtrip_witness :
  ParseDep (c_str "libc6 (>= 2.34), gawk | mawk (<< 2)") = Done (Some (field_tree dep_field)) /\
  ParseDep (print (field_tree dep_field)) = Done (Some (field_tree dep_field)).
Proof. apply (ParseDep_roundtrip dep_field), dep_field_ok. Defined.
