(* ===== verification/AptRecords.v ===== *)
(** * Reading the records of a package list *)
From Stdlib Require Import ZArith Lia.
From stdpp Require Import base tactics list numbers list_numbers strings gmap.
From S2P Require Import Prelude AptList AptSet AptListTheorems.
Open Scope Z_scope.

(** ** The records of a list, as text *)

(** A record; the size is written in decimal digits, [p_other] are further lines. *)
Record package : Type := MkPackage {
  p_name : str; p_size : str; p_deps : option field; p_pre : option field; p_file : str; p_md5 : list Z;
  p_other : list str }.

Definition opt_line (key : str) (f : option field) : list str :=
  match f with Some f => [key ++ field_text f] | None => [] end.
Definition record_lines (p : package) : list str :=
  [c_str "Package: " ++ p_name p; c_str "Size: " ++ p_size p] ++
  opt_line (c_str "Depends: ") (p_deps p) ++ opt_line (c_str "Pre-Depends: ") (p_pre p) ++
  [c_str "Filename: " ++ p_file p; c_str "MD5sum: " ++ concat (hex2 <$> p_md5 p)] ++ p_other p.
Definition record_text (p : package) : str := concat ((fun l => l ++ [10]) <$> record_lines p) ++ [10].
Definition list_text (ps : list package) : str := concat (record_text <$> ps).

Definition detail_of (p : package) : PackageDetail :=
  MkDetail (p_md5 p) (field_tree <$> p_deps p) (field_tree <$> p_pre p) (p_file p) (number 10 0 (p_size p)).

Definition digit (c : Z) : Prop := 48 <= c <= 57.
Definition known_keys : list str :=
  c_str <$> ["Package:"; "Size:"; "Depends:"; "Filename:"; "Pre-Depends:"; "MD5sum:"]%string.
Definition unknown (line : str) : Prop := line <> [] /\ Forall (fun k => startswith k line = false) known_keys.

Definition field_line_ok (f : field) : Prop := field_ok f /\ Forall (fun c => c <> 10) (field_text f).
Record package_ok (p : package) : Prop := {
  ok_name : Forall (fun c => c <> 10) (p_name p) /\ Z.of_nat (length (p_name p)) < 2 ^ 64;
  ok_size : p_size p <> [] /\ Forall digit (p_size p) /\ 0 < number 10 0 (p_size p) < 2 ^ 63;
  ok_deps : forall f, p_deps p = Some f -> field_line_ok f;
  ok_pre : forall f, p_pre p = Some f -> field_line_ok f;
  ok_file : Forall (fun c => c <> 10) (p_file p) /\ Z.of_nat (length (p_file p)) < 2 ^ 64;
  ok_md5 : length (p_md5 p) = 16%nat /\ Forall is_byte (p_md5 p);
  ok_other : Forall (fun l => unknown l /\ Forall (fun c => c <> 10) l) (p_other p);
}.

(** ** Lines *)

Lemma lines_from_line l cur s : Forall (fun c => c <> 10) l -> lines_from cur (l ++ 10 :: s) = (rev cur ++ l) :: lines_of s.
Proof.
  intros H. revert cur. induction H as [|c l Hc _ IH]; intros cur; simpl; [by rewrite app_nil_r|].
  rewrite (proj2 (Z.eqb_neq c 10)) by done. rewrite IH. simpl. by rewrite <- app_assoc.
Qed.

Lemma lines_of_concat ls s :
  Forall (Forall (fun c => c <> 10)) ls -> lines_of (concat ((fun l => l ++ [10]) <$> ls) ++ s) = ls ++ lines_of s.
Proof.
  induction 1 as [|l ls Hl _ IH]; [done|]. rewrite fmap_cons. cbn [concat]. rewrite <- !app_assoc. cbn [app].
  unfold lines_of at 1. rewrite lines_from_line by done. by rewrite IH.
Qed.

(** ** Fields *)

Lemma char_at_app a x b : char_at (a ++ x :: b) (Z.of_nat (length a)) = Done x.
Proof.
  unfold char_at. rewrite length_app. simpl. rewrite (proj2 (Z.leb_le _ _)) by lia.
  by rewrite Nat2Z.id, app_nth2, Nat.sub_diag by lia.
Qed.

Lemma hex_byte_hex2 b : is_byte b -> hex_byte (hex_digit (b / 16)) (hex_digit (b mod 16)) = b.
Proof.
  intros Hb. assert (forallb (fun b => hex_byte (hex_digit (b / 16)) (hex_digit (b mod 16)) =? b) (seqZ 0 256) = true) as H by (by vm_compute).
  rewrite forallb_forall in H. apply Z.eqb_eq, H, list_elem_of_In, elem_of_seqZ. unfold is_byte in Hb. lia.
Qed.

Lemma parse_md5_hex bs a i post :
  Forall is_byte bs -> Z.of_nat (length a) = 8 + i * 2 ->
  parse_md5 (length bs) (a ++ concat (hex2 <$> bs) ++ post) i = Done bs.
Proof.
  intros H. revert a i. induction H as [|b bs Hb _ IH]; intros a i Ha; [done|]. rewrite fmap_cons. cbn [parse_md5 length concat].
  unfold hex2 at 1 3 5. cbn [app]. rewrite <- Ha, char_at_app. cbn [bind_out].
  replace (8 + (i * 2 + 1)) with (Z.of_nat (length (a ++ [hex_digit (b / 16)]))) by (rewrite length_app; simpl; lia).
  replace (a ++ hex_digit (b / 16) :: hex_digit (b mod 16) :: concat (hex2 <$> bs) ++ post)
    with ((a ++ [hex_digit (b / 16)]) ++ hex_digit (b mod 16) :: concat (hex2 <$> bs) ++ post) by (by rewrite <- app_assoc).
  rewrite char_at_app. cbn [bind_out].
  replace ((a ++ [hex_digit (b / 16)]) ++ hex_digit (b mod 16) :: concat (hex2 <$> bs) ++ post)
    with ((a ++ hex2 b) ++ concat (hex2 <$> bs) ++ post) by (unfold hex2; rewrite <- !app_assoc; done).
  rewrite IH by (rewrite length_app; simpl; lia). cbn [bind_out]. by rewrite hex_byte_hex2.
Qed.

Lemma digit_of_range c : digit c -> isspace c = false /\ c <> 45 /\ c <> 43 /\ c <> 0.
Proof. unfold digit, isspace. intros H. rewrite (proj2 (Z.eqb_neq c 32)), (proj2 (Z.leb_gt c 13)) by lia. rewrite andb_false_r. repeat split; lia. Qed.

Lemma atol_digits ds : ds <> [] -> Forall digit ds -> 0 < number 10 0 ds < 2 ^ 63 -> atol (32 :: ds) = Done (number 10 0 ds).
Proof.
  intros Hne Hd Hr. unfold atol, signed_number. destruct ds as [|c ds]; [done|].
  pose proof Hd as [Hc _]%Forall_cons. destruct (digit_of_range c Hc) as (H1 & H2 & H3 & H4).
  assert ((span isspace (32 :: c :: ds)).2 = c :: ds) as ->.
  { change (32 :: c :: ds) with ([32] ++ c :: ds). rewrite span_all; [done|by repeat constructor|by intros d [= <-]]. }
  rewrite (proj2 (Z.eqb_neq c 45)), (proj2 (Z.eqb_neq c 43)) by done. cbn zeta.
  rewrite (proj2 (Z.leb_le _ _)), (proj2 (Z.ltb_lt _ _)) by lia. done.
Qed.

Lemma field_no_zero f : field_ok f -> Forall (fun c => c <> 0) (field_text f).
Proof.
  assert (forall d, dep_ok d -> Forall (fun c => c <> 0) (dep_text d)) as Hdep.
  { intros d [(_ & Hn & _) Hv]. unfold dep_text. apply Forall_app. split.
    - eapply Forall_impl; [exact Hn|]. by intros c [_ Hc].
    - destruct (dver d) as [v|]; [|done]. apply Forall_app. split; [by repeat constructor|].
      apply Forall_app. split; [|by repeat constructor]. eapply Forall_impl; [exact Hv|]. by intros c [_ Hc]. }
  destruct f as [d l]. intros [Hd Hl]. cbn [fst snd] in *. unfold field_text. apply Forall_app. split; [by apply Hdep|]. cbn [snd].
  induction Hl as [|[o d'] l' [Ho Hd'] _ IH]; [by constructor|]. cbn [rest_text]. apply Forall_app. split.
  - destruct Ho as [Ho | Ho]; cbn [fst] in Ho; subst o; unfold op_text, OR, AND; simpl; by repeat constructor.
  - apply Forall_app. split; [by apply Hdep | done].
Qed.

(** [c_str()] keeps the key and, in a field without zero bytes, the rest. *)
Lemma cstr_app a b : Forall (fun c => c <> 0) a -> cstr (a ++ b) = a ++ cstr b.
Proof. induction 1 as [|c a Hc _ IH]; simpl; [done|]. by rewrite (proj2 (Z.eqb_neq c 0)), IH. Qed.

(** ** One line each *)

Lemma substr_rest k s : substr (k ++ s) (Z.of_nat (length k)) (u64 (Z.of_nat (length (k ++ s)) - Z.of_nat (length k))) =
  Done (take (Z.to_nat (u64 (Z.of_nat (length s)))) s).
Proof.
  unfold substr. rewrite length_app. destruct (Z.gtb_spec (Z.of_nat (length k)) (Z.of_nat (length k + length s))); [lia|].
  rewrite Nat2Z.id, drop_app_length. do 3 f_equal. f_equal. lia.
Qed.

Lemma substr_all k s : Z.of_nat (length s) < 2 ^ 64 ->
  substr (k ++ s) (Z.of_nat (length k)) (u64 (Z.of_nat (length (k ++ s)) - Z.of_nat (length k))) = Done s.
Proof. intros H. rewrite substr_rest, u64_id by lia. by rewrite Nat2Z.id, take_ge by lia. Qed.

Lemma parse_package n pk d : Z.of_nat (length n) < 2 ^ 64 -> parse_field (c_str "Package: " ++ n) pk d = Done (n, d).
Proof.
  intros H. unfold parse_field. assert (startswith (c_str "Package:") (c_str "Package: " ++ n) = true) as -> by done.
  pose proof (substr_all (c_str "Package: ") n H) as E. change (Z.of_nat (length (c_str "Package: "))) with 9 in E.
  rewrite E. done.
Qed.

Lemma parse_filename f pk d : Z.of_nat (length f) < 2 ^ 64 ->
  parse_field (c_str "Filename: " ++ f) pk d = Done (pk, MkDetail (md5sum_ d) (deps_ d) (pre_deps_ d) f (size_ d)).
Proof.
  intros H. unfold parse_field.
  assert (startswith (c_str "Package:") (c_str "Filename: " ++ f) = false) as -> by done.
  assert (startswith (c_str "Size:") (c_str "Filename: " ++ f) = false) as -> by done.
  assert (startswith (c_str "Depends:") (c_str "Filename: " ++ f) = false) as -> by done.
  assert (startswith (c_str "Filename:") (c_str "Filename: " ++ f) = true) as -> by done.
  pose proof (substr_all (c_str "Filename: ") f H) as E. change (Z.of_nat (length (c_str "Filename: "))) with 10 in E.
  rewrite E. done.
Qed.

Lemma parse_size ds pk d : ds <> [] -> Forall digit ds -> 0 < number 10 0 ds < 2 ^ 63 ->
  parse_field (c_str "Size: " ++ ds) pk d = Done (pk, MkDetail (md5sum_ d) (deps_ d) (pre_deps_ d) (filename_ d) (number 10 0 ds)).
Proof.
  intros Hne Hd Hr. unfold parse_field.
  assert (startswith (c_str "Package:") (c_str "Size: " ++ ds) = false) as -> by done.
  assert (startswith (c_str "Size:") (c_str "Size: " ++ ds) = true) as -> by done.
  rewrite cstr_app by (by repeat constructor). rewrite cstr_no_zero.
  - change (drop 5 (c_str "Size: " ++ ds)) with (32 :: ds). rewrite atol_digits by done. cbn [bind_out]. by rewrite u64_id by lia.
  - eapply Forall_impl; [exact Hd|]. intros c Hc. apply (digit_of_range c Hc).
Qed.

Lemma ParseDep_blank s : ParseDep (32 :: s) = ParseDep s.
Proof. unfold ParseDep. fold (toks (32 :: s)) (toks s). by rewrite toks_blank. Qed.

Lemma parse_depends f pk d : field_ok f ->
  parse_field (c_str "Depends: " ++ field_text f) pk d =
  Done (pk, MkDetail (md5sum_ d) (Some (field_tree f)) (pre_deps_ d) (filename_ d) (size_ d)).
Proof.
  intros Hf. unfold parse_field.
  assert (startswith (c_str "Package:") (c_str "Depends: " ++ field_text f) = false) as -> by done.
  assert (startswith (c_str "Size:") (c_str "Depends: " ++ field_text f) = false) as -> by done.
  assert (startswith (c_str "Depends:") (c_str "Depends: " ++ field_text f) = true) as -> by done.
  rewrite cstr_app by (by repeat constructor). rewrite cstr_no_zero by (by apply field_no_zero).
  change (drop 8 (c_str "Depends: " ++ field_text f)) with (32 :: field_text f).
  by rewrite ParseDep_blank, ParseDep_field.
Qed.

Lemma parse_pre_depends f pk d : field_ok f ->
  parse_field (c_str "Pre-Depends: " ++ field_text f) pk d =
  Done (pk, MkDetail (md5sum_ d) (deps_ d) (Some (field_tree f)) (filename_ d) (size_ d)).
Proof.
  intros Hf. unfold parse_field.
  assert (startswith (c_str "Package:") (c_str "Pre-Depends: " ++ field_text f) = false) as -> by done.
  assert (startswith (c_str "Size:") (c_str "Pre-Depends: " ++ field_text f) = false) as -> by done.
  assert (startswith (c_str "Depends:") (c_str "Pre-Depends: " ++ field_text f) = false) as -> by done.
  assert (startswith (c_str "Filename:") (c_str "Pre-Depends: " ++ field_text f) = false) as -> by done.
  assert (startswith (c_str "Pre-Depends:") (c_str "Pre-Depends: " ++ field_text f) = true) as -> by done.
  rewrite cstr_app by (by repeat constructor). rewrite cstr_no_zero by (by apply field_no_zero).
  change (drop 12 (c_str "Pre-Depends: " ++ field_text f)) with (32 :: field_text f).
  by rewrite ParseDep_blank, ParseDep_field.
Qed.

Lemma parse_md5sum h bs pk d : h = concat (hex2 <$> bs) -> length bs = 16%nat -> Forall is_byte bs ->
  parse_field (c_str "MD5sum: " ++ h) pk d = Done (pk, MkDetail bs (deps_ d) (pre_deps_ d) (filename_ d) (size_ d)).
Proof.
  intros Eh Hl Hb. unfold parse_field.
  assert (startswith (c_str "Package:") (c_str "MD5sum: " ++ h) = false) as -> by done.
  assert (startswith (c_str "Size:") (c_str "MD5sum: " ++ h) = false) as -> by done.
  assert (startswith (c_str "Depends:") (c_str "MD5sum: " ++ h) = false) as -> by done.
  assert (startswith (c_str "Filename:") (c_str "MD5sum: " ++ h) = false) as -> by done.
  assert (startswith (c_str "Pre-Depends:") (c_str "MD5sum: " ++ h) = false) as -> by done.
  assert (startswith (c_str "MD5sum:") (c_str "MD5sum: " ++ h) = true) as -> by done.
  rewrite Eh. rewrite <- (app_nil_r (concat _)), <- Hl, parse_md5_hex by done. done.
Qed.

Lemma parse_unknown l pk d : unknown l -> parse_field l pk d = Done (pk, d).
Proof.
  intros [_ H]. unfold known_keys in H. repeat apply Forall_cons in H as [? H].
  unfold parse_field. repeat match goal with E : startswith _ _ = false |- _ => rewrite E; clear E end. done.
Qed.

(** ** Whole records *)

Lemma record_step l ls b pk d pk' d' :
  parse_field l pk d = Done (pk', d') -> l <> [] -> record_loop (l :: ls) b pk d = record_loop ls true pk' d'.
Proof. intros E Hl. destruct l as [|c l]; [done|]. cbn [record_loop]. by rewrite E. Qed.

Lemma record_others ls rest pk d :
  Forall (fun l => unknown l /\ Forall (fun c => c <> 10) l) ls -> record_loop (ls ++ rest) true pk d = record_loop rest true pk d.
Proof.
  induction 1 as [|l ls [Hu _] _ IH]; [done|]. cbn [app]. rewrite (record_step _ _ _ _ _ pk d); [done|by apply parse_unknown|apply Hu].
Qed.

Lemma AptParse_record p rest :
  package_ok p -> AptParse (record_lines p ++ [] :: rest) = Done (p_name p, detail_of p, rest).
Proof.
  intros [[_ Hn] (Hs1 & Hs2 & Hs3) Hd Hpre [_ Hf] [Hm1 Hm2] Ho]. unfold AptParse, record_lines, detail_of.
  cbn [app]. rewrite (record_step _ _ _ _ _ _ _ (parse_package _ _ _ Hn)) by done.
  rewrite (record_step _ _ _ _ _ _ _ (parse_size _ _ _ Hs1 Hs2 Hs3)) by done.
  cbn [md5sum_ deps_ pre_deps_ filename_ no_detail]. rewrite <- !app_assoc.
  transitivity (record_loop (opt_line (c_str "Pre-Depends: ") (p_pre p) ++
      [c_str "Filename: " ++ p_file p; c_str "MD5sum: " ++ concat (hex2 <$> p_md5 p)] ++ p_other p ++ [] :: rest) true (p_name p)
      (MkDetail (replicate 16 0) (field_tree <$> p_deps p) None [] (number 10 0 (p_size p)))).
  { destruct (p_deps p) as [f|] eqn:E; [|done]. cbn [opt_line app].
    by rewrite (record_step _ _ _ _ _ _ _ (parse_depends f _ _ (proj1 (Hd f eq_refl)))) by done. }
  transitivity (record_loop ([c_str "Filename: " ++ p_file p; c_str "MD5sum: " ++ concat (hex2 <$> p_md5 p)] ++ p_other p ++ [] :: rest)
      true (p_name p) (MkDetail (replicate 16 0) (field_tree <$> p_deps p) (field_tree <$> p_pre p) [] (number 10 0 (p_size p)))).
  { destruct (p_pre p) as [f|] eqn:E; [|done]. cbn [opt_line app].
    by rewrite (record_step _ _ _ _ _ _ _ (parse_pre_depends f _ _ (proj1 (Hpre f eq_refl)))) by done. }
  cbn [app]. rewrite (record_step _ _ _ _ _ _ _ (parse_filename _ _ _ Hf)) by done.
  rewrite (record_step _ _ _ _ _ _ _ (parse_md5sum _ _ _ _ eq_refl Hm1 Hm2)) by done.
  cbn [md5sum_ deps_ pre_deps_ filename_ size_]. by rewrite record_others.
Qed.

Lemma lines_of_record p s : package_ok p -> lines_of (record_text p ++ s) = record_lines p ++ [] :: lines_of s.
Proof.
  intros [[Hn _] (_ & Hs2 & _) Hd Hpre [Hf _] [_ Hm2] Ho]. unfold record_text. rewrite <- app_assoc. rewrite lines_of_concat; [done|].
  assert (forall k f, (forall g, f = Some g -> field_line_ok g) -> Forall (fun c => c <> 10) k -> Forall (Forall (fun c => c <> 10)) (opt_line k f)) as Hopt.
  { intros k [g|] Hg Hk; [|constructor]. constructor; [|constructor]. apply Forall_app. split; [done|]. by apply (Hg g). }
  assert (Forall (fun c => c <> 10) (concat (hex2 <$> p_md5 p))) as Hmd.
  { induction Hm2 as [|b bs Hb _ IH]; [constructor|]. rewrite fmap_cons. cbn [concat]. apply Forall_app. split; [|done].
    unfold hex2, hex_digit. unfold is_byte in Hb.
    repeat constructor; match goal with |- context [if ?a <? 10 then _ else _] => destruct (Z.ltb_spec a 10) end; dlia. }
  assert (Forall (fun c => c <> 10) (p_size p)) as Hsz by (eapply Forall_impl; [exact Hs2|]; unfold digit; intros; lia).
  unfold record_lines. rewrite !Forall_app. split_and!.
  - constructor; [|constructor; [|constructor]]; apply Forall_app; split; done || by repeat constructor.
  - apply Hopt; [done | by repeat constructor].
  - apply Hopt; [done | by repeat constructor].
  - constructor; [|constructor; [|constructor]]; apply Forall_app; split; done || by repeat constructor.
  - eapply Forall_impl; [exact Ho|]. by intros l [_ H].
Qed.

Definition add_record (t : gmap str (list PackageDetail)) (p : package) : gmap str (list PackageDetail) :=
  <[p_name p := default [] (t !! p_name p) ++ [detail_of p]]> t.

Lemma AptParse_lists_text ps n t :
  Forall package_ok ps -> (length ps < n)%nat -> AptParse_lists n (lines_of (list_text ps)) t = Done (foldl add_record t ps).
Proof.
  intros H. revert n t. induction H as [|p ps Hp Hps IH]; intros n t Hn; destruct n as [|n]; try (simpl in Hn; lia); [done|].
  unfold list_text in *. rewrite fmap_cons. cbn [concat]. rewrite lines_of_record by done. cbn [AptParse_lists].
  rewrite AptParse_record by done. cbn [bind_out detail_of size_]. destruct Hp as [_ (_ & _ & Hs) _ _ _ _ _].
  rewrite (proj2 (Z.eqb_neq _ 0)) by lia. cbn [foldl]. apply IH. simpl in Hn. lia.
Qed.

Lemma lookup_records ps k :
  foldl add_record ∅ ps !! k =
  (let ds := detail_of <$> filter (fun p => p_name p = k) ps in if bool_decide (ds = []) then None else Some ds).
Proof.
  induction ps as [|p ps IH] using rev_ind; [done|]. rewrite foldl_app. cbn [foldl]. unfold add_record at 1.
  rewrite filter_app, fmap_app. destruct (decide (p_name p = k)) as [E|E].
  - rewrite <- E, lookup_insert_eq. rewrite E at 1. rewrite IH. rewrite E, filter_cons_True by done.
    rewrite (filter_nil). cbn zeta. rewrite fmap_cons, fmap_nil.
    rewrite (bool_decide_false (_ ++ _ = [])) by (intros Hx; by apply app_nil in Hx as [_ ?]).
    case_bool_decide as Hb; [by rewrite Hb | done].
  - rewrite lookup_insert_ne by done. rewrite IH, filter_cons_False by done.
    rewrite filter_nil, fmap_nil, app_nil_r. done.
Qed.

(** C28: reading the text of a package list gives, for every package name, the details
    of all records of that name in their order: size, file name, checksum and the
    expressions of both dependency fields; lines with other keys are skipped. *)
Theorem AptParse_lists_reads ps n :
  Forall package_ok ps -> (length ps < n)%nat ->
  exists table, AptParse_lists n (lines_of (list_text ps)) ∅ = Done table /\
    forall k, table !! k =
      (let ds := detail_of <$> filter (fun p => p_name p = k) ps in if bool_decide (ds = []) then None else Some ds).
Proof.
  intros Hps Hn. exists (foldl add_record ∅ ps). split; [by apply AptParse_lists_text | intros k; apply lookup_records].
Qed.

Definition demo_package : package :=
  MkPackage (c_str "gawk") (c_str "512") (Some dep_field) None (c_str "pool/g/gawk.deb") (seqZ 10 16) [c_str "Section: text"].

Lemma AptParse_lists_reads_witness :
  exists table, AptParse_lists 3 (lines_of (list_text [demo_package; demo_package])) ∅ = Done table /\
    table !! c_str "gawk" = Some [detail_of demo_package; detail_of demo_package].
Proof.
  destruct (AptParse_lists_reads [demo_package; demo_package] 3) as (table & E & Ht); [|simpl; lia|].
  - assert (package_ok demo_package) as H; [|by constructor; [|constructor]].
    constructor.
    + split; [by repeat constructor | done].
    + split; [done|]. split; [|by vm_compute]. vm_compute. repeat constructor; congruence.
    + intros f [= <-]. split; [apply dep_field_ok|]. vm_compute. repeat constructor; congruence.
    + intros f [=].
    + split; [by repeat constructor | done].
    + split; [done|]. apply bytes_check. by vm_compute.
    + constructor; [|constructor]. split; [split; [done|]; by repeat constructor | by repeat constructor].
  - exists table. split; [exact E|]. rewrite Ht. by vm_compute.
Defined.
