(* ===== verification/Apt.v ===== *)
(** * The apt client: [src/apt/apt.cpp]

    The package lists the client knows, the resolution of dependencies and the
    download of packages.  What the client asks of the system, [wget], the output
    of a shell command and the files of the working directory, is behind the
    interface [Downloads]. *)
From Stdlib Require Import ZArith Lia.
From stdpp Require Import base tactics list numbers strings gmap.
From S2P Require Import Prelude AptList.
Open Scope Z_scope.

Definition ENOENT : Z := 2.

(** ** The list files *)

Record AptListFile : Type := MkListFile {
  table : gmap str (list PackageDetail); uri : str; suite : str; component : str }.

(** The loop over the components of a file name; [None] when one of them differs.
    It ends after five of them. *)
Fixpoint match_loop (n : nat) (suite component rest : str) (tokens : Z) (actualUri : str) : option str :=
  match n, rest with
  | O, _ | _, [] => Some actualUri
  | S n', _ :: _ =>
      let '(thisToken, r) := span (fun c => negb (c =? 95)) rest in
      let actualUri := if tokens <? 2 then actualUri ++ thisToken ++ [47] else actualUri in
      if (tokens =? 3) && negb (str_eqb thisToken suite) then None
      else if (tokens =? 4) && negb (str_eqb thisToken component) then None
      else match r with
           | [] => Some actualUri
           | _ :: r' => if tokens + 1 >? 4 then Some actualUri
                        else match_loop n' suite component r' (tokens + 1) actualUri
           end
  end.

Definition match_file (f : AptListFile) (file : str) : bool :=
  match match_loop 5 (suite f) (component f) file 0 [] with
  | None => false
  | Some actualUri =>
      let actualUriLen := length actualUri in
      let uriLen := length (uri f) in
      if (uriLen <? actualUriLen)%nat then false else str_eqb (drop (uriLen - actualUriLen) (uri f)) actualUri
  end.

(** [AptListFile::parse] of a file with these lines. *)
Definition parse_file (fuel : nat) (f : AptListFile) (lines : list str) : outcome AptListFile :=
  bind_out (AptParse_lists fuel lines (table f)) (fun t => Done (MkListFile t (uri f) (suite f) (component f))).

(** *** A line of sources.list *)

(** The rest of the string and the extended token. *)
Definition appendNextToken (s dest : str) : str * str :=
  let '(t, r) := span (fun c => negb (isspace c)) (span isspace s).2 in (r, dest ++ t).

(** Tokens up to one that ends in a bracket. *)
Fixpoint skip_options (fuel : nat) (ptr uri : str) : outcome (str * str) :=
  match last uri with
  | None => Fault
  | Some c =>
      if c =? 93 then Done (ptr, uri)
      else match fuel with
           | O => Diverged
           | S fuel' => let '(ptr, uri) := appendNextToken ptr uri in skip_options fuel' ptr uri
           end
  end.

Fixpoint more_components (fuel : nat) (ptr uri suite : str) (files : list AptListFile) : outcome (list AptListFile) :=
  match fuel with
  | O => Diverged
  | S fuel' =>
      let '(ptr, component) := appendNextToken ptr [] in
      match component with
      | [] => Done files
      | _ :: _ => more_components fuel' ptr uri suite (files ++ [MkListFile ∅ uri suite component])
      end
  end.

(** [front] and [back] of an empty string are undefined, and so is a pointer behind
    the terminator of the line. *)
Definition fromLine (fuel : nat) (files : list AptListFile) (line : str) : outcome (list AptListFile) :=
  if negb (startswith (c_str "deb") line) then Done files
  else if startswith (c_str "deb-src") line then Done files
  else if Z.of_nat (length line) <? 4 then Fault
  else
    let '(ptr, uri) := appendNextToken (cstr (drop 4 line)) [] in
    bind_out
      (match uri with
       | [] => Fault
       | c :: _ =>
           if c =? 91 then
             bind_out (skip_options fuel ptr uri) (fun '(ptr, _) => Done (appendNextToken ptr []))
           else Done (ptr, uri)
       end) (fun '(ptr, uri) =>
    match last uri with
    | None => Fault
    | Some c =>
        let uri := if negb (c =? 47) then uri ++ [47] else uri in
        let '(ptr, suite) := appendNextToken ptr [] in
        let '(ptr, component) := appendNextToken ptr [] in
        match uri, suite, component with
        | _ :: _, _ :: _, _ :: _ =>
            more_components fuel ptr uri suite (files ++ [MkListFile ∅ uri suite component])
        | _, _, _ => Done files
        end
    end).

(** *** The constructor *)

Fixpoint foldM {A B} (f : A -> B -> outcome A) (l : list B) (a : A) : outcome A :=
  match l with [] => Done a | b :: l' => bind_out (f a b) (foldM f l') end.

Definition doParse (fuel : nat) (files : list AptListFile) (lines : list str) : outcome (list AptListFile) :=
  foldM (fun files line => match line with [] => Done files | _ => fromLine fuel files line end) lines files.

Definition endswith (s1 end_ : str) : bool :=
  if (length s1 <? length end_)%nat then false else str_eqb (drop (length s1 - length end_) s1) end_.

(** Parse a list file into the first entry that it matches. *)
Fixpoint parse_into (fuel : nat) (files : list AptListFile) (name : str) (lines : list str) : outcome (list AptListFile) :=
  match files with
  | [] => Done []
  | f :: files' =>
      if match_file f name then bind_out (parse_file fuel f lines) (fun f => Done (f :: files'))
      else bind_out (parse_into fuel files' name lines) (fun files' => Done (f :: files'))
  end.

(** The lines of the sources, the entries of the directory of source lists, if there
    is one, and the entries of the directory of package lists. *)
Definition Apt_new (fuel : nat) (sources : list str) (dir : option (list (str * list str))) (lists : list (str * list str)) :
    outcome (list AptListFile) :=
  bind_out (doParse fuel [] sources) (fun files =>
  bind_out
    (foldM (fun files e => if endswith e.1 (c_str ".list") then doParse fuel files e.2 else Done files) (default [] dir) files)
    (fun files =>
  foldM (fun files e => if endswith e.1 (c_str "Packages") then parse_into fuel files e.1 e.2 else Done files) lists files)).

(** ** Finding packages *)

Fixpoint lookup_package (files : list AptListFile) (package : str) : option (AptListFile * list PackageDetail) :=
  match files with
  | [] => None
  | f :: files' => match table f !! package with Some d => Some (f, d) | None => lookup_package files' package end
  end.

Definition find {S} (files : list AptListFile) (package : str)
    (callback : AptListFile -> list PackageDetail -> cmd S Z) : cmd S Z :=
  match lookup_package files package with Some (f, d) => callback f d | None => mret ENOENT end.

Definition packageExists (files : list AptListFile) (package : str) : bool :=
  match find (S := unit) files package (fun _ _ => mret 0) tt with Done (r, _) => r =? 0 | _ => false end.

(** ** Dependencies *)

Definition satisfy_opt (ex : str -> bool) (e : option ExprNode) : cmd sset unit :=
  match e with Some e => _ ← satisfy ex e; mret tt | None => mret tt end.

Definition addDeps (files : list AptListFile) (f : AptListFile) (details : list PackageDetail) : cmd sset Z :=
  detail ← c_deref (head details);
  satisfy_opt (packageExists files) (deps_ detail) ;;
  satisfy_opt (packageExists files) (pre_deps_ detail) ;;
  mret 0.

Definition doSatisfy (files : list AptListFile) (package : str) : cmd sset unit :=
  (fun s => Done (tt, set_insert package s)) ;;
  _ ← find files package (addDeps files);
  mret tt.

(** The next element of the set that is iterated over: it may grow meanwhile. *)
Fixpoint next_element (cur : option str) (s : sset) : option str :=
  match s with
  | [] => None
  | x :: s' => match cur with
               | None => Some x
               | Some c => if str_ltb c x then Some x else next_element cur s'
               end
  end.

Fixpoint sweep (fuel : nat) (files : list AptListFile) (cur : option str) : cmd sset unit := fun s =>
  match next_element cur s with
  | None => Done (tt, s)
  | Some p =>
      match fuel with
      | O => Diverged
      | S fuel' => (doSatisfy files p ;; sweep fuel' files (Some p)) s
      end
  end.

(** Sweeps until the size of the set does not change any more. *)
Fixpoint saturate (n fuel : nat) (files : list AptListFile) : cmd sset unit :=
  match n with
  | O => c_diverge
  | S n' => fun s =>
      match sweep fuel files None s with
      | Done (_, s') => if Nat.eqb (length s) (length s') then Done (tt, s') else saturate n' fuel files s'
      | AssertFail => AssertFail | Fault => Fault | Diverged => Diverged
      end
  end.

Definition packagesRequired (fuel : nat) (files : list AptListFile) (packages : list str) : cmd sset unit :=
  c_foreach packages 0 (fun _ p => doSatisfy files p) ;;
  saturate fuel fuel files.

(** ** Downloads *)

(** The files of the working directory. *)
Definition world : Type := gmap str (list Z).

(** [wget] gives its exit code, or nothing when it cannot be started and waited for;
    [popen] gives the output of a shell command. *)
Class Downloads : Type := {
  wget : world -> str -> str -> option Z * world;
  popen : world -> str -> option str;
}.

Section Client.
Context {downloads : Downloads}.

Definition sizeMatch (w : world) (file : str) (size : Z) : bool :=
  match w !! file with Some bytes => Z.of_nat (length bytes) =? size | None => false end.

(** The comparison of the digits in [buf] with the checksum; characters behind the
    terminator of [buf] are not initialised. *)
Fixpoint md5_loop (buf : str) (md5sum : list Z) (i : Z) : outcome bool :=
  match md5sum with
  | [] => Done true
  | m :: md5sum' =>
      bind_out (char_at buf (i * 2)) (fun a =>
      bind_out (char_at buf (i * 2 + 1)) (fun b =>
      if negb (hex_byte a b =? m) then Done false else md5_loop buf md5sum' (i + 1)))
  end.

Definition md5sumMatch (w : world) (file : str) (md5sum : list Z) : outcome bool :=
  let command := c_str "md5sum " ++ file in
  if Z.of_nat (length command) + 1 >? 128 * 2 then Fault
  else match popen w command with
       | None => Done false
       | Some out =>
           let buf := take 32 (span (fun c => negb (isspace c)) (span isspace out).2).1 in
           match buf with [] => Fault | _ => md5_loop buf md5sum 0 end
       end.

Definition fileMatch (w : world) (file : str) (detail : PackageDetail) : outcome bool :=
  if sizeMatch w file (size_ detail) then md5sumMatch w file (md5sum_ detail) else Done false.

Definition deb (package : str) : str := package ++ c_str ".deb".

(** Download the file and check it. *)
Definition fetch (f : AptListFile) (detail : PackageDetail) (ofile : str) : cmd world Z := fun w =>
  match last (uri f) with
  | None => Fault
  | Some c =>
      let u := if negb (c =? 47) then uri f ++ [47] else uri f in
      match wget w (cstr (u ++ filename_ detail)) ofile with
      | (None, w) => Done (1, w)
      | (Some ret, w) =>
          if negb (ret =? 0) then Done (ret, w)
          else bind_out (fileMatch w ofile detail) (fun ok =>
               if ok : bool then Done (0, w) else Done (1, delete ofile w))
      end
  end.

(** A file that is there already is downloaded again unless it matches. *)
Definition check_or_fetch (f : AptListFile) (detail : PackageDetail) (ofile : str) : cmd world Z := fun w =>
  match w !! ofile with
  | Some _ =>
      bind_out (fileMatch w ofile detail) (fun ok =>
      if ok : bool then Done (0, w) else fetch f detail ofile w)
  | None => fetch f detail ofile w
  end.

Definition downloadCallback (package : str) (f : AptListFile) (details : list PackageDetail) : cmd world Z :=
  detail ← c_deref (head details);
  check_or_fetch f detail (deb package).

Definition doDownload (files : list AptListFile) (package : str) : cmd world Z :=
  find files package (downloadCallback package).

Fixpoint download_all (files : list AptListFile) (packages : list str) (ret : Z) : cmd world Z :=
  match packages with
  | [] => mret ret
  | p :: ps => r ← doDownload files p; download_all files ps (Z.lor ret r)
  end.

(** The packages behind the first one, then the first one. *)
Definition download (files : list AptListFile) (packages : list str) : cmd world Z :=
  ret ← download_all files (drop 1 packages) 0;
  download_all files (take 1 packages) ret.

Definition downloadDeps (fuel : nat) (files : list AptListFile) (packages : list str) : cmd world Z := fun w =>
  match packages with
  | [] => Done (1, w)
  | _ :: _ =>
      match packagesRequired fuel files packages [] with
      | Done (_, required) => download files required w
      | AssertFail => AssertFail | Fault => Fault | Diverged => Diverged
      end
  end.

(** [info] prints every record of its packages; the result and the text. *)
Fixpoint decimal_loop (fuel : nat) (n : Z) (acc : str) : str :=
  match fuel with
  | O => acc
  | S fuel' => if n =? 0 then acc else decimal_loop fuel' (n / 10) (48 + n mod 10 :: acc)
  end.
Definition decimal (n : Z) : str := if n =? 0 then [48] else decimal_loop (S (Z.to_nat (Z.log2 n))) n [].
Definition info_text (arg : str) (details : list PackageDetail) : str :=
  (if (1 <? length details)%nat
   then c_str "Package " ++ arg ++ c_str " has " ++ decimal (Z.of_nat (length details)) ++ c_str " records:" ++ [10] else []) ++
  concat ((fun d => c_str "Package " ++ arg ++ c_str ":" ++ [10] ++ print_detail d ++ [10]) <$> details).
Fixpoint info (files : list AptListFile) (packages : list str) (ret : Z) : cmd str Z :=
  match packages with
  | [] => mret ret
  | arg :: ps =>
      r ← find files arg (fun _ details => fun out => Done (0, out ++ info_text arg details));
      info files ps (Z.lor ret r)
  end.

End Client.

(** A list file name with fewer than four components is compared by its first two
    only. *)
Example match_short_name :
  match_file (MkListFile ∅ (c_str "http://x.org/debian/") (c_str "stable") (c_str "main")) (c_str "x.org_debian_Packages") = true.
Proof. vm_compute. reflexivity. Qed.
Example fromLine_short : fromLine 10 [] (c_str "deb") = Fault.
Proof. vm_compute. reflexivity. Qed.
