(* ===== verification/AptDeps.v ===== *)
(** * The resolution of dependencies: the set that [download-dep] computes *)
From Stdlib Require Import ZArith Lia Sorting.Sorted.
From stdpp Require Import base tactics list numbers strings gmap.
From S2P Require Import Prelude AptList AptSet AptListTheorems Apt.
Open Scope Z_scope.

(** ** Well-formed lists *)

Definition detail_wf (d : PackageDetail) : Prop :=
  (forall e, deps_ d = Some e -> wf_expr e) /\ (forall e, pre_deps_ d = Some e -> wf_expr e).
Definition details_wf (ds : list PackageDetail) : Prop := ds <> [] /\ Forall detail_wf ds.
Definition file_wf (f : AptListFile) : Prop := map_Forall (fun _ ds => details_wf ds) (table f).

Lemma bind_out_done {A B} (o : outcome A) (k : A -> outcome B) b : bind_out o k = Done b -> exists a, o = Done a /\ k a = Done b.
Proof. destruct o; simpl; intros H; try done. by eexists. Qed.

Lemma parse_field_wf line pk d pk' d' : parse_field line pk d = Done (pk', d') -> detail_wf d -> detail_wf d'.
Proof.
  unfold parse_field. intros H [H1 H2].
  assert (forall s o, ParseDep s = Done o -> forall e, o = Some e -> wf_expr e) as HP.
  { intros s o E e ->. destruct (ParseDep_cases s) as [E'|(o' & E' & Ho)]; congruence || (rewrite E in E'; simplify_eq; done). }
  split_ifs; try (by split);
    repeat match goal with
    | E : bind_out _ _ = Done _ |- _ => apply bind_out_done in E as (? & ? & E); simplify_eq
    end; split; simpl; eauto.
Qed.

Lemma record_loop_wf lines b pk d pk' d' rest : record_loop lines b pk d = Done (pk', d', rest) -> detail_wf d -> detail_wf d'.
Proof.
  revert b pk d. induction lines as [|[|c line] lines IH]; intros b pk d H Hd; cbn [record_loop] in H.
  - by simplify_eq.
  - destruct b; [by simplify_eq | by apply IH in H].
  - apply bind_out_done in H as ([pk1 d1] & E & H). apply IH in H; [done|]. by apply parse_field_wf in E.
Qed.

Lemma no_detail_wf : detail_wf no_detail.
Proof. done. Qed.

Lemma AptParse_lists_wf n lines t t' :
  AptParse_lists n lines t = Done t' -> map_Forall (fun _ ds => details_wf ds) t -> map_Forall (fun _ ds => details_wf ds) t'.
Proof.
  revert lines t. induction n as [|n IH]; intros lines t H Ht; [done|]. cbn [AptParse_lists] in H.
  apply bind_out_done in H as ([[pk d] rest] & E & H). destruct (size_ d =? 0); [by simplify_eq|].
  apply IH in H; [done|]. apply map_Forall_insert_2; [|done].
  split; [intros Hx; by apply app_nil in Hx as [_ ?]|]. apply Forall_app. split.
  - destruct (t !! pk) as [ds|] eqn:El; [|done]. by apply (Ht pk ds El).
  - constructor; [|done]. by apply (record_loop_wf _ _ _ _ _ _ _ E).
Qed.

Lemma foldM_inv {A B} (P : A -> Prop) (f : A -> B -> outcome A) l a a' :
  (forall a b a', f a b = Done a' -> P a -> P a') -> foldM f l a = Done a' -> P a -> P a'.
Proof.
  intros Hf. revert a. induction l as [|b l IH]; intros a H Ha; cbn [foldM] in H; [by simplify_eq|].
  apply bind_out_done in H as (a1 & E & H). eauto.
Qed.

Lemma new_file_wf u s c : file_wf (MkListFile ∅ u s c).
Proof. apply map_Forall_empty. Qed.

Lemma more_components_wf n ptr u s files files' :
  more_components n ptr u s files = Done files' -> Forall file_wf files -> Forall file_wf files'.
Proof.
  revert ptr files. induction n as [|n IH]; intros ptr files H Hf; [done|]. cbn [more_components] in H.
  destruct (appendNextToken ptr []) as [ptr' c]. destruct c; [by simplify_eq|]. apply IH in H; [done|].
  apply Forall_app. split; [done|]. constructor; [apply new_file_wf | done].
Qed.

Lemma fromLine_wf n files line files' : fromLine n files line = Done files' -> Forall file_wf files -> Forall file_wf files'.
Proof.
  unfold fromLine. intros H Hf. destruct (negb _); [by simplify_eq|]. destruct (startswith _ _); [by simplify_eq|].
  destruct (_ <? 4); [done|]. destruct (appendNextToken _ []) as [ptr u].
  apply bind_out_done in H as ([ptr1 u1] & _ & H). destruct (last u1) as [c|]; [|done]. cbn zeta in H.
  destruct (appendNextToken ptr1 []) as [ptr2 s]. destruct (appendNextToken ptr2 []) as [ptr3 cp].
  destruct (if negb _ then _ else _); [by simplify_eq|]. destruct s; [by simplify_eq|]. destruct cp; [by simplify_eq|].
  apply more_components_wf in H; [done|]. apply Forall_app. split; [done|]. constructor; [apply new_file_wf | done].
Qed.

Lemma doParse_wf n files lines files' : doParse n files lines = Done files' -> Forall file_wf files -> Forall file_wf files'.
Proof. apply foldM_inv. intros fs [|c line] fs' H Hp; [by simplify_eq | by apply fromLine_wf in H]. Qed.

Lemma parse_into_wf n files name lines files' :
  parse_into n files name lines = Done files' -> Forall file_wf files -> Forall file_wf files'.
Proof.
  revert files'. induction files as [|f files IH]; intros files' H Hf; cbn [parse_into] in H; [by simplify_eq|].
  apply Forall_cons in Hf as [Hf Hfs]. destruct (match_file f name).
  - apply bind_out_done in H as (f1 & E & H). unfold parse_file in E. apply bind_out_done in E as (t & E & H1).
    simplify_eq. constructor; [|done]. by apply AptParse_lists_wf in E.
  - apply bind_out_done in H as (fs1 & E & H). simplify_eq. constructor; [done|]. by apply IH.
Qed.

Lemma Apt_new_files_wf n sources dir lists files : Apt_new n sources dir lists = Done files -> Forall file_wf files.
Proof.
  unfold Apt_new. intros H. apply bind_out_done in H as (fs1 & E1 & H). apply bind_out_done in H as (fs2 & E2 & H).
  apply doParse_wf in E1; [|done].
  apply (foldM_inv (Forall file_wf)) in E2; [|intros a [nm ls] a' Ha Hp; simpl in Ha; destruct (endswith _ _); [by apply doParse_wf in Ha | by simplify_eq]|done].
  apply (foldM_inv (Forall file_wf)) in H; [done|intros a [nm ls] a' Ha Hp; simpl in Ha; destruct (endswith _ _); [by apply parse_into_wf in Ha | by simplify_eq]|done].
Qed.

(** C30: whatever the source lists and the package lists contain, in every table that the
    constructor of the client builds each name has at least one record, and every
    dependency expression has only the operators | and comma: the accesses to the
    first record and the evaluation of the expressions are safe. *)
Theorem Apt_new_wf n sources dir lists files : Apt_new n sources dir lists = Done files -> Forall file_wf files.
Proof. apply Apt_new_files_wf. Qed.

(** ** What a package needs *)

Section Deps.
Context (files : list AptListFile) (Hwf : Forall file_wf files).

Definition deps_of (p : str) : list ExprNode :=
  match lookup_package files p with
  | Some (_, d :: _) => option_list (deps_ d) ++ option_list (pre_deps_ d)
  | _ => []
  end.

Abbreviation ex := (packageExists files).

(** Every expression of [p] that packages which exist can satisfy is satisfied by the
    packages of the set. *)
Definition sat (p : str) (s : sset) : Prop := forall e, e ∈ deps_of p -> eval ex e = true -> eval (mem s) e = true.

(** The packages that are reached from the arguments. *)
Inductive reach (packages : list str) : str -> Prop :=
| reach_arg p : p ∈ packages -> reach packages p
| reach_dep p q e : reach packages p -> e ∈ deps_of p -> q ∈ names e -> ex q = true -> reach packages q.

Lemma lookup_package_wf p f ds : lookup_package files p = Some (f, ds) -> details_wf ds.
Proof.
  revert Hwf. clear. induction files as [|g gs IH]; intros Hwf H; [done|]. apply Forall_cons in Hwf as [Hg Hgs].
  cbn [lookup_package] in H. destruct (table g !! p) as [d|] eqn:E; [|by apply IH]. simplify_eq. by apply (Hg p ds E).
Qed.

Lemma exists_lookup p : ex p = true <-> is_Some (lookup_package files p).
Proof.
  unfold packageExists, find. destruct (lookup_package files p) as [[f d]|]; simpl; [|split; [done|by intros [? ?]]].
  split; [by eexists | done].
Qed.

(** The names in the tables. *)
Definition known : list str := files ≫= (fun f => (map_to_list (table f)).*1).

Lemma exists_known p : ex p = true -> p ∈ known.
Proof.
  intros H%exists_lookup. unfold known. revert H. clear. induction files as [|g gs IH]; intros [[f d] H]; [done|].
  cbn [lookup_package] in H. cbn [mbind list_bind]. apply elem_of_app. destruct (table g !! p) as [ds|] eqn:E.
  - left. apply list_elem_of_fmap. exists (p, ds). split; [done|]. by apply elem_of_map_to_list.
  - right. apply IH. by eexists.
Qed.

(** The set grows by packages that exist, of the expressions [es]. *)
Definition extends (es : list ExprNode) (s s' : sset) : Prop :=
  (sset_ok s -> sset_ok s') /\ (forall x, x ∈ s -> x ∈ s') /\
  (forall x, x ∈ s' -> x ∈ s \/ exists e, e ∈ es /\ x ∈ names e /\ ex x = true).

Lemma satisfy_opt_spec o s :
  (forall e, o = Some e -> wf_expr e) ->
  exists s', satisfy_opt ex o s = Done (tt, s') /\ extends (option_list o) s s' /\
    forall e, e ∈ option_list o -> eval ex e = true -> eval (mem s') e = true.
Proof.
  destruct o as [e|]; intros Hw.
  - destruct (satisfy_spec ex e s (Hw e eq_refl)) as (r & s' & E & Hr & (H1 & H2 & H3) & He).
    exists s'. unfold satisfy_opt. rewrite (bind_done _ _ _ _ _ E). split; [done|]. split.
    + split; [done|]. split; [done|]. intros x Hx. destruct (H3 x Hx) as [H|[Hn Hex]]; [by left|].
      right. exists e. simpl. split; [by left | done].
    + intros e' He' Hev. simpl in He'. apply list_elem_of_singleton in He' as ->. apply He. by rewrite Hr, Hev.
  - exists s. split; [done|]. split; [split; [done|]; split; [done|]; tauto|]. intros e He. by apply not_elem_of_nil in He.
Qed.

Lemma doSatisfy_spec p s :
  exists s', doSatisfy files p s = Done (tt, s') /\ (sset_ok s -> sset_ok s') /\ p ∈ s' /\ (forall x, x ∈ s -> x ∈ s') /\
    (forall x, x ∈ s' -> x ∈ s \/ x = p \/ exists e, e ∈ deps_of p /\ x ∈ names e /\ ex x = true) /\ sat p s'.
Proof.
  assert (doSatisfy files p s = (find files p (addDeps files) ≫= (fun _ => mret tt : cmd sset unit)) (set_insert p s)) as -> by done.
  unfold find, sat, deps_of.
  destruct (lookup_package files p) as [[f ds]|] eqn:E.
  - destruct (lookup_package_wf _ _ _ E) as [Hne Hds]. destruct ds as [|d ds]; [done|].
    apply Forall_cons in Hds as [[Hd1 Hd2] _].
    destruct (satisfy_opt_spec (deps_ d) (set_insert p s) Hd1) as (s1 & E1 & (O1 & I1 & X1) & S1).
    destruct (satisfy_opt_spec (pre_deps_ d) s1 Hd2) as (s2 & E2 & (O2 & I2 & X2) & S2).
    exists s2. split.
    { unfold addDeps. cbn [head c_deref]. unfold mbind, cmd_bind, mret, cmd_ret. by rewrite E1, E2. }
    split; [intros Hs; by apply O2, O1, set_insert_ok|]. split; [apply I2, I1, elem_set_insert; by left|].
    split; [intros x Hx; apply I2, I1, elem_set_insert; by right|]. split.
    + intros x Hx. destruct (X2 x Hx) as [H|(e & He & Hn)].
      * destruct (X1 x H) as [H'|(e & He & Hn)]; [apply elem_set_insert in H'; tauto|].
        right; right. exists e. split; [apply elem_of_app; by left | done].
      * right; right. exists e. split; [apply elem_of_app; by right | done].
    + intros e [He|He]%elem_of_app Hev; [|by apply S2]. apply (eval_mem_mono s1); [done|]. by apply S1.
  - exists (set_insert p s). split; [done|]. split; [apply set_insert_ok|]. split; [apply elem_set_insert; by left|].
    split; [intros x Hx; apply elem_set_insert; by right|]. split; [intros x Hx%elem_set_insert; tauto|].
    intros e He. by apply not_elem_of_nil in He.
Qed.

Lemma sat_mono p s t : (forall x, x ∈ s -> x ∈ t) -> sat p s -> sat p t.
Proof. intros H Hs e He Hev. apply (eval_mem_mono s); [done|]. by apply Hs. Qed.

(** ** The sweeps over the set *)

Definition after (cur : option str) (x : str) : Prop :=
  match cur with Some c => str_ltb c x = true | None => True end.
#[local] Instance after_dec cur x : Decision (after cur x).
Proof. destruct cur; simpl; apply _. Defined.

Lemma next_element_some cur s p : sset_ok s -> next_element cur s = Some p ->
  p ∈ s /\ after cur p /\ forall x, x ∈ s -> after cur x -> x = p \/ str_ltb p x = true.
Proof.
  induction 1 as [|y s Hs IH Hy]; [done|]. cbn [next_element]. rewrite Forall_forall in Hy.
  destruct cur as [c|]; simpl.
  - destruct (str_ltb c y) eqn:E.
    + intros [= <-]. split; [left|]. split; [done|]. intros x Hx _. apply elem_of_cons in Hx as [->|Hx]; auto.
    + intros H. destruct (IH H) as (H1 & H2 & H3). split; [by right|]. split; [done|].
      intros x Hx Ha. apply elem_of_cons in Hx as [->|Hx]; [congruence | auto].
  - intros [= <-]. split; [left|]. split; [done|]. intros x Hx _. apply elem_of_cons in Hx as [->|Hx]; auto.
Qed.

Lemma next_element_none cur s x : next_element cur s = None -> x ∈ s -> ~ after cur x.
Proof.
  induction s as [|y s IH]; cbn [next_element]; intros H Hx; [by apply not_elem_of_nil in Hx|].
  destruct cur as [c|]; [|done]. destruct (str_ltb c y) eqn:E; [done|]. apply elem_of_cons in Hx as [->|Hx]; [simpl; congruence | auto].
Qed.

(** The elements of a list that a sweep can still visit. *)
Definition ahead (cur : option str) (U : list str) : nat := length (filter (after cur) U).

Lemma ahead_step cur p U : p ∈ U -> after cur p -> (ahead (Some p) U < ahead cur U)%nat.
Proof.
  intros Hp Ha. unfold ahead.
  assert (forall x, after (Some p) x -> after cur x) as Hsub.
  { intros x Hx. destruct cur as [c|]; [|done]. simpl in *. by apply (str_ltb_trans _ p). }
  assert (forall V : list str, (length (filter (after (Some p)) V) <= length (filter (after cur) V))%nat) as Hle.
  { intros V. induction V as [|x V IH]; [done|]. rewrite !filter_cons.
    destruct (decide (after (Some p) x)), (decide (after cur x)); simpl; try lia. exfalso. auto. }
  induction U as [|x U IH]; [by apply not_elem_of_nil in Hp|]. rewrite !filter_cons. specialize (Hle U).
  apply elem_of_cons in Hp as [<-|Hp].
  - rewrite decide_False by (simpl; by rewrite str_ltb_irrefl). rewrite decide_True by done. simpl. lia.
  - specialize (IH Hp). destruct (decide (after (Some p) x)), (decide (after cur x)); simpl; try lia. exfalso. auto.
Qed.

Section Run.
Context (packages : list str).

(** All sets consist of arguments and packages in the tables that are reached. *)
Definition universe : list str := packages ++ known.
Definition good (s : sset) : Prop := sset_ok s /\ forall x, x ∈ s -> reach packages x.

Lemma good_universe s x : good s -> x ∈ s -> x ∈ universe.
Proof.
  intros [_ Hg] Hx. apply elem_of_app. destruct (Hg x Hx) as [p Hp|p q e _ _ _ Hex]; [by left|]. right. by apply exists_known.
Qed.

Lemma doSatisfy_good p s : good s -> reach packages p ->
  exists s', doSatisfy files p s = Done (tt, s') /\ good s' /\ p ∈ s' /\ (forall x, x ∈ s -> x ∈ s') /\ sat p s'.
Proof.
  intros [Ho Hr] Hp. destruct (doSatisfy_spec p s) as (s' & E & H1 & H2 & H3 & H4 & H5).
  exists s'. split; [done|]. split; [|done]. split; [auto|]. intros x Hx.
  destruct (H4 x Hx) as [H|[-> |(e & He & Hn & Hex)]]; [auto|done|]. by apply (reach_dep _ p x e).
Qed.

Lemma sweep_spec fuel cur s : good s -> (ahead cur universe <= fuel)%nat ->
  exists s', sweep fuel files cur s = Done (tt, s') /\ good s' /\ (forall x, x ∈ s -> x ∈ s') /\
    forall p, p ∈ s -> after cur p -> sat p s'.
Proof.
  revert cur s. induction fuel as [|fuel IH]; intros cur s Hg Hf; cbn [sweep]; destruct (next_element cur s) as [p|] eqn:E.
  - destruct (next_element_some _ _ _ (proj1 Hg) E) as (Hp & Ha & _).
    pose proof (ahead_step cur p universe (good_universe _ _ Hg Hp) Ha). lia.
  - exists s. split; [done|]. split; [done|]. split; [done|]. intros p Hp Ha. by destruct (next_element_none _ _ _ E Hp).
  - destruct (next_element_some _ _ _ (proj1 Hg) E) as (Hp & Ha & Hmin).
    pose proof (ahead_step cur p universe (good_universe _ _ Hg Hp) Ha).
    destruct (doSatisfy_good p s Hg (proj2 Hg p Hp)) as (s1 & E1 & Hg1 & Hp1 & Hi1 & Hs1).
    destruct (IH (Some p) s1 Hg1) as (s2 & E2 & Hg2 & Hi2 & Hs2); [lia|].
    exists s2. split; [by rewrite (bind_done _ _ _ _ _ E1)|]. split; [done|]. split; [auto|].
    intros x Hx Hax. destruct (Hmin x Hx Hax) as [->|Hlt]; [by apply (sat_mono _ s1) | by apply Hs2; [apply Hi1|]].
  - exists s. split; [done|]. split; [done|]. split; [done|]. intros p Hp Ha. by destruct (next_element_none _ _ _ E Hp).
Qed.

Lemma sset_nodup s : sset_ok s -> NoDup s.
Proof.
  induction 1 as [|x s Hs IH Hx]; constructor; [|done]. intros Hin. rewrite Forall_forall in Hx. specialize (Hx x Hin).
  by rewrite str_ltb_irrefl in Hx.
Qed.

Lemma good_length s : good s -> (length s <= length universe)%nat.
Proof.
  intros Hg. apply submseteq_length, NoDup_submseteq; [by apply sset_nodup, Hg|]. intros x. by apply good_universe.
Qed.

(** Sets of the same length of which one includes the other are the same. *)
Lemma good_same s t : good s -> good t -> (forall x, x ∈ s -> x ∈ t) -> length s = length t -> s = t.
Proof.
  intros Hs Ht Hsub Hl. apply sset_ext; [apply Hs|apply Ht|]. intros x. split; [apply Hsub|]. intros Hx.
  assert (s ≡ₚ t) as ->; [|done]. apply submseteq_length_Permutation; [|lia].
  apply NoDup_submseteq; [by apply sset_nodup, Hs | done].
Qed.

Lemma saturate_spec n fuel s : good s -> (length universe < n + length s)%nat -> (length universe <= fuel)%nat ->
  exists s', saturate n fuel files s = Done (tt, s') /\ good s' /\ (forall x, x ∈ s -> x ∈ s') /\ forall p, p ∈ s' -> sat p s'.
Proof.
  revert s. induction n as [|n IH]; intros s Hg Hn Hf; [pose proof (good_length s Hg); lia|]. cbn [saturate].
  destruct (sweep_spec fuel None s Hg) as (s1 & -> & Hg1 & Hi1 & Hs1).
  { unfold ahead. etransitivity; [apply length_filter|done]. }
  destruct (Nat.eqb_spec (length s) (length s1)) as [El|El].
  - exists s1. split; [done|]. split; [done|]. split; [done|]. intros p Hp.
    assert (s = s1) as -> by (by apply good_same). by apply Hs1.
  - assert (length s <= length s1)%nat.
    { apply submseteq_length, NoDup_submseteq; [by apply sset_nodup, Hg | done]. }
    destruct (IH s1 Hg1) as (s2 & E2 & Hg2 & Hi2 & Hs2); [lia|done|]. exists s2. split; [done|]. split; [done|]. by split; [auto|].
Qed.

Lemma doSatisfy_all ps i s : good s -> (forall p, p ∈ ps -> p ∈ packages) ->
  exists s', c_foreach ps i (fun _ p => doSatisfy files p) s = Done (tt, s') /\ good s' /\
    (forall x, x ∈ s -> x ∈ s') /\ forall p, p ∈ ps -> p ∈ s'.
Proof.
  revert i s. induction ps as [|p ps IH]; intros i s Hg Hp.
  - exists s. split; [done|]. split; [done|]. split; [done|]. intros p Hx. by apply not_elem_of_nil in Hx.
  - destruct (doSatisfy_good p s Hg) as (s1 & E1 & Hg1 & Hp1 & Hi1 & _); [apply reach_arg, Hp; left|].
    destruct (IH (i + 1) s1 Hg1) as (s2 & E2 & Hg2 & Hi2 & Hp2); [intros q Hq; apply Hp; by right|].
    exists s2. cbn [c_foreach]. rewrite (bind_done _ _ _ _ _ E1). split; [done|]. split; [done|]. split; [auto|].
    intros q Hq. apply elem_of_cons in Hq as [->|Hq]; auto.
Qed.

Lemma packagesRequired_spec fuel :
  (length universe < fuel)%nat ->
  exists R, packagesRequired fuel files packages [] = Done (tt, R) /\ good R /\
    (forall p, p ∈ packages -> p ∈ R) /\ forall p, p ∈ R -> sat p R.
Proof.
  intros Hf. destruct (doSatisfy_all packages 0 []) as (s & E & Hg & _ & Hp); [split; [constructor|]|done|].
  { intros x Hx. by apply not_elem_of_nil in Hx. }
  destruct (saturate_spec fuel fuel s Hg) as (R & ER & HgR & HiR & HsR); [lia|lia|].
  exists R. unfold packagesRequired. rewrite (bind_done _ _ _ _ _ E). split; [done|]. split; [done|]. by split; [auto|].
Qed.
End Run.
End Deps.

(** C27: [download-dep] finds a set of packages in a number of steps bounded by the
    arguments and the names in the tables: it has the arguments, for every package of
    the set each dependency expression that existing packages can satisfy is satisfied
    by packages of the set, and every member is an argument or an existing package
    that is named in the dependencies of another member. *)
Theorem packagesRequired_closed files packages fuel :
  Forall file_wf files -> (length packages + length (known files) < fuel)%nat ->
  exists R, packagesRequired fuel files packages [] = Done (tt, R) /\
    (forall p, p ∈ packages -> p ∈ R) /\
    (forall p e, p ∈ R -> e ∈ deps_of files p -> eval (packageExists files) e = true -> eval (mem R) e = true) /\
    (forall p, p ∈ R -> reach files packages p).
Proof.
  intros Hwf Hf. destruct (packagesRequired_spec files Hwf packages fuel) as (R & E & [_ Hr] & Hp & Hs).
  { unfold universe. rewrite length_app. lia. }
  exists R. split; [done|]. split; [done|]. split; [|done]. intros p e HpR. by apply Hs.
Qed.
