(* ===== verification/AptTheorems.v ===== *)
(** * Theorems about the apt client: sources, and verified downloads *)
From Stdlib Require Import ZArith Lia.
From stdpp Require Import base tactics list numbers list_numbers strings gmap.
From S2P Require Import Prelude AptList AptSet AptListTheorems AptRecords Apt AptDeps.
Open Scope Z_scope.

(** ** Lines of the source list *)

(** A word: no spaces, no zero byte. *)
Definition word (s : str) : Prop := s <> [] /\ Forall (fun c => isspace c = false /\ c <> 0) s.

Lemma word_check s : negb (str_eqb s []) && forallb (fun c => negb (isspace c) && negb (c =? 0)) s = true -> word s.
Proof.
  intros [H1 H2]%andb_true_iff. split; [by destruct s|]. apply Forall_forall. intros c Hc%list_elem_of_In.
  rewrite forallb_forall in H2. specialize (H2 c Hc). apply andb_true_iff in H2 as [H3%negb_true_iff H4%negb_true_iff%Z.eqb_neq]. done.
Qed.

Lemma append_word w rest dest : word w -> (forall c, head rest = Some c -> isspace c = true) ->
  appendNextToken (32 :: w ++ rest) dest = (rest, dest ++ w).
Proof.
  intros [Hne Hw] Hr. unfold appendNextToken. destruct w as [|c w]; [done|].
  assert ((span isspace (32 :: (c :: w) ++ rest)).2 = (c :: w) ++ rest) as ->.
  { change (32 :: (c :: w) ++ rest) with ([32] ++ (c :: w) ++ rest). rewrite span_all; [done|by repeat constructor|].
    intros d [= <-]. apply Forall_cons in Hw as [[Hc _] _]. done. }
  rewrite span_all; [done| |intros d Hd; by rewrite (Hr d)].
  eapply Forall_impl; [exact Hw|]. intros d [Hd _]. by rewrite Hd.
Qed.

Definition words (ws : list str) : str := concat ((fun w => 32 :: w) <$> ws).

Lemma words_head ws c : head (words ws) = Some c -> isspace c = true.
Proof. destruct ws as [|w ws]; [done|]. unfold words. rewrite fmap_cons. by intros [= <-]. Qed.

Lemma append_words w ws dest : word w -> appendNextToken (words (w :: ws)) dest = (words ws, dest ++ w).
Proof. intros Hw. unfold words at 1. rewrite fmap_cons. apply append_word; [done|]. apply words_head. Qed.

Lemma words_no_zero ws : Forall word ws -> Forall (fun c => c <> 0) (words ws).
Proof.
  induction 1 as [|w ws [_ Hw] _ IH]; [constructor|]. unfold words in *. rewrite fmap_cons. cbn [concat].
  constructor; [done|]. apply Forall_app. split; [|done]. eapply Forall_impl; [exact Hw|]. by intros c [_ Hc].
Qed.

Lemma more_components_words cs n u s files : Forall word cs -> (length cs < n)%nat ->
  more_components n (words cs) u s files = Done (files ++ (MkListFile ∅ u s <$> cs)).
Proof.
  intros H. revert n files. induction H as [|w cs Hc Hcs IH]; intros n files Hn; destruct n as [|n]; try (simpl in Hn; lia); cbn [more_components].
  - by rewrite app_nil_r.
  - rewrite append_words by done. cbn [app]. destruct w as [|x w'] eqn:E; [by destruct Hc|]. rewrite <- E.
    rewrite IH by (simpl in Hn; lia). by rewrite fmap_cons, <- app_assoc.
Qed.

Definition with_slash (u : str) : str := if bool_decide (last u = Some 47) then u else u ++ [47].

Lemma fromLine_words n files u s c cs :
  word u -> head u <> Some 91 -> word s -> Forall word (c :: cs) -> (length cs < n)%nat ->
  fromLine n files (c_str "deb" ++ words (u :: s :: c :: cs)) =
    Done (files ++ (MkListFile ∅ (with_slash u) s <$> c :: cs)).
Proof.
  intros Hu Hh Hs Hcs Hn. pose proof Hcs as [Hc Hcs']%Forall_cons. unfold fromLine.
  pose proof (words_no_zero (u :: s :: c :: cs) ltac:(repeat (constructor; [done|]); done)) as Hz.
  assert (startswith (c_str "deb") (c_str "deb" ++ words (u :: s :: c :: cs)) = true) as -> by done.
  assert (startswith (c_str "deb-src") (c_str "deb" ++ words (u :: s :: c :: cs)) = false) as -> by done.
  assert ((Z.of_nat (length (c_str "deb" ++ words (u :: s :: c :: cs))) <? 4) = false) as ->.
  { apply Z.ltb_ge. unfold words. rewrite fmap_cons. cbn [concat app]. rewrite length_app. simpl. lia. }
  cbn [negb].
  assert (appendNextToken (cstr (drop 4 (c_str "deb" ++ words (u :: s :: c :: cs)))) [] = (words (s :: c :: cs), u)) as ->.
  { change (drop 4 (c_str "deb" ++ words (u :: s :: c :: cs))) with (u ++ words (s :: c :: cs)).
    unfold words in Hz. rewrite fmap_cons in Hz. cbn [concat app] in Hz. apply Forall_cons in Hz as [_ Hz].
    rewrite cstr_no_zero by exact Hz. unfold appendNextToken. destruct Hu as [Hne Hu].
    assert ((span isspace (u ++ words (s :: c :: cs))).2 = u ++ words (s :: c :: cs)) as ->.
    { destruct u as [|x u]; [done|]. apply Forall_cons in Hu as [[Hx _] _]. cbn [app span]. by rewrite Hx. }
    rewrite span_all; [done| |intros d Hd; by rewrite (words_head _ _ Hd)].
    eapply Forall_impl; [exact Hu|]. intros d [Hd _]. by rewrite Hd. }
  destruct u as [|x u]; [by destruct Hu|]. assert ((x =? 91) = false) as -> by (apply Z.eqb_neq; intros ->; by apply Hh).
  cbn [bind_out]. unfold with_slash. destruct (last (x :: u)) as [y|] eqn:El; [|by apply last_None in El].
  cbn zeta. rewrite !append_words by done.
  assert ((if negb (y =? 47) then (x :: u) ++ [47] else x :: u) = (if bool_decide (Some y = Some 47) then x :: u else (x :: u) ++ [47])) as ->.
  { destruct (Z.eqb_spec y 47) as [->|Hy]; [done|]. rewrite bool_decide_false by congruence. done. }
  destruct (if bool_decide _ then _ else _) as [|z u'] eqn:Eu; [by destruct (bool_decide _)|].
  destruct s as [|z' s]; [by destruct Hs|]. destruct c as [|z'' c]; [by destruct Hc|].
  rewrite more_components_words by done. by rewrite <- app_assoc.
Qed.

(** ** The file of a source *)

Lemma match_step n su co t rest k au :
  Forall (fun c => c <> 95) t ->
  match_loop (S n) su co (t ++ 95 :: rest) k au =
    (let au := if k <? 2 then au ++ t ++ [47] else au in
     if (k =? 3) && negb (str_eqb t su) then None
     else if (k =? 4) && negb (str_eqb t co) then None
     else if k + 1 >? 4 then Some au else match_loop n su co rest (k + 1) au).
Proof.
  intros Ht. cbn [match_loop]. rewrite (span_all (fun c => negb (c =? 95)) t (95 :: rest)).
  - destruct (t ++ 95 :: rest) eqn:E; [by destruct t|]. done.
  - eapply Forall_impl; [exact Ht|]. intros c Hc. simpl. by rewrite (proj2 (Z.eqb_neq c 95)).
  - by intros c [= <-].
Qed.

(** The name of the package list of a source, as apt stores it. *)
Definition list_name (host dir suite component rest : str) : str :=
  host ++ 95 :: dir ++ 95 :: c_str "dists" ++ 95 :: suite ++ 95 :: component ++ 95 :: rest.

Definition no_bar (s : str) : Prop := Forall (fun c => c <> 95) s.

Lemma match_file_name pre host dir s c su co rest :
  no_bar host -> no_bar dir -> no_bar s -> no_bar c ->
  match_file (MkListFile ∅ (pre ++ host ++ 47 :: dir ++ [47]) su co) (list_name host dir s c rest) = str_eqb s su && str_eqb c co.
Proof.
  intros Hh Hd Hs Hc. unfold match_file, list_name. cbn [suite component uri].
  rewrite (match_step 4) by done. cbn zeta. change (0 <? 2) with true. change (0 =? 3) with false. change (0 =? 4) with false.
  change (0 + 1 >? 4) with false. cbn [andb app]. change (0 + 1) with 1.
  rewrite (match_step 3) by done. cbn zeta. change (1 <? 2) with true. change (1 =? 3) with false. change (1 =? 4) with false.
  change (1 + 1 >? 4) with false. cbn [andb]. change (1 + 1) with 2.
  rewrite (match_step 2) by (by repeat constructor). cbn zeta. change (2 <? 2) with false. change (2 =? 3) with false. change (2 =? 4) with false.
  change (2 + 1 >? 4) with false. cbn [andb]. change (2 + 1) with 3.
  rewrite (match_step 1) by done. cbn zeta. change (3 <? 2) with false. change (3 =? 3) with true. change (3 =? 4) with false.
  change (3 + 1 >? 4) with false. cbn [andb]. change (3 + 1) with 4.
  rewrite (match_step 0) by done. cbn zeta. change (4 <? 2) with false. change (4 =? 3) with false. change (4 =? 4) with true.
  change (4 + 1 >? 4) with true. cbn [andb].
  destruct (str_eqb s su), (str_eqb c co); cbn [negb andb]; try done.
  rewrite <- !app_assoc. cbn [app]. set (au := host ++ 47 :: dir ++ [47]).
  rewrite length_app. destruct (Nat.ltb_spec (length pre + length au) (length au)); [lia|].
  replace (length pre + length au - length au)%nat with (length pre) by lia. rewrite drop_app_length.
  by destruct (str_eqb_spec au au).
Qed.

(** A line of the source list with an address, a suite and components gives one
    entry for each component, with the address ended by a slash; the entry matches
    the list file of the same host, directory, suite and component, and no file of
    another suite or component. *)
Theorem sources_match_lists n files pre host dir s cs suite' component' rest :
  word (pre ++ host ++ 47 :: dir) -> head (pre ++ host ++ 47 :: dir) <> Some 91 -> last dir <> Some 47 -> dir <> [] ->
  word s -> cs <> [] -> Forall word cs -> (length cs <= n)%nat ->
  no_bar host -> no_bar dir -> no_bar suite' -> no_bar component' ->
  exists entries, fromLine n files (c_str "deb" ++ words ((pre ++ host ++ 47 :: dir) :: s :: cs)) = Done (files ++ entries) /\
    (fun e => (suite e, component e)) <$> entries = (fun c => (s, c)) <$> cs /\
    Forall (fun e => match_file e (list_name host dir suite' component' rest) = true <-> suite' = suite e /\ component' = component e) entries.
Proof.
  intros Hu Hh Hl Hd Hs Hne Hcs Hn Hb1 Hb2 Hb3 Hb4. destruct cs as [|c cs]; [done|].
  exists (MkListFile ∅ (with_slash (pre ++ host ++ 47 :: dir)) s <$> c :: cs). split; [by apply fromLine_words|]. split.
  - rewrite <- list_fmap_compose. done.
  - apply Forall_fmap, Forall_true. intros c'. cbn [compose].
    assert (with_slash (pre ++ host ++ 47 :: dir) = pre ++ host ++ 47 :: dir ++ [47]) as ->.
    { unfold with_slash. rewrite bool_decide_false; [by rewrite <- !app_assoc|].
      rewrite !last_app, last_cons. destruct (last dir) as [y|] eqn:E; [congruence|]. by apply last_None in E. }
    simpl. rewrite match_file_name by done. destruct (str_eqb_spec suite' s), (str_eqb_spec component' c'); simpl; split; done || by intros [].
Qed.

(** ** Verified downloads *)

(** A name the shell takes as it is: letters, digits, and the signs of package names. *)
Definition plain (s : str) : Prop :=
  Forall (fun c => 97 <= c <= 122 \/ 48 <= c <= 57 \/ c = 43 \/ c = 45 \/ c = 46) s.

(** [wget -O] writes its output file only, and [md5sum] looks at its argument only. *)
Class DownloadLaws (d : Downloads) : Prop := {
  wget_frame : forall w u o r w' f, wget w u o = (r, w') -> f <> o -> w' !! f = w !! f;
  md5sum_local : forall w w' f, plain f -> w !! f = w' !! f -> popen w (c_str "md5sum " ++ f) = popen w' (c_str "md5sum " ++ f);
}.

Section Downloads.
Context {downloads : Downloads} {laws : DownloadLaws downloads} (files : list AptListFile).

(** The file of the package has the size and the checksum of the list. *)
Definition verified (w : world) (p : str) : Prop :=
  exists f d ds, lookup_package files p = Some (f, d :: ds) /\ fileMatch w (deb p) d = Done true.

Lemma plain_deb p : plain p -> plain (deb p).
Proof. intros H. apply Forall_app. split; [done|]. change (c_str ".deb") with [46; 100; 101; 98]. do 4 (constructor; [lia|]). constructor. Qed.

Lemma deb_inj p q : deb p = deb q -> p = q.
Proof. apply app_inv_tail. Qed.

Lemma fileMatch_local w w' p d : plain p -> w !! deb p = w' !! deb p -> fileMatch w (deb p) d = fileMatch w' (deb p) d.
Proof.
  intros Hp Hw. unfold fileMatch, sizeMatch, md5sumMatch. rewrite Hw. by rewrite (md5sum_local w w') by (done || by apply plain_deb).
Qed.

Lemma fetch_spec f d o w r w' : fetch f d o w = Done (r, w') ->
  (forall g, g <> o -> w' !! g = w !! g) /\ (r = 0 -> fileMatch w' o d = Done true).
Proof.
  unfold fetch. destruct (last (uri f)) as [c|]; [|done]. cbn zeta.
  destruct (wget w _ o) as [[ret|] w1] eqn:E.
  - destruct (Z.eqb_spec ret 0) as [->|Hr]; cbn [negb].
    + destruct (fileMatch w1 o d) as [[]| | |] eqn:Em; cbn [bind_out]; intros H; try done; injection H as <- <-.
      * split; [|done]. intros g Hg. by apply (wget_frame _ _ _ _ _ _ E).
      * split; [|done]. intros g Hg. etransitivity; [by apply (lookup_delete_ne (M := gmap str))|]. by apply (wget_frame _ _ _ _ _ _ E).
    + intros [= <- <-]. split; [|done]. intros g Hg. by apply (wget_frame _ _ _ _ _ _ E).
  - intros [= <- <-]. split; [|done]. intros g Hg. by apply (wget_frame _ _ _ _ _ _ E).
Qed.

Lemma doDownload_spec p w r w' : doDownload files p w = Done (r, w') ->
  (forall g, g <> deb p -> w' !! g = w !! g) /\ (r = 0 -> verified w' p) /\ (verified w p -> w' = w).
Proof.
  unfold doDownload, find, downloadCallback, verified. destruct (lookup_package files p) as [[f [|d ds]]|] eqn:E; [done| |].
  2: { intros [= <- <-]. split; [done|]. split; [done|]. done. }
  cbn [head c_deref]. change ((mret d ≫= (fun detail => check_or_fetch f detail (deb p))) w) with (check_or_fetch f d (deb p) w).
  unfold check_or_fetch. intros H.
  assert ((w' = w /\ r = 0 /\ fileMatch w (deb p) d = Done true) \/ (fetch f d (deb p) w = Done (r, w') /\ fileMatch w (deb p) d <> Done true)) as [(-> & -> & Hm)|[Hf Hm]].
  - destruct (w !! deb p) as [bytes|] eqn:El.
    + destruct (fileMatch w (deb p) d) as [[]| | |]; cbn [bind_out] in H; try done; [left; by simplify_eq | by right].
    + right. split; [done|]. unfold fileMatch, sizeMatch. by rewrite El.
  - split; [done|]. split; [|done]. intros _. by exists f, d, ds.
  - destruct (fetch_spec _ _ _ _ _ _ Hf) as [Hg Hr]. split; [done|]. split.
    + intros H0. exists f, d, ds. auto.
    + intros (f' & d' & ds' & [= <- <- <-] & Hm'). done.
Qed.

Lemma download_all_spec ps ret w r w' : Forall plain ps -> download_all files ps ret w = Done (r, w') ->
  (forall g, g ∉ deb <$> ps -> w' !! g = w !! g) /\ (r = 0 -> ret = 0 /\ forall p, p ∈ ps -> verified w' p) /\
  (forall q, plain q -> verified w q -> verified w' q).
Proof.
  intros Hps. revert ret w. induction Hps as [|p ps Hp Hps IH]; intros ret w H; cbn [download_all] in H.
  - injection H as <- <-. split; [done|]. split; [|done]. intros ->. split; [done|]. intros p Hp. by apply not_elem_of_nil in Hp.
  - unfold mbind, cmd_bind in H. destruct (doDownload files p w) as [[r1 w1]| | |] eqn:E; try done.
    destruct (doDownload_spec _ _ _ _ E) as (Hf1 & Hv1 & Hk1). destruct (IH _ _ H) as (Hf2 & Hv2 & Hk2).
    assert (forall q, plain q -> verified w q -> verified w1 q) as Hk.
    { intros q Hq Hv. destruct (decide (q = p)) as [->|Hne]; [by rewrite (Hk1 Hv)|].
      destruct Hv as (f & d & ds & El & Em). exists f, d, ds. split; [done|]. rewrite <- Em.
      apply fileMatch_local; [done|]. apply Hf1. intros Heq. by apply Hne, deb_inj. }
    split; [|split].
    + intros g Hg. rewrite fmap_cons, not_elem_of_cons in Hg. rewrite Hf2 by tauto. apply Hf1. tauto.
    + intros H0. destruct (Hv2 H0) as [Hz Hv]. apply Z.lor_eq_0_iff in Hz as [Hz1 Hz2]. split; [done|].
      intros q Hq. apply elem_of_cons in Hq as [->|Hq]; [|by apply Hv]. apply Hk2; [done|]. by apply Hv1.
    + intros q Hq Hv. apply Hk2; [done|]. by apply Hk.
Qed.

Lemma download_spec ps w r w' : Forall plain ps -> download files ps w = Done (r, w') ->
  (forall g, g ∉ deb <$> ps -> w' !! g = w !! g) /\ (r = 0 -> forall p, p ∈ ps -> verified w' p).
Proof.
  intros Hps H. unfold download, mbind, cmd_bind in H.
  destruct (download_all files (drop 1 ps) 0 w) as [[r1 w1]| | |] eqn:E; try done.
  pose proof Hps as Hps'. rewrite <- (take_drop 1 ps) in Hps'. apply Forall_app in Hps' as [Ht Hd].
  destruct (download_all_spec _ _ _ _ _ Hd E) as (Hf1 & Hv1 & _). destruct (download_all_spec _ _ _ _ _ Ht H) as (Hf2 & Hv2 & Hk2).
  split.
  - intros g Hg. rewrite <- (take_drop 1 ps), fmap_app, elem_of_app in Hg. rewrite Hf2, Hf1 by tauto. done.
  - intros H0 p Hp. destruct (Hv2 H0) as [Hz Hv]. rewrite <- (take_drop 1 ps) in Hp. apply elem_of_app in Hp as [Hp|Hp]; [by apply Hv|].
    apply Hk2; [by rewrite Forall_forall in Hd; apply Hd|]. by apply (Hv1 Hz).
Qed.
End Downloads.

(** When [download-dep] exits with 0. *)
Lemma download_dep_spec {downloads : Downloads} {laws : DownloadLaws downloads} files packages fuel w w' :
  Forall file_wf files -> (length packages + length (known files) < fuel)%nat ->
  Forall plain packages -> Forall plain (known files) ->
  downloadDeps fuel files packages w = Done (0, w') ->
  exists R, (forall p, p ∈ packages -> p ∈ R) /\
    (forall p e, p ∈ R -> e ∈ deps_of files p -> eval (packageExists files) e = true -> eval (mem R) e = true) /\
    (forall p, p ∈ R -> verified files w' p) /\
    (forall g, g ∉ deb <$> R -> w' !! g = w !! g).
Proof.
  intros Hwf Hfuel Hpl Hkn H. destruct (packagesRequired_spec files Hwf packages fuel) as (R & E & Hg & Hp & Hs).
  { unfold universe. rewrite length_app. lia. }
  exists R. split; [done|]. split; [intros p e HpR; by apply Hs|].
  unfold downloadDeps in H. destruct packages as [|p ps]; [done|]. rewrite E in H.
  assert (Forall plain R) as HR.
  { apply Forall_forall. intros x Hx. apply (good_universe files _ _ _ Hg) in Hx. apply elem_of_app in Hx as [Hx|Hx].
    - by rewrite Forall_forall in Hpl; apply Hpl.
    - by rewrite Forall_forall in Hkn; apply Hkn. }
  destruct (download_spec files _ _ _ _ HR H) as [H1 H2]. split; [by apply H2 | done].
Qed.

(** When [download-dep] exits with 0, a set of packages with the arguments and, for
    each of its packages, packages that satisfy its dependencies has been downloaded:
    for each one the file has the size and the checksum of the package list, also when
    it was there before; no other file has changed. *)
Theorem downloadDeps_verified {downloads : Downloads} {laws : DownloadLaws downloads} files packages fuel w w' :
  Forall file_wf files -> (length packages + length (known files) < fuel)%nat ->
  Forall plain packages -> Forall plain (known files) ->
  downloadDeps fuel files packages w = Done (0, w') ->
  exists R, (forall p, p ∈ packages -> p ∈ R) /\
    (forall p e, p ∈ R -> e ∈ deps_of files p -> eval (packageExists files) e = true -> eval (mem R) e = true) /\
    (forall p, p ∈ R -> verified files w' p) /\
    (forall g, g ∉ deb <$> R -> w' !! g = w !! g).
Proof. apply download_dep_spec. Qed.

(** ** Concrete lists and downloads *)

(** A server with one file, and checksums that depend on the length only. *)
Definition demo_sum (bytes : list Z) : list Z := replicate 16 (u8 (Z.of_nat (length bytes))).
#[local] Instance demo_downloads : Downloads := {|
  wget w u o := (Some 0, <[o := c_str "deb file"]> w);
  popen w cmd := match w !! drop 7 cmd with Some bytes => Some (concat (hex2 <$> demo_sum bytes) ++ c_str "  x") | None => None end |}.

#[local] Instance demo_laws : DownloadLaws demo_downloads.
Proof.
  constructor.
  - intros w u o r w' f [= <- <-] Hf. by apply (lookup_insert_ne (M := gmap str)).
  - intros w w' f Hf Hw.
    exact (f_equal (fun o : option (list Z) => match o with Some bytes => Some (concat (hex2 <$> demo_sum bytes) ++ c_str "  x") | None => None end) Hw).
Qed.

Definition demo_detail (deps : option ExprNode) : PackageDetail :=
  MkDetail (replicate 16 8) deps None (c_str "pool/x.deb") 8.
Definition demo_files : list AptListFile :=
  [MkListFile
     (<[c_str "gawk" := [demo_detail (Some (OperatorNode OR (ValueNode (c_str "virt")) (ValueNode (c_str "libc6"))))]]>
        (<[c_str "libc6" := [demo_detail None]]> ∅))
     (c_str "http://x.org/debian/") (c_str "stable") (c_str "main")].

Lemma demo_files_wf : Forall file_wf demo_files.
Proof.
  constructor; [|constructor]. unfold file_wf. cbn [table].
  apply map_Forall_insert_2; [|apply map_Forall_insert_2; [|apply map_Forall_empty]].
  - split; [done|]. constructor; [|constructor]. split; intros e; [intros [= <-]|done]. simpl. tauto.
  - split; [done|]. constructor; [|constructor]. by split.
Qed.

Lemma packagesRequired_closed_witness :
  exists R, packagesRequired 4 demo_files [c_str "gawk"] [] = Done (tt, R) /\ R = [c_str "gawk"; c_str "libc6"] /\
    eval (mem R) (OperatorNode OR (ValueNode (c_str "virt")) (ValueNode (c_str "libc6"))) = true.
Proof.
  destruct (packagesRequired_closed demo_files [c_str "gawk"] 4) as (R & E & Hp & Hs & _).
  - exact demo_files_wf.
  - by vm_compute.
  - exists R. split; [exact E|]. split.
    + assert (Done (tt, R) = Done (tt, [c_str "gawk"; c_str "libc6"])) as H by (rewrite <- E; by vm_compute). by injection H.
    + apply (Hs (c_str "gawk")); [apply Hp; left | vm_compute; left | by vm_compute].
Defined.

Lemma downloadDeps_verified_witness :
  exists (w' : world) (R : sset), downloadDeps 4 demo_files [c_str "gawk"] ∅ = Done (0, w') /\ c_str "gawk" ∈ R /\
    forall p, p ∈ R -> verified demo_files w' p.
Proof.
  assert (exists w', downloadDeps 4 demo_files [c_str "gawk"] ∅ = Done (0, w')) as [w' E] by (eexists; vm_compute; reflexivity).
  destruct (downloadDeps_verified demo_files [c_str "gawk"] 4 ∅ w') as (R & Hp & _ & Hv & _).
  - exact demo_files_wf.
  - by vm_compute.
  - repeat constructor; vm_compute; intuition congruence.
  - vm_compute. repeat constructor; intuition congruence.
  - exact E.
  - exists w', R. split; [exact E|]. split; [apply Hp; left | exact Hv].
Defined.

Lemma Apt_new_wf_witness :
  exists files, Apt_new 9 [c_str "deb http://x.org/debian stable main"] None
      [(c_str "x.org_debian_dists_stable_main_binary-amd64_Packages", lines_of (list_text [demo_package]))] = Done files /\
    Forall file_wf files.
Proof.
  assert (exists files, Apt_new 9 [c_str "deb http://x.org/debian stable main"] None
      [(c_str "x.org_debian_dists_stable_main_binary-amd64_Packages", lines_of (list_text [demo_package]))] = Done files) as [files E]
    by (eexists; vm_compute; reflexivity).
  exists files. split; [exact E|]. exact (Apt_new_wf 9 _ None _ files E).
Defined.

Lemma sources_match_lists_witness :
  exists entries, fromLine 9 [] (c_str "deb http://x.org/debian stable main contrib") = Done entries /\
    ((fun e => (suite e, component e)) <$> entries = [(c_str "stable", c_str "main"); (c_str "stable", c_str "contrib")]) /\
    Forall (fun e => match_file e (list_name (c_str "x.org") (c_str "debian") (c_str "stable") (c_str "main") (c_str "binary-amd64_Packages")) = true <->
                     c_str "stable" = suite e /\ c_str "main" = component e) entries.
Proof.
  destruct (sources_match_lists 9 [] (c_str "http://") (c_str "x.org") (c_str "debian") (c_str "stable") [c_str "main"; c_str "contrib"]
              (c_str "stable") (c_str "main") (c_str "binary-amd64_Packages")) as (es & E & H1 & H2).
  - by apply word_check.
  - intros H; vm_compute in H; discriminate H.
  - intros H; vm_compute in H; discriminate H.
  - intros H; discriminate H.
  - by apply word_check.
  - intros H; discriminate H.
  - constructor; [|constructor; [|constructor]]; by apply word_check.
  - simpl. lia.
  - by repeat constructor.
  - by repeat constructor.
  - by repeat constructor.
  - by repeat constructor.
  - exists es. split; [exact E|]. split; [exact H1 | exact H2].
Defined.
