(* ===== verification/AptMain.v ===== *)
(** * The program [apt]: the rest of [src/apt/apt.cpp]

    The choice of an operation, the client that it builds, [update] with its child
    process, [debug] and [help]; the handler that saves a body to a file.  The state
    is the files of the working directory and what is printed. *)
From Stdlib Require Import ZArith Lia.
From stdpp Require Import base tactics list numbers strings gmap.
From S2P Require Import Prelude AptList AptSet AptListTheorems AptRecords Apt AptDeps AptTheorems.
Open Scope Z_scope.

(** ** Processes *)

(** The results of [fork] and [waitpid]; the status of the child, which is its own
    when [execve] fails. *)
Record child : Type := MkChild { forks : bool; waits : bool; execs : option Z }.

Definition WEXITSTATUS (wstatus : Z) : Z := Z.land (Z.shiftr wstatus 8) 255.
(** [_exit] with a code. *)
Definition exit_status (code : Z) : Z := Z.shiftl (Z.land code 255) 8.

Definition update (c : child) : Z :=
  if negb (forks c) then 1
  else if negb (waits c) then 1
  else WEXITSTATUS (match execs c with Some wstatus => wstatus | None => exit_status 1 end).

(** ** Operations *)

(** What the program finds: the variable [APT_LIST_DIR], the lines of the source
    lists, the entries of a directory with the lines of its files, the lines of a
    file, the process of [update], and the order in which a table is iterated over. *)
Record system : Type := MkSystem {
  list_dir : option str;
  source_lines : list str;
  source_dir : option (list (str * list str));
  read_dir : str -> option (list (str * list str));
  file_lines : str -> list str;
  update_child : child;
  iteration : gmap str PackageDetail -> list (str * PackageDetail);
}.

Definition AptListDir (sys : system) : str := default (c_str "/var/lib/apt/lists") (list_dir sys).

Definition print_table (entries : list (str * PackageDetail)) : str :=
  concat ((fun p => c_str "Package: " ++ cstr p.1 ++ [10] ++ print_detail p.2) <$> entries).

(** The third argument, if there is one. *)
Definition debug (sys : system) (fuel : nat) (argv : list str) : cmd str Z := fun out =>
  match argv !! 2%nat with
  | None => Done (1, out ++ c_str "missing input file" ++ [10])
  | Some fname =>
      bind_out (AptParse_table fuel (file_lines sys fname) ∅) (fun table =>
      Done (0, out ++ print_table (iteration sys table)))
  end.

Definition help_text : str :=
  c_str "Supported operations:" ++ [10] ++
  c_str "  info: list information of a package." ++ [10] ++
  c_str "  debug: reserved" ++ [10] ++
  c_str "  download: Download the binary package into the current directory" ++ [10] ++
  c_str "  download-dep: Download a package and its dependencies" ++ [10] ++
  c_str "  update: update list of available packages" ++ [10] ++
  c_str "  help: print this help message and exit." ++ [10].
Definition help : cmd str Z := fun out => Done (0, out ++ help_text).

Inductive operation : Type := Info | Download | DownloadDeps | DebugOp | Update | Help.
Definition operations : list (str * operation) :=
  [(c_str "info", Info); (c_str "download", Download); (c_str "download-dep", DownloadDeps);
   (c_str "debug", DebugOp); (c_str "update", Update); (c_str "help", Help)].
Fixpoint find_operation (name : str) (table : list (str * operation)) : option operation :=
  match table with
  | [] => None
  | (n, o) :: table => if str_eqb n name then Some o else find_operation name table
  end.

(** The files and the output. *)
Definition machine : Type := world * str.
Definition on_world {A} (c : cmd world A) : cmd machine A := fun m =>
  match c m.1 with Done (a, w) => Done (a, (w, m.2)) | AssertFail => AssertFail | Fault => Fault | Diverged => Diverged end.
Definition on_output {A} (c : cmd str A) : cmd machine A := fun m =>
  match c m.2 with Done (a, out) => Done (a, (m.1, out)) | AssertFail => AssertFail | Fault => Fault | Diverged => Diverged end.

Section Program.
Context {downloads : Downloads}.

Definition run_operation (sys : system) (fuel : nat) (files : list AptListFile) (o : operation) (argv : list str) : cmd machine Z :=
  match o with
  | Info => on_output (info files (drop 2 argv) 0)
  | Download => on_world (download files (drop 2 argv))
  | DownloadDeps => on_world (downloadDeps fuel files (drop 2 argv))
  | DebugOp => on_output (debug sys fuel argv)
  | Update => mret (update (update_child sys))
  | Help => on_output help
  end.

(** The directory of the lists is read without a check that it is there. *)
Definition new_client (sys : system) (fuel : nat) : outcome (list AptListFile) :=
  match read_dir sys (AptListDir sys) with
  | None => Fault
  | Some lists => Apt_new fuel (source_lines sys) (source_dir sys) lists
  end.

(** A missing argument is the empty string. *)
Definition arg1 (args : list str) : str := match args with [] => [] | a :: _ => a end.

(** The name of the program is there; the debug output is not modelled. *)
Definition apt_main (sys : system) (fuel : nat) (argv : list str) : cmd machine Z :=
  match argv with
  | [] => c_fault
  | _ :: args =>
      match find_operation (arg1 args) operations with
      | None => on_output help ;; mret 1
      | Some o =>
          files ← lift (new_client sys fuel);
          run_operation sys fuel files o argv
      end
  end.
End Program.

(** ** The handler that saves a body *)

(** [AptClientHandler::consume] into the file [ofd]. *)
Definition AptClientHandler_consume {W} (xwrite : list Z -> W -> Z * W) (ofd : Z) (b : list Z) : cmd W bool := fun w =>
  if ofd <? 0 then AssertFail
  else let '(ret, w) := xwrite b w in Done (ret =? Z.of_nat (length b), w).

(** ** Theorems *)

Lemma WEXITSTATUS_exit code : 0 <= code < 256 -> WEXITSTATUS (exit_status code) = code.
Proof.
  intros H. unfold WEXITSTATUS, exit_status. change 255 with (Z.ones 8). rewrite !Z.land_ones by lia.
  rewrite Z.shiftr_shiftl_l, Z.sub_diag, Z.shiftl_0_r, Z.mod_mod by lia. apply Z.mod_small. lia.
Qed.

(** A child that a signal ends has its number in the low bits: [update] succeeds. *)
Lemma update_killed signal : 0 <= signal < 128 -> update (MkChild true true (Some signal)) = 0.
Proof.
  intros H. unfold update, WEXITSTATUS. cbn. rewrite Z.shiftr_div_pow2 by lia. rewrite Z.div_small by lia. done.
Qed.

Section Main.
Context {downloads : Downloads}.

Lemma on_world_done {A} (c : cmd world A) w out r m' : on_world c (w, out) = Done (r, m') -> c w = Done (r, m'.1) /\ m'.2 = out.
Proof. unfold on_world. cbn [fst snd]. destruct (c w) as [[a w']| | |]; try done. by intros [= <- <-]. Qed.
Lemma on_output_done {A} (c : cmd str A) w out r m' : on_output c (w, out) = Done (r, m') -> c out = Done (r, m'.2) /\ m'.1 = w.
Proof. unfold on_output. cbn [fst snd]. destruct (c out) as [[a w']| | |]; try done. by intros [= <- <-]. Qed.

Lemma bind_some {S A B} (c : cmd S A) (k : A -> cmd S B) s r : (c ≫= k) s = Done r -> exists a s', c s = Done (a, s') /\ k a s' = Done r.
Proof. unfold mbind, cmd_bind. destruct (c s) as [[a s']| | |]; try done. intros H. by exists a, s'. Qed.

Lemma apt_main_operation sys fuel a0 args o w out r m' :
  find_operation (arg1 args) operations = Some o ->
  apt_main sys fuel (a0 :: args) (w, out) = Done (r, m') ->
  exists files, new_client sys fuel = Done files /\ run_operation sys fuel files o (a0 :: args) (w, out) = Done (r, m').
Proof.
  intros Ho H. unfold apt_main in H. rewrite Ho in H. apply bind_some in H as (files & m & E & H). exists files.
  unfold lift in E. destruct (new_client sys fuel); try done. injection E as <- <-. done.
Qed.

Lemma new_client_wf sys fuel files : new_client sys fuel = Done files -> Forall file_wf files.
Proof. unfold new_client. destruct (read_dir sys _) as [lists|]; [|done]. apply Apt_new_files_wf. Qed.

(** Only the two download operations touch the working directory, and they print
    nothing: whatever the arguments are, another operation that returns leaves every
    file as it was; an unknown operation prints the help text and fails without
    reading a list. *)
Theorem apt_main_frame sys fuel argv w out r w' out' :
  apt_main sys fuel argv (w, out) = Done (r, (w', out')) ->
  match argv with
  | [] => False
  | _ :: args =>
      match find_operation (arg1 args) operations with
      | None => r = 1 /\ w' = w /\ out' = out ++ help_text
      | Some (Download | DownloadDeps) => out' = out
      | Some Update => w' = w /\ out' = out /\ r = update (update_child sys)
      | Some Help => w' = w /\ r = 0 /\ out' = out ++ help_text
      | Some (Info | DebugOp) => w' = w
      end
  end.
Proof.
  intros H. destruct argv as [|a0 args]; [done|]. destruct (find_operation _ operations) as [o|] eqn:Ho.
  - destruct (apt_main_operation _ _ _ _ _ _ _ _ _ Ho H) as (files & _ & H'). destruct o; cbn [run_operation] in H'.
    + by apply on_output_done in H' as [_ ?].
    + by apply on_world_done in H' as [_ ?].
    + by apply on_world_done in H' as [_ ?].
    + by apply on_output_done in H' as [_ ?].
    + by injection H' as <- <- <-.
    + by injection H' as <- <- <-.
  - unfold apt_main in H. rewrite Ho in H. by injection H as <- <- <-.
Qed.

End Main.

(** ** A run *)

#[local] Existing Instance demo_downloads.

(** One list with a package that depends on another one. *)
Definition demo_system : system := MkSystem None
  [c_str "deb http://x.org/debian stable main"] None
  (fun d => if str_eqb d (c_str "/var/lib/apt/lists") then Some [(c_str "x.org_debian_dists_stable_main_binary-amd64_Packages",
     [c_str "Package: gawk"; c_str "Size: 8"; c_str "Depends: virt | libc6"; c_str "MD5sum: 08080808080808080808080808080808"; c_str "Filename: pool/g.deb"; [];
      c_str "Package: libc6"; c_str "Size: 8"; c_str "MD5sum: 08080808080808080808080808080808"; c_str "Filename: pool/l.deb"; []])] else None)
  (fun _ => []) (MkChild true true (Some 0)) (fun _ => []).
Definition demo_args : list str := [c_str "apt"; c_str "download-dep"; c_str "gawk"].


Lemma apt_main_frame_witness : exists w' out', apt_main demo_system 20 [c_str "apt"; c_str "install"] (∅, []) = Done (1, (w', out')) /\
  w' = ∅ /\ out' = [] ++ help_text.
Proof.
  do 2 eexists. split; [vm_compute; reflexivity|].
  exact (proj2 (apt_main_frame demo_system 20 [c_str "apt"; c_str "install"] ∅ [] 1 _ _ eq_refl)).
Defined.
