(* ===== verification/Http.v ===== *)
(** * The HTTP library: [src/apt/libhttpd/httpd.h], [httpd.cpp]

    Reading and parsing the head of a message, the buffered output stream, the
    handling of requests by the server and the requests of the client.  The socket
    is the interface [SocketOps]; a handler is a record of its virtual methods.
    The queue between the listener and the workers is in HttpDaemon.v. *)
From Stdlib Require Import ZArith Lia.
From stdpp Require Import base tactics list numbers strings gmap.
From S2P Require Import Prelude AptList Apt.
Open Scope Z_scope.

(** ** Sockets *)

(** [read] of at most [n] bytes: [None] is a negative result; [write] returns the
    number of bytes written. *)
Class SocketOps (S : Type) : Type := {
  sk_read : Z -> S -> option (list Z) * S;
  sk_write : list Z -> S -> Z * S;
  sk_error : S -> Z;
  sk_close : S -> S;
}.

(** [Socket::xwrite] over the system call [write] on a descriptor. *)
Fixpoint xwrite {W : Type} (sys_write : list Z -> W -> Z * W) (n : nat) (written : Z) (buf : list Z) (w : W) : option (Z * W) :=
  match buf with
  | [] => Some (written, w)
  | _ :: _ =>
      match n with
      | O => None
      | S n' =>
          let '(len, w) := sys_write buf w in
          if len <=? 0 then Some (if written =? 0 then len else written, w)
          else xwrite sys_write n' (written + len) (drop (Z.to_nat len) buf) w
      end
  end.

(** [HttpSocket] on a descriptor: [write] is [xwrite], the other methods are system
    calls. *)
Definition HttpSocket {W : Type} (sys_read : Z -> W -> option (list Z) * W) (sys_write : list Z -> W -> Z * W)
    (errno : W -> Z) (sys_close : W -> W) : SocketOps W := {|
  sk_read := sys_read;
  sk_write := fun bs w => default (0, w) (xwrite sys_write (length bs) 0 bs w);
  sk_error := errno;
  sk_close := sys_close;
|}.

Definition EINVAL : Z := 22.

(** ** Messages *)

Inductive HttpConnectionType : Type := CLOSE | KEEP_ALIVE.
Inductive HttpMethodType : Type := INVALID | GET | HEAD | POST.

(** What a handler does with the stream. *)
Inductive stream_op : Type := SWrite (bs : list Z) | SForward (chunks : list (list Z)) | SFlush.
(** The virtual methods; the path has its terminator. *)
Record HttpHandler (H : Type) : Type := MkHandler {
  set_request : HttpMethodType -> str -> HttpConnectionType -> H -> H;
  consume : list Z -> H -> bool * H;
  produce : H -> list stream_op * H;
  connectionClosed : H -> bool;
}.
Arguments MkHandler {H}.
Arguments set_request {H}.
Arguments consume {H}.
Arguments produce {H}.
Arguments connectionClosed {H}.

(** The method, the path and the fields of a head. *)
Definition table_t : Type := gmap str str.
Record head : Type := MkHead { h_method : str; h_path : str; h_table : table_t }.

Section Library.
Context {S : Type} {sock : SocketOps S}.

(** ** [HttpHeadReader] *)

(** The buffer up to [end], the offset and the error; [size] is the capacity. *)
Record HttpHeadReader : Type := MkReader { r_buffer : list Z; r_offset : nat; r_error : Z }.
Record conn : Type := MkConn { rdr : HttpHeadReader; socket : S }.

Variable size : Z.

Definition reset (c : conn) : conn := MkConn (MkReader [] 0 0) (socket c).

Definition reader_fill : cmd conn unit := fun c =>
  match sk_read size (socket c) with
  | (None, s) => Done (tt, MkConn (MkReader [] 0 (sk_error s)) s)
  | (Some bs, s) => Done (tt, MkConn (MkReader bs 0 (r_error (rdr c))) s)
  end.

(** [char] is signed. *)
Definition schar (b : Z) : Z := if b <? 128 then b else b - 256.

Definition next_char : cmd conn Z := fun c =>
  let r := rdr c in
  match r_buffer r !! r_offset r with
  | None => Done (-1, c)
  | Some b => Done (schar b, MkConn (MkReader (r_buffer r) (Datatypes.S (r_offset r)) (r_error r)) (socket c))
  end.
Definition checked_char : cmd conn Z := fun c =>
  if negb (r_error (rdr c) =? 0) then Done (-1, c) else next_char c.
Definition getch : cmd conn Z := fun c =>
  if (length (r_buffer (rdr c)) <=? r_offset (rdr c))%nat then (reader_fill ;; checked_char) c else next_char c.

Definition set_error (e : Z) : cmd conn unit := fun c =>
  Done (tt, MkConn (MkReader (r_buffer (rdr c)) (r_offset (rdr c)) e) (socket c)).

Fixpoint nextLine (fuel : nat) (line : str) : cmd conn str :=
  match fuel with
  | O => c_diverge
  | Datatypes.S fuel' =>
      ch ← getch;
      if ch <? 0 then set_error EINVAL ;; mret []
      else if ch =? 10 then mret line
      else if negb (ch =? 13) then nextLine fuel' (line ++ [ch])
      else nextLine fuel' line
  end.

Definition getLastError : cmd conn Z := fun c =>
  Done (r_error (rdr c), MkConn (MkReader (r_buffer (rdr c)) (r_offset (rdr c)) 0) (socket c)).

(** ** [HttpHeadParser] *)

(** The token at the start of the rest of the line, behind spaces. *)
Definition next_token (line : str) : str * str :=
  span (fun c => negb (isspace c)) (span isspace line).2.

(** The key and the value of a line.  The loop looks at [line[i]] before it compares
    [i] with the size of the line. *)
Definition split_line (line : str) : outcome (str * option str) :=
  let key := (span (fun c => negb (c =? 58)) (take 63 line)).1 in
  let i := length key in
  if (i <? 63)%nat && (i =? length line)%nat then Fault
  else Done (cstr key,
             if (length line <? i + 1)%nat then None
             else Some (span (fun c => c =? 32) (drop (i + 1) line)).2).

Definition set_field (line : str) (t : table_t) : outcome table_t :=
  bind_out (split_line line) (fun '(key, value) =>
  match t !! key with
  | None => Done t
  | Some _ => match value with Some v => Done (<[key := v]> t) | None => Fault end
  end).

(** The parser is a template over its reader, which has [nextLine]. *)
Section Template.
Context {R : Type} (reader_nextLine : cmd R str).

Fixpoint parse_fields_with (n : nat) (t : table_t) : cmd R table_t :=
  match n with
  | O => c_diverge
  | Datatypes.S n' =>
      line ← reader_nextLine;
      match line with
      | [] => mret t
      | _ :: _ => t ← lift (set_field line t); parse_fields_with n' t
      end
  end.

Definition parse_with (n : nat) (t : table_t) : cmd R head :=
  line ← reader_nextLine;
  let '(method, rest) := next_token line in
  let '(path, _) := next_token rest in
  t ← parse_fields_with n t;
  mret (MkHead method path t).
End Template.

Definition parse_fields (n fuel : nat) (t : table_t) : cmd conn table_t := parse_fields_with (nextLine fuel []) n t.
Definition parse (fuel : nat) (t : table_t) : cmd conn head := parse_with (nextLine fuel []) fuel t.

Definition isValid (h : head) : bool := match h_method h, h_path h with _ :: _, _ :: _ => true | _, _ => false end.

(** ** [SocketStream] *)

(** The bytes in the buffer, [offset] of them; the capacity is [size]. *)
Record SocketStream : Type := MkStream { st_buffer : list Z; st_socket : S }.

Definition flush (st : SocketStream) : SocketStream :=
  match st_buffer st with [] => st | _ :: _ => MkStream [] (sk_write (st_buffer st) (st_socket st)).2 end.

Definition stream_write (bs : list Z) (st : SocketStream) : SocketStream :=
  let st := if Z.of_nat (length (st_buffer st)) + Z.of_nat (length bs) >? size then flush st else st in
  if Z.of_nat (length bs) >? size then MkStream (st_buffer st) (sk_write bs (st_socket st)).2
  else MkStream (st_buffer st ++ bs) (st_socket st).

(** [forward] of a file: the results of [read] on its descriptor until the end. *)
Fixpoint forward_loop (chunks : list (list Z)) (st : SocketStream) : SocketStream :=
  match chunks with
  | [] => st
  | c :: cs => match c with [] => st | _ :: _ => forward_loop cs (flush (MkStream c (st_socket st))) end
  end.
Definition forward (chunks : list (list Z)) (st : SocketStream) : SocketStream := forward_loop chunks (flush st).

Definition run_op (st : SocketStream) (o : stream_op) : SocketStream :=
  match o with SWrite bs => stream_write bs st | SForward chunks => forward chunks st | SFlush => flush st end.

(** ** Handlers *)

Definition methodFromString (s : str) : HttpMethodType :=
  if str_eqb (cstr s) (c_str "GET") then GET
  else if str_eqb (cstr s) (c_str "HEAD") then HEAD
  else if str_eqb (cstr s) (c_str "POST") then POST else INVALID.

Definition to_lower (c : Z) : Z := if (65 <=? c) && (c <=? 90) then c + 32 else c.
Definition connFromString (s : str) : HttpConnectionType :=
  match cstr s with
  | [] => CLOSE
  | s => if str_eqb (to_lower <$> s) (c_str "close") then CLOSE else KEEP_ALIVE
  end.

Section Handling.
Context {H : Type} (handler : HttpHandler H).

Fixpoint doConsume (fuel : nat) (remain : Z) (h : H) (s : S) : outcome (H * S) :=
  if remain >? 0 then
    match fuel with
    | O => Diverged
    | Datatypes.S fuel' =>
        match sk_read (Z.min remain size) s with
        | (None, s) | (Some [], s) => Done (h, s)
        | (Some bs, s) =>
            let '(more, h) := consume handler bs h in
            if negb more then Done (h, s) else doConsume fuel' (remain - Z.of_nat (length bs)) h s
        end
    end
  else Done (h, s).

Definition doProduce (h : H) (s : S) : H * S :=
  let '(ops, h) := produce handler h in
  (h, st_socket (flush (foldl run_op (MkStream [] s) ops))).

Definition onBadRequest : list Z :=
  c_str "HTTP/1.1 400 Bad Request" ++ [13; 10] ++ c_str "Content-Length: 0" ++ [13; 10] ++
  c_str "Conection: close" ++ [13; 10; 13; 10].

Definition CONTENT_LENGTH : str := c_str "Content-Length".
Definition CONNECTION : str := c_str "Connection".
Definition empty_table : table_t := <[CONTENT_LENGTH := []]> (<[CONNECTION := []]> ∅).
Definition get_field (t : table_t) (k : str) : str := default [] (t !! k).

Definition content_length (t : table_t) : outcome Z :=
  match get_field t CONTENT_LENGTH with
  | [] => Done 0
  | l => bind_out (atol (cstr l)) (fun n => Done (u64 n))
  end.

Definition bad_request (h : H) (s : S) : outcome (H * S) := Done (h, sk_close (sk_write onBadRequest s).2).

Fixpoint handleRequest (n fuel : nat) (h : H) (c : conn) : outcome (H * S) :=
  match n with
  | O => Diverged
  | Datatypes.S n' =>
      match parse fuel empty_table (reset c) with
      | Done (hd, c) =>
          match getLastError c with
          | Done (err, c) =>
              if negb (isValid hd) || negb (err =? 0) then bad_request h (socket c)
              else
                match methodFromString (h_method hd) with
                | INVALID => bad_request h (socket c)
                | method =>
                    bind_out (content_length (h_table hd)) (fun contentLength =>
                    let h := set_request handler method (h_path hd ++ [0]) (connFromString (get_field (h_table hd) CONNECTION)) h in
                    bind_out (doConsume fuel contentLength h (socket c)) (fun '(h, s) =>
                    let '(h, s) := doProduce h s in
                    if connectionClosed handler h then Done (h, sk_close s)
                    else handleRequest n' fuel h (MkConn (rdr c) s)))
                end
          | AssertFail => AssertFail | Fault => Fault | Diverged => Diverged
          end
      | AssertFail => AssertFail | Fault => Fault | Diverged => Diverged
      end
  end.

End Handling.

(** ** [HttpClient] *)

Section Client.
Context {H : Type} (client_consume : list Z -> H -> bool * H).
(** [connect] of the provider and [setConnectFd] of the socket: success, and the
    socket. *)
Variable connect : S -> bool * S.
Variable host : str.

Record client : Type := MkClient { connected : bool; cl_conn : conn; cl_handler : H }.

Definition method_name (m : HttpMethodType) : outcome str :=
  match m with
  | GET => Done (c_str "GET ") | HEAD => Done (c_str "HEAD ") | POST => Done (c_str "POST ") | INVALID => AssertFail
  end.

(** [HttpClientHandler::produce]; the path must have its terminator. *)
Definition client_produce (m : HttpMethodType) (path : str) (c : HttpConnectionType) : outcome (list stream_op) :=
  bind_out (method_name m) (fun name =>
  match last path with
  | Some 0 =>
      Done [SWrite name; SWrite (take (length path - 1) path); SWrite (c_str " HTTP/1.1" ++ [13; 10]);
            SWrite (c_str "Host: "); SWrite (cstr host);
            SWrite ([13; 10] ++ c_str (match c with CLOSE => "Connection: close" | KEEP_ALIVE => "Connection: keep-alive" end) ++ [13; 10]);
            SWrite (c_str "User-Agent: curl/7.81.0" ++ [13; 10] ++ c_str "Accept: */*" ++ [13; 10; 13; 10]); SFlush]
  | _ => AssertFail
  end).

(** A value that is no [int] is undefined. *)
Definition atoi (s : str) : outcome Z :=
  let v := signed_number 10 s in if (- 2 ^ 31 <=? v) && (v <? 2 ^ 31) then Done v else Fault.

(** The rest of the body, from the socket; the number of bytes consumed. *)
Fixpoint body_loop (fuel : nat) (nr contentLength : Z) (h : H) (s : S) : outcome (Z * H * S) :=
  if nr <? contentLength then
    match fuel with
    | O => Diverged
    | Datatypes.S fuel' =>
        match sk_read (Z.min size (contentLength - nr)) s with
        | (None, s) | (Some [], s) => Done (nr, h, s)
        | (Some bs, s) =>
            let '(more, h) := client_consume bs h in
            if negb more then Done (nr, h, s) else body_loop fuel' (nr + Z.of_nat (length bs)) contentLength h s
        end
    end
  else Done (nr, h, s).

(** First the bytes that are in the buffer of the reader already. *)
Definition receive_body (fuel : nat) (contentLength : Z) (h : H) (c : conn) : outcome (Z * H * S) :=
  let rest := drop (r_offset (rdr c)) (r_buffer (rdr c)) in
  let nr := Z.min (Z.of_nat (length rest)) contentLength in
  let '(more, h) := client_consume (take (Z.to_nat nr) rest) h in
  if more : bool then body_loop fuel nr contentLength h (socket c) else Done (nr, h, socket c).

Definition closed (h : H) (c : conn) : client := MkClient false (MkConn (rdr c) (sk_close (socket c))) h.

(** The response; the result is 0 on success. *)
Definition receive (fuel : nat) (con : HttpConnectionType) (h : H) (c : conn) : outcome (Z * client) :=
  match parse fuel empty_table (reset c) with
  | Done (hd, c) =>
      if negb (isValid hd) then Done (1, closed h c)
      else
        bind_out (atoi (cstr (h_path hd))) (fun statusCode =>
        bind_out (content_length (h_table hd)) (fun contentLength =>
        bind_out
          (if (statusCode =? 200) && negb (contentLength =? 0)
           then bind_out (receive_body fuel contentLength h c) (fun '(nr, h, s) => Done (nr =? contentLength, h, MkConn (rdr c) s))
           else Done (statusCode =? 200, h, c)) (fun '(success, h, c) =>
        let con := match get_field (h_table hd) CONNECTION with [] => con | v => connFromString v end in
        let ret := if success : bool then 0 else 1 in
        match con, success with
        | KEEP_ALIVE, true => Done (ret, MkClient true c h)
        | _, _ => Done (ret, closed h c)
        end)))
  | AssertFail => AssertFail | Fault => Fault | Diverged => Diverged
  end.

Definition request (fuel : nat) (m : HttpMethodType) (path : str) (isLast : bool) (cl : client) : outcome (Z * client) :=
  let con := if isLast then CLOSE else KEEP_ALIVE in
  let '(ok, s) := if connected cl then (true, socket (cl_conn cl)) else connect (socket (cl_conn cl)) in
  if negb ok then Done (1, MkClient false (MkConn (rdr (cl_conn cl)) s) (cl_handler cl))
  else
    bind_out (client_produce m path con) (fun ops =>
    let s := st_socket (foldl run_op (MkStream [] s) ops) in
    receive fuel con (cl_handler cl) (MkConn (rdr (cl_conn cl)) s)).
End Client.
End Library.

(** ** [HttpUtil] *)

Section Util.
Variable strerror : Z -> str.

Definition crlf : str := [13; 10].

Definition render404 : list stream_op * Z :=
  ([SWrite (c_str "HTTP/1.1 404 Not Found" ++ crlf ++ c_str "Connection: close" ++ crlf ++ c_str "Content-Length: 18" ++ crlf ++
            c_str "Content-Type: text/html" ++ crlf ++ crlf ++ c_str "<h1>Not Found</h1>")], 404).

Definition render500 (err : Z) : list stream_op * Z :=
  let body := c_str "<h1>Internal Server Error</h1>" in
  let message := if negb (err =? 0) then strerror err else [] in
  ([SWrite (c_str "HTTP/1.1 500 Internal Server Error" ++ crlf ++ c_str "Connection: close" ++ crlf ++ c_str "Content-Length: ");
    SWrite (decimal (Z.of_nat (length body + length message + length (c_str "<h2></h2>"))));
    SWrite (crlf ++ c_str "Content-Type: text/html" ++ crlf ++ crlf);
    SWrite body; SWrite (c_str "<h2>"); SWrite message; SWrite (c_str "</h2>")], 500).

(** A file: the error of [open], or the error of [fstat], or whether it is a
    directory, its size and the results of [read]. *)
Inductive file_state : Type :=
| OpenFails (err : Z)
| StatFails (err : Z)
| IsDirectory
| IsFile (st_size : Z) (chunks : list (list Z)).

Definition EISDIR : Z := 21.

(** The first byte of the path, a slash, is skipped. *)
Definition renderFile (open : str -> file_state) (path : str) : list stream_op * Z :=
  match path with
  | [] => render500 EINVAL
  | _ :: name =>
      match open name with
      | OpenFails err => if err =? ENOENT then render404 else render500 err
      | StatFails err => ((render500 err).1, 500)
      | IsDirectory => ((render500 EISDIR).1, 500)
      | IsFile st_size chunks =>
          ([SWrite (c_str "HTTP/1.1 200 OK" ++ crlf ++ c_str "Connection: close" ++ crlf ++ c_str "Content-Length: ");
            SWrite (decimal st_size); SWrite (crlf ++ crlf); SForward chunks], 200)
      end
  end.
End Util.
