(* ===== verification/HttpRead.v ===== *)
(** * Reading a head from a socket, and the output stream

    [SocketLaws] says what a connection without errors does: the bytes of the input
    arrive in order, in pieces of any size, and what is written is appended to the
    output.  The head that is parsed does not depend on the pieces. *)
From Stdlib Require Import ZArith Lia.
From stdpp Require Import base tactics list numbers strings gmap.
From S2P Require Import Prelude AptList AptSet AptListTheorems Apt Http.
Open Scope Z_scope.

(** [input] is what the peer has sent and is not read yet; [script] are the messages
    that it sends later, each when the one before has been read: a [read] blocks
    until the next one is there, and does not go over the end of a message. *)
Class SocketLaws (S : Type) {sock : SocketOps S} : Type := {
  input : S -> list Z;
  script : S -> list (list Z);
  output : S -> list Z;
  is_closed : S -> bool;
  read_some : forall n s, 0 < n -> input s <> [] ->
    exists bs s', sk_read n s = (Some bs, s') /\ bs <> [] /\ Z.of_nat (length bs) <= n /\ input s = bs ++ input s' /\
      output s' = output s /\ is_closed s' = is_closed s /\ script s' = script s;
  read_next : forall n s m ms, input s = [] -> script s = m :: ms ->
    exists s', sk_read n s = sk_read n s' /\ input s' = m /\ script s' = ms /\ output s' = output s /\ is_closed s' = is_closed s;
  read_end : forall n s, input s = [] -> script s = [] ->
    exists s', sk_read n s = (Some [], s') /\ input s' = [] /\ output s' = output s /\ is_closed s' = is_closed s /\ script s' = script s;
  write_all : forall bs s,
    exists s', sk_write bs s = (Z.of_nat (length bs), s') /\ input s' = input s /\ output s' = output s ++ bs /\
      is_closed s' = is_closed s /\ script s' = script s;
  close_keeps : forall s, is_closed (sk_close s) = true /\ output (sk_close s) = output s;
}.

(** [s'] differs from [s] in what has been read only. *)
Definition unchanged {S} {sock : SocketOps S} {laws : SocketLaws S} (s s' : S) : Prop :=
  output s' = output s /\ is_closed s' = is_closed s /\ script s' = script s.
Lemma unchanged_trans {S} {sock : SocketOps S} {laws : SocketLaws S} (a b c : S) : unchanged a b -> unchanged b c -> unchanged a c.
Proof. intros (H1 & H2 & H3) (H4 & H5 & H6). split; [congruence|]. split; congruence. Qed.

Section Reading.
Context {S : Type} {sock : SocketOps S} {laws : SocketLaws S} (size : Z) (Hsize : 0 < size).
Abbreviation conn := (@conn S).

(** The bytes that the reader has not returned yet. *)
Definition pending (c : conn) : list Z := drop (r_offset (rdr c)) (r_buffer (rdr c)) ++ input (socket c).
Definition same (s : S) (c : conn) : Prop := unchanged s (socket c).

Lemma next_char_spec c b r :
  drop (r_offset (rdr c)) (r_buffer (rdr c)) = b :: r ->
  exists c', next_char c = Done (schar b, c') /\ pending c' = r ++ input (socket c) /\ r_error (rdr c') = r_error (rdr c) /\ socket c' = socket c.
Proof.
  intros E. unfold next_char. assert (r_buffer (rdr c) !! r_offset (rdr c) = Some b) as ->.
  { rewrite <- (Nat.add_0_r (r_offset _)), <- lookup_drop, E. done. }
  eexists. split; [done|]. unfold pending. cbn [rdr socket r_buffer r_offset r_error]. split; [|done].
  rewrite <- (Nat.add_1_r (r_offset _)), <- drop_drop, E. done.
Qed.

Lemma getch_some s c b rest : pending c = b :: rest -> r_error (rdr c) = 0 -> same s c ->
  exists c', getch size c = Done (schar b, c') /\ pending c' = rest /\ r_error (rdr c') = 0 /\ same s c'.
Proof.
  intros Hp He Hs. unfold getch. destruct (Nat.leb_spec (length (r_buffer (rdr c))) (r_offset (rdr c))).
  - unfold pending in Hp. rewrite drop_ge in Hp by lia. simpl in Hp.
    destruct (read_some size (socket c) Hsize) as (bs & s' & E & Hne & _ & Hi & Hu); [congruence|].
    destruct bs as [|b' bs]; [done|]. rewrite Hp in Hi. injection Hi as -> ->.
    assert (reader_fill size c = Done (tt, MkConn (MkReader (b' :: bs) 0 (r_error (rdr c))) s')) as Ef by (unfold reader_fill; by rewrite E).
    rewrite (bind_done _ _ _ _ _ Ef). unfold checked_char. cbn [rdr r_error]. rewrite He. cbn [negb Z.eqb].
    destruct (next_char_spec (MkConn (MkReader (b' :: bs) 0 0) s') b' bs eq_refl) as (c' & E' & Hp' & He' & Hs').
    exists c'. split; [done|]. split; [done|]. split; [done|]. unfold same. rewrite Hs'. by eapply unchanged_trans.
  - destruct (drop (r_offset (rdr c)) (r_buffer (rdr c))) as [|b' r] eqn:E.
    { apply (f_equal length) in E. rewrite length_drop in E. simpl in E. lia. }
    unfold pending in Hp. rewrite E in Hp. injection Hp as -> <-.
    destruct (next_char_spec c b r E) as (c' & E' & Hp' & He' & Hs'). exists c'. split; [done|]. split; [done|].
    split; [congruence|]. unfold same. by rewrite Hs'.
Qed.

Lemma getch_none s c : pending c = [] -> script s = [] -> same s c ->
  exists c', getch size c = Done (-1, c') /\ pending c' = [] /\ same s c'.
Proof.
  intros Hp Hq Hs. unfold pending in Hp. apply app_nil in Hp as [Hd Hi]. unfold getch.
  apply (f_equal length) in Hd as Hl. rewrite length_drop in Hl. simpl in Hl. rewrite (proj2 (Nat.leb_le _ _)) by lia.
  destruct (read_end size (socket c) Hi) as (s' & E & Hi' & Hu); [destruct Hs as (_ & _ & Hs); congruence|].
  assert (reader_fill size c = Done (tt, MkConn (MkReader [] 0 (r_error (rdr c))) s')) as Ef by (unfold reader_fill; by rewrite E).
  rewrite (bind_done _ _ _ _ _ Ef). unfold checked_char. cbn [rdr r_error].
  exists (MkConn (MkReader [] 0 (r_error (rdr c))) s'). split; [by destruct (r_error (rdr c) =? 0)|]. split; [done|]. by eapply unchanged_trans.
Qed.

(** A line without its carriage returns. *)
Fixpoint strip_cr (t : str) : str :=
  match t with [] => [] | c :: t => if c =? 13 then strip_cr t else c :: strip_cr t end.
Lemma strip_cr_id t : Forall (fun c => c <> 10 /\ c <> 13) t -> strip_cr (t ++ [13]) = t.
Proof. induction 1 as [|c t [_ Hc] _ IH]; [done|]. simpl. by rewrite (proj2 (Z.eqb_neq c 13)), IH. Qed.

(** Characters that [char] does not make negative. *)
Definition ascii (s : str) : Prop := Forall (fun c => 0 <= c < 128) s.
Definition no_newline (s : str) : Prop := Forall (fun c => c <> 10) s.

Lemma nextLine_spec s t : forall fuel acc c rest,
  ascii t -> no_newline t -> pending c = t ++ 10 :: rest -> r_error (rdr c) = 0 -> same s c -> (length t < fuel)%nat ->
  exists c', nextLine size fuel acc c = Done (acc ++ strip_cr t, c') /\ pending c' = rest /\ r_error (rdr c') = 0 /\ same s c'.
Proof.
  induction t as [|b t IH]; intros fuel acc c rest Ha Hn Hp He Hs Hf; (destruct fuel as [|fuel]; [simpl in Hf; lia|]); cbn [nextLine].
  - destruct (getch_some s c 10 rest Hp He Hs) as (c' & E & Hp' & He' & Hs'). rewrite (bind_done _ _ _ _ _ E).
    exists c'. split; [|done]. simpl. by rewrite app_nil_r.
  - apply Forall_cons in Ha as [Hb Ha]. apply Forall_cons in Hn as [Hb' Hn].
    destruct (getch_some s c b (t ++ 10 :: rest) Hp He Hs) as (c' & E & Hp' & He' & Hs'). rewrite (bind_done _ _ _ _ _ E).
    assert (schar b = b) as -> by (unfold schar; by rewrite (proj2 (Z.ltb_lt b 128)) by lia).
    rewrite (proj2 (Z.ltb_ge b 0)) by lia. rewrite (proj2 (Z.eqb_neq b 10)) by done.
    cbn [strip_cr]. destruct (Z.eqb_spec b 13) as [->|Hne]; cbn [negb].
    + apply (IH fuel acc c' rest); try done. simpl in Hf. lia.
    + destruct (IH fuel (acc ++ [b]) c' rest) as (c2 & E2 & H2); try done; [simpl in Hf; lia|].
      exists c2. rewrite E2. split; [by rewrite <- app_assoc | done].
Qed.

(** The input ends before the line does. *)
Lemma nextLine_end s fuel acc c : pending c = [] -> script s = [] -> same s c ->
  exists c', nextLine size (Datatypes.S fuel) acc c = Done ([], c') /\ pending c' = [] /\ r_error (rdr c') = EINVAL /\ same s c'.
Proof.
  intros Hp Hq Hs. cbn [nextLine]. destruct (getch_none s c Hp Hq Hs) as (c' & E & Hp' & Hs'). rewrite (bind_done _ _ _ _ _ E).
  eexists. split; [done|]. done.
Qed.

Lemma nextLine_eof s t : forall fuel acc c,
  script s = [] -> ascii t -> no_newline t -> pending c = t -> r_error (rdr c) = 0 -> same s c -> (length t < fuel)%nat ->
  exists c', nextLine size fuel acc c = Done ([], c') /\ pending c' = [] /\ r_error (rdr c') = EINVAL /\ same s c'.
Proof.
  induction t as [|b t IH]; intros fuel acc c Hq Ha Hn Hp He Hs Hf; (destruct fuel as [|fuel]; [simpl in Hf; lia|]).
  - by apply nextLine_end.
  - cbn [nextLine]. apply Forall_cons in Ha as [Hb Ha]. apply Forall_cons in Hn as [Hb' Hn].
    destruct (getch_some s c b t Hp He Hs) as (c' & E & Hp' & He' & Hs'). rewrite (bind_done _ _ _ _ _ E).
    assert (schar b = b) as -> by (unfold schar; by rewrite (proj2 (Z.ltb_lt b 128)) by lia).
    rewrite (proj2 (Z.ltb_ge b 0)) by lia. rewrite (proj2 (Z.eqb_neq b 10)) by done.
    simpl in Hf. destruct (negb (b =? 13)); apply IH; done || lia.
Qed.

(** ** Heads *)

(** A line as it is sent, and a line of a head. *)
Definition line_text (l : str) : str := l ++ [13; 10].
Definition line_ok (l : str) : Prop := ascii l /\ Forall (fun c => c <> 10 /\ c <> 13) l.

Lemma nextLine_line s l fuel c rest :
  line_ok l -> pending c = line_text l ++ rest -> r_error (rdr c) = 0 -> same s c -> (length l + 1 < fuel)%nat ->
  exists c', nextLine size fuel [] c = Done (l, c') /\ pending c' = rest /\ r_error (rdr c') = 0 /\ same s c'.
Proof.
  intros [Ha Hn] Hp He Hs Hf. unfold line_text in Hp. rewrite <- app_assoc in Hp. simpl in Hp.
  destruct (nextLine_spec s (l ++ [13]) fuel [] c rest) as (c' & E & H); try done.
  - apply Forall_app. split; [done|]. by repeat constructor.
  - apply Forall_app. split; [eapply Forall_impl; [exact Hn|]; by intros x [Hx _] | by repeat constructor].
  - rewrite <- app_assoc. done.
  - rewrite length_app. simpl. lia.
  - exists c'. rewrite E. cbn [app]. by rewrite strip_cr_id.
Qed.

(** The fields of a head: a key without a colon, and a value. *)
Definition field_ok (f : str * str) : Prop :=
  line_ok (f.1 ++ [58; 32] ++ f.2) /\ f.1 <> [] /\ Forall (fun c => c <> 58 /\ c <> 0) f.1 /\ (length f.1 < 63)%nat /\ hd_error f.2 <> Some 32.
Definition field_line (f : str * str) : str := f.1 ++ [58; 32] ++ f.2.
Definition set_known (t : table_t) (f : str * str) : table_t :=
  match t !! f.1 with Some _ => <[f.1 := f.2]> t | None => t end.

Lemma set_field_spec f t : field_ok f -> set_field (field_line f) t = Done (set_known t f).
Proof.
  destruct f as [k v]. intros (_ & Hne & Hk & Hl & Hv). cbn [fst snd] in *. unfold set_field, split_line, field_line. cbn [fst snd].
  assert (exists r, take 63 (k ++ [58; 32] ++ v) = k ++ 58 :: r) as [r Er].
  { rewrite take_app_ge by lia. destruct (63 - length k)%nat as [|n] eqn:E; [lia|]. eexists. done. }
  rewrite Er, (span_all (fun c => negb (c =? 58)) k (58 :: r)); [|eapply Forall_impl; [exact Hk|]|by intros c [= <-]].
  2: { intros c [Hc _]. simpl. by rewrite (proj2 (Z.eqb_neq c 58)). }
  cbn [fst]. rewrite !length_app. cbn [length].
  rewrite (proj2 (Nat.eqb_neq (length k) _)), andb_false_r by lia. rewrite (proj2 (Nat.ltb_ge _ _)) by lia. cbn [bind_out].
  rewrite cstr_no_zero by (eapply Forall_impl; [exact Hk|]; by intros c [_ Hc]).
  assert ((span (fun c => c =? 32) (drop (length k + 1) (k ++ [58; 32] ++ v))).2 = v) as ->.
  { rewrite <- drop_drop, drop_app_length. cbn [app drop]. change (32 :: v) with ([32] ++ v).
    rewrite span_all; [done|by repeat constructor|]. intros c Hc. destruct v as [|x v]; [done|]. injection Hc as <-.
    apply Z.eqb_neq. intros ->. by apply Hv. }
  unfold set_known. cbn [fst snd]. by destruct (t !! k).
Qed.

Lemma field_line_nonempty f : field_ok f -> field_line f <> [].
Proof. intros (_ & Hne & _). unfold field_line. by destruct f.1. Qed.

(** The text of the fields with the empty line. *)
Definition fields_text (fs : list (str * str)) : str := concat ((fun f => line_text (field_line f)) <$> fs) ++ [13; 10].

Lemma parse_fields_spec s fs : forall n fuel t c rest,
  Forall field_ok fs -> (length fs < n)%nat -> Forall (fun f => (length (field_line f) + 1 < fuel)%nat) fs -> (1 < fuel)%nat ->
  pending c = fields_text fs ++ rest -> r_error (rdr c) = 0 -> same s c ->
  exists c', parse_fields size n fuel t c = Done (foldl set_known t fs, c') /\ pending c' = rest /\ r_error (rdr c') = 0 /\ same s c'.
Proof.
  induction fs as [|f fs IH]; intros n fuel t c rest Hok Hn Hf Hf1 Hp He Hs; (destruct n as [|n]; [simpl in Hn; lia|]); unfold parse_fields; cbn [parse_fields_with].
  - destruct (nextLine_line s [] fuel c rest) as (c' & E & Hp' & He' & Hs'); try done; [by split; constructor|].
    rewrite (bind_done _ _ _ _ _ E). by exists c'.
  - apply Forall_cons in Hok as [Hfo Hok]. apply Forall_cons in Hf as [Hff Hf]. unfold fields_text in Hp.
    rewrite fmap_cons in Hp. cbn [concat] in Hp. rewrite <- !app_assoc in Hp.
    destruct (nextLine_line s (field_line f) fuel c (fields_text fs ++ rest)) as (c' & E & Hp' & He' & Hs'); try done; [by apply Hfo| |].
    { unfold fields_text. by rewrite <- app_assoc. }
    rewrite (bind_done _ _ _ _ _ E). pose proof (field_line_nonempty f Hfo) as Hne.
    destruct (field_line f) as [|x l] eqn:El; [done|]. rewrite <- El.
    rewrite (bind_done _ _ _ (set_known t f) c') by (unfold lift; by rewrite set_field_spec).
    cbn [foldl]. apply IH; try done. simpl in Hn. lia.
Qed.

(** A request line or status line: two tokens and the rest. *)
Definition token (s : str) : Prop := s <> [] /\ Forall (fun c => isspace c = false) s.

Lemma next_token_spec m rest : token m -> (forall c, hd_error rest = Some c -> isspace c = true) -> next_token (m ++ rest) = (m, rest).
Proof.
  intros [Hne Hm] Hr. unfold next_token. destruct m as [|x m]; [done|].
  assert ((span isspace ((x :: m) ++ rest)).2 = (x :: m) ++ rest) as ->.
  { apply Forall_cons in Hm as [Hx _]. simpl. by rewrite Hx. }
  rewrite span_all; [done| |intros c Hc; by rewrite (Hr c Hc)]. eapply Forall_impl; [exact Hm|]. intros c Hc. by rewrite Hc.
Qed.

Lemma next_token_blank m rest : token m -> (forall c, hd_error rest = Some c -> isspace c = true) -> next_token (32 :: m ++ rest) = (m, rest).
Proof. intros Hm Hr. rewrite <- (next_token_spec m rest Hm Hr). unfold next_token. simpl. by destruct (span isspace (m ++ rest)). Qed.

Definition first_line (m p v : str) : str := m ++ 32 :: p ++ 32 :: v.
Definition head_text (m p v : str) (fs : list (str * str)) : str := line_text (first_line m p v) ++ fields_text fs.

(** The fuel: the characters of the longest line, and the lines. *)
Definition head_fuel (m p v : str) (fs : list (str * str)) (fuel : nat) : Prop :=
  (length (first_line m p v) + 1 < fuel)%nat /\ (length fs < fuel)%nat /\ Forall (fun f => (length (field_line f) + 1 < fuel)%nat) fs.

Lemma parse_head s m p v fs fuel t c rest :
  token m -> token p -> line_ok (first_line m p v) -> Forall field_ok fs -> head_fuel m p v fs fuel ->
  pending c = head_text m p v fs ++ rest -> r_error (rdr c) = 0 -> same s c ->
  exists c', parse size fuel t c = Done (MkHead m p (foldl set_known t fs), c') /\ pending c' = rest /\ r_error (rdr c') = 0 /\ same s c'.
Proof.
  intros Hm Hp Hl Hfs (Hf1 & Hf2 & Hf3) Hpe He Hs. unfold head_text in Hpe. rewrite <- app_assoc in Hpe.
  destruct (nextLine_line s _ fuel c _ Hl Hpe He Hs Hf1) as (c1 & E1 & Hp1 & He1 & Hs1).
  destruct (parse_fields_spec s fs fuel fuel t c1 rest Hfs Hf2 Hf3 ltac:(lia) Hp1 He1 Hs1) as (c2 & E2 & H2).
  exists c2. split; [|done]. unfold parse, parse_with. rewrite (bind_done _ _ _ _ _ E1). unfold first_line.
  rewrite (next_token_spec m), (next_token_blank p) by (done || (simpl; intros x Hx; injection Hx as <-; done)).
  by rewrite (bind_done _ _ _ _ _ E2).
Qed.
End Reading.

(** ** The output stream *)

Section Stream.
Context {S : Type} {sock : SocketOps S} {laws : SocketLaws S} (size : Z) (Hsize : 0 < size).
Abbreviation stream := (@SocketStream S).

(** The bytes of a forwarded file end with the first [read] that returns none. *)
Fixpoint chunk_bytes (chunks : list (list Z)) : list Z :=
  match chunks with [] | [] :: _ => [] | c :: cs => c ++ chunk_bytes cs end.
Definition op_bytes (o : stream_op) : list Z :=
  match o with SWrite bs => bs | SForward chunks => chunk_bytes chunks | SFlush => [] end.
Definition ops_bytes (ops : list stream_op) : list Z := concat (op_bytes <$> ops).

(** [bs] has been written behind the output of [s], or is in the buffer. *)
Definition delivered (s : S) (bs : list Z) (st : stream) : Prop :=
  output (st_socket st) ++ st_buffer st = output s ++ bs /\ input (st_socket st) = input s /\
  (is_closed (st_socket st) = is_closed s /\ script (st_socket st) = script s) /\ Z.of_nat (length (st_buffer st)) <= size.

Lemma delivered_start s : delivered s [] (MkStream [] s).
Proof. split; [done|]. simpl. split; [done|]. split; [done|]. lia. Qed.

Lemma flush_delivers s bs st : delivered s bs st -> delivered s bs (flush st) /\ st_buffer (flush st) = [].
Proof.
  intros (Ho & Hi & Hc & Hl). unfold flush. destruct (st_buffer st) as [|b l] eqn:E.
  - split; [|done]. unfold delivered. by rewrite E.
  - destruct (write_all (b :: l) (st_socket st)) as (s' & Ew & Hi' & Ho' & Hc'). rewrite Ew. split; [|done].
    unfold delivered. cbn [st_socket st_buffer snd]. rewrite app_nil_r. split; [congruence|]. split; [congruence|]. split; [destruct Hc, Hc'; split; congruence|]. simpl. lia.
Qed.

Lemma stream_write_delivers s bs st src : delivered s bs st -> delivered s (bs ++ src) (stream_write size src st).
Proof.
  intros H. unfold stream_write.
  set (st1 := if Z.of_nat (length (st_buffer st)) + Z.of_nat (length src) >? size then flush st else st).
  assert (delivered s bs st1 /\ (Z.of_nat (length src) > size -> st_buffer st1 = []) /\
          (Z.of_nat (length src) <= size -> Z.of_nat (length (st_buffer st1)) + Z.of_nat (length src) <= size)) as ((Ho & Hi & Hc & Hl) & He & Hf).
  { subst st1. destruct (Z.gtb_spec (Z.of_nat (length (st_buffer st)) + Z.of_nat (length src)) size).
    - destruct (flush_delivers s bs st H) as [Hd He]. split; [done|]. rewrite He. simpl. split; [done | lia].
    - split; [done|]. split; lia. }
  destruct (Z.gtb_spec (Z.of_nat (length src)) size).
  - rewrite He in * by lia. destruct (write_all src (st_socket st1)) as (s' & Ew & Hi' & Ho' & Hc'). rewrite Ew.
    unfold delivered. cbn [st_socket st_buffer snd]. rewrite app_nil_r in *. split; [by rewrite Ho', Ho, app_assoc|]. split; [congruence|]. split; [destruct Hc, Hc'; split; congruence | simpl; lia].
  - unfold delivered. cbn [st_socket st_buffer]. rewrite length_app. split; [by rewrite !app_assoc, Ho|]. split; [done|]. split; [done | lia].
Qed.

Definition op_fits (o : stream_op) : Prop :=
  match o with SForward chunks => Forall (fun c => Z.of_nat (length c) <= size) chunks | _ => True end.

Lemma forward_loop_delivers s chunks : forall bs st, Forall (fun c => Z.of_nat (length c) <= size) chunks ->
  delivered s bs st -> st_buffer st = [] -> delivered s (bs ++ chunk_bytes chunks) (forward_loop chunks st).
Proof.
  induction chunks as [|c cs IH]; intros bs st Hc Hd He; cbn [forward_loop chunk_bytes]; [by rewrite app_nil_r|].
  destruct c as [|b c]; [by rewrite app_nil_r|]. apply Forall_cons in Hc as [Hc Hcs].
  destruct (flush_delivers s (bs ++ b :: c) (MkStream (b :: c) (st_socket st))) as [Hd' He'].
  - destruct Hd as (Ho & Hi & Hcl & Hl). rewrite He, app_nil_r in Ho. unfold delivered. cbn [st_socket st_buffer]. rewrite Ho, app_assoc. done.
  - rewrite app_assoc. by apply IH.
Qed.

Lemma run_op_delivers s bs st o : op_fits o -> delivered s bs st -> delivered s (bs ++ op_bytes o) (run_op size st o).
Proof.
  intros Hf Hd. destruct o as [src|chunks|]; cbn [run_op op_bytes].
  - by apply stream_write_delivers.
  - destruct (flush_delivers s bs st Hd) as [Hd' He]. by apply forward_loop_delivers.
  - rewrite app_nil_r. by apply flush_delivers.
Qed.

Lemma run_ops_delivers s ops : forall bs st, Forall op_fits ops -> delivered s bs st ->
  delivered s (bs ++ ops_bytes ops) (foldl (run_op size) st ops).
Proof.
  induction ops as [|o ops IH]; intros bs st Hf Hd; [by rewrite app_nil_r|].
  apply Forall_cons in Hf as [Hfo Hf]. unfold ops_bytes. rewrite fmap_cons. cbn [concat foldl]. rewrite app_assoc.
  apply IH; [done|]. by apply run_op_delivers.
Qed.

(** The socket after the operations and a last [flush]. *)
Lemma flushed_delivers s ops : Forall op_fits ops ->
  let s' := st_socket (flush (foldl (run_op size) (MkStream [] s) ops)) in
  output s' = output s ++ ops_bytes ops /\ input s' = input s /\ is_closed s' = is_closed s /\ script s' = script s.
Proof.
  intros Hf. destruct (flush_delivers s _ _ (run_ops_delivers s ops [] _ Hf (delivered_start s))) as [(Ho & Hi & Hc & _) He].
  rewrite He, app_nil_r in Ho. done.
Qed.
End Stream.
