(* ===== verification/HttpServe.v ===== *)
(** * Serving a request and receiving a response

    What [handleRequest] and [HttpClient] do with a head that is complete, a head
    that is not, and a body, over a socket that follows [SocketLaws]. *)
From Stdlib Require Import ZArith Lia.
From stdpp Require Import base tactics list numbers strings gmap.
From S2P Require Import Prelude AptList AptListTheorems AptRecords Apt Http HttpRead.
Open Scope Z_scope.

(** ** Decimal numbers *)

Definition digit (c : Z) : Prop := 48 <= c <= 57.

Lemma digit_of_digit d : 0 <= d < 10 -> digit_of 10 (48 + d) = Some d.
Proof.
  intros Hd. unfold digit_of. rewrite (proj2 (Z.leb_le 48 _)), (proj2 (Z.leb_le _ 57)) by lia. cbn [andb].
  replace (48 + d - 48) with d by lia. cbv zeta. by rewrite (proj2 (Z.ltb_lt d 10)) by lia.
Qed.

Lemma decimal_loop_spec fuel : forall n acc, 0 <= n < 2 ^ Z.of_nat fuel ->
  exists ds, decimal_loop fuel n acc = ds ++ acc /\ Forall digit ds /\ (length ds <= fuel)%nat /\ (0 < n -> ds <> []) /\
    forall a s, number 10 a (ds ++ s) = number 10 (a * 10 ^ Z.of_nat (length ds) + n) s.
Proof.
  induction fuel as [|fuel IH]; intros n acc Hn.
  - exists []. split; [done|]. split; [done|]. split; [done|]. split; [simpl in Hn; lia|]. intros a s. simpl in *. f_equal. lia.
  - cbn [decimal_loop]. destruct (Z.eqb_spec n 0) as [->|Hn0].
    + exists []. split; [done|]. split; [done|]. split; [simpl; lia|]. split; [done|]. intros a s. simpl. f_equal. lia.
    + pose proof (Z.mod_pos_bound n 10 ltac:(lia)) as Hm. pose proof (Z.div_mod n 10 ltac:(lia)) as Hdm.
      rewrite Nat2Z.inj_succ, Z.pow_succ_r in Hn by lia.
      destruct (IH (n / 10) (48 + n mod 10 :: acc)) as (ds & E & Hd & Hl & _ & Hv); [split; [apply Z.div_pos; lia | apply Z.div_lt_upper_bound; lia]|].
      exists (ds ++ [48 + n mod 10]). rewrite E, <- app_assoc. split; [done|].
      split; [apply Forall_app; split; [done|]; constructor; [unfold digit; lia | done]|].
      rewrite length_app. simpl. split; [lia|]. split; [by destruct ds|]. intros a s.
      rewrite <- app_assoc, Hv. cbn [app number]. rewrite digit_of_digit by done. f_equal.
      rewrite Nat2Z.inj_add, Z.pow_add_r by lia. change (10 ^ Z.of_nat 1) with 10. lia.
Qed.

(** The digits of a number, and what reading them gives. *)
Lemma decimal_number n : 0 < n < 2 ^ 63 ->
  Forall digit (decimal n) /\ decimal n <> [] /\ (length (decimal n) <= 64)%nat /\ forall s, number 10 0 (decimal n ++ s) = number 10 n s.
Proof.
  intros Hn. unfold decimal. rewrite (proj2 (Z.eqb_neq n 0)) by lia.
  assert (Z.log2 n < 63) as Hlog by (apply Z.log2_lt_pow2; lia). pose proof (Z.log2_nonneg n) as Hl0.
  destruct (decimal_loop_spec (S (Z.to_nat (Z.log2 n))) n []) as (ds & E & Hd & Hl & Hne & Hv).
  { rewrite Nat2Z.inj_succ, Z2Nat.id by lia. pose proof (Z.log2_spec n ltac:(lia)). lia. }
  rewrite E, app_nil_r. split; [done|]. split; [apply Hne; lia|]. split; [lia|]. intros s. rewrite Hv. f_equal.
Qed.

(** [atol] reads them back, whatever follows. *)
Lemma atol_decimal n s : 0 < n < 2 ^ 63 -> number 10 n s = n -> atol (decimal n ++ s) = Done n.
Proof.
  intros Hn Hs. destruct (decimal_number n Hn) as (Hd & Hne & _ & Hv). specialize (Hv s).
  unfold atol, signed_number. destruct (decimal n) as [|c ds]; [done|].
  pose proof Hd as [Hc _]%Forall_cons. destruct (digit_of_range c Hc) as (Hsp & Hm & Hp & _).
  assert ((span isspace ((c :: ds) ++ s)).2 = c :: ds ++ s) as -> by (cbn [span app]; by rewrite Hsp).
  rewrite (proj2 (Z.eqb_neq c 45)), (proj2 (Z.eqb_neq c 43)) by done. cbv zeta. cbn [app] in Hv. rewrite Hv, Hs.
  by rewrite (proj2 (Z.leb_le _ _)), (proj2 (Z.ltb_lt _ _)) by lia.
Qed.

Lemma decimal_spec n : 0 < n < 2 ^ 63 ->
  Forall digit (decimal n) /\ decimal n <> [] /\ (length (decimal n) <= 64)%nat /\ atol (cstr (decimal n)) = Done n.
Proof.
  intros Hn. destruct (decimal_number n Hn) as (Hd & Hne & Hl & _). split; [done|]. split; [done|]. split; [done|].
  rewrite cstr_no_zero by (eapply Forall_impl; [exact Hd|]; unfold digit; intros; lia).
  rewrite <- (app_nil_r (decimal n)). by apply atol_decimal.
Qed.

Section Serving.
Context {S : Type} {sock : SocketOps S} {laws : SocketLaws S} (size : Z) (Hsize : 0 < size).

Lemma reset_start (r : HttpHeadReader) s :
  pending (reset (MkConn r s)) = input s /\ r_error (rdr (reset (MkConn r s))) = 0 /\ same s (reset (MkConn r s)).
Proof. done. Qed.

(** ** A head that the input cuts off *)

Definition lines_text (fs : list (str * str)) : str := concat ((fun f => line_text (field_line f)) <$> fs).
(** A part of a line. *)
Definition partial (t : str) : Prop := ascii t /\ no_newline t.

Lemma parse_fields_eof s part fs : forall n fuel t c,
  script s = [] -> partial part -> (length part < fuel)%nat ->
  Forall field_ok fs -> (length fs < n)%nat -> Forall (fun f => (length (field_line f) + 1 < fuel)%nat) fs ->
  pending c = lines_text fs ++ part -> r_error (rdr c) = 0 -> same s c ->
  exists t' c', parse_fields size n fuel t c = Done (t', c') /\ pending c' = [] /\ r_error (rdr c') = EINVAL /\ same s c'.
Proof.
  induction fs as [|f fs IH]; intros n fuel t c Hq Hpt Hpl Hok Hn Hf Hp He Hs; (destruct n as [|n]; [simpl in Hn; lia|]); unfold parse_fields; cbn [parse_fields_with].
  - destruct Hpt as [Ha Hl]. destruct (nextLine_eof size Hsize s part fuel [] c Hq Ha Hl Hp He Hs Hpl) as (c' & E & H').
    rewrite (bind_done _ _ _ _ _ E). by exists t, c'.
  - apply Forall_cons in Hok as [Hfo Hok]. apply Forall_cons in Hf as [Hff Hf]. unfold lines_text in Hp.
    rewrite fmap_cons in Hp. cbn [concat] in Hp. rewrite <- !app_assoc in Hp.
    destruct (nextLine_line size Hsize s (field_line f) fuel c (lines_text fs ++ part)) as (c' & E & Hp' & He' & Hs'); try done; [by apply Hfo|].
    rewrite (bind_done _ _ _ _ _ E). pose proof (field_line_nonempty f Hfo) as Hne.
    destruct (field_line f) as [|x l] eqn:El; [done|]. rewrite <- El.
    rewrite (bind_done _ _ _ (set_known t f) c') by (unfold lift; by rewrite set_field_spec).
    apply IH; try done. simpl in Hn. lia.
Qed.

(** The input is a part of the first line, or the first line, some fields and a part
    of a line. *)
Inductive cut_head : list Z -> nat -> Prop :=
| cut_first part fuel : partial part -> (length part < fuel)%nat -> cut_head part fuel
| cut_fields l fs part fuel :
    line_ok l -> (length l + 1 < fuel)%nat -> partial part -> (length part < fuel)%nat ->
    Forall field_ok fs -> (length fs < fuel)%nat -> Forall (fun f => (length (field_line f) + 1 < fuel)%nat) fs ->
    cut_head (line_text l ++ lines_text fs ++ part) fuel.

Lemma parse_cut s t fuel tb c : script s = [] -> cut_head t fuel -> pending c = t -> r_error (rdr c) = 0 -> same s c ->
  exists hd c', parse size fuel tb c = Done (hd, c') /\ r_error (rdr c') = EINVAL /\ same s c'.
Proof.
  intros Hq Hcut Hp He Hs. destruct Hcut as [part fuel [Ha Hn] Hl|l fs part fuel Hl Hlf Hpt Hpf Hok Hn Hff].
  - destruct (nextLine_eof size Hsize s part fuel [] c Hq Ha Hn Hp He Hs Hl) as (c1 & E1 & Hp1 & He1 & Hs1).
    unfold parse, parse_with. rewrite (bind_done _ _ _ _ _ E1). destruct fuel as [|fuel]; [lia|].
    destruct (nextLine_end size s fuel [] c1 Hp1 Hq Hs1) as (c2 & E2 & Hp2 & He2 & Hs2). cbn [next_token span fst snd parse_fields_with].
    rewrite (bind_done _ _ _ tb c2) by (by rewrite (bind_done _ _ _ _ _ E2)). by do 2 eexists.
  - destruct (nextLine_line size Hsize s l fuel c _ Hl Hp He Hs Hlf) as (c1 & E1 & Hp1 & He1 & Hs1).
    destruct (parse_fields_eof s part fs fuel fuel tb c1 Hq Hpt Hpf Hok Hn Hff Hp1 He1 Hs1) as (t' & c2 & E2 & Hp2 & He2 & Hs2).
    unfold parse, parse_with. rewrite (bind_done _ _ _ _ _ E1). destruct (next_token l) as [m r]. destruct (next_token r) as [p r'].
    rewrite (bind_done _ _ _ _ _ E2). by do 2 eexists.
Qed.

(** ** The server *)

Section Server.
Context {H : Type} (handler : HttpHandler H).

Definition head_table (fs : list (str * str)) : table_t := foldl set_known empty_table fs.
Record good_head (m p v : str) (fs : list (str * str)) (fuel : nat) : Prop := {
  gh_method : token m; gh_path : token p; gh_line : line_ok (first_line m p v);
  gh_fields : Forall field_ok fs; gh_fuel : head_fuel m p v fs fuel }.

Lemma token_valid m p tb : token m -> token p -> isValid (MkHead m p tb) = true.
Proof. intros [Hm _] [Hp _]. unfold isValid. cbn. by destruct m, p. Qed.

Lemma bad_request_spec (h : H) s : exists s', bad_request h s = Done (h, s') /\ output s' = output s ++ onBadRequest /\ is_closed s' = true.
Proof.
  destruct (write_all onBadRequest s) as (s' & E & _ & Ho & _). destruct (close_keeps s') as [Hc Ho'].
  exists (sk_close s'). unfold bad_request. rewrite E. cbn [snd]. split; [done|]. by rewrite Ho'.
Qed.

Lemma doProduce_spec h s : let '(ops, h') := produce handler h in Forall (op_fits size) ops ->
  exists s', doProduce size handler h s = (h', s') /\ output s' = output s ++ ops_bytes ops /\ input s' = input s /\ is_closed s' = is_closed s /\ script s' = script s.
Proof.
  destruct (produce handler h) as [ops h'] eqn:E. intros Hf. unfold doProduce. rewrite E.
  eexists. split; [done|]. by apply flushed_delivers.
Qed.

Lemma handleRequest_cut t n fuel h r s : script s = [] -> cut_head t fuel -> input s = t ->
  exists s', handleRequest size handler (Datatypes.S n) fuel h (MkConn r s) = Done (h, s') /\ output s' = output s ++ onBadRequest /\ is_closed s' = true.
Proof.
  intros Hq Hc Hi. cbn [handleRequest].
  destruct (parse_cut s t fuel empty_table (reset (MkConn r s)) Hq Hc) as (hd & c' & E & He & [Ho Hcl]); [done|done|done|].
  rewrite E. cbn [getLastError]. rewrite He. rewrite orb_true_r. cbn [socket].
  destruct (bad_request_spec h (socket c')) as (s' & E' & Ho' & Hc'). exists s'. rewrite E'. split; [done|]. by rewrite Ho', Ho.
Qed.

Lemma handleRequest_method m p v fs rest n fuel h r s :
  good_head m p v fs fuel -> methodFromString m = INVALID -> input s = head_text m p v fs ++ rest ->
  exists s', handleRequest size handler (Datatypes.S n) fuel h (MkConn r s) = Done (h, s') /\ output s' = output s ++ onBadRequest /\ is_closed s' = true.
Proof.
  intros [] Hm Hi. cbn [handleRequest].
  destruct (parse_head size Hsize s m p v fs fuel empty_table (reset (MkConn r s)) rest) as (c' & E & _ & He & Ho & Hcl); try done.
  rewrite E. cbn [getLastError]. rewrite He, token_valid by done. cbn. rewrite Hm.
  destruct (bad_request_spec h (socket c')) as (s' & E' & Ho' & Hc'). exists s'. rewrite E'. split; [done|]. by rewrite Ho', Ho.
Qed.

Definition requested (m p : str) (fs : list (str * str)) (h : H) : H :=
  set_request handler (methodFromString m) (p ++ [0]) (connFromString (get_field (head_table fs) CONNECTION)) h.

(** One turn of the loop, from what the parser and the loop over the body give. *)
Lemma handleRequest_step m p fs n fuel h c c' k h2 s2 :
  token m -> token p -> methodFromString m <> INVALID -> content_length (head_table fs) = Done k ->
  parse size fuel empty_table (reset c) = Done (MkHead m p (head_table fs), c') -> r_error (rdr c') = 0 ->
  doConsume size handler fuel k (requested m p fs h) (socket c') = Done (h2, s2) ->
  let '(ops, h') := produce handler h2 in Forall (op_fits size) ops ->
  exists r' s', handleRequest size handler (Datatypes.S n) fuel h c =
      (if connectionClosed handler h' then Done (h', sk_close s') else handleRequest size handler n fuel h' (MkConn r' s')) /\
    output s' = output s2 ++ ops_bytes ops /\ input s' = input s2 /\ is_closed s' = is_closed s2 /\ script s' = script s2.
Proof.
  intros Ht Hp Hm Hl E He Ec. destruct (produce handler h2) as [ops h'] eqn:Ep. intros Hf. cbn [handleRequest].
  rewrite E. cbn [getLastError]. rewrite He, token_valid by done. cbn [orb negb Z.eqb h_method h_path h_table].
  rewrite Hl. cbn [bind_out].
  pose proof (doProduce_spec h2 s2) as Hpr. rewrite Ep in Hpr. destruct (Hpr Hf) as (s' & E' & Hs').
  exists (MkReader (r_buffer (rdr c')) (r_offset (rdr c')) 0), s'. split; [|done].
  unfold requested in Ec. destruct (methodFromString m) eqn:Em; [done| | |]; (cbn [socket rdr]; rewrite Ec; cbn [bind_out]; by rewrite E').
Qed.

Lemma doConsume_none fuel h s : doConsume size handler fuel 0 h s = Done (h, s).
Proof. by destruct fuel. Qed.

(** A request without a body. *)
Lemma handleRequest_turn m p v fs rest n fuel h r s :
  good_head m p v fs fuel -> methodFromString m <> INVALID -> content_length (head_table fs) = Done 0 ->
  input s = head_text m p v fs ++ rest ->
  let '(ops, h') := produce handler (requested m p fs h) in Forall (op_fits size) ops ->
  exists r' s', handleRequest size handler (Datatypes.S n) fuel h (MkConn r s) =
      (if connectionClosed handler h' then Done (h', sk_close s') else handleRequest size handler n fuel h' (MkConn r' s')) /\
    output s' = output s ++ ops_bytes ops /\ is_closed s' = is_closed s.
Proof.
  intros [Ht Htp Hli Hfs Hfu] Hm Hl Hi.
  destruct (parse_head size Hsize s m p v fs fuel empty_table (reset (MkConn r s)) rest) as (c' & E & _ & He & Ho & Hcl & _); try done.
  pose proof (handleRequest_step m p fs n fuel h (MkConn r s) c' 0 _ _ Ht Htp Hm Hl E He (doConsume_none _ _ _)) as Hst.
  destruct (produce handler _) as [ops h']. intros Hf. destruct (Hst Hf) as (r' & s' & E' & Ho' & _ & Hc' & _).
  exists r', s'. split; [done|]. by rewrite Ho', Ho, Hc', Hcl.
Qed.
End Server.

(** ** The client *)

Lemma client_produce_flushed host m path con ops : client_produce host m path con = Done ops ->
  exists ops', ops = ops' ++ [SFlush] /\ Forall (op_fits size) ops'.
Proof.
  unfold client_produce. destruct (method_name m) as [name| | |]; [|done..]. cbn [bind_out].
  destruct (last path) as [[| |]|]; [|done..]. intros [= <-].
  match goal with |- context [?a :: ?b :: ?c :: ?d :: ?e :: ?f :: ?g :: [SFlush]] => exists [a; b; c; d; e; f; g] end.
  split; [done|]. by repeat (constructor; [done|]).
Qed.

Lemma ops_bytes_flush ops : ops_bytes (ops ++ [SFlush]) = ops_bytes ops.
Proof. unfold ops_bytes. rewrite fmap_app, concat_app. apply app_nil_r. Qed.

Section Receiving.
Context {H : Type} (client_consume : list Z -> H -> bool * H) (eat : list Z -> H -> H).
(** The handler takes every byte, in pieces of any size. *)
Hypothesis eats : forall bs h, client_consume bs h = (true, eat bs h).
Hypothesis eat_app : forall a b h, eat (a ++ b) h = eat b (eat a h).
Hypothesis eat_nil : forall h, eat [] h = h.

Lemma body_loop_spec n : forall fuel nr h s,
  nr <= n -> (length (input s) < fuel)%nat -> script s = [] \/ n - nr <= Z.of_nat (length (input s)) ->
  exists s', body_loop size client_consume fuel nr n h s =
      Done (nr + Z.min (n - nr) (Z.of_nat (length (input s))), eat (take (Z.to_nat (n - nr)) (input s)) h, s') /\
    unchanged s s' /\ input s' = drop (Z.to_nat (n - nr)) (input s).
Proof.
  induction fuel as [|fuel IH]; intros nr h s Hn Hf Hq; [lia|]. cbn [body_loop].
  destruct (Z.ltb_spec nr n) as [Hlt|Hge].
  2: { assert (n - nr = 0) as -> by lia. exists s. split; [|done]. simpl. rewrite eat_nil. do 3 f_equal. lia. }
  destruct (decide (input s = [])) as [Hi|Hi].
  { destruct (read_end (Z.min size (n - nr)) s Hi) as (s' & E & Hi' & Hu); [destruct Hq as [|Hq]; [done | rewrite Hi in Hq; simpl in Hq; lia]|].
    rewrite E. exists s'. rewrite Hi', Hi, take_nil, drop_nil, eat_nil. split; [|done]. simpl. do 3 f_equal. lia. }
  destruct (read_some (Z.min size (n - nr)) s ltac:(lia) Hi) as (bs & s' & E & Hb & Hl & Hd & Hu). rewrite E.
  destruct bs as [|b bs]; [done|]. set (l := b :: bs) in *. rewrite eats. cbn [negb].
  rewrite Hd in Hf, Hq |- *. rewrite length_app in *.
  assert (0 < length l)%nat by (subst l; simpl; lia).
  assert (script s' = [] \/ n - (nr + Z.of_nat (length l)) <= Z.of_nat (length (input s'))) as Hq'.
  { destruct Hq as [Hq|Hq]; [left; destruct Hu as (_ & _ & Hu); congruence | right; lia]. }
  destruct (IH (nr + Z.of_nat (length l)) (eat l h) s') as (s2 & E2 & Hu2 & Hi2); [lia|lia|done|].
  exists s2. rewrite E2, <- eat_app. rewrite take_app_ge, drop_app_ge by lia.
  replace (Z.to_nat (n - nr) - length l)%nat with (Z.to_nat (n - (nr + Z.of_nat (length l)))) by lia.
  split; [do 3 f_equal; lia|]. split; [by eapply unchanged_trans | done].
Qed.

Lemma receive_body_spec n fuel h c : 0 <= n -> script (socket c) = [] \/ n <= Z.of_nat (length (pending c)) -> (length (pending c) < fuel)%nat ->
  exists s', receive_body size client_consume fuel n h c =
      Done (Z.min n (Z.of_nat (length (pending c))), eat (take (Z.to_nat n) (pending c)) h, s') /\ same (socket c) (MkConn (rdr c) s') /\
    (Z.of_nat (length (pending c)) <= n -> input s' = []).
Proof.
  intros Hn Hq Hf. unfold receive_body, pending in *. set (rest := drop _ _) in *. rewrite length_app in *. rewrite eats.
  destruct (body_loop_spec n fuel (Z.min (Z.of_nat (length rest)) n) (eat (take (Z.to_nat (Z.min (Z.of_nat (length rest)) n)) rest) h) (socket c))
    as (s' & E & Hs & Hi'); [lia|lia|destruct Hq; [by left | right; lia]|].
  exists s'. rewrite E, <- eat_app. split; [|split; [done|]; intros Hle; rewrite Hi'; apply drop_ge; lia].
  rewrite take_app. replace (Z.to_nat (n - Z.min (Z.of_nat (length rest)) n)) with (Z.to_nat n - length rest)%nat by lia.
  replace (take (Z.to_nat (Z.min (Z.of_nat (length rest)) n)) rest) with (take (Z.to_nat n) rest).
  { do 3 f_equal. lia. }
  destruct (Z.le_gt_cases n (Z.of_nat (length rest))); [by rewrite Z.min_r by lia|].
  rewrite Z.min_l by lia. by rewrite !take_ge by lia.
Qed.

(** The loop of the server over the body of a request is that of the client: the
    handler gets the bytes that are announced, as far as they arrive. *)
Lemma doConsume_body_loop (handler : HttpHandler H) fuel : forall nr n h s, consume handler = client_consume ->
  doConsume size handler fuel (n - nr) h s = bind_out (body_loop size client_consume fuel nr n h s) (fun '(_, h, s) => Done (h, s)).
Proof.
  intros nr n h s Hc. revert nr h s. induction fuel as [|fuel IH]; intros nr h s; cbn [doConsume body_loop];
    (replace (n - nr >? 0) with (nr <? n) by (rewrite Z.gtb_ltb; destruct (Z.ltb_spec nr n), (Z.ltb_spec 0 (n - nr)); lia));
    (destruct (nr <? n); [|done]); [done|].
  rewrite Z.min_comm, Hc. destruct (sk_read _ s) as [[[|b bs]|] s']; [done| |done].
  rewrite eats. cbn [negb]. rewrite <- IH. f_equal. lia.
Qed.

Lemma doConsume_spec (handler : HttpHandler H) fuel n h s : consume handler = client_consume ->
  0 <= n -> (length (input s) < fuel)%nat -> script s = [] \/ n <= Z.of_nat (length (input s)) ->
  exists s', doConsume size handler fuel n h s = Done (eat (take (Z.to_nat n) (input s)) h, s') /\
    unchanged s s' /\ input s' = drop (Z.to_nat n) (input s).
Proof.
  intros Hc Hn Hf Hq. destruct (body_loop_spec n fuel 0 h s Hn Hf) as (s' & E & Hs); [by rewrite Z.sub_0_r|]. rewrite Z.sub_0_r in *.
  exists s'. split; [|done]. pose proof (doConsume_body_loop handler fuel 0 n h s Hc) as Hd. rewrite Z.sub_0_r in *. by rewrite Hd, E.
Qed.

(** A response with the status 200: the whole body makes the request succeed. *)
Lemma receive_ok v p reason fs data n con fuel h r s :
  script s = [] \/ n <= Z.of_nat (length data) ->
  good_head v p reason fs fuel -> atoi (cstr p) = Done 200 -> content_length (head_table fs) = Done n -> 0 < n ->
  input s = head_text v p reason fs ++ data -> (length data < fuel)%nat ->
  let con' := match get_field (head_table fs) CONNECTION with [] => con | w => connFromString w end in
  let complete := n <=? Z.of_nat (length data) in
  exists cl, receive size client_consume fuel con h (MkConn r s) = Done (if complete then 0 else 1, cl) /\
    cl_handler cl = eat (take (Z.to_nat n) data) h /\ output (socket (cl_conn cl)) = output s /\
    connected cl = match con' with KEEP_ALIVE => complete | CLOSE => false end /\
    (connected cl = false -> is_closed (socket (cl_conn cl)) = true) /\
    (connected cl = true -> script (socket (cl_conn cl)) = script s /\ (Z.of_nat (length data) <= n -> input (socket (cl_conn cl)) = [])).
Proof.
  intros Hq [] Hst Hcl Hn Hi Hf. cbv zeta. unfold receive.
  destruct (parse_head size Hsize s v p reason fs fuel empty_table (reset (MkConn r s)) data) as (c' & E & Hp & He & Ho & Hc & Hsc); try done.
  rewrite E. rewrite token_valid by done. cbn [negb h_path h_table]. fold (head_table fs). rewrite Hst, Hcl. cbn [bind_out].
  rewrite Z.eqb_refl, (proj2 (Z.eqb_neq n 0)) by lia. cbn [andb negb].
  destruct (receive_body_spec n fuel h c' ltac:(lia) ltac:(rewrite Hp; destruct Hq; [left; congruence | by right]) ltac:(by rewrite Hp)) as (s' & E' & (Ho' & Hc' & Hs') & Hi'). rewrite Hp in E', Hi'. rewrite E'. cbn [bind_out].
  assert ((Z.min n (Z.of_nat (length data)) =? n) = (n <=? Z.of_nat (length data))) as ->.
  { destruct (Z.leb_spec n (Z.of_nat (length data))); [apply Z.eqb_eq | apply Z.eqb_neq]; lia. }
  cbn [socket] in Ho', Hc'. destruct (close_keeps s') as [Hck Hok].
  destruct (match get_field (head_table fs) CONNECTION with [] => con | w => connFromString w end), (n <=? _);
    (eexists; split; [done|]; cbn [closed cl_handler cl_conn socket connected]; split; [done|]; split; [congruence|]; split; [done|]; split; [done|];
     intros Hco; first [discriminate Hco | split; [cbn [socket] in Hs'; congruence | done]]).
Qed.

(** Any other status, and a status of 200 without a length: nothing is consumed. *)
Lemma receive_status v p reason fs data n st con fuel h r s :
  good_head v p reason fs fuel -> atoi (cstr p) = Done st -> content_length (head_table fs) = Done n -> st <> 200 \/ n = 0 ->
  input s = head_text v p reason fs ++ data ->
  exists cl, receive size client_consume fuel con h (MkConn r s) = Done (if st =? 200 then 0 else 1, cl) /\
    cl_handler cl = h /\ output (socket (cl_conn cl)) = output s /\ (st <> 200 -> connected cl = false /\ is_closed (socket (cl_conn cl)) = true).
Proof.
  intros [] Hst Hcl Hn Hi. unfold receive.
  destruct (parse_head size Hsize s v p reason fs fuel empty_table (reset (MkConn r s)) data) as (c' & E & Hp & He & Ho & Hc); try done.
  rewrite E. rewrite token_valid by done. cbn [negb h_path h_table]. fold (head_table fs). rewrite Hst, Hcl. cbn [bind_out].
  assert ((st =? 200) && negb (n =? 0) = false) as ->.
  { destruct Hn as [Hn| ->]; [by rewrite (proj2 (Z.eqb_neq _ _)) | by rewrite andb_false_r]. }
  cbn [bind_out]. destruct (close_keeps (socket c')) as [Hck Hok]. destruct (Z.eqb_spec st 200).
  - destruct (match get_field (head_table fs) CONNECTION with [] => con | w => connFromString w end);
      (eexists; split; [done|]; cbn [closed cl_handler cl_conn socket connected]; split; [done|]; split; [congruence|]; done).
  - destruct (match get_field (head_table fs) CONNECTION with [] => con | w => connFromString w end);
      (eexists; split; [done|]; cbn [closed cl_handler cl_conn socket connected]; split; [done|]; split; [congruence|]; done).
Qed.
End Receiving.
End Serving.
