(* ===== verification/HttpTheorems.v ===== *)
(** * The claims about the HTTP library

    A socket over system calls that write at least a byte follows the laws of
    HttpRead.v; the server and the client are proved against these laws, and the
    concrete runs are over a socket that delivers its input in given pieces. *)
From Stdlib Require Import ZArith Lia.
From stdpp Require Import base tactics list numbers strings gmap.
From S2P Require Import Prelude AptList AptListTheorems Apt Http HttpRead HttpServe.
Open Scope Z_scope.

(** ** Writing to a descriptor *)

Section Descriptor.
Context {W : Type} (sys_write : list Z -> W -> Z * W) (out : W -> list Z).
(** [write] puts a prefix of its argument on the wire, or nothing when it fails. *)
Definition write_law : Prop := forall buf w, let '(len, w') := sys_write buf w in
  len <= Z.of_nat (length buf) /\ out w' = out w ++ take (Z.to_nat len) buf.

Lemma xwrite_loop n : forall buf w written,
  write_law -> 0 <= written -> (length buf <= n)%nat ->
  exists r k w', xwrite sys_write n written buf w = Some (r, w') /\ (k <= length buf)%nat /\ out w' = out w ++ take k buf /\
    (r = written + Z.of_nat k \/ (written = 0 /\ k = 0%nat /\ r <= 0)) /\
    ((k < length buf)%nat -> exists w0, (sys_write (drop k buf) w0).1 <= 0).
Proof.
  induction n as [|n IH]; intros buf w written Hlaw Hw Hn; (destruct buf as [|b buf]; [exists written, 0%nat, w; rewrite app_nil_r; simpl; split; [done|]; split; [done|]; split; [done|]; split; [left|]; lia|]).
  { simpl in Hn. lia. }
  cbn [xwrite]. pose proof (Hlaw (b :: buf) w) as Hl. destruct (sys_write (b :: buf) w) as [len w'] eqn:E. destruct Hl as [Hle Ho].
  destruct (Z.leb_spec len 0).
  - exists (if written =? 0 then len else written), 0%nat, w'. rewrite Z2Nat.nonpos in Ho by done.
    split; [done|]. split; [lia|]. split; [done|]. split; [destruct (Z.eqb_spec written 0); lia|]. intros _. exists w. by rewrite drop_0, E.
  - destruct (IH (drop (Z.to_nat len) (b :: buf)) w' (written + len)) as (r & k & w2 & E2 & Hk & Ho2 & Hr & Hlast); [done|lia|rewrite length_drop; simpl in *; lia|].
    rewrite length_drop in Hk, Hlast. exists r, (Z.to_nat len + k)%nat, w2. split; [done|]. split; [lia|].
    split; [rewrite Ho2, Ho, <- app_assoc; f_equal; by rewrite take_take_drop|]. split; [lia|].
    intros Hlt. destruct Hlast as [w0 Hw0]; [lia|]. exists w0. by rewrite <- drop_drop.
Qed.
End Descriptor.

(** [Socket::xwrite] puts a prefix of the buffer on the wire whatever lengths
    [write] returns; the result is the length of that prefix, or the failure of the
    first call; the prefix is shorter than the buffer only when a call wrote
    nothing. *)
Theorem xwrite_writes_prefix {W} (sys_write : list Z -> W -> Z * W) (out : W -> list Z) buf w :
  write_law sys_write out ->
  exists r k w', xwrite sys_write (length buf) 0 buf w = Some (r, w') /\ (k <= length buf)%nat /\ out w' = out w ++ take k buf /\
    (r = Z.of_nat k \/ (k = 0%nat /\ r <= 0)) /\ ((k < length buf)%nat -> exists w0, (sys_write (drop k buf) w0).1 <= 0).
Proof.
  intros Hlaw. destruct (xwrite_loop sys_write out (length buf) buf w 0 Hlaw) as (r & k & w' & E & Hk & Ho & Hr & Hl); [lia|lia|].
  exists r, k, w'. split; [done|]. split; [done|]. split; [done|]. split; [lia|done].
Qed.

(** ** A socket that delivers pieces *)

Record wire : Type := MkWire { pieces : list (list Z); sent : list Z; shut : bool }.

Fixpoint take_piece (n : Z) (ps : list (list Z)) : list Z * list (list Z) :=
  match ps with
  | [] => ([], [])
  | [] :: ps => take_piece n ps
  | p :: ps => (take (Z.to_nat n) p, drop (Z.to_nat n) p :: ps)
  end.
Definition wire_read (n : Z) (w : wire) : option (list Z) * wire :=
  let '(bs, ps) := take_piece n (pieces w) in (Some bs, MkWire ps (sent w) (shut w)).
(** At most seven bytes at a time. *)
Definition wire_write (bs : list Z) (w : wire) : Z * wire :=
  (Z.of_nat (length (take 7 bs)), MkWire (pieces w) (sent w ++ take 7 bs) (shut w)).

#[export] Instance wire_socket : SocketOps wire :=
  HttpSocket wire_read wire_write (fun _ => 0) (fun w => MkWire (pieces w) (sent w) true).

Lemma wire_write_law : write_law wire_write sent.
Proof.
  intros bs w. unfold wire_write. cbn [sent]. rewrite length_take. split; [lia|]. f_equal. rewrite Nat2Z.id.
  destruct (Nat.le_ge_cases 7 (length bs)); [by rewrite Nat.min_l|]. rewrite Nat.min_r by lia. by rewrite !take_ge by lia.
Qed.

Lemma wire_xwrite n : forall bs w written, (length bs <= n)%nat ->
  xwrite wire_write n written bs w = Some (written + Z.of_nat (length bs), MkWire (pieces w) (sent w ++ bs) (shut w)).
Proof.
  induction n as [|n IH]; intros bs [ps o c] written Hn; (destruct bs as [|b bs]; [rewrite app_nil_r; simpl; do 2 f_equal; lia|]); [simpl in Hn; lia|].
  cbn [xwrite]. unfold wire_write at 1. set (l := b :: bs) in *. rewrite length_take.
  assert (0 < length l)%nat by (subst l; simpl; lia).
  rewrite (proj2 (Z.leb_gt _ 0)) by lia. rewrite IH by (rewrite length_drop; lia). cbn [pieces sent shut].
  rewrite length_drop, Nat2Z.id, <- app_assoc. do 2 f_equal; [lia|]. f_equal. f_equal.
  destruct (Nat.le_ge_cases 7 (length l)); [by rewrite Nat.min_l, take_drop by lia|]. rewrite Nat.min_r by lia.
  by rewrite take_ge, drop_all, app_nil_r by lia.
Qed.

Lemma take_piece_spec n ps : 0 < n -> let '(bs, ps') := take_piece n ps in
  concat ps = bs ++ concat ps' /\ Z.of_nat (length bs) <= n /\ (bs = [] -> concat ps = []).
Proof.
  intros Hn. induction ps as [|[|b p] ps IH]; cbn [take_piece concat].
  - split; [done|]. simpl. split; [lia|done].
  - exact IH.
  - rewrite length_take. split; [by rewrite app_assoc, take_drop|]. split; [lia|]. destruct (Z.to_nat n) eqn:E; [lia|done].
Qed.

#[export] Program Instance wire_laws : SocketLaws wire := {
  input w := concat (pieces w); script _ := []; output := sent; is_closed := shut }.
Next Obligation.
  intros n w Hn Hi. pose proof (take_piece_spec n (pieces w) Hn) as H. cbn. unfold wire_read. destruct (take_piece n (pieces w)) as [bs ps].
  destruct H as (Hc & Hl & He). do 2 eexists. split; [done|]. split; [by intros ->; apply Hi, He|]. done.
Qed.
Next Obligation. done. Qed.
Next Obligation.
  intros n w Hi _. cbn. unfold wire_read. destruct w as [ps o c]. cbn in *. induction ps as [|[|b p] ps IH]; [by eexists| |done]. exact (IH Hi).
Qed.
Next Obligation. intros bs w. cbn. rewrite wire_xwrite by done. by eexists. Qed.
Next Obligation. done. Qed.

(** ** The claims *)

Section Claims.
Context {S : Type} {sock : SocketOps S} {laws : SocketLaws S} (size : Z).

(** [SocketStream]: whatever writes, forwarded files and flushes a handler makes,
    the stream never holds more than its buffer, and what it has sent followed by
    what it holds is exactly the bytes of the operations, in their order; after the
    last flush everything is sent. *)
Theorem stream_delivers (Hsize : 0 < size) ops s :
  Forall (op_fits size) ops ->
  let st := foldl (run_op size) (MkStream [] s) ops in
  Z.of_nat (length (st_buffer st)) <= size /\
  output (st_socket st) ++ st_buffer st = output s ++ ops_bytes ops /\
  output (st_socket (flush st)) = output s ++ ops_bytes ops /\
  st_buffer (flush st) = [] /\ input (st_socket (flush st)) = input s.
Proof.
  intros Hf st. pose proof (run_ops_delivers size Hsize s ops [] _ Hf (delivered_start size Hsize s)) as Hd. fold st in Hd. cbn [app] in Hd.
  destruct (flush_delivers size Hsize s _ st Hd) as [(Ho & Hi & _) He]. rewrite He, app_nil_r in Ho.
  destruct Hd as (Ho' & _ & _ & Hl). done.
Qed.

(** [HttpHeadParser::parse] of a well-formed head gives its two tokens and, for
    every key of the table, the value of the last field with that key, wherever the
    calls of [read] cut the bytes; the bytes behind the head are still to be read. *)
Theorem parse_reads_head (Hsize : 0 < size) m p v fs fuel t r s rest :
  good_head m p v fs fuel -> input s = head_text m p v fs ++ rest ->
  exists c, parse size fuel t (reset (MkConn r s)) = Done (MkHead m p (foldl set_known t fs), c) /\
    pending c = rest /\ r_error (rdr c) = 0 /\ output (socket c) = output s.
Proof.
  intros [] Hi. destruct (parse_head size Hsize s m p v fs fuel t (reset (MkConn r s)) rest) as (c & E & Hp & He & Ho & _); try done.
  by exists c.
Qed.

Context {H : Type} (handler : HttpHandler H).

(** [handleRequest] of a well-formed request without a body: the handler gets the
    method, the path with its terminator and the connection, the response is exactly
    the bytes its [produce] writes, and the socket is closed when the handler wants
    it. *)
Theorem handleRequest_responds (Hsize : 0 < size) m p v fs rest n fuel h r s :
  good_head m p v fs fuel -> methodFromString m <> INVALID -> content_length (head_table fs) = Done 0 ->
  input s = head_text m p v fs ++ rest ->
  let '(ops, h') := produce handler (requested handler m p fs h) in
  Forall (op_fits size) ops -> connectionClosed handler h' = true ->
  exists s', handleRequest size handler (Datatypes.S n) fuel h (MkConn r s) = Done (h', s') /\
    output s' = output s ++ ops_bytes ops /\ is_closed s' = true.
Proof.
  intros Hg Hm Hl Hi. pose proof (handleRequest_turn size Hsize handler m p v fs rest n fuel h r s Hg Hm Hl Hi) as Ht.
  destruct (produce handler _) as [ops h']. intros Hf Hc. destruct (Ht Hf) as (r' & s' & E & Ho & _).
  rewrite Hc in E. exists (sk_close s'). destruct (close_keeps s') as [Hcl Ho']. rewrite E, Ho'. done.
Qed.

(** C38: [handleRequest] refuses a head that the input cuts off anywhere, and a head
    whose method is none of the known ones: exactly the 400 response is sent, the
    socket is closed, and the handler is not touched. *)
Theorem handleRequest_rejects (Hsize : 0 < size) n fuel h r s :
  (script s = [] /\ cut_head (input s) fuel) \/
  (exists m p v fs rest, good_head m p v fs fuel /\ methodFromString m = INVALID /\ input s = head_text m p v fs ++ rest) ->
  exists s', handleRequest size handler (Datatypes.S n) fuel h (MkConn r s) = Done (h, s') /\
    output s' = output s ++ onBadRequest /\ is_closed s' = true.
Proof.
  intros [[Hq Hc]|(m & p & v & fs & rest & Hg & Hm & Hi)].
  - by eapply handleRequest_cut.
  - by eapply handleRequest_method.
Qed.
End Claims.

Section ClientClaims.
Context {S : Type} {sock : SocketOps S} {laws : SocketLaws S} (size : Z).
Context {H : Type} (client_consume : list Z -> H -> bool * H) (eat : list Z -> H -> H).
Variable connect : S -> bool * S.
Variable host : str.

(** The bytes of a request. *)
Definition request_text (m : HttpMethodType) (path : str) (con : HttpConnectionType) : outcome (list Z) :=
  bind_out (client_produce host m path con) (fun ops => Done (ops_bytes ops)).

(** The socket that a request uses. *)
Definition request_socket (cl : @client S H) : bool * S :=
  if connected cl then (true, socket (cl_conn cl)) else connect (socket (cl_conn cl)).

(** [HttpClient::request] over a connection that it has or makes: exactly the
    request is sent; of a response with the status 200 and a length the handler gets
    exactly that many bytes, wherever [read] cuts them; the result is 0 exactly when
    the whole body has arrived; otherwise, or when the response or the caller says
    so, the connection is closed. *)
Theorem request_downloads (Hsize : 0 < size) m path (isLast : bool) cl s bytes v p reason fs data n fuel :
  (forall bs h, client_consume bs h = (true, eat bs h)) -> (forall a b h, eat (a ++ b) h = eat b (eat a h)) -> (forall h, eat [] h = h) ->
  let con := if isLast then CLOSE else KEEP_ALIVE in
  request_socket cl = (true, s) -> script s = [] -> request_text m path con = Done bytes ->
  good_head v p reason fs fuel -> atoi (cstr p) = Done 200 -> content_length (head_table fs) = Done n -> 0 < n ->
  input s = head_text v p reason fs ++ data -> (length data < fuel)%nat ->
  let complete := n <=? Z.of_nat (length data) in
  let con' := match get_field (head_table fs) CONNECTION with [] => con | w => connFromString w end in
  exists cl', request size client_consume connect host fuel m path isLast cl = Done (if complete then 0 else 1, cl') /\
    output (socket (cl_conn cl')) = output s ++ bytes /\ cl_handler cl' = eat (take (Z.to_nat n) data) (cl_handler cl) /\
    connected cl' = match con' with KEEP_ALIVE => complete | CLOSE => false end /\ (connected cl' = false -> is_closed (socket (cl_conn cl')) = true).
Proof.
  intros Heat Happ Hnil con Hs Hq Hb Hg Hst Hcl Hn Hi Hf. unfold request. fold con. fold (request_socket cl). rewrite Hs. cbn [negb].
  unfold request_text in Hb. destruct (client_produce host m path con) as [ops| | |] eqn:Ep; cbn [bind_out] in Hb |- *; try discriminate. injection Hb as <-.
  destruct (client_produce_flushed size host m path con ops Ep) as (ops' & -> & Hfit).
  destruct (flushed_delivers size Hsize s ops') as (Ho & Hin & _ & Hsc); [done|]. rewrite Hq in Hsc.
  rewrite foldl_app. cbn [foldl run_op]. rewrite Hi in Hin.
  destruct (receive_ok size Hsize client_consume eat Heat Happ Hnil v p reason fs data n con fuel (cl_handler cl) (rdr (cl_conn cl)) _ (or_introl Hsc) Hg Hst Hcl Hn Hin Hf)
    as (cl' & E & Hh & Ho' & Hc & Hcc & _).
  exists cl'. split; [exact E|]. split; [rewrite Ho', Ho; by rewrite ops_bytes_flush|]. split; done.
Qed.

(** The head that [renderFile] writes before a file of [n] bytes. *)
Definition file_fields (n : Z) : list (str * str) := [(CONNECTION, c_str "close"); (CONTENT_LENGTH, decimal n)].

Lemma renderFile_text strerror open b name n chunks : open name = IsFile n chunks ->
  ops_bytes (renderFile strerror open (b :: name)).1 =
  head_text (c_str "HTTP/1.1") (c_str "200") (c_str "OK") (file_fields n) ++ chunk_bytes chunks.
Proof.
  intros E. unfold renderFile. rewrite E. unfold ops_bytes, head_text, fields_text, file_fields, line_text, field_line.
  cbn [fst]. rewrite !fmap_cons, !fmap_nil. cbn [concat fst snd op_bytes]. by rewrite !app_nil_r, <- !app_assoc.
Qed.

Lemma get_insert (t : gmap str str) k v : get_field (<[k := v]> t) k = v.
Proof. exact (f_equal (default []) (lookup_insert_eq t k v)). Qed.
Lemma get_insert_ne (t : gmap str str) k k' v : k' <> k -> get_field (<[k' := v]> t) k = get_field t k.
Proof. intros Hne. exact (f_equal (default []) (lookup_insert_ne t k' k v Hne)). Qed.

Lemma file_fields_table n :
  head_table (file_fields n) = <[CONTENT_LENGTH := decimal n]> (<[CONNECTION := c_str "close"]> empty_table).
Proof.
  assert (forall t k v w, t !! k = Some w -> set_known t (k, v) = <[k := v]> t) as Hset by (intros t k v w E; unfold set_known; simpl; by rewrite E).
  unfold head_table, file_fields. cbn [foldl]. rewrite (Hset _ _ _ []) by done. by rewrite (Hset _ _ _ []).
Qed.

Lemma file_fields_length n : 0 < n < 2 ^ 63 -> content_length (head_table (file_fields n)) = Done n.
Proof.
  intros Hn. destruct (decimal_spec n Hn) as (_ & Hne & _ & Ha). unfold content_length.
  assert (get_field (head_table (file_fields n)) CONTENT_LENGTH = decimal n) as ->.
  { by rewrite file_fields_table, get_insert. }
  destruct (decimal n) as [|c ds]; [done|]. rewrite Ha. cbn [bind_out]. rewrite u64_id by lia. done.
Qed.

Lemma good_file_head n fuel : 0 < n < 2 ^ 63 -> (100 < fuel)%nat ->
  good_head (c_str "HTTP/1.1") (c_str "200") (c_str "OK") (file_fields n) fuel.
Proof.
  intros Hn Hf. destruct (decimal_spec n Hn) as (Hd & Hne & Hl & _).
  assert (line_ok (CONTENT_LENGTH ++ [58; 32] ++ decimal n)) as Hline.
  { split; rewrite app_assoc; apply Forall_app; (split; [apply (bool_decide_unpack _); by vm_compute | eapply Forall_impl; [exact Hd|]; unfold digit; intros; lia]). }
  assert (hd_error (decimal n) <> Some 32) as Hh.
  { destruct Hd as [|c ds Hc _]; [done|]. unfold digit in Hc. intros [= ->]. lia. }
  split.
  - split; [done|]. by apply (bool_decide_unpack _).
  - split; [done|]. by apply (bool_decide_unpack _).
  - split; by apply (bool_decide_unpack _).
  - apply Forall_cons. split; [|apply Forall_singleton].
    + split; [split; by apply (bool_decide_unpack _)|]. split; [done|]. split; [by apply (bool_decide_unpack _)|]. split; [simpl; lia | done].
    + split; [exact Hline|]. split; [done|]. split; [by apply (bool_decide_unpack _)|]. split; [simpl; lia | done].
  - split; [simpl; lia|]. split; [simpl; lia|]. constructor; [simpl; lia|]. constructor; [|done].
    unfold field_line. cbn [fst snd]. rewrite !length_app. simpl. lia.
Qed.
End ClientClaims.

Section FileClaim.
Context {S : Type} {sock : SocketOps S} {laws : SocketLaws S} (size : Z).
Context {H : Type} (client_consume : list Z -> H -> bool * H) (eat : list Z -> H -> H).

(** A client that receives what [renderFile] writes for a file gets exactly the
    bytes of the file, succeeds, and closes the connection as the head says: the
    length that the server prints and the one that the client reads are the same. *)
Theorem renderFile_roundtrip (Hsize : 0 < size) strerror open name n chunks con fuel h r s b :
  (forall bs h, client_consume bs h = (true, eat bs h)) -> (forall a b h, eat (a ++ b) h = eat b (eat a h)) -> (forall h, eat [] h = h) ->
  open name = IsFile n chunks -> n = Z.of_nat (length (chunk_bytes chunks)) -> 0 < n < 2 ^ 63 ->
  script s = [] -> input s = ops_bytes (renderFile strerror open (b :: name)).1 -> (100 + length (chunk_bytes chunks) < fuel)%nat ->
  exists cl, receive size client_consume fuel con h (MkConn r s) = Done (0, cl) /\
    cl_handler cl = eat (chunk_bytes chunks) h /\ connected cl = false /\ is_closed (socket (cl_conn cl)) = true.
Proof.
  intros Heat Happ Hnil Ho Hn Hr Hq Hi Hf. rewrite (renderFile_text _ _ _ _ _ _ Ho) in Hi.
  destruct (receive_ok size Hsize client_consume eat Heat Happ Hnil _ _ _ (file_fields n) _ n con fuel h r s (or_introl Hq)
    (good_file_head n fuel Hr ltac:(lia)) eq_refl (file_fields_length n Hr) ltac:(lia) Hi ltac:(lia)) as (cl & E & Hh & _ & Hc & Hcc & _).
  rewrite (proj2 (Z.leb_le _ _)) in E, Hc by lia. rewrite take_ge in Hh by lia. exists cl. split; [done|]. split; [done|].
  assert (get_field (head_table (file_fields n)) CONNECTION = c_str "close") as Hconn.
  { by rewrite file_fields_table, get_insert_ne, get_insert. }
  rewrite Hconn in Hc. split; [exact Hc|]. by apply Hcc.
Qed.
End FileClaim.

(** ** Runs over a socket that delivers pieces *)

Definition demo_fields : list (str * str) := [(c_str "Host", c_str "example.org"); (CONNECTION, c_str "close")].
Definition demo_wire (text : list Z) : wire := MkWire [take 5 text; []; take 1 (drop 5 text); drop 6 text] [] false.

Lemma demo_head m p v : token m -> token p -> line_ok (first_line m p v) -> (length (first_line m p v) < 90)%nat ->
  good_head m p v demo_fields 100.
Proof.
  intros Hm Hp Hl Hf. split; [done|done|done| |].
  - apply Forall_cons. split; [|apply Forall_singleton];
      (split; [split; by apply (bool_decide_unpack _)|]; split; [done|]; split; [by apply (bool_decide_unpack _)|]; split; [simpl; lia | done]).
  - split; [lia|]. split; [simpl; lia|]. apply Forall_cons. split; [simpl; lia|]. apply Forall_singleton. simpl. lia.
Qed.

Ltac check_token := split; [done | by apply (bool_decide_unpack _)].
Ltac check_line := split; by apply (bool_decide_unpack _).

(** A handler that answers every request with the page for an unknown path. *)
Definition demo_handler : HttpHandler nat :=
  MkHandler (fun _ _ _ n => Datatypes.S n) (fun _ n => (false, n)) (fun n => (render404.1, n)) (fun _ => true).

Definition demo_request : list Z := head_text (c_str "GET") (c_str "/index.html") (c_str "HTTP/1.1") demo_fields.

Lemma demo_request_head : good_head (c_str "GET") (c_str "/index.html") (c_str "HTTP/1.1") demo_fields 100.
Proof. apply demo_head; [check_token | check_token | check_line | simpl; lia]. Qed.

Lemma xwrite_writes_prefix_witness :
  exists r k w', xwrite wire_write 11 0 (c_str "hello world") (MkWire [] [] false) = Some (r, w') /\ (k <= 11)%nat /\ sent w' = [] ++ take k (c_str "hello world") /\
    (r = Z.of_nat k \/ (k = 0%nat /\ r <= 0)) /\ ((k < 11)%nat -> exists w0, (wire_write (drop k (c_str "hello world")) w0).1 <= 0).
Proof. exact (xwrite_writes_prefix wire_write sent (c_str "hello world") (MkWire [] [] false) wire_write_law). Defined.

Definition demo_ops : list stream_op := [SWrite (c_str "abc"); SWrite (c_str "a long text"); SForward [c_str "file"]; SWrite (c_str "end")].
Lemma stream_delivers_witness : Forall (op_fits 8) demo_ops /\
  sent (st_socket (flush (foldl (run_op 8) (MkStream [] (demo_wire [])) demo_ops))) = c_str "abca long textfileend".
Proof.
  assert (Forall (op_fits 8) demo_ops) as Hf by (do 2 (constructor; [done|]); constructor; [apply Forall_singleton; simpl; lia|]; by constructor).
  split; [exact Hf|]. exact (proj1 (proj2 (proj2 (stream_delivers 8 ltac:(lia) demo_ops (demo_wire []) Hf)))).
Defined.

Lemma parse_reads_head_witness : exists c,
  parse 16 100 empty_table (reset (MkConn (MkReader [] 0 0) (demo_wire (demo_request ++ c_str "rest")))) =
    Done (MkHead (c_str "GET") (c_str "/index.html") (foldl set_known empty_table demo_fields), c) /\ pending c = c_str "rest" /\
  r_error (rdr c) = 0 /\ sent (socket c) = [].
Proof.
  exact (parse_reads_head 16 ltac:(lia) (c_str "GET") (c_str "/index.html") (c_str "HTTP/1.1") demo_fields 100 empty_table (MkReader [] 0 0)
    (demo_wire (demo_request ++ c_str "rest")) (c_str "rest") demo_request_head eq_refl).
Defined.

Lemma handleRequest_responds_witness : exists s',
  handleRequest 16 demo_handler 1 100 0%nat (MkConn (MkReader [] 0 0) (demo_wire demo_request)) = Done (1%nat, s') /\
  sent s' = ops_bytes render404.1 /\ shut s' = true.
Proof.
  assert (Forall (op_fits 16) render404.1) as Hf by (apply Forall_singleton; done).
  exact (handleRequest_responds 16 demo_handler ltac:(lia) (c_str "GET") (c_str "/index.html") (c_str "HTTP/1.1") demo_fields []
    0 100 0%nat (MkReader [] 0 0) (demo_wire demo_request) demo_request_head ltac:(discriminate) eq_refl eq_refl Hf eq_refl).
Defined.

Lemma handleRequest_rejects_witness : exists s',
  handleRequest 16 demo_handler 1 100 7%nat (MkConn (MkReader [] 0 0) (demo_wire (c_str "GET /index"))) = Done (7%nat, s') /\
  sent s' = onBadRequest /\ shut s' = true.
Proof.
  assert (cut_head (c_str "GET /index") 100) as Hc by (apply cut_first; [split; by apply (bool_decide_unpack _) | simpl; lia]).
  exact (handleRequest_rejects 16 demo_handler ltac:(lia) 0 100 7%nat (MkReader [] 0 0) (demo_wire (c_str "GET /index")) (or_introl (conj eq_refl Hc))).
Defined.

Definition collect (bs : list Z) (h : list Z) : bool * list Z := (true, h ++ bs).
Definition demo_answer : list (str * str) := [(CONTENT_LENGTH, c_str "5"); (CONNECTION, c_str "keep-alive")].

Lemma demo_answer_head : good_head (c_str "HTTP/1.1") (c_str "200") (c_str "OK") demo_answer 100.
Proof.
  split; [check_token | check_token | check_line | |].
  - apply Forall_cons. split; [|apply Forall_singleton];
      (split; [split; by apply (bool_decide_unpack _)|]; split; [done|]; split; [by apply (bool_decide_unpack _)|]; split; [simpl; lia | done]).
  - split; [simpl; lia|]. split; [simpl; lia|]. apply Forall_cons. split; [simpl; lia|]. apply Forall_singleton. simpl. lia.
Qed.

Lemma request_downloads_witness : exists cl bytes,
  let answer := head_text (c_str "HTTP/1.1") (c_str "200") (c_str "OK") demo_answer ++ c_str "hello" in
  request 16 collect (fun w => (true, w)) (c_str "example.org") 100 GET (c_str "/f" ++ [0]) false
    (MkClient false (MkConn (MkReader [] 0 0) (demo_wire answer)) []) = Done (0, cl) /\
  cl_handler cl = c_str "hello" /\ connected cl = true /\ sent (socket (cl_conn cl)) = bytes /\ take 16 bytes = c_str "GET /f HTTP/1.1" ++ [13].
Proof.
  destruct (request_downloads 16 collect (fun bs h => h ++ bs) (fun w => (true, w)) (c_str "example.org") ltac:(lia) GET (c_str "/f" ++ [0]) false
    (MkClient false (MkConn (MkReader [] 0 0) (demo_wire (head_text (c_str "HTTP/1.1") (c_str "200") (c_str "OK") demo_answer ++ c_str "hello"))) [])
    (demo_wire (head_text (c_str "HTTP/1.1") (c_str "200") (c_str "OK") demo_answer ++ c_str "hello")) _
    (c_str "HTTP/1.1") (c_str "200") (c_str "OK") demo_answer (c_str "hello") 5 100
    ltac:(done) ltac:(intros a b h; apply app_assoc) ltac:(intros h; apply app_nil_r) eq_refl eq_refl eq_refl demo_answer_head eq_refl eq_refl ltac:(lia) eq_refl ltac:(simpl; lia))
    as (cl & E & Ho & Hh & Hc & _).
  exists cl. eexists. split; [exact E|]. split; [exact Hh|]. split; [exact Hc|]. split; [exact Ho|]. reflexivity.
Defined.

Lemma renderFile_roundtrip_witness : exists cl,
  receive 16 collect 200 CLOSE [] (MkConn (MkReader [] 0 0)
    (demo_wire (ops_bytes (renderFile (fun _ => []) (fun _ => IsFile 6 [c_str "abc"; c_str "def"]) (c_str "/f")).1))) = Done (0, cl) /\
  cl_handler cl = c_str "abcdef" /\ connected cl = false /\ shut (socket (cl_conn cl)) = true.
Proof.
  exact (renderFile_roundtrip 16 collect (fun bs h => h ++ bs) ltac:(lia) (fun _ => []) (fun _ => IsFile 6 [c_str "abc"; c_str "def"])
    (c_str "f") 6 [c_str "abc"; c_str "def"] CLOSE 200 [] (MkReader [] 0 0)
    (demo_wire (ops_bytes (renderFile (fun _ => []) (fun _ => IsFile 6 [c_str "abc"; c_str "def"]) (c_str "/f")).1)) 47
    (fun _ _ => eq_refl) ltac:(intros a b h; apply app_assoc) ltac:(intros h; apply app_nil_r) eq_refl eq_refl ltac:(lia) eq_refl eq_refl ltac:(simpl; lia)).
Defined.

(** A body that arrives with the head stays in the buffer of the reader, and the
    handler gets nothing of it; a body that arrives after the head is consumed. *)
Definition upload_handler : HttpHandler (list Z) :=
  MkHandler (fun _ _ _ h => h) collect (fun h => (render404.1, h)) (fun _ => true).
Definition upload_head : list Z := head_text (c_str "POST") (c_str "/f") (c_str "HTTP/1.1") demo_answer.
Definition uploaded (pieces : list (list Z)) : outcome (list Z) :=
  bind_out (handleRequest 1024 upload_handler 1 100 [] (MkConn (MkReader [] 0 0) (MkWire pieces [] false))) (fun '(h, _) => Done h).

Lemma body_with_head_is_lost :
  uploaded [upload_head; c_str "hello"] = Done (c_str "hello") /\ uploaded [upload_head ++ c_str "hello"] = Done [].
Proof. by vm_compute. Qed.
