(* ===== verification/HttpSession.v ===== *)
(** * A kept connection: the loop of [handleRequest] over a sequence of requests

    The peer sends a request, waits for the response and sends the next one: the
    messages of the socket's script are the heads and the bodies of the requests.
    [session] says what a handler answers, request by request; the loop refines it. *)
From Stdlib Require Import ZArith Lia.
From stdpp Require Import base tactics list numbers strings gmap.
From S2P Require Import Prelude AptList AptListTheorems Apt Http HttpRead HttpServe HttpTheorems.
Open Scope Z_scope.

Record exchange : Type := MkExchange {
  x_method : str; x_path : str; x_version : str; x_fields : list (str * str); x_body : list Z }.

Definition x_head (x : exchange) : list Z := head_text (x_method x) (x_path x) (x_version x) (x_fields x).
(** A body is a message of its own. *)
Definition x_messages (x : exchange) : list (list Z) := x_head x :: match x_body x with [] => [] | b => [b] end.

Record good_exchange (x : exchange) (fuel : nat) : Prop := {
  gx_head : good_head (x_method x) (x_path x) (x_version x) (x_fields x) fuel;
  gx_method : methodFromString (x_method x) <> INVALID;
  gx_length : content_length (head_table (x_fields x)) = Done (Z.of_nat (length (x_body x)));
  gx_body : (length (x_body x) < fuel)%nat;
}.

Section Session.
Context {H : Type} (handler : HttpHandler H) (eat : list Z -> H -> H).

(** The handler after the request and its body. *)
Definition x_received (x : exchange) (h : H) : H := eat (x_body x) (requested handler (x_method x) (x_path x) (x_fields x) h).

(** The bytes that are sent and the state of the handler.  The loop ends when the
    handler closes the connection; a peer that closes it gets a last message. *)
Fixpoint session (xs : list exchange) (h : H) : list Z * H :=
  match xs with
  | [] => (onBadRequest, h)
  | x :: xs =>
      let '(ops, h) := produce handler (x_received x h) in
      if connectionClosed handler h then (ops_bytes ops, h)
      else let '(bs, h) := session xs h in (ops_bytes ops ++ bs, h)
  end.

(** Whatever the handler produces on the way fits the buffer of the stream. *)
Fixpoint session_fits (size : Z) (xs : list exchange) (h : H) : Prop :=
  match xs with
  | [] => True
  | x :: xs =>
      let '(ops, h) := produce handler (x_received x h) in
      Forall (op_fits size) ops /\ (connectionClosed handler h = false -> session_fits size xs h)
  end.

Context {S : Type} {sock : SocketOps S} {laws : SocketLaws S} (size : Z) (Hsize : 0 < size).
Hypothesis eats : forall bs h, consume handler bs h = (true, eat bs h).
Hypothesis eat_app : forall a b h, eat (a ++ b) h = eat b (eat a h).
Hypothesis eat_nil : forall h, eat [] h = h.

(** The state of a connection whose messages so far have been read. *)
Definition awaits (ms : list (list Z)) (s : S) : Prop := input s = [] /\ script s = ms.

Lemma bind_same {A B} (c : cmd (@conn S) A) (k : A -> cmd (@conn S) B) s s' : c s = c s' -> (c ≫= k) s = (c ≫= k) s'.
Proof. intros E. unfold mbind, cmd_bind. by rewrite E. Qed.

(** The parser starts with a [read], which waits for the next message. *)
Lemma parse_next fuel t r s m ms : awaits (m :: ms) s ->
  exists s', parse size (Datatypes.S fuel) t (reset (MkConn r s)) = parse size (Datatypes.S fuel) t (reset (MkConn r s')) /\
    input s' = m /\ script s' = ms /\ output s' = output s /\ is_closed s' = is_closed s.
Proof.
  intros [Hi Hs]. destruct (read_next size s m ms Hi Hs) as (s' & E & H'). exists s'. split; [|done].
  assert (reader_fill size (reset (MkConn r s)) = reader_fill size (reset (MkConn r s'))) as Ef by (unfold reader_fill; cbn [reset socket]; by rewrite E).
  unfold parse, parse_with. apply bind_same. cbn [nextLine]. apply bind_same. unfold getch. cbn [reset rdr r_buffer r_offset length Nat.leb].
  by apply bind_same.
Qed.

Lemma doConsume_next fuel n h s m ms : 0 < n -> awaits (m :: ms) s ->
  exists s', doConsume size handler (Datatypes.S fuel) n h s = doConsume size handler (Datatypes.S fuel) n h s' /\
    input s' = m /\ script s' = ms /\ output s' = output s /\ is_closed s' = is_closed s.
Proof.
  intros Hn [Hi Hs]. destruct (read_next (Z.min n size) s m ms Hi Hs) as (s' & E & H'). exists s'. split; [|done].
  cbn [doConsume]. by rewrite (proj2 (Z.gtb_lt n 0)), E.
Qed.

(** The body of a request, whether there is one or not. *)
Lemma doConsume_body x fuel h s ms : good_exchange x fuel ->
  awaits (match x_body x with [] => ms | b => b :: ms end) s ->
  exists s', doConsume size handler fuel (Z.of_nat (length (x_body x))) h s = Done (eat (x_body x) h, s') /\
    awaits ms s' /\ output s' = output s /\ is_closed s' = is_closed s.
Proof.
  intros [_ _ _ Hb] Ha. destruct (x_body x) as [|b0 body] eqn:Eb.
  - exists s. rewrite eat_nil. by destruct fuel.
  - rewrite <- Eb in *. destruct fuel as [|fuel]; [lia|].
    destruct (doConsume_next fuel (Z.of_nat (length (x_body x))) h s _ _ ltac:(rewrite Eb; simpl; lia) Ha) as (s1 & E & Hi & Hs & Ho & Hc).
    destruct (doConsume_spec size Hsize (consume handler) eat eats eat_app eat_nil handler (Datatypes.S fuel) (Z.of_nat (length (x_body x))) h s1) as (s2 & E2 & (Ho2 & Hc2 & Hs2) & Hi2);
      [done|lia|by rewrite Hi|right; rewrite Hi; lia|].
    exists s2. rewrite E, E2, Hi, Nat2Z.id, firstn_all. split; [done|]. split; [|split; congruence].
    split; [by rewrite Hi2, Hi, Nat2Z.id, drop_all | congruence].
Qed.

(** One exchange. *)
Lemma handleRequest_exchange x n fuel h r s ms : good_exchange x fuel -> awaits (x_messages x ++ ms) s ->
  let '(ops, h') := produce handler (x_received x h) in Forall (op_fits size) ops ->
  exists r' s', handleRequest size handler (Datatypes.S n) fuel h (MkConn r s) =
      (if connectionClosed handler h' then Done (h', sk_close s') else handleRequest size handler n fuel h' (MkConn r' s')) /\
    awaits ms s' /\ output s' = output s ++ ops_bytes ops /\ is_closed s' = is_closed s.
Proof.
  intros Hx Ha. pose proof Hx as [[Ht Htp Hli Hfs Hfu] Hm Hl Hb]. destruct fuel as [|fuel]; [destruct Hfu; lia|].
  destruct (parse_next fuel empty_table r s _ _ Ha) as (s1 & E1 & Hi1 & Hs1 & Ho1 & Hc1).
  destruct (parse_head size Hsize s1 (x_method x) (x_path x) (x_version x) (x_fields x) (Datatypes.S fuel) empty_table (reset (MkConn r s1)) [])
    as (c' & E & Hp & He & Ho & Hcl & Hsc); try done.
  { unfold pending. cbn. by rewrite Hi1, app_nil_r. }
  apply app_nil in Hp as [_ Hp].
  destruct (doConsume_body x (Datatypes.S fuel) (requested handler (x_method x) (x_path x) (x_fields x) h) (socket c') ms Hx) as (s2 & E2 & Ha2 & Ho2 & Hc2).
  { split; [done|]. rewrite Hsc, Hs1. by destruct (x_body x). }
  pose proof (handleRequest_step size Hsize handler (x_method x) (x_path x) (x_fields x) n (Datatypes.S fuel) h (MkConn r s) c' _ _ _
    Ht Htp Hm Hl ltac:(rewrite E1; exact E) He E2) as Hst. fold (x_received x h) in Hst.
  destruct (produce handler _) as [ops h']. intros Hf. destruct (Hst Hf) as (r' & s' & E' & Ho' & Hi' & Hc' & Hs').
  exists r', s'. split; [done|]. destruct Ha2 as [Hi2 Hs2]. split; [split; congruence|]. split; congruence.
Qed.

(** The end of the input. *)
Lemma handleRequest_eof n fuel h r s : (0 < fuel)%nat -> awaits [] s ->
  exists s', handleRequest size handler (Datatypes.S n) fuel h (MkConn r s) = Done (h, s') /\ output s' = output s ++ onBadRequest /\ is_closed s' = true.
Proof. intros Hf [Hi Hs]. apply (handleRequest_cut size Hsize handler [] n fuel h r s Hs); [apply cut_first; [by split; constructor | done] | done]. Qed.

Lemma handleRequest_refines xs : forall n fuel h r s,
  Forall (fun x => good_exchange x fuel) xs -> (0 < fuel)%nat -> session_fits size xs h -> (length xs < n)%nat ->
  awaits (concat (x_messages <$> xs)) s ->
  let '(bs, h') := session xs h in
  exists s', handleRequest size handler n fuel h (MkConn r s) = Done (h', s') /\ output s' = output s ++ bs /\ is_closed s' = true.
Proof.
  induction xs as [|x xs IH]; intros n fuel h r s Hx Hf Hfit Hn Ha; (destruct n as [|n]; [simpl in Hn; lia|]); cbn [session session_fits] in *.
  - by apply handleRequest_eof.
  - apply Forall_cons in Hx as [Hx Hxs]. rewrite fmap_cons in Ha. cbn [concat] in Ha.
    pose proof (handleRequest_exchange x n fuel h r s _ Hx Ha) as Hst.
    destruct (produce handler (x_received x h)) as [ops h1]. destruct Hfit as [Hops Hfit]. destruct (Hst Hops) as (r' & s' & E & Ha' & Ho & Hc).
    destruct (connectionClosed handler h1).
    + destruct (close_keeps s') as [Hk Hok]. exists (sk_close s'). rewrite E, Hok. done.
    + pose proof (IH n fuel h1 r' s' Hxs Hf (Hfit eq_refl) ltac:(simpl in Hn; lia) Ha') as Hrec.
      destruct (session xs h1) as [bs h2]. destruct Hrec as (s2 & E2 & Ho2 & Hc2). exists s2. rewrite E, E2, Ho2, Ho, app_assoc. done.
Qed.
End Session.

(** ** A peer that follows a script *)

Record talk : Type := MkTalk { now : list Z; later : list (list Z); answers : list Z; hung_up : bool }.

(** The next message, and at most seven bytes of it. *)
Fixpoint next_message (m : list Z) (ms : list (list Z)) : list Z * list (list Z) :=
  match m, ms with
  | [], m :: ms => next_message m ms
  | _, _ => (m, ms)
  end.
Lemma next_message_now b m ms : next_message (b :: m) ms = (b :: m, ms).
Proof. by destruct ms. Qed.
Definition talk_read (n : Z) (t : talk) : option (list Z) * talk :=
  let '(m, ms) := next_message (now t) (later t) in
  let k := Z.to_nat (Z.min n 7) in
  (Some (take k m), MkTalk (drop k m) ms (answers t) (hung_up t)).
#[export] Instance talk_socket : SocketOps talk := {
  sk_read := talk_read;
  sk_write bs t := (Z.of_nat (length bs), MkTalk (now t) (later t) (answers t ++ bs) (hung_up t));
  sk_error _ := 0;
  sk_close t := MkTalk (now t) (later t) (answers t) true;
}.

#[export] Program Instance talk_laws : SocketLaws talk := { input := now; script := later; output := answers; is_closed := hung_up }.
Next Obligation.
  intros n [m ms o c] Hn Hi. cbn in *. unfold talk_read. destruct m as [|b m]; [done|]. cbn [now later]. rewrite next_message_now.
  destruct (Z.to_nat (Z.min n 7)) as [|k] eqn:Ek; [lia|]. do 2 eexists. split; [reflexivity|]. split; [done|].
  rewrite length_take. split; [lia|]. cbn [now]. by rewrite take_drop.
Qed.
Next Obligation. intros n [m ms o c] m' ms' Hi Hs. cbn in *. subst. by exists (MkTalk m' ms' o c). Qed.
Next Obligation. intros n [m ms o c] Hi Hs. cbn in *. subst. unfold talk_read. cbn. rewrite take_nil. eexists. split; [done|]. cbn. by rewrite drop_nil. Qed.
Next Obligation. intros bs t. by eexists. Qed.
Next Obligation. done. Qed.

(** ** The claim *)


(** Two requests, the second one with a body that the handler sends back. *)
Definition echo : HttpHandler (nat * list Z) :=
  MkHandler (fun _ _ _ h => (Datatypes.S h.1, [])) (fun bs h => (true, (h.1, h.2 ++ bs)))
    (fun h => ([SWrite (c_str "got "); SWrite h.2], h)) (fun h => (2 <=? h.1)%nat).
Definition echo_eat (bs : list Z) (h : nat * list Z) : nat * list Z := (h.1, h.2 ++ bs).
Definition demo_session : list exchange :=
  [MkExchange (c_str "GET") (c_str "/a") (c_str "HTTP/1.1") demo_fields [];
   MkExchange (c_str "POST") (c_str "/b") (c_str "HTTP/1.1") demo_answer (c_str "hello")].

Lemma demo_session_good : Forall (fun x => good_exchange x 100) demo_session.
Proof.
  assert (good_head (c_str "POST") (c_str "/b") (c_str "HTTP/1.1") demo_answer 100) as Hp.
  { destruct demo_answer_head as [_ _ _ Hf Hl]. split; [check_token | check_token | check_line | done|]. destruct Hl as (_ & Hl). by split; [simpl; lia|]. }
  assert (good_head (c_str "GET") (c_str "/a") (c_str "HTTP/1.1") demo_fields 100) as Hg by (apply demo_head; [check_token | check_token | check_line | simpl; lia]).
  apply Forall_cons. split; [split; [exact Hg|discriminate|reflexivity|simpl; lia]|]. apply Forall_singleton.
  split; [exact Hp|discriminate|reflexivity|simpl; lia].
Qed.

