(* ===== verification/HttpKeep.v ===== *)
(** * The client over a kept connection

    Several calls of [HttpClient::request] in a row.  The peer sends a response when it
    has the request; the client keeps the connection as long as neither side closes
    it, and makes it when there is none. *)
From Stdlib Require Import ZArith Lia.
From stdpp Require Import base tactics list numbers strings gmap.
From S2P Require Import Prelude AptList AptListTheorems Apt Http HttpRead HttpServe HttpTheorems HttpSession.
Open Scope Z_scope.

(** A request, its response with the status 200 and its body; [d_last] is the argument
    [isLast]. *)
Record transfer : Type := MkDownload {
  d_method : HttpMethodType; d_path : str; d_last : bool;
  d_version : str; d_reason : str; d_fields : list (str * str); d_body : list Z }.
Definition d_con (d : transfer) : HttpConnectionType := if d_last d then CLOSE else KEEP_ALIVE.
Definition d_response (d : transfer) : list Z := head_text (d_version d) (c_str "200") (d_reason d) (d_fields d) ++ d_body d.
(** Whether the connection is kept: what the response says, or else the request. *)
Definition d_kept (d : transfer) : bool :=
  match match get_field (head_table (d_fields d)) CONNECTION with [] => d_con d | w => connFromString w end with
  | KEEP_ALIVE => true | CLOSE => false
  end.

Record good_download (d : transfer) (fuel : nat) : Prop := {
  gd_method : d_method d <> INVALID;
  gd_path : last (d_path d) = Some 0;
  gd_head : good_head (d_version d) (c_str "200") (d_reason d) (d_fields d) fuel;
  gd_length : content_length (head_table (d_fields d)) = Done (Z.of_nat (length (d_body d)));
  gd_body : (0 < length (d_body d) < fuel)%nat;
}.

Section Keep.
Context {S : Type} {sock : SocketOps S} {laws : SocketLaws S} (size : Z) (Hsize : 0 < size).
Context {H : Type} (client_consume : list Z -> H -> bool * H) (eat : list Z -> H -> H).
Hypothesis eats : forall bs h, client_consume bs h = (true, eat bs h).
Hypothesis eat_app : forall a b h, eat (a ++ b) h = eat b (eat a h).
Hypothesis eat_nil : forall h, eat [] h = h.
Variable connect : S -> bool * S.
Variable host : str.
Abbreviation client := (@client S H).
Abbreviation request_socket := (request_socket connect).

(** Requests in a row, with their results. *)
Fixpoint run_requests (fuel : nat) (ds : list transfer) (cl : client) : outcome (list Z * client) :=
  match ds with
  | [] => Done ([], cl)
  | d :: ds =>
      bind_out (request size client_consume connect host fuel (d_method d) (d_path d) (d_last d) cl) (fun '(r, cl) =>
      bind_out (run_requests fuel ds cl) (fun '(rs, cl) => Done (r :: rs, cl)))
  end.

(** The bytes of a request. *)
Definition d_request (d : transfer) : list Z :=
  match request_text host (d_method d) (d_path d) (d_con d) with Done bs => bs | _ => [] end.

Lemma good_request d fuel : good_download d fuel -> request_text host (d_method d) (d_path d) (d_con d) = Done (d_request d).
Proof.
  intros [Hm Hp _ _ _]. unfold d_request, request_text, client_produce. rewrite Hp. by destruct (d_method d).
Qed.

(** The client reads the response as soon as the peer has sent it. *)
Lemma receive_next fuel con h r s m ms : awaits (m :: ms) s ->
  exists s', receive size client_consume (Datatypes.S fuel) con h (MkConn r s) = receive size client_consume (Datatypes.S fuel) con h (MkConn r s') /\
    input s' = m /\ script s' = ms /\ output s' = output s /\ is_closed s' = is_closed s.
Proof.
  intros Ha. destruct (parse_next size fuel empty_table r s m ms Ha) as (s' & E & H'). exists s'. split; [|done]. unfold receive. by rewrite E.
Qed.

Definition closing (cl : client) : Prop := is_closed (socket (cl_conn cl)) = true.

(** One request. *)
Lemma request_next d fuel cl s ms : good_download d fuel -> request_socket cl = (true, s) -> awaits (d_response d :: ms) s ->
  exists cl', request size client_consume connect host fuel (d_method d) (d_path d) (d_last d) cl = Done (0, cl') /\
    output (socket (cl_conn cl')) = output s ++ d_request d /\ cl_handler cl' = eat (d_body d) (cl_handler cl) /\
    connected cl' = d_kept d /\ (d_kept d = true -> awaits ms (socket (cl_conn cl'))) /\ (d_kept d = false -> closing cl').
Proof.
  intros Hg Hs Ha. pose proof (good_request d fuel Hg) as Hr. pose proof Hg as [_ _ Hh Hl Hb]. destruct fuel as [|fuel]; [lia|].
  unfold request. fold (d_con d). fold (request_socket cl). rewrite Hs. cbn [negb]. unfold request_text in Hr.
  destruct (client_produce host (d_method d) (d_path d) (d_con d)) as [ops| | |] eqn:Ep; cbn [bind_out] in Hr |- *; try discriminate. injection Hr as Hr.
  destruct (client_produce_flushed size host _ _ _ ops Ep) as (ops' & -> & Hfit). rewrite ops_bytes_flush in Hr.
  destruct (flushed_delivers size Hsize s ops' Hfit) as (Ho & Hin & Hcl & Hsc). rewrite foldl_app. cbn [foldl run_op].
  set (s1 := st_socket _) in *. destruct Ha as [Hi Hsr].
  destruct (receive_next fuel (d_con d) (cl_handler cl) (rdr (cl_conn cl)) s1 (d_response d) ms) as (s2 & E & Hi2 & Hs2 & Ho2 & Hc2); [split; congruence|].
  destruct (receive_ok size Hsize client_consume eat eats eat_app eat_nil (d_version d) (c_str "200") (d_reason d) (d_fields d) (d_body d) (Z.of_nat (length (d_body d))) (d_con d)
    (Datatypes.S fuel) (cl_handler cl) (rdr (cl_conn cl)) s2) as (cl' & E' & Hh' & Ho' & Hk & Hclosed & Hkeep); try done; [by right|lia|lia|].
  rewrite Z.leb_refl in E', Hk. rewrite Nat2Z.id, firstn_all in Hh'. exists cl'. split; [by rewrite E|].
  assert (connected cl' = d_kept d) as Hkept by (unfold d_kept; rewrite Hk; by destruct (match get_field _ _ with [] => _ | _ => _ end)).
  split; [by rewrite Ho', Ho2, Ho, Hr|]. split; [done|]. split; [done|]. rewrite Hkept in *. split; intros Hkd.
  - destruct (Hkeep Hkd) as [Hs' Hi']. split; [by apply Hi'; lia | by rewrite Hs'].
  - by apply Hclosed.
Qed.

(** Every request but the last one leaves the connection open. *)
Fixpoint all_kept (ds : list transfer) : Prop :=
  match ds with [] => True | d :: ds => (ds <> [] -> d_kept d = true) /\ all_kept ds end.

Lemma run_requests_spec fuel ds : forall d cl s,
  Forall (fun d => good_download d fuel) (d :: ds) -> all_kept (d :: ds) -> request_socket cl = (true, s) -> awaits (d_response <$> d :: ds) s ->
  exists cl', run_requests fuel (d :: ds) cl = Done (replicate (length (d :: ds)) 0, cl') /\
    output (socket (cl_conn cl')) = output s ++ concat (d_request <$> d :: ds) /\
    cl_handler cl' = eat (concat (d_body <$> d :: ds)) (cl_handler cl) /\
    connected cl' = default true (d_kept <$> last (d :: ds)) /\ (connected cl' = false -> closing cl').
Proof.
  induction ds as [|d' ds IH]; intros d cl s Hg Hk Hs Ha; apply Forall_cons in Hg as [Hd Hg]; destruct Hk as [Hkd Hk].
  - destruct (request_next d fuel cl s [] Hd Hs Ha) as (cl' & E & Ho & Hh & Hc & _ & Hcl). exists cl'. cbn [run_requests]. rewrite E. cbn.
    rewrite !app_nil_r. split; [done|]. split; [done|]. split; [done|]. split; [done|]. rewrite Hc. exact Hcl.
  - destruct (request_next d fuel cl s _ Hd Hs Ha) as (cl1 & E & Ho & Hh & Hc & Haw & _). specialize (Hkd ltac:(done)).
    destruct (IH d' cl1 (socket (cl_conn cl1)) Hg Hk) as (cl' & E' & Ho' & Hh' & Hc' & Hcl').
    + unfold HttpTheorems.request_socket. by rewrite Hc, Hkd.
    + by apply Haw.
    + exists cl'. remember (d' :: ds) as l eqn:El. cbn [run_requests]. rewrite E. cbn [bind_out]. rewrite E'. cbn [bind_out]. split; [done|].
      rewrite !fmap_cons. cbn [concat]. split; [by rewrite Ho', Ho, app_assoc|]. split; [by rewrite Hh', Hh, eat_app|].
      split; [|done]. rewrite Hc'. by subst l.
Qed.
End Keep.

(** Requests in a row over one connection: when the peer answers each with a head,
    the status 200 and a body of the announced length, and only the last exchange may
    close the connection, every request returns 0, exactly the requests are sent in
    their order, the handler gets exactly the bodies in their order, however [read]
    cuts them, and the connection is kept or closed as the last response, or else the
    last request, says. *)
Theorem requests_session {H S} {sock : SocketOps S} {laws : SocketLaws S} size (client_consume : list Z -> H -> bool * H) eat connect host fuel d ds cl (s : S) :
  0 < size ->
  (forall bs h, client_consume bs h = (true, eat bs h)) -> (forall a b h, eat (a ++ b) h = eat b (eat a h)) -> (forall h, eat [] h = h) ->
  Forall (fun d => good_download d fuel) (d :: ds) -> all_kept (d :: ds) ->
  request_socket connect cl = (true, s) -> awaits (d_response <$> d :: ds) s ->
  exists cl', run_requests size client_consume connect host fuel (d :: ds) cl = Done (replicate (length (d :: ds)) 0, cl') /\
    output (socket (cl_conn cl')) = output s ++ concat (d_request host <$> d :: ds) /\
    cl_handler cl' = eat (concat (d_body <$> d :: ds)) (cl_handler cl) /\
    connected cl' = default true (d_kept <$> last (d :: ds)) /\ (connected cl' = false -> closing cl').
Proof. intros Hsize H1 H2 H3. by apply run_requests_spec. Qed.

(** Two requests over a socket that gives seven bytes at a time; the second one asks to
    close. *)
Definition demo_download (is_last : bool) : transfer :=
  MkDownload GET [47; 0] is_last (c_str "HTTP/1.1") (c_str "OK") [(CONTENT_LENGTH, c_str "5")] (c_str "hello").
Definition demo_connect (t : talk) : bool * talk := (true, t).
Definition demo_peer_talk : talk := MkTalk [] (d_response <$> [demo_download false; demo_download true]) [] false.

Lemma demo_download_good l : good_download (demo_download l) 100.
Proof.
  split; [discriminate | done | | by vm_compute | simpl; lia].
  destruct demo_answer_head as [_ _ _ Hf (Hl & Hl2 & Hl3)]. apply Forall_cons in Hf as [Hf _]. apply Forall_cons in Hl3 as [Hl3 _].
  split; [check_token | check_token | check_line | by apply Forall_singleton|]. split; [done|]. split; [simpl; lia | by apply Forall_singleton].
Qed.

Lemma requests_session_witness : exists cl',
  run_requests 16 (fun bs h => (true, h ++ bs)) demo_connect (c_str "example.org") 100 [demo_download false; demo_download true]
    (MkClient false (MkConn (MkReader [] 0 0) demo_peer_talk) []) = Done ([0; 0], cl') /\
  cl_handler cl' = c_str "hellohello" /\ connected cl' = false /\ hung_up (socket (cl_conn cl')) = true.
Proof.
  destruct (requests_session 16 (fun bs h => (true, h ++ bs)) (fun bs h => h ++ bs) demo_connect (c_str "example.org") 100
    (demo_download false) [demo_download true] (MkClient false (MkConn (MkReader [] 0 0) demo_peer_talk) []) demo_peer_talk
    ltac:(lia) (fun _ _ => eq_refl) ltac:(intros a b h; apply app_assoc) ltac:(intros h; apply app_nil_r)
    ltac:(repeat (constructor; [apply demo_download_good|]); constructor) ltac:(split; [reflexivity | done]) eq_refl (conj eq_refl eq_refl))
    as (cl' & E & _ & Hh & Hc & Hcl).
  exists cl'. split; [exact E|]. split; [exact Hh|]. split; [exact Hc|]. apply Hcl. exact Hc.
Defined.
