(* ===== verification/HttpTogether.v ===== *)
(** * The client and the server together

    What [HttpClient::request] sends is a request that [handleRequest] accepts, and a
    client and a server at the two ends of a connection agree on every exchange. *)
From Stdlib Require Import ZArith Lia.
From stdpp Require Import base tactics list numbers strings gmap.
From S2P Require Import Prelude AptList AptListTheorems Apt Http HttpRead HttpServe HttpTheorems HttpSession HttpKeep.
Open Scope Z_scope.

(** ** The request that the client sends *)

Definition method_text (m : HttpMethodType) : str :=
  match m with GET => c_str "GET" | HEAD => c_str "HEAD" | POST => c_str "POST" | INVALID => [] end.
(** The value of the field [Connection]. *)
Definition con_text (c : HttpConnectionType) : str :=
  match c with CLOSE => c_str "close" | KEEP_ALIVE => c_str "keep-alive" end.
Definition client_fields (host : str) (c : HttpConnectionType) : list (str * str) :=
  [(c_str "Host", cstr host); (CONNECTION, con_text c); (c_str "User-Agent", c_str "curl/7.81.0"); (c_str "Accept", c_str "*/*")].
(** The path without its terminator. *)
Definition path_text (p : str) : str := take (length p - 1) p.
(** A transfer as the server sees it. *)
Definition exchange_of (host : str) (d : transfer) : exchange :=
  MkExchange (method_text (d_method d)) (path_text (d_path d)) (c_str "HTTP/1.1") (client_fields host (d_con d)) [].

(** A host name and a path that fit a head. *)
Record good_target (host : str) (d : transfer) (fuel : nat) : Prop := {
  gt_host : line_ok (cstr host);
  gt_host_start : hd_error (cstr host) <> Some 32;
  gt_path : token (path_text (d_path d));
  gt_line : line_ok (path_text (d_path d));
  gt_fuel : (100 + length (cstr host) + length (d_path d) < fuel)%nat;
}.

Lemma line_ok_app a b : line_ok a -> line_ok b -> line_ok (a ++ b).
Proof. intros [A1 A2] [B1 B2]. split; by apply Forall_app. Qed.

Lemma request_is_head host d fuel : good_download d fuel -> d_request host d = x_head (exchange_of host d).
Proof.
  intros [Hm Hp _ _ _]. unfold d_request, request_text, client_produce. rewrite Hp.
  unfold x_head, exchange_of, head_text, fields_text, client_fields, line_text, field_line, first_line, path_text, ops_bytes.
  cbn [x_method x_path x_version x_fields]. rewrite !fmap_cons, !fmap_nil.
  destruct (d_method d); try done; destruct (d_con d); cbn [method_name bind_out fmap list_fmap concat op_bytes fst snd method_text con_text];
    repeat rewrite ?app_nil_r, <-?app_assoc, <-?app_comm_cons; reflexivity.
Qed.

Lemma con_text_facts c :
  line_ok (con_text c) /\ hd_error (con_text c) <> Some 32 /\ (length (con_text c) <= 10)%nat /\ connFromString (con_text c) = c.
Proof. destruct c; (split; [check_line|]); (split; [done|]); (split; [simpl; lia|done]). Qed.

Lemma client_field_ok k v : line_ok k -> k <> [] -> Forall (fun c => c <> 58 /\ c <> 0) k -> (length k < 63)%nat ->
  line_ok v -> hd_error v <> Some 32 -> field_ok (k, v).
Proof.
  intros. split; [|done]. apply line_ok_app; [done|]. apply line_ok_app; [check_line|done].
Qed.

Lemma client_fields_ok host c : line_ok (cstr host) -> hd_error (cstr host) <> Some 32 -> Forall field_ok (client_fields host c).
Proof.
  intros Hh Hs. destruct (con_text_facts c) as (Hc & Hcs & _). unfold client_fields.
  repeat (apply Forall_cons; split); try apply Forall_nil_2; (apply client_field_ok;
    [check_line | done | by apply (bool_decide_unpack _) | simpl; lia | first [done|check_line] | done]).
Qed.

(** The server finds the fields it looks for: no length, and the connection. *)
Lemma client_fields_table host c :
  get_field (head_table (client_fields host c)) CONNECTION = con_text c /\
  content_length (head_table (client_fields host c)) = Done 0.
Proof.
  assert (head_table (client_fields host c) = <[CONNECTION := con_text c]> empty_table) as ->.
  { unfold head_table, client_fields. cbn [foldl].
    assert (set_known empty_table (c_str "Host", cstr host) = empty_table) as -> by done.
    assert (set_known empty_table (CONNECTION, con_text c) = <[CONNECTION := con_text c]> empty_table) as -> by done.
    by destruct c. }
  split; [by rewrite get_insert|]. by destruct c.
Qed.

Lemma exchange_good host d fuel : d_method d <> INVALID -> good_target host d fuel -> good_exchange (exchange_of host d) fuel.
Proof.
  intros Hm [Hh Hs Hp Hl Hf]. destruct (con_text_facts (d_con d)) as (_ & _ & Hc & _).
  assert (length (path_text (d_path d)) <= length (d_path d))%nat as Hlp by (unfold path_text; rewrite length_take; lia).
  assert (length (method_text (d_method d)) <= 4)%nat as Hlm by (destruct (d_method d); simpl; lia).
  split; cbn [exchange_of x_method x_path x_version x_fields x_body].
  - split; [destruct (d_method d); done || check_token | done | | by apply client_fields_ok |].
    + unfold first_line. apply line_ok_app; [destruct (d_method d); check_line|]. apply (line_ok_app [32]); [check_line|].
      apply line_ok_app; [done|]. apply (line_ok_app [32]); check_line.
    + split; [|split; [simpl; lia|]].
      * unfold first_line. rewrite length_app. simpl. rewrite length_app. simpl. lia.
      * unfold client_fields. repeat (apply Forall_cons; split); try apply Forall_nil_2;
          unfold field_line; cbn [fst snd]; rewrite !length_app; simpl; lia.
  - by destruct (d_method d).
  - apply client_fields_table.
  - simpl. lia.
Qed.

(** ** Both ends *)

Section Together.
Context {HS : Type} (handler : HttpHandler HS) (seat : list Z -> HS -> HS) (ssize : Z) (host : str).
Hypothesis seat_nil : forall h, seat [] h = h.

(** The handler of the server answers every request with the response of its transfer, and
    closes the connection with an exchange that the client does not keep. *)
Fixpoint serves (ds : list transfer) (h : HS) : Prop :=
  match ds with
  | [] => True
  | d :: ds =>
      let '(ops, h') := produce handler (x_received handler seat (exchange_of host d) h) in
      ops_bytes ops = d_response d /\ Forall (op_fits ssize) ops /\
      connectionClosed handler h' = negb (d_kept d) /\ serves ds h'
  end.

(** A conversation: only the last exchange closes the connection, and it does. *)
Definition conversation (ds : list transfer) : Prop := all_kept ds /\ exists d, last ds = Some d /\ d_kept d = false.

Lemma conversation_next d ds : ds <> [] -> conversation (d :: ds) -> d_kept d = true /\ conversation ds.
Proof.
  intros Hne [[Hd Hk] (d' & Hl & Hc)]. split; [by apply Hd|]. split; [done|]. exists d'. by destruct ds.
Qed.

Lemma serves_session ds : forall h, conversation ds -> serves ds h ->
  (session handler seat (exchange_of host <$> ds) h).1 = concat (d_response <$> ds) /\
  session_fits handler seat ssize (exchange_of host <$> ds) h.
Proof.
  induction ds as [|d ds IH]; intros h Hconv Hs; [destruct Hconv as [_ (d & Hl & _)]; discriminate|].
  rewrite !fmap_cons. cbn [session session_fits serves concat] in *.
  destruct (produce handler (x_received handler seat (exchange_of host d) h)) as [ops h1]. destruct Hs as (Hb & Hf & Hc & Hs).
  destruct (decide (ds = [])) as [->|Hne].
  - destruct Hconv as [_ (d' & [= ->] & Hk)]. rewrite Hc, Hk. cbn. by rewrite app_nil_r.
  - destruct (conversation_next _ _ Hne Hconv) as [Hk Hconv']. rewrite Hk in Hc. cbn [negb] in Hc. rewrite Hc.
    destruct (IH h1 Hconv' Hs) as [E Hfit]. destruct (session _ _ _ h1) as [bs h2]. cbn [fst] in *. by rewrite Hb, E.
Qed.

(** The messages that the server reads are the requests. *)
Lemma exchange_messages ds fuel : Forall (fun d => good_download d fuel) ds ->
  concat (x_messages <$> (exchange_of host <$> ds)) = d_request host <$> ds.
Proof.
  induction 1 as [|d ds Hd _ IH]; [done|]. rewrite !fmap_cons. cbn [concat]. rewrite IH, (request_is_head host d fuel Hd). done.
Qed.
End Together.

(** The client's end of a conversation. *)
Lemma run_conversation {H S : Type} {sock : SocketOps S} {laws : SocketLaws S} size (client_consume : list Z -> H -> bool * H) eat
    connect host fuel ds cl (s : S) :
  0 < size ->
  (forall bs h, client_consume bs h = (true, eat bs h)) -> (forall a b h, eat (a ++ b) h = eat b (eat a h)) -> (forall h, eat [] h = h) ->
  Forall (fun d => good_download d fuel) ds -> conversation ds -> request_socket connect cl = (true, s) -> awaits (d_response <$> ds) s ->
  exists cl', run_requests size client_consume connect host fuel ds cl = Done (replicate (length ds) 0, cl') /\
    output (socket (cl_conn cl')) = output s ++ concat (d_request host <$> ds) /\
    cl_handler cl' = eat (concat (d_body <$> ds)) (cl_handler cl) /\ connected cl' = false /\ closing cl'.
Proof.
  intros Hs C1 C2 C3 Hg [Hk (dl & Hl & Hc)] Hr Ha. destruct ds as [|d ds]; [done|].
  destruct (run_requests_spec size Hs client_consume eat C1 C2 C3 connect host fuel ds d cl s Hg Hk Hr Ha) as (cl' & E & Ho & Hh & Hcon & Hcl).
  rewrite Hl in Hcon. cbn in Hcon. rewrite Hc in Hcon. exists cl'. split; [exact E|]. split; [done|]. split; [done|]. split; [done|]. by apply Hcl.
Qed.

Lemma conversation_good host fuel ds : Forall (fun d => good_download d fuel /\ good_target host d fuel) ds ->
  Forall (fun d => good_download d fuel) ds /\ Forall (fun x => good_exchange x fuel) (exchange_of host <$> ds).
Proof.
  intros Hg. split; [by apply Forall_and in Hg as [? _]|]. apply Forall_fmap. eapply Forall_impl; [exact Hg|].
  intros x [[Hm _ _ _ _] Ht]. by apply exchange_good.
Qed.


(** ** A run *)

(** A server that sends the number of the request, and closes the connection when the
    client asks for it. *)
Definition numbered (n : nat) : list Z :=
  head_text (c_str "HTTP/1.1") (c_str "200") (c_str "OK") [(CONTENT_LENGTH, c_str "5")] ++ c_str "hell" ++ [48 + Z.of_nat n].
Definition numbering : HttpHandler (nat * HttpConnectionType) :=
  MkHandler (fun _ _ con h => (Datatypes.S h.1, con)) (fun _ h => (true, h)) (fun h => ([SWrite (numbered h.1)], h))
    (fun h => match h.2 with CLOSE => true | KEEP_ALIVE => false end).
Definition numbered_transfer (is_last : bool) (n : nat) : transfer :=
  MkDownload GET [47; 0] is_last (c_str "HTTP/1.1") (c_str "OK") [(CONTENT_LENGTH, c_str "5")] (c_str "hell" ++ [48 + Z.of_nat n]).
Definition demo_transfers : list transfer := [numbered_transfer false 1; numbered_transfer true 2].
Definition demo_host : str := c_str "example.org".

Lemma demo_transfers_good : Forall (fun d => good_download d 200 /\ good_target demo_host d 200) demo_transfers.
Proof.
  destruct (demo_download_good false) as [H1 H2 [G1 G2 G3 G4 (F1 & F2 & F3)] H4 H5].
  assert (forall l k, good_download (numbered_transfer l k) 200 /\ good_target demo_host (numbered_transfer l k) 200) as H.
  { intros l k. split.
    - split; [done|done| |by vm_compute|simpl; lia]. split; [done|done|done|done|].
      split; [simpl; lia|]. split; [simpl; lia|]. eapply Forall_impl; [exact F3|]. intros f Hf. simpl in Hf |- *. lia.
    - split; [check_line|done|check_token|check_line|simpl; lia]. }
  repeat (apply Forall_cons; split; [apply H|]). by apply Forall_nil_2.
Qed.

