(* ===== verification/HttpDaemon.v ===== *)
(** * The daemon: the queue between the listener and the workers

    [HttpDaemon::run] of [src/apt/libhttpd/httpd.cpp] as labelled steps.  A step is
    what a thread does between two points where it may be interrupted: the part of
    [masterRoutine] and of [workerRoutine] under the mutex is one step, because
    only the mutex and the condition variable order the accesses to the queue.  A
    signal wakes one of the waiting workers, any of them; a worker may also wake
    without one. *)
From Stdlib Require Import ZArith Lia.
From stdpp Require Import base tactics list numbers.
From S2P Require Import Prelude.
Open Scope Z_scope.

(** ** State *)

(** Before the lock, in [pthread_cond_wait], in [handleRequest], ended. *)
Inductive worker : Type := Checking | Waiting | Serving (fd : Z) | Exited.
#[export] Instance worker_eq_dec : EqDecision worker.
Proof. solve_decision. Defined.

(** The results of [accept] still to come; the numbers of the loops of [run]. *)
Inductive master_pc : Type := Accepting (results : list Z) | Stopping (k : nat) | Joining (i : nat) | Returned.

(** [taken] records which worker took which descriptor. *)
Record daemon : Type := MkDaemon {
  pendingRequests : list Z; workers : list worker; master : master_pc; taken : list (nat * Z) }.

Definition numWorkers : nat := 4.

Definition initialize (results : list Z) : daemon := MkDaemon [] (replicate numWorkers Checking) (Accepting results) [].

(** The start of a worker: the first place of its own thread id in the array [workers], as
    [pthread_create] has filled it so far. *)
Definition worker_tid (self : Z) (ids : list Z) : outcome nat :=
  match list_find (fun id => self = id) ids with Some (tid, _) => Done tid | None => AssertFail end.

(** Two workers do not share a reader or a socket, as their ids differ. *)
Lemma worker_tid_own ids i self : NoDup ids -> ids !! i = Some self -> worker_tid self ids = Done i.
Proof.
  intros Hd Hi. unfold worker_tid. assert (list_find (fun id => self = id) ids = Some (i, self)) as ->; [|done].
  apply list_find_Some. split; [done|]. split; [done|]. intros j y Hj Hji ->. rewrite NoDup_alt in Hd. specialize (Hd _ _ _ Hi Hj). lia.
Qed.

(** A worker that runs before [pthread_create] has stored its id stops the program. *)
Lemma worker_tid_too_early ids self : (self ∉ ids) -> worker_tid self ids = AssertFail.
Proof.
  intros Hn. unfold worker_tid. destruct (list_find (fun id => self = id) ids) as [[i y]|] eqn:E; [|done].
  apply list_find_Some in E as (Hi & -> & _). apply list_elem_of_lookup_2 in Hi. done.
Qed.

(** ** Steps *)

(** The worker that wakes, if there is one that waits. *)
Definition cond_signal (woken : option nat) (ws : list worker) : option (list worker) :=
  match woken with
  | None => if decide (Waiting ∈ ws) then None else Some ws
  | Some i => match ws !! i with Some Waiting => Some (<[i := Checking]> ws) | _ => None end
  end.

Definition push (fd : Z) (woken : option nat) (d : daemon) (m : master_pc) : option daemon :=
  match cond_signal woken (workers d) with
  | None => None
  | Some ws => Some (MkDaemon (pendingRequests d ++ [fd]) ws m (taken d))
  end.

Definition at_pc (d : daemon) (m : master_pc) : daemon := MkDaemon (pendingRequests d) (workers d) m (taken d).

Definition master_step (woken : option nat) (d : daemon) : option daemon :=
  match master d with
  | Accepting (fd :: results) => push fd woken d (Accepting results)
  | Accepting [] => Some (at_pc d (Stopping numWorkers))
  | Stopping (S k) => push (-1) woken d (Stopping k)
  | Stopping O => Some (at_pc d (Joining 0))
  | Joining i =>
      if (i <? numWorkers)%nat then
        match workers d !! i with Some Exited => Some (at_pc d (Joining (S i))) | _ => None end
      else Some (at_pc d Returned)
  | Returned => None
  end.

Definition set_worker (i : nat) (w : worker) (d : daemon) : daemon :=
  MkDaemon (pendingRequests d) (<[i := w]> (workers d)) (master d) (taken d).

Definition worker_step (i : nat) (d : daemon) : option daemon :=
  match workers d !! i with
  | Some Checking =>
      match pendingRequests d with
      | [] => Some (set_worker i Waiting d)
      | fd :: q => Some (MkDaemon q (<[i := if fd <? 0 then Exited else Serving fd]> (workers d)) (master d) (taken d ++ [(i, fd)]))
      end
  | Some (Serving _) => Some (set_worker i Checking d)
  | _ => None
  end.

Definition spurious_step (i : nat) (d : daemon) : option daemon :=
  match workers d !! i with Some Waiting => Some (set_worker i Checking d) | _ => None end.

Inductive label : Type := Master (woken : option nat) | Worker (i : nat) | Spurious (i : nat).
Definition step (l : label) (d : daemon) : option daemon :=
  match l with Master woken => master_step woken d | Worker i => worker_step i d | Spurious i => spurious_step i d end.
Definition is_spurious (l : label) : bool := match l with Spurious _ => true | _ => false end.

(** A sequence of steps. *)
Fixpoint exec (ls : list label) (d : daemon) : option daemon :=
  match ls with
  | [] => Some d
  | l :: ls => match step l d with Some d' => exec ls d' | None => None end
  end.
Definition reachable (results : list Z) (d : daemon) : Prop := exists ls, exec ls (initialize results) = Some d.
(** No thread can do a step. *)
Definition stuck (d : daemon) : Prop := forall l d', step l d = Some d' -> is_spurious l = true.

(** ** Counting workers *)

Fixpoint tally (f : worker -> nat) (ws : list worker) : nat := match ws with [] => 0 | w :: ws => f w + tally f ws end%nat.
Definition is_checking (w : worker) : nat := match w with Checking => 1 | _ => 0 end.
Definition is_waiting (w : worker) : nat := match w with Waiting => 1 | _ => 0 end.
Definition is_exited (w : worker) : nat := match w with Exited => 1 | _ => 0 end.

Lemma tally_insert f ws i w w' : ws !! i = Some w -> (tally f (<[i := w']> ws) + f w = tally f ws + f w')%nat.
Proof.
  revert i. induction ws as [|x ws IH]; intros [|i] E; [done|done| |]; simpl in *; [injection E as ->; lia|].
  specialize (IH i E). lia.
Qed.

Lemma tally_zero f ws i w : tally f ws = 0%nat -> ws !! i = Some w -> f w = 0%nat.
Proof. revert i. induction ws as [|x ws IH]; intros [|i] Hz E; simpl in *; [done|done| |]; [injection E as ->; lia|]. apply (IH i); [lia|done]. Qed.

Lemma tally_max ws : (tally is_exited ws <= length ws)%nat.
Proof. induction ws as [|[] ws IH]; simpl; lia. Qed.

Lemma tally_all ws i : (length ws <= tally is_exited ws)%nat -> (i < length ws)%nat -> ws !! i = Some Exited.
Proof.
  revert i. induction ws as [|w ws IH]; intros i H Hi; [simpl in Hi; lia|]. pose proof (tally_max ws).
  destruct w, i as [|i]; simpl in *; try lia; [done|]. apply IH; lia.
Qed.

Lemma no_waiting ws : Waiting ∉ ws -> tally is_waiting ws = 0%nat.
Proof. induction ws as [|w ws IH]; intros H; [done|]. apply not_elem_of_cons in H as [Hw H]. destruct w; simpl; [auto..|]; try done; auto. Qed.

Fixpoint negatives (q : list Z) : nat := match q with [] => 0 | fd :: q => (if (fd <? 0)%Z then 1 else 0) + negatives q end%nat.
Lemma negatives_app a b : negatives (a ++ b) = (negatives a + negatives b)%nat.
Proof. induction a as [|x a IH]; [done|]. simpl. rewrite IH. lia. Qed.
Lemma negatives_replicate n : negatives (replicate n (-1)) = n.
Proof. induction n as [|n IH]; simpl; lia. Qed.

(** ** The invariant *)

(** The descriptors that the master has still to push. *)
Definition to_come (m : master_pc) : list Z :=
  match m with
  | Accepting results => results ++ replicate numWorkers (-1)
  | Stopping k => replicate k (-1)
  | Joining _ | Returned => []
  end.
(** The workers that have been joined. *)
Definition joined (m : master_pc) : nat := match m with Joining i => i | Returned => numWorkers | _ => 0%nat end.

Record daemon_wf (results : list Z) (d : daemon) : Prop := {
  dw_workers : length (workers d) = numWorkers;
  dw_fifo : (taken d).*2 ++ pendingRequests d ++ to_come (master d) = results ++ replicate numWorkers (-1);
  dw_wake : tally is_waiting (workers d) = 0%nat \/ (length (pendingRequests d) <= tally is_checking (workers d))%nat;
  dw_exited : tally is_exited (workers d) = negatives (taken d).*2;
  dw_joined : forall i, (i < joined (master d))%nat -> workers d !! i = Some Exited;
}.

(** Changing the state of a worker. *)
Lemma set_counts ws i w w' : ws !! i = Some w ->
  length (<[i := w']> ws) = length ws /\
  (tally is_waiting (<[i := w']> ws) + is_waiting w = tally is_waiting ws + is_waiting w')%nat /\
  (tally is_checking (<[i := w']> ws) + is_checking w = tally is_checking ws + is_checking w')%nat /\
  (tally is_exited (<[i := w']> ws) + is_exited w = tally is_exited ws + is_exited w')%nat.
Proof. intros E. split; [apply length_insert|]. split; [by apply tally_insert|]. split; by apply tally_insert. Qed.

Lemma joined_insert (ws : list worker) i w w' n : ws !! i = Some w -> w <> Exited ->
  (forall j, (j < n)%nat -> ws !! j = Some Exited) -> forall j, (j < n)%nat -> <[i := w']> ws !! j = Some Exited.
Proof.
  intros E Hne Hj j Hlt. destruct (decide (i = j)) as [->|Hij]; [|rewrite list_lookup_insert_ne by done; auto].
  rewrite (Hj j Hlt) in E. by injection E as <-.
Qed.

Lemma push_wf results fd woken d d' m :
  daemon_wf results d -> fd :: to_come m = to_come (master d) -> joined m = 0%nat -> push fd woken d m = Some d' -> daemon_wf results d'.
Proof.
  intros [Hl Hf Hw He Hj] Hc Hm. unfold push, cond_signal. destruct woken as [i|].
  - destruct (workers d !! i) as [w|] eqn:E; [|done]. destruct w; [done| |done|done]. intros [= <-].
    destruct (set_counts _ _ _ Checking E) as (H1 & H2 & H3 & H4). cbn [is_waiting is_checking is_exited] in H2, H3, H4. split; cbn [workers pendingRequests master taken].
    + lia.
    + rewrite <- Hf, <- Hc, <- !app_assoc. done.
    + rewrite length_app. simpl. lia.
    + lia.
    + rewrite Hm. lia.
  - destruct (decide (Waiting ∈ workers d)) as [|Hn]; [done|]. intros [= <-]. split; cbn [workers pendingRequests master taken]; try done.
    + rewrite <- Hf, <- Hc, <- !app_assoc. done.
    + left. by apply no_waiting.
    + rewrite Hm. lia.
Qed.

Lemma master_step_wf results woken d d' : daemon_wf results d -> master_step woken d = Some d' -> daemon_wf results d'.
Proof.
  intros Hwf. pose proof Hwf as [Hl Hf Hw He Hj]. unfold master_step. destruct (master d) as [[|fd rs]|[|k]|i|] eqn:Em; cbn [to_come joined] in *.
  - intros [= <-]. by split.
  - apply push_wf; [done | by rewrite Em | done].
  - intros [= <-]. by split.
  - apply push_wf; [done | by rewrite Em | done].
  - destruct (Nat.ltb_spec i numWorkers).
    + destruct (workers d !! i) as [[]|] eqn:E; try done. intros [= <-]. split; try done. cbn. intros j Hlt.
      destruct (decide (j = i)) as [->|]; [done|]. apply Hj. lia.
    + intros [= <-]. split; try done. cbn. intros j Hlt. apply Hj. lia.
  - done.
Qed.

Lemma worker_step_wf results i d d' : daemon_wf results d -> worker_step i d = Some d' -> daemon_wf results d'.
Proof.
  intros [Hl Hf Hw He Hj]. unfold worker_step. destruct (workers d !! i) as [[| |fd|]|] eqn:E; try done.
  - destruct (pendingRequests d) as [|fd q] eqn:Eq; intros [= <-].
    + destruct (set_counts _ _ _ Waiting E) as (H1 & H2 & H3 & H4). simpl in *.
      split; cbn [set_worker workers pendingRequests master taken]; [lia | by rewrite Eq | rewrite Eq; simpl; lia | lia | by eapply joined_insert].
    + destruct (set_counts _ _ _ (if fd <? 0 then Exited else Serving fd) E) as (H1 & H2 & H3 & H4). simpl in *.
      split; cbn [workers pendingRequests master taken]; [lia | | | | by eapply joined_insert].
      * rewrite fmap_app, <- app_assoc. exact Hf.
      * destruct (fd <? 0); simpl in *; lia.
      * rewrite fmap_app, negatives_app. simpl. destruct (fd <? 0); simpl in *; lia.
  - intros [= <-]. destruct (set_counts _ _ _ Checking E) as (H1 & H2 & H3 & H4). simpl in *.
    split; cbn [set_worker workers pendingRequests master taken]; [lia | done | lia | lia | by eapply joined_insert].
Qed.

Lemma spurious_step_wf results i d d' : daemon_wf results d -> spurious_step i d = Some d' -> daemon_wf results d'.
Proof.
  intros [Hl Hf Hw He Hj]. unfold spurious_step. destruct (workers d !! i) as [[| |fd|]|] eqn:E; try done.
  intros [= <-]. destruct (set_counts _ _ _ Checking E) as (H1 & H2 & H3 & H4). simpl in *.
  split; cbn [set_worker workers pendingRequests master taken]; [lia | done | lia | lia | by eapply joined_insert].
Qed.

Lemma step_wf results l d d' : daemon_wf results d -> step l d = Some d' -> daemon_wf results d'.
Proof. destruct l; cbn [step]; [apply master_step_wf | apply worker_step_wf | apply spurious_step_wf]. Qed.

Lemma exec_wf results ls : forall d d', daemon_wf results d -> exec ls d = Some d' -> daemon_wf results d'.
Proof.
  induction ls as [|l ls IH]; intros d d' Hd E; cbn [exec] in E; [by injection E as <-|].
  destruct (step l d) as [d1|] eqn:E1; [|done]. apply (IH d1); [|done]. by eapply step_wf.
Qed.

Lemma initialize_wf results : daemon_wf results (initialize results).
Proof. split; simpl; try done; [by left | lia]. Qed.

(** ** Termination *)

(** The steps that are left, apart from those that spurious wakeups cause. *)
Definition master_left (m : master_pc) : nat :=
  match m with
  | Accepting results => 4 * length results + 4 * numWorkers + numWorkers + 3
  | Stopping k => 4 * k + numWorkers + 2
  | Joining i => numWorkers - i + 1
  | Returned => 0
  end.
Definition worker_left (w : worker) : nat := match w with Checking => 1 | Serving _ => 2 | Waiting | Exited => 0 end.
Definition steps_left (d : daemon) : nat := master_left (master d) + 2 * length (pendingRequests d) + tally worker_left (workers d).

Lemma push_left fd woken d d' m : push fd woken d m = Some d' ->
  (steps_left d' <= master_left m + 2 * length (pendingRequests d) + 3 + tally worker_left (workers d))%nat.
Proof.
  unfold push, cond_signal. destruct woken as [i|].
  - destruct (workers d !! i) as [[]|] eqn:E; try done. intros [= <-]. pose proof (tally_insert worker_left _ _ _ Checking E) as H.
    unfold steps_left. cbn [master pendingRequests workers]. rewrite length_app. simpl in *. lia.
  - destruct (decide _); [done|]. intros [= <-]. unfold steps_left. cbn [master pendingRequests workers]. rewrite length_app. simpl. lia.
Qed.

Lemma step_left l d d' : step l d = Some d' ->
  if is_spurious l then (steps_left d' <= steps_left d + 1)%nat else (steps_left d' < steps_left d)%nat.
Proof.
  destruct l as [woken|i|i]; cbn [step is_spurious].
  - unfold master_step. destruct (master d) as [[|fd rs]|[|k]|i|] eqn:Em; [|intros H%push_left| |intros H%push_left| |done].
    + intros [= <-]. unfold steps_left. rewrite Em. cbn. lia.
    + revert H. unfold steps_left. rewrite Em. cbn [master_left length]. lia.
    + intros [= <-]. unfold steps_left. rewrite Em. cbn. lia.
    + revert H. unfold steps_left. rewrite Em. cbn [master_left]. lia.
    + destruct (Nat.ltb_spec i numWorkers); [destruct (workers d !! i) as [[]|]; try done|]; intros [= <-];
        unfold steps_left; rewrite Em; cbn [at_pc master pendingRequests workers master_left]; lia.
  - unfold worker_step. destruct (workers d !! i) as [[| |fd|]|] eqn:E; try done.
    + destruct (pendingRequests d) as [|fd q] eqn:Eq; intros [= <-]; unfold steps_left; rewrite Eq; cbn [set_worker master pendingRequests workers];
        [pose proof (tally_insert worker_left _ _ _ Waiting E) as H | pose proof (tally_insert worker_left _ _ _ (if fd <? 0 then Exited else Serving fd) E) as H];
        rewrite ?Eq; simpl in *; [lia | destruct (fd <? 0); simpl in *; lia].
    + intros [= <-]. pose proof (tally_insert worker_left _ _ _ Checking E) as H. unfold steps_left. cbn in *. lia.
  - unfold spurious_step. destruct (workers d !! i) as [[| |fd|]|] eqn:E; try done.
    intros [= <-]. pose proof (tally_insert worker_left _ _ _ Checking E) as H. unfold steps_left. cbn in *. lia.
Qed.

(** The steps of a sequence, and the wakeups without a signal among them. *)
Fixpoint spurious_wakeups (ls : list label) : nat :=
  match ls with [] => 0 | l :: ls => (if is_spurious l then 1 else 0) + spurious_wakeups ls end.

Lemma exec_left ls : forall d d', exec ls d = Some d' -> (length ls + steps_left d' <= steps_left d + 2 * spurious_wakeups ls)%nat.
Proof.
  induction ls as [|l ls IH]; intros d d' E; cbn [exec] in E; [injection E as <-; simpl; lia|].
  destruct (step l d) as [d1|] eqn:E1; [|done]. apply IH in E. apply step_left in E1. cbn [length spurious_wakeups].
  destruct (is_spurious l); lia.
Qed.

(** ** The end *)

Lemma stuck_workers d i w : stuck d -> workers d !! i = Some w -> w = Waiting \/ w = Exited.
Proof.
  intros Hs E. destruct w as [| |fd|]; [|by left| |by right]; exfalso.
  - destruct (pendingRequests d) as [|fd q] eqn:Eq; (enough (exists d', step (Worker i) d = Some d') as [d' Ed]; [by apply Hs in Ed|]);
      cbn [step]; unfold worker_step; rewrite E, Eq; by eexists.
  - enough (exists d', step (Worker i) d = Some d') as [d' Ed]; [by apply Hs in Ed|]. cbn [step]. unfold worker_step. rewrite E. by eexists.
Qed.

Lemma can_signal ws : exists woken ws', cond_signal woken ws = Some ws'.
Proof.
  destruct (decide (Waiting ∈ ws)) as [Hw|Hw].
  - apply list_elem_of_lookup in Hw as [i E]. exists (Some i). unfold cond_signal. rewrite E. by eexists.
  - exists None. unfold cond_signal. rewrite decide_False by done. by eexists.
Qed.

Lemma can_push fd d m : exists woken d', push fd woken d m = Some d'.
Proof. destruct (can_signal (workers d)) as (woken & ws & E). exists woken. unfold push. rewrite E. by eexists. Qed.

Lemma stuck_master d : stuck d -> master d = Returned \/
  exists i, master d = Joining i /\ (i < numWorkers)%nat /\ workers d !! i <> Some Exited.
Proof.
  intros Hs. assert (forall woken d', master_step woken d <> Some d') as Hm by (intros woken d' E; by apply (Hs (Master woken)) in E).
  unfold master_step in Hm. destruct (master d) as [[|fd rs]|[|k]|i|] eqn:Em; [| | | | |by left]; [exfalso..|right].
  - by apply (Hm None _ eq_refl).
  - destruct (can_push fd d (Accepting rs)) as (woken & d' & E). by apply (Hm woken d').
  - by apply (Hm None _ eq_refl).
  - destruct (can_push (-1) d (Stopping k)) as (woken & d' & E). by apply (Hm woken d').
  - exists i. split; [done|]. destruct (Nat.ltb_spec i numWorkers) as [Hi|Hi]; [|by exfalso; apply (Hm None _ eq_refl)].
    split; [done|]. intros E. rewrite E in Hm. by apply (Hm None _ eq_refl).
Qed.

Lemma all_exited_spec d results : daemon_wf results d -> (numWorkers <= tally is_exited (workers d))%nat -> workers d = replicate numWorkers Exited.
Proof.
  intros [Hl _ _ _ _] He. apply list_eq. intros i. destruct (Nat.lt_ge_cases i numWorkers) as [Hi|Hi].
  - rewrite (tally_all (workers d) i) by lia. symmetry. by apply lookup_replicate.
  - rewrite !lookup_ge_None_2; [done| |lia]. by rewrite length_replicate.
Qed.

(** The only way to be stuck is to have returned, with every worker ended. *)
Lemma stuck_returned results d : daemon_wf results d -> stuck d ->
  master d = Returned /\ workers d = replicate numWorkers Exited.
Proof.
  intros Hwf Hs. pose proof Hwf as [Hl Hf Hw He Hj].
  assert (forall ws, (forall i w, ws !! i = Some w -> w = Waiting \/ w = Exited) ->
    tally is_checking ws = 0%nat /\ (tally is_waiting ws + tally is_exited ws = length ws)%nat) as Hcount.
  { induction ws as [|w ws IH]; intros Hall; [done|]. destruct IH as [H1 H2]; [intros i w' E; apply (Hall (S i) w' E)|].
    destruct (Hall 0%nat w eq_refl) as [->| ->]; simpl; lia. }
  destruct (Hcount (workers d)) as [Hck Hsum]; [intros i w; by apply stuck_workers|].
  destruct (stuck_master d Hs) as [Hr|(i & Hm & Hi & Hx)].
  - split; [done|]. rewrite Hr in Hj. apply (all_exited_spec d results Hwf).
    rewrite <- Hl. clear -Hl Hj. cbn [joined] in Hj. revert Hj. rewrite <- Hl.
    generalize (workers d). intros ws Hj. induction ws as [|w ws IH]; [done|].
    pose proof (Hj 0%nat ltac:(simpl; lia)) as [= ->]. simpl. apply le_n_S, IH. intros j Hlt. apply (Hj (S j)). simpl. lia.
  - exfalso. apply Hx. apply tally_all; [|lia].
    assert (tally is_waiting (workers d) = 0%nat \/ pendingRequests d = []) as [H|Hq]; [destruct Hw; [by left | right; by apply nil_length_inv; lia]|lia|].
    rewrite He, Hl. rewrite Hm, Hq, app_nil_r in Hf. cbn [to_come] in Hf. rewrite Hf, negatives_app, negatives_replicate. lia.
Qed.

Lemma nonneg_negatives q : Forall (fun fd => 0 <= fd) q -> negatives q = 0%nat.
Proof. induction 1 as [|fd q Hf _ IH]; [done|]. simpl. by rewrite (proj2 (Z.ltb_ge fd 0)). Qed.

Lemma last_negative (q : list Z) a b : q <> [] -> a ++ q = b ++ replicate numWorkers (-1) -> (0 < negatives q)%nat.
Proof.
  intros Hq E. destruct q as [|x q _] using rev_ind; [done|]. change (replicate numWorkers (-1)) with ([-1; -1; -1] ++ [-1]) in E.
  rewrite !app_assoc in E. apply app_inj_tail in E as [_ ->]. rewrite negatives_app. simpl. lia.
Qed.

(** When every [accept] succeeds, everything has been taken at the end. *)
Lemma all_taken results d : daemon_wf results d -> master d = Returned -> workers d = replicate numWorkers Exited ->
  Forall (fun fd => 0 <= fd) results -> (taken d).*2 = results ++ replicate numWorkers (-1) /\ pendingRequests d = [].
Proof.
  intros [_ Hf _ He _] Hr Hex Hpos. rewrite Hr in Hf. cbn [to_come] in Hf. rewrite app_nil_r in Hf. rewrite Hex in He.
  pose proof (f_equal negatives Hf) as Hn. rewrite !negatives_app, (nonneg_negatives results Hpos), negatives_replicate, <- He in Hn.
  change (tally is_exited (replicate numWorkers Exited)) with numWorkers in Hn.
  destruct (decide (pendingRequests d = [])) as [Hq|Hq]; [rewrite Hq, app_nil_r in Hf; done|].
  pose proof (last_negative _ _ _ Hq Hf). lia.
Qed.

(** ** The claims *)

(** C37: in every state that [run] can reach, whatever the interleaving: the
    descriptors that were taken, followed by the queue and by what the master has
    still to push, are the results of [accept] in their order and one -1 for every
    worker, so that none is lost, served twice or overtaken; when a worker waits,
    another one is on its way to every descriptor in the queue; and as many workers
    have ended as have taken a negative descriptor. *)
Theorem daemon_no_lost_request results d :
  reachable results d ->
  (taken d).*2 ++ pendingRequests d ++ to_come (master d) = results ++ replicate numWorkers (-1) /\
  (Waiting ∈ workers d -> (length (pendingRequests d) <= tally is_checking (workers d))%nat) /\
  tally is_exited (workers d) = negatives (taken d).*2.
Proof.
  intros [ls E]. destruct (exec_wf results ls _ _ (initialize_wf results) E) as [_ Hf Hw He _]. split; [done|]. split; [|done].
  intros Hin. destruct Hw as [Hz|]; [|done]. apply list_elem_of_lookup in Hin as [i Hi]. by pose proof (tally_zero _ _ _ _ Hz Hi).
Qed.

(** C36: [run] ends: a sequence of steps is no longer than a bound in the number of
    connections, apart from two steps for every wakeup without a signal; when no
    thread can do a step any more, [run] has returned and every worker has ended; and
    when every [accept] succeeded, every connection has been taken by a worker, in
    the order of their arrival, and the queue is empty. *)
Theorem daemon_run_completes results ls d :
  exec ls (initialize results) = Some d ->
  (length ls <= 4 * length results + 27 + 2 * spurious_wakeups ls)%nat /\
  (stuck d -> master d = Returned /\ workers d = replicate numWorkers Exited /\
    (Forall (fun fd => 0 <= fd) results ->
      (taken d).*2 = results ++ replicate numWorkers (-1) /\ pendingRequests d = [])).
Proof.
  intros E. pose proof (exec_wf results ls _ _ (initialize_wf results) E) as Hwf. split.
  { apply exec_left in E. assert (steps_left (initialize results) = 4 * length results + 27)%nat; [unfold steps_left, initialize, numWorkers; cbn [master pendingRequests workers master_left]; unfold numWorkers; simpl; lia | lia]. }
  intros Hs. destruct (stuck_returned results d Hwf Hs) as [Hr Hex]. split; [done|]. split; [done|]. by apply all_taken.
Qed.

(** Two connections: the first worker waits and is woken for one of them. *)
Definition demo_run : list label :=
  [Worker 0; Master (Some 0%nat); Worker 1; Worker 0; Worker 1; Master (Some 0%nat); Worker 2; Master None] ++
  [Master None; Master None; Master None; Master None; Master None] ++
  [Worker 0; Worker 1; Worker 3; Worker 2; Worker 2] ++
  [Master None; Master None; Master None; Master None; Master None].

Lemma daemon_no_lost_request_witness : exists d, reachable [5; 6] d /\ (taken d).*2 = [5; 6] /\
  (taken d).*2 ++ pendingRequests d ++ to_come (master d) = [5; 6; -1; -1; -1; -1].
Proof.
  eexists. assert (reachable [5; 6] _) as Hr by (exists (take 8 demo_run); vm_compute; reflexivity). split; [exact Hr|].
  split; [reflexivity|]. exact (proj1 (daemon_no_lost_request [5; 6] _ Hr)).
Defined.

Lemma daemon_run_completes_witness : exists d, exec demo_run (initialize [5; 6]) = Some d /\ master d = Returned /\
  (length demo_run <= 35)%nat.
Proof.
  eexists. split; [vm_compute; reflexivity|]. split; [reflexivity|].
  pose proof (daemon_run_completes [5; 6] demo_run _ ltac:(vm_compute; reflexivity)) as [Hb _]. exact Hb.
Defined.

(** Failed calls of [accept] end workers: after four of them a connection stays in
    the queue for ever. *)
Lemma failed_accepts_end_workers : exists d,
  reachable [-1; -1; -1; -1; 7] d /\ stuck d /\ pendingRequests d = [7; -1; -1; -1; -1].
Proof.
  eexists. split; [exists (repeat (Master None) 4 ++ [Worker 0; Worker 1; Worker 2; Worker 3] ++ repeat (Master None) 12); vm_compute; reflexivity|].
  split; [|reflexivity]. intros [w|i|i] d'; [done| |]; cbn; unfold worker_step, spurious_step; cbn; do 4 (destruct i as [|i]; [done|]); done.
Qed.
