(* ===== verification/HttpPool.v ===== *)
(** * The daemon with its connections

    The steps of HttpDaemon.v with the work that a worker does: the step in which it
    ends to serve a descriptor runs [handleRequest] on the connection behind it. *)
From Stdlib Require Import ZArith Lia.
From stdpp Require Import base tactics list numbers strings gmap.
From S2P Require Import Prelude AptList AptListTheorems Apt Http HttpRead HttpServe HttpTheorems HttpSession HttpDaemon.
Open Scope Z_scope.

Section Pool.
Context {S : Type}.
(** What worker [i] makes of a connection. *)
Variable serve : nat -> S -> outcome S.

(** The workers, and the connections by their descriptors. *)
Definition pool : Type := daemon * gmap Z S.

(** The connection of a worker that ends to serve it. *)
Definition finish (i : nat) (d : daemon) (m : gmap Z S) : option (gmap Z S) :=
  match workers d !! i with
  | Some (Serving fd) =>
      match m !! fd with
      | Some s => match serve i s with Done s' => Some (<[fd := s']> m) | _ => None end
      | None => None
      end
  | _ => Some m
  end.

Definition pool_step (l : label) (p : pool) : option pool :=
  match step l p.1 with
  | None => None
  | Some d' =>
      match l with
      | Worker i => match finish i p.1 p.2 with Some m' => Some (d', m') | None => None end
      | _ => Some (d', p.2)
      end
  end.

Fixpoint pool_exec (ls : list label) (p : pool) : option pool :=
  match ls with
  | [] => Some p
  | l :: ls => match pool_step l p with Some p' => pool_exec ls p' | None => None end
  end.
Definition pool_stuck (p : pool) : Prop := forall l p', pool_step l p = Some p' -> is_spurious l = true.

(** ** Simulation and invariant *)

Lemma pool_step_step l p p' : pool_step l p = Some p' -> step l p.1 = Some p'.1.
Proof.
  unfold pool_step. destruct (step l p.1) as [d'|]; [|done]. destruct l as [w|i|i]; [by intros [= <-]| |by intros [= <-]].
  destruct (finish i p.1 p.2); [by intros [= <-]|done].
Qed.

Lemma pool_exec_exec ls : forall p p', pool_exec ls p = Some p' -> exec ls p.1 = Some p'.1.
Proof.
  induction ls as [|l ls IH]; intros p p' E; cbn [pool_exec exec] in *; [by injection E as <-|].
  destruct (pool_step l p) as [p1|] eqn:E1; [|done]. rewrite (pool_step_step _ _ _ E1). by apply IH.
Qed.

Definition serving (d : daemon) (fd : Z) : Prop := exists i, workers d !! i = Some (Serving fd).

(** A connection is as it was until the worker that took it has ended to serve it. *)
Record pool_wf (m0 : gmap Z S) (p : pool) : Prop := {
  pw_taken : forall fd, serving p.1 fd -> fd ∈ (taken p.1).*2 /\ 0 <= fd;
  pw_once : forall i j fd, workers p.1 !! i = Some (Serving fd) -> workers p.1 !! j = Some (Serving fd) -> i = j;
  pw_served : forall fd s, m0 !! fd = Some s -> 0 <= fd -> fd ∈ (taken p.1).*2 -> ~ serving p.1 fd ->
    exists i s', serve i s = Done s' /\ p.2 !! fd = Some s';
  pw_unserved : forall fd s, m0 !! fd = Some s -> fd ∉ (taken p.1).*2 \/ serving p.1 fd -> p.2 !! fd = Some s;
}.

Lemma serving_insert d i w w' fd :
  workers d !! i = Some w -> (forall fd, w <> Serving fd) -> (forall fd, w' <> Serving fd) ->
  (exists j, <[i := w']> (workers d) !! j = Some (Serving fd)) <-> serving d fd.
Proof.
  intros E Hw Hw'. split; intros [j Ej]; exists j.
  - destruct (decide (i = j)) as [<-|Hne]; [|by rewrite list_lookup_insert_ne in Ej].
    rewrite list_lookup_insert_eq in Ej by (by eapply lookup_lt_Some). injection Ej as Ej. by apply Hw' in Ej.
  - rewrite list_lookup_insert_ne; [done|]. intros <-. rewrite E in Ej. injection Ej as Ej. by apply Hw in Ej.
Qed.

(** A step after which the same descriptors are taken and served. *)
Definition quiet (d d' : daemon) : Prop :=
  taken d' = taken d /\
  (workers d' = workers d \/ exists i w w', workers d !! i = Some w /\ workers d' = <[i := w']> (workers d) /\
    (forall fd, w <> Serving fd) /\ (forall fd, w' <> Serving fd)).

Lemma pool_wf_quiet m0 d d' m : quiet d d' -> pool_wf m0 (d, m) -> pool_wf m0 (d', m).
Proof.
  intros [Ht Hw] [H1 H2 H3 H4]. cbn [fst snd] in *.
  assert (forall fd, serving d' fd <-> serving d fd) as Hs.
  { intros fd. destruct Hw as [Hw|(i & w & w' & E & Hw & Hn & Hn')]; unfold serving at 1; rewrite Hw; [done|]. by eapply serving_insert. }
  split; cbn [fst snd].
  - intros fd H. rewrite Ht. by apply H1, Hs.
  - destruct Hw as [Hw|(i & w & w' & E & Hw & Hn & Hn')]; rewrite Hw; [done|]. intros j k fd Hj Hk.
    assert (forall j, <[i := w']> (workers d) !! j = Some (Serving fd) -> workers d !! j = Some (Serving fd)) as Hsame.
    { intros l Hl. destruct (decide (i = l)) as [<-|]; [|by rewrite list_lookup_insert_ne in Hl].
      rewrite list_lookup_insert_eq in Hl by (by eapply lookup_lt_Some). injection Hl as Hl. by apply Hn' in Hl. }
    by apply (H2 j k fd); apply Hsame.
  - intros fd s Hm Hp. rewrite Ht, Hs. by apply H3.
  - intros fd s Hm. rewrite Ht, Hs. by apply H4.
Qed.

Lemma push_quiet fd woken d d' m : push fd woken d m = Some d' -> quiet d d'.
Proof.
  unfold push, cond_signal. destruct woken as [i|].
  - destruct (workers d !! i) as [[]|] eqn:E; try done. intros [= <-]. split; [done|]. right. by exists i, Waiting, Checking.
  - destruct (decide _); [done|]. intros [= <-]. split; [done | by left].
Qed.

Lemma master_quiet woken d d' : master_step woken d = Some d' -> quiet d d'.
Proof.
  unfold master_step. destruct (master d) as [[|fd rs]|[|k]|i|]; try apply push_quiet; try (intros [= <-]; split; [done | by left]); [|done].
  destruct (i <? numWorkers)%nat; [destruct (workers d !! i) as [[]|]; try done|]; intros [= <-]; (split; [done | by left]).
Qed.

Lemma spurious_quiet i d d' : spurious_step i d = Some d' -> quiet d d'.
Proof.
  unfold spurious_step. destruct (workers d !! i) as [[]|] eqn:E; try done. intros [= <-]. split; [done|]. right. by exists i, Waiting, Checking.
Qed.

(** A descriptor is taken once. *)
Lemma taken_fresh (results a b : list Z) fd n : NoDup results -> 0 <= fd -> a ++ fd :: b = results ++ replicate n (-1) -> fd ∉ a.
Proof.
  intros Hnd Hfd E. apply app_eq_inv in E as [(k & -> & E)|(k & -> & E)].
  - exfalso. assert (fd ∈ replicate n (-1)) as Hin by (rewrite E; apply elem_of_app; right; constructor).
    apply elem_of_replicate in Hin as [-> _]. lia.
  - destruct k as [|x k].
    + destruct n as [|n]; [done|]. injection E as -> _. lia.
    + injection E as <- _. apply NoDup_app in Hnd as (_ & Hnd & _). intros Hin. apply (Hnd fd Hin). constructor.
Qed.

Lemma pool_wf_take m0 i fd q d m results :
  NoDup results -> daemon_wf results d -> workers d !! i = Some Checking -> pendingRequests d = fd :: q ->
  pool_wf m0 (d, m) ->
  pool_wf m0 (MkDaemon q (<[i := if fd <? 0 then Exited else Serving fd]> (workers d)) (master d) (taken d ++ [(i, fd)]), m).
Proof.
  intros Hnd [_ Hf _ _ _] E Eq [H1 H2 H3 H4]. cbn [fst snd] in *. rewrite Eq in Hf.
  assert (i < length (workers d))%nat as Hlen by (by eapply lookup_lt_Some).
  assert (0 <= fd -> fd ∉ (taken d).*2) as Hfresh by (intros Hp; eapply taken_fresh; [done|done|]; rewrite <- Hf; done).
  set (w' := if fd <? 0 then Exited else Serving fd). set (d' := MkDaemon _ _ _ _).
  assert (forall j fd', workers d' !! j = Some (Serving fd') -> (i = j /\ fd = fd' /\ 0 <= fd) \/ (i <> j /\ workers d !! j = Some (Serving fd'))) as Hsv.
  { intros j fd' Hj. subst d'. cbn [workers] in Hj. destruct (decide (i = j)) as [<-|Hne]; [|right; by rewrite list_lookup_insert_ne in Hj].
    rewrite list_lookup_insert_eq in Hj by done. subst w'. destruct (Z.ltb_spec fd 0); [done|]. injection Hj as <-. by left. }
  assert (forall fd', serving d fd' -> serving d' fd') as Hold.
  { intros fd' [j Hj]. exists j. subst d'. cbn [workers]. rewrite list_lookup_insert_ne; [done|]. intros <-. by rewrite E in Hj. }
  assert ((taken d').*2 = (taken d).*2 ++ [fd]) as Ht by (subst d'; cbn [taken]; by rewrite fmap_app).
  split; cbn [fst snd]; rewrite ?Ht.
  - intros fd' [j Hj]. rewrite elem_of_app. destruct (Hsv j fd' Hj) as [(-> & -> & Hp)|[_ Hj']]; [split; [right; by constructor | done]|].
    destruct (H1 fd') as [Hin Hp]; [by exists j|]. auto.
  - intros j k fd' Hj Hk. destruct (Hsv j fd' Hj) as [(Hij & Hfd & Hp)|[_ Hj']], (Hsv k fd' Hk) as [(Hik & Hfd' & Hp')|[_ Hk']].
    + congruence.
    + exfalso. apply (Hfresh Hp). rewrite Hfd. apply (H1 fd'). by exists k.
    + exfalso. apply (Hfresh Hp'). rewrite Hfd'. apply (H1 fd'). by exists j.
    + by apply (H2 j k fd').
  - intros fd' s Hm Hp Hin Hns. apply elem_of_app in Hin as [Hin|Hin]; [apply (H3 fd' s); auto|].
    apply list_elem_of_singleton in Hin as ->. exfalso. apply Hns. exists i. subst d' w'. cbn [workers].
    rewrite (proj2 (Z.ltb_ge fd 0)) by lia. by apply list_lookup_insert_eq.
  - intros fd' s Hm Hor. apply (H4 fd' s Hm). destruct Hor as [Hn|[j Hj]].
    + left. intros Hin. apply Hn. apply elem_of_app. by left.
    + destruct (Hsv j fd' Hj) as [(-> & -> & Hp)|[_ Hj']]; [left; by apply Hfresh | right; by exists j].
Qed.

Lemma pool_wf_finish m0 i fd d m s s' :
  workers d !! i = Some (Serving fd) -> m !! fd = Some s -> serve i s = Done s' ->
  pool_wf m0 (d, m) -> pool_wf m0 (set_worker i Checking d, <[fd := s']> m).
Proof.
  intros E Em Es [H1 H2 H3 H4]. cbn [fst snd] in *. assert (i < length (workers d))%nat as Hlen by (by eapply lookup_lt_Some).
  assert (forall j fd', workers (set_worker i Checking d) !! j = Some (Serving fd') <-> i <> j /\ workers d !! j = Some (Serving fd')) as Hsv.
  { intros j fd'. cbn [set_worker workers]. destruct (decide (i = j)) as [<-|Hne].
    - rewrite list_lookup_insert_eq by done. split; [done | by intros [? _]].
    - rewrite list_lookup_insert_ne by done. split; [done | by intros [_ ?]]. }
  assert (forall fd', fd' <> fd -> serving d fd' -> serving (set_worker i Checking d) fd') as Hother.
  { intros fd' Hne [j Hj]. exists j. apply Hsv. split; [|done]. intros <-. rewrite E in Hj. congruence. }
  assert (forall fd', serving (set_worker i Checking d) fd' -> fd' <> fd /\ serving d fd') as Hold.
  { intros fd' [j Hj]. apply Hsv in Hj as [Hne Hj]. split; [|by exists j]. intros ->. apply Hne. by apply (H2 i j fd). }
  split; cbn [fst snd set_worker taken].
  - intros fd' Hs. by apply H1, Hold.
  - intros j k fd' Hj Hk. apply Hsv in Hj as [_ Hj], Hk as [_ Hk]. by apply (H2 j k fd').
  - intros fd' s0 Hm Hp Hin Hns. destruct (decide (fd' = fd)) as [->|Hne].
    + rewrite lookup_insert_eq. exists i, s'. split; [|done]. rewrite (H4 fd s0 Hm) in Em; [by injection Em as ->|]. right. by exists i.
    + rewrite lookup_insert_ne by done. apply (H3 fd' s0); [done|done|done|]. intros Hs. by apply Hns, Hother.
  - intros fd' s0 Hm Hor. destruct (decide (fd' = fd)) as [->|Hne].
    + exfalso. destruct Hor as [Hn|Hs]; [apply Hn, (H1 fd); by exists i | by destruct (Hold fd Hs)].
    + rewrite lookup_insert_ne by done. apply (H4 fd' s0 Hm). destruct Hor as [Hn|Hs]; [by left | right; by apply Hold].
Qed.

Lemma pool_step_wf m0 results l p p' : NoDup results -> daemon_wf results p.1 -> pool_wf m0 p -> pool_step l p = Some p' -> pool_wf m0 p'.
Proof.
  intros Hnd Hd Hp. destruct p as [d m]. cbn [fst] in Hd. unfold pool_step. cbn [fst snd]. destruct l as [w|i|i]; cbn [step].
  - destruct (master_step w d) as [d'|] eqn:E; [|done]. intros [= <-]. eapply pool_wf_quiet; [by eapply master_quiet | done].
  - unfold worker_step, finish. destruct (workers d !! i) as [[| |fd|]|] eqn:E; try done.
    + destruct (pendingRequests d) as [|fd q] eqn:Eq; intros [= <-]; [|by eapply pool_wf_take].
      eapply pool_wf_quiet; [|done]. split; [done|]. right. by exists i, Checking, Waiting.
    + destruct (m !! fd) as [s|] eqn:Em; [|done]. destruct (serve i s) as [s'| | |] eqn:Es; [|done..]. intros [= <-]. by eapply pool_wf_finish.
  - destruct (spurious_step i d) as [d'|] eqn:E; [|done]. intros [= <-]. eapply pool_wf_quiet; [by eapply spurious_quiet | done].
Qed.

Lemma pool_exec_wf m0 results ls : forall p p', NoDup results -> daemon_wf results p.1 -> pool_wf m0 p -> pool_exec ls p = Some p' ->
  daemon_wf results p'.1 /\ pool_wf m0 p'.
Proof.
  induction ls as [|l ls IH]; intros p p' Hnd Hd Hp E; cbn [pool_exec] in E; [by injection E as <-|].
  destruct (pool_step l p) as [p1|] eqn:E1; [|done]. apply (IH p1 p' Hnd); [|by eapply pool_step_wf|done].
  eapply step_wf; [exact Hd | by eapply pool_step_step].
Qed.

Lemma pool_start_wf results m0 : pool_wf m0 (initialize results, m0).
Proof.
  assert (forall i fd, replicate numWorkers Checking !! i <> Some (Serving fd)) as Hn.
  { intros i fd E. apply lookup_replicate in E as [E _]. done. }
  split; cbn [fst snd initialize taken workers]; [intros fd [i Hi]; by apply Hn in Hi | intros i j fd Hi; by apply Hn in Hi | | done].
  intros fd s _ _ Hin. by apply elem_of_nil in Hin.
Qed.

(** A descriptor that is served is a result of [accept]. *)
Lemma serving_result m0 results d m fd : daemon_wf results d -> pool_wf m0 (d, m) -> serving d fd -> fd ∈ results.
Proof.
  intros [_ Hf _ _ _] [H1 _ _ _] Hs. destruct (H1 fd Hs) as [Hin Hp]. cbn [fst] in Hin.
  assert (fd ∈ results ++ replicate numWorkers (-1)) as Hall by (rewrite <- Hf; apply elem_of_app; by left).
  apply elem_of_app in Hall as [|Hr]; [done|]. apply elem_of_replicate in Hr as [-> _]. lia.
Qed.

(** When every connection can be served, the pool is stuck only when the daemon is. *)
Lemma pool_stuck_stuck m0 d m : pool_wf m0 (d, m) ->
  (forall fd, serving d fd -> exists s, m0 !! fd = Some s /\ forall i, exists s', serve i s = Done s') ->
  pool_stuck (d, m) -> stuck d.
Proof.
  intros [_ _ _ H4] Hserve Hs l d' E. cbn [fst snd] in *. unfold pool_stuck, pool_step in Hs. specialize (Hs l). cbn [fst snd] in Hs. rewrite E in Hs.
  destruct l as [w|i|i]; [by eapply Hs| |done].
  destruct (finish i d m) as [m'|] eqn:Ef; [by eapply Hs|]. exfalso. unfold finish in Ef.
  destruct (workers d !! i) as [[| |fd|]|] eqn:Ew; try done.
  assert (serving d fd) as Hfd by (by exists i). destruct (Hserve fd Hfd) as (s & Hm & Hsv). rewrite (H4 fd s Hm) in Ef by (by right).
  destruct (Hsv i) as [s' Es]. by rewrite Es in Ef.
Qed.

Lemma returned_stuck d m : master d = Returned -> workers d = replicate numWorkers Exited -> pool_stuck (d, m).
Proof.
  intros Hm Hw l p'. unfold pool_stuck, pool_step. cbn [fst snd]. destruct l as [w|i|i]; [| |done]; cbn [step].
  - unfold master_step. by rewrite Hm.
  - unfold worker_step. rewrite Hw. destruct (replicate numWorkers Exited !! i) as [x|] eqn:E; [|done].
    apply lookup_replicate in E as [-> _]. done.
Qed.
End Pool.

(** ** The claim *)

Section Served.
Context {H S : Type} {sock : SocketOps S} {laws : SocketLaws S} (handler : HttpHandler H) (eat : list Z -> H -> H).
Variable new_handler : nat -> H.
Variable size : Z.
Variables n fuel : nat.

(** A worker resets its reader and makes a handler for every connection. *)
Definition serve_connection (i : nat) (s : S) : outcome S :=
  bind_out (handleRequest size handler n fuel (new_handler i) (MkConn (MkReader [] 0 0) s)) (fun '(_, s') => Done s').

(** The peer of a connection sends the requests [xs]. *)
Record peer (m0 : gmap Z S) (fd : Z) (xs : list exchange) (s : S) : Prop := {
  peer_conn : m0 !! fd = Some s;
  peer_awaits : awaits (concat (x_messages <$> xs)) s;
  peer_good : Forall (fun x => good_exchange x fuel) xs;
  peer_turns : (length xs < n)%nat;
  peer_fits : forall i, session_fits handler eat size xs (new_handler i);
}.

Lemma serve_peer m0 fd xs s i : 0 < size -> (0 < fuel)%nat ->
  (forall bs h, consume handler bs h = (true, eat bs h)) -> (forall a b h, eat (a ++ b) h = eat b (eat a h)) -> (forall h, eat [] h = h) ->
  peer m0 fd xs s ->
  exists s', serve_connection i s = Done s' /\ output s' = output s ++ (session handler eat xs (new_handler i)).1 /\ is_closed s' = true.
Proof.
  intros Hsize Hf He1 He2 He3 [_ Ha Hg Hn Hfit].
  pose proof (handleRequest_refines handler eat size Hsize He1 He2 He3 xs n fuel (new_handler i) (MkReader [] 0 0) s Hg Hf (Hfit i) Hn Ha) as Hr.
  destruct (session handler eat xs (new_handler i)) as [bs h']. destruct Hr as (s' & E & Hs'). exists s'. unfold serve_connection. by rewrite E.
Qed.

(** All connections are served; the claim and the composition with clients apply it. *)
Lemma daemon_serves results m0 (sessions : Z -> list exchange) ls d m :
  0 < size -> (0 < fuel)%nat ->
  (forall bs h, consume handler bs h = (true, eat bs h)) -> (forall a b h, eat (a ++ b) h = eat b (eat a h)) -> (forall h, eat [] h = h) ->
  NoDup results -> Forall (fun fd => 0 <= fd) results -> (forall fd, fd ∈ results -> exists s, peer m0 fd (sessions fd) s) ->
  pool_exec serve_connection ls (initialize results, m0) = Some (d, m) -> pool_stuck serve_connection (d, m) ->
  master d = Returned /\ workers d = replicate numWorkers Exited /\
  forall fd s, fd ∈ results -> m0 !! fd = Some s ->
    exists i s', m !! fd = Some s' /\ output s' = output s ++ (session handler eat (sessions fd) (new_handler i)).1 /\ is_closed s' = true.
Proof.
  intros Hsize Hf He1 He2 He3 Hnd Hpos Hpeer E Hstuck.
  destruct (pool_exec_wf serve_connection m0 results ls (initialize results, m0) (d, m) Hnd (initialize_wf results) (pool_start_wf serve_connection results m0) E) as [Hd Hp]. cbn [fst] in Hd.
  assert (stuck d) as Hs.
  { apply (pool_stuck_stuck serve_connection m0 d m Hp); [|done]. intros fd Hfd.
    assert (fd ∈ results) as Hin by (eapply serving_result; [exact Hd | exact Hp | done]).
    destruct (Hpeer fd Hin) as [s Hpe]. exists s. split; [apply Hpe|]. intros i. destruct (serve_peer m0 fd _ s i Hsize Hf He1 He2 He3 Hpe) as (s' & Es & _). by exists s'. }
  destruct (stuck_returned results d Hd Hs) as [Hret Hex]. split; [done|]. split; [done|]. intros fd s Hin Hm.
  destruct (Hpeer fd Hin) as [s0 Hpe]. pose proof (peer_conn _ _ _ _ Hpe) as Hm0. rewrite Hm in Hm0. injection Hm0 as <-.
  destruct Hp as [_ _ H3 _]. cbn [fst snd] in H3.
  destruct (H3 fd s Hm) as (i & s' & Es & Em).
  - rewrite Forall_forall in Hpos. by apply Hpos.
  - destruct (all_taken results d Hd Hret Hex Hpos) as [Ht _]. rewrite Ht. apply elem_of_app. by left.
  - intros [j Hj]. rewrite Hex in Hj. apply lookup_replicate in Hj as [Hj _]. done.
  - destruct (serve_peer m0 fd _ s i Hsize Hf He1 He2 He3 Hpe) as (s2 & Es2 & Ho & Hc). exists i, s'. rewrite Es in Es2. injection Es2 as <-. done.
Qed.

End Served.

(** Two connections with the same two requests each. *)
Definition demo_talk : talk := MkTalk [] (concat (x_messages <$> demo_session)) [] false.
Definition demo_conns : gmap Z talk := <[5 := demo_talk]> (<[6 := demo_talk]> ∅).
Definition demo_pool : option (@pool talk) :=
  pool_exec (serve_connection echo (fun _ => (0%nat, [])) 16 3 100) demo_run (initialize [5; 6], demo_conns).

Lemma demo_peer fd : fd ∈ [5; 6] -> exists s, peer echo echo_eat (fun _ => (0%nat, [])) 16 3 100 demo_conns fd demo_session s.
Proof.
  intros Hin. exists demo_talk. split; [|done|exact demo_session_good|simpl; lia|by intros i; repeat constructor].
  apply elem_of_cons in Hin as [->|Hin]; [done|]. by apply list_elem_of_singleton in Hin as ->.
Qed.

