(* ===== verification/HttpClients.v ===== *)
(** * The daemon and its clients

    The composition of the worker pool (HttpPool.v) with clients at the other ends of its
    connections (HttpTogether.v). *)
From Stdlib Require Import ZArith Lia.
From stdpp Require Import base tactics list numbers strings gmap.
From S2P Require Import Prelude AptList AptListTheorems Apt Http HttpRead HttpServe HttpTheorems HttpSession HttpKeep HttpTogether HttpDaemon HttpPool.
Open Scope Z_scope.

Section Clients.
Context {HC HS C S : Type} {csock : SocketOps C} {claws : SocketLaws C} {ssock : SocketOps S} {slaws : SocketLaws S}.
Context (client_consume : list Z -> HC -> bool * HC) (ceat : list Z -> HC -> HC) (connect : C -> bool * C) (host : str).
Context (handler : HttpHandler HS) (seat : list Z -> HS -> HS) (new_handler : nat -> HS).
Variables csize ssize : Z.
Variables n fuel : nat.

(** A client at the other end of the connection [fd], with the conversation [ds]: the client
    has its socket [s], the daemon the socket [t]; each sends its next message when it
    has the answer to the one before. *)
Record caller (m0 : gmap Z S) (fd : Z) (ds : list transfer) (cl : @client C HC) (s : C) (t : S) : Prop := {
  ca_conn : m0 !! fd = Some t;
  ca_socket : request_socket connect cl = (true, s);
  ca_client : awaits (d_response <$> ds) s;
  ca_server : awaits (d_request host <$> ds) t;
  ca_good : Forall (fun d => good_download d fuel /\ good_target host d fuel) ds;
  ca_conversation : conversation ds;
  ca_turns : (length ds < n)%nat;
  ca_serves : forall i, serves handler seat ssize host ds (new_handler i) }.

End Clients.

(** ** Two clients of a daemon *)

Definition demo_client : @client talk (list Z) := MkClient false (MkConn (MkReader [] 0 0) (MkTalk [] (d_response <$> demo_transfers) [] false)) [].
Definition demo_served : talk := MkTalk [] (d_request demo_host <$> demo_transfers) [] false.
Definition demo_ends : gmap Z talk := <[5 := demo_served]> (<[6 := demo_served]> ∅).
Abbreviation demo_serve := (serve_connection numbering (fun _ => (0%nat, KEEP_ALIVE)) 128 3 200).

Lemma demo_caller fd : fd ∈ [5; 6] ->
  caller demo_connect demo_host numbering (fun _ h => h) (fun _ => (0%nat, KEEP_ALIVE)) 128 3 200 demo_ends fd demo_transfers demo_client
    (MkTalk [] (d_response <$> demo_transfers) [] false) demo_served.
Proof.
  intros Hin. split; [|done|done|done|exact demo_transfers_good| |simpl; lia|by intros i; repeat constructor].
  - apply elem_of_cons in Hin as [->|Hin]; [done|]. by apply list_elem_of_singleton in Hin as ->.
  - split; [by vm_compute | by eexists].
Qed.

