(* ===== verification/HttpNet.v ===== *)
(** * Descriptors and TLS: the rest of [httpd.cpp], [https-ext.h], [https-ext.cpp]

    The functions that make and release descriptors, TLS contexts and TLS
    connections.  The system calls and the TLS library are the interface [NetOps];
    the laws say which descriptors, contexts and connections are live. *)
From Stdlib Require Import ZArith Lia.
From stdpp Require Import base tactics list numbers strings gmap.
From S2P Require Import Prelude AptList Apt AptMain Http HttpRead HttpServe HttpTheorems.
Open Scope Z_scope.

(** [socket], [SSL_CTX_new] and [SSL_new] give a number, negative or 0 when they
    fail; the other calls give whether they succeed.  An address is a number. *)
Class NetOps (N : Type) : Type := {
  sys_socket : N -> Z * N;
  sys_setsockopt : Z -> N -> bool * N;
  sys_bind : Z -> Z -> N -> bool * N;
  sys_listen : Z -> N -> bool * N;
  sys_connect : Z -> Z -> N -> bool * N;
  sys_accept : Z -> N -> Z * N;
  sys_close : Z -> N -> N;
  sys_errno : N -> Z;
  ssl_ctx_new : N -> Z * N;
  ssl_ctx_use_certificate : Z -> N -> bool * N;
  ssl_ctx_use_key : Z -> N -> bool * N;
  ssl_ctx_free : Z -> N -> N;
  ssl_ctx_set_default_verify_paths : Z -> N -> N;
  (** [SSL_CTX_set_verify] with [SSL_VERIFY_PEER]. *)
  ssl_ctx_set_verify : Z -> N -> N;
  ssl_new : Z -> N -> Z * N;
  ssl_set_tlsext_host_name : Z -> N -> N;
  ssl_set_fd : Z -> Z -> N -> bool * N;
  ssl_set_host : Z -> N -> bool * N;
  ssl_connect : Z -> N -> bool * N;
  ssl_accept : Z -> N -> bool * N;
  ssl_shutdown_free : Z -> N -> N;
}.

Section Net.
Context {N : Type} {net : NetOps N}.

(** ** Sockets *)

(** The port is taken modulo 2^16. *)
Definition createListeningSocket (port : Z) (n : N) : Z * N :=
  let '(sockFd, n) := sys_socket n in
  if sockFd <? 0 then (sockFd, n)
  else
    let '(ok, n) := sys_setsockopt sockFd n in
    if negb ok then (-1, sys_close sockFd n)
    else
      let '(ok, n) := sys_bind sockFd (Z.land port 0xffff) n in
      if negb ok then (-1, sys_close sockFd n)
      else
        let '(ok, n) := sys_listen sockFd n in
        if negb ok then (-1, sys_close sockFd n) else (sockFd, n).

Definition checkSocket (strerror : Z -> str) (n : N) : str * N :=
  let '(fd, n) := sys_socket n in
  if fd <? 0 then (c_str "socket:" ++ strerror (sys_errno n), n)
  else
    let '(ok, n) := sys_listen fd n in
    if negb ok then (strerror (sys_errno n), sys_close fd n) else (c_str "OK", sys_close fd n).

(** [HttpClientProvider::connect] over the addresses of the host. *)
Fixpoint connect_loop (info : list Z) (n : N) : Z * N :=
  match info with
  | [] => (-1, n)
  | addr :: info =>
      let '(fd, n) := sys_socket n in
      if fd <? 0 then connect_loop info n
      else let '(ok, n) := sys_connect fd addr n in if ok : bool then (fd, n) else connect_loop info n
  end.

(** ** TLS *)

Definition createSSLContext (n : N) : Z * N :=
  let '(ctx, n) := ssl_ctx_new n in
  if ctx =? 0 then (0, n)
  else
    let '(ok, n) := ssl_ctx_use_certificate ctx n in
    if negb ok then (0, ssl_ctx_free ctx n)
    else
      let '(ok, n) := ssl_ctx_use_key ctx n in
      if negb ok then (0, ssl_ctx_free ctx n) else (ctx, n).

Definition createClientContext (n : N) : Z * N :=
  let '(ctx, n) := ssl_ctx_new n in
  if ctx =? 0 then (0, n)
  else
    let n := ssl_ctx_set_default_verify_paths ctx n in
    (ctx, ssl_ctx_set_verify ctx n).

Definition ENOMEM : Z := 12.

(** [SSLSocket::setConnectFd] for a server and for a client: the result, and the
    member [ssl]. *)
Definition ssl_setConnectFd_server (ctx fd : Z) (n : N) : Z * Z * N :=
  let '(ssl, n) := ssl_new ctx n in
  if ssl =? 0 then (ENOMEM, ssl, n)
  else
    let '(ok, n) := ssl_set_fd ssl fd n in
    if negb ok then (1, ssl, n)
    else let '(ok, n) := ssl_accept ssl n in (if ok : bool then 0 else 1, ssl, n).

Definition ssl_setConnectFd_client (ctx fd : Z) (n : N) : Z * Z * N :=
  let '(ssl, n) := ssl_new ctx n in
  if ssl =? 0 then (ENOMEM, ssl, n)
  else
    let '(ok, n) := ssl_set_fd ssl fd n in
    if negb ok then (1, ssl, n)
    else
      let n := ssl_set_tlsext_host_name ssl n in
      let '(ok, n) := ssl_set_host ssl n in
      if negb ok then (1, ssl, n)
      else let '(ok, n) := ssl_connect ssl n in (if ok : bool then 0 else 1, ssl, n).

(** [SSLSocket::close]: the member [ssl] is null afterwards. *)
Definition ssl_close (ssl : Z) (n : N) : Z * N := if ssl =? 0 then (0, n) else (0, ssl_shutdown_free ssl n).

(** What [HttpClient::request] does before it sends: the descriptor of the provider
    and the socket; nothing is released when it fails. *)
Definition ssl_request_connect (ctx : Z) (info : list Z) (n : N) : bool * Z * N :=
  let '(fd, n) := connect_loop info n in
  if fd <? 0 then (false, 0, n)
  else let '(r, ssl, n) := ssl_setConnectFd_client ctx fd n in (r =? 0, ssl, n).
End Net.

(** ** Laws *)

(** The calls that make and release nothing. *)
Inductive quiet_call {N} {net : NetOps N} : (N -> bool * N) -> Prop :=
| q_setsockopt fd : quiet_call (sys_setsockopt fd)
| q_bind fd port : quiet_call (sys_bind fd port)
| q_listen fd : quiet_call (sys_listen fd)
| q_connect fd addr : quiet_call (sys_connect fd addr)
| q_certificate ctx : quiet_call (ssl_ctx_use_certificate ctx)
| q_key ctx : quiet_call (ssl_ctx_use_key ctx)
| q_set_fd ssl fd : quiet_call (ssl_set_fd ssl fd)
| q_set_host ssl : quiet_call (ssl_set_host ssl)
| q_ssl_connect ssl : quiet_call (ssl_connect ssl)
| q_accept ssl : quiet_call (ssl_accept ssl).

Inductive quiet_setting {N} {net : NetOps N} : (N -> N) -> Prop :=
| q_verify_paths ctx : quiet_setting (ssl_ctx_set_default_verify_paths ctx)
| q_verify ctx : quiet_setting (ssl_ctx_set_verify ctx)
| q_tlsext ssl : quiet_setting (ssl_set_tlsext_host_name ssl).

Class NetLaws (N : Type) {net : NetOps N} : Type := {
  fds : N -> gset Z;
  ctxs : N -> gset Z;
  ssls : N -> gset Z;
  (** The contexts that demand a certificate of their peer. *)
  verifying : N -> gset Z;
  setting_law : forall op n, quiet_setting op -> fds (op n) = fds n /\ ctxs (op n) = ctxs n /\ ssls (op n) = ssls n;
  verify_law : forall ctx n, verifying (ssl_ctx_set_verify ctx n) = {[ctx]} ∪ verifying n;
  socket_law : forall n, let '(fd, n') := sys_socket n in ctxs n' = ctxs n /\ ssls n' = ssls n /\
    (fd < 0 /\ fds n' = fds n \/ 0 <= fd /\ (fd ∉ fds n) /\ fds n' = {[fd]} ∪ fds n);
  accept_law : forall fd n, let '(c, n') := sys_accept fd n in ctxs n' = ctxs n /\ ssls n' = ssls n /\
    (c < 0 /\ fds n' = fds n \/ 0 <= c /\ (c ∉ fds n) /\ fds n' = {[c]} ∪ fds n);
  close_law : forall fd n, fds (sys_close fd n) = fds n ∖ {[fd]} /\ ctxs (sys_close fd n) = ctxs n /\ ssls (sys_close fd n) = ssls n;
  ctx_new_law : forall n, let '(c, n') := ssl_ctx_new n in fds n' = fds n /\ ssls n' = ssls n /\
    (c = 0 /\ ctxs n' = ctxs n \/ c <> 0 /\ (c ∉ ctxs n) /\ ctxs n' = {[c]} ∪ ctxs n);
  ctx_free_law : forall c n, fds (ssl_ctx_free c n) = fds n /\ ctxs (ssl_ctx_free c n) = ctxs n ∖ {[c]} /\ ssls (ssl_ctx_free c n) = ssls n;
  ssl_new_law : forall ctx n, let '(s, n') := ssl_new ctx n in fds n' = fds n /\ ctxs n' = ctxs n /\
    (s = 0 /\ ssls n' = ssls n \/ s <> 0 /\ (s ∉ ssls n) /\ ssls n' = {[s]} ∪ ssls n);
  (** [SSL_set_fd] does not hand the descriptor over: [SSL_free] leaves it open. *)
  ssl_free_law : forall s n, fds (ssl_shutdown_free s n) = fds n /\ ctxs (ssl_shutdown_free s n) = ctxs n /\ ssls (ssl_shutdown_free s n) = ssls n ∖ {[s]};
  quiet_law : forall op n, quiet_call op -> fds (op n).2 = fds n /\ ctxs (op n).2 = ctxs n /\ ssls (op n).2 = ssls n;
}.

Section Laws.
Context {N : Type} {net : NetOps N} {laws : NetLaws N}.

(** The same descriptors, contexts and connections are live. *)
Definition same_live (n n' : N) : Prop := fds n' = fds n /\ ctxs n' = ctxs n /\ ssls n' = ssls n.
(** One more descriptor. *)
Definition one_more (fd : Z) (n n' : N) : Prop := 0 <= fd /\ (fd ∉ fds n) /\ fds n' = {[fd]} ∪ fds n /\ ctxs n' = ctxs n /\ ssls n' = ssls n.

Lemma same_live_trans a b c : same_live a b -> same_live b c -> same_live a c.
Proof. intros (H1 & H2 & H3) (H4 & H5 & H6). split; [congruence|]. split; congruence. Qed.
Lemma one_more_same fd a b c : one_more fd a b -> same_live b c -> one_more fd a c.
Proof. intros (H1 & H2 & H3 & H4 & H5) (H6 & H7 & H8). split; [done|]. split; [done|]. split; [congruence|]. split; congruence. Qed.
Lemma one_more_close fd a b : one_more fd a b -> same_live a (sys_close fd b).
Proof.
  intros (H1 & H2 & H3 & H4 & H5). destruct (close_law fd b) as (H6 & H7 & H8).
  split; [|split; congruence]. rewrite H6, H3. apply leibniz_equiv. intros x. rewrite elem_of_difference, elem_of_union, !elem_of_singleton.
  split; [tauto|]. intros Hx. split; [by right|]. by intros ->.
Qed.

Lemma keeps op n ok n' : op n = (ok, n') -> quiet_call op -> same_live n n'.
Proof. intros E Hop. pose proof (quiet_law op n Hop) as H. rewrite E in H. exact H. Qed.

Lemma socket_cases n fd n' : sys_socket n = (fd, n') -> (fd < 0 /\ same_live n n') \/ one_more fd n n'.
Proof.
  intros E. pose proof (socket_law n) as H. rewrite E in H. destruct H as (Hc & Hs & [[Hf Hn]|(Hf & Hfd & Hn)]); [by left | by right].
Qed.

(** [createListeningSocket] leaks no descriptor: when it fails, with a negative
    result, exactly the descriptors from before are open; otherwise there is one more,
    its result. *)
Theorem createListeningSocket_no_leak port n fd n' : createListeningSocket port n = (fd, n') ->
  (fd < 0 /\ same_live n n') \/ one_more fd n n'.
Proof.
  unfold createListeningSocket. destruct (sys_socket n) as [s n1] eqn:E. apply socket_cases in E as Hs.
  destruct (Z.ltb_spec s 0) as [Hneg|Hpos]; [intros [= <- <-]; destruct Hs as [Hs|(H & _)]; [by left | lia]|].
  destruct Hs as [[H _]|Hone]; [lia|].
  destruct (sys_setsockopt s n1) as [ok1 n2] eqn:E1. apply keeps in E1; [|constructor]. pose proof (one_more_same _ _ _ _ Hone E1) as H2.
  destruct ok1; cbn [negb]; [|intros [= <- <-]; left; split; [lia | by apply one_more_close]].
  destruct (sys_bind s (Z.land port 0xffff) n2) as [ok2 n3] eqn:E2. apply keeps in E2; [|constructor]. pose proof (one_more_same _ _ _ _ H2 E2) as H3.
  destruct ok2; cbn [negb]; [|intros [= <- <-]; left; split; [lia | by apply one_more_close]].
  destruct (sys_listen s n3) as [ok3 n4] eqn:E3. apply keeps in E3; [|constructor]. pose proof (one_more_same _ _ _ _ H3 E3) as H4.
  destruct ok3; cbn [negb]; intros [= <- <-]; [by right | left; split; [lia | by apply one_more_close]].
Qed.

Lemma checkSocket_no_leak strerror n r n' : checkSocket strerror n = (r, n') -> same_live n n'.
Proof.
  unfold checkSocket. destruct (sys_socket n) as [s n1] eqn:E. apply socket_cases in E as Hs.
  destruct (Z.ltb_spec s 0) as [Hneg|Hpos]; [intros [= <- <-]; destruct Hs as [[_ Hs]|(H & _)]; [done | lia]|].
  destruct Hs as [[H _]|Hone]; [lia|].
  destruct (sys_listen s n1) as [ok n2] eqn:E1. apply keeps in E1; [|constructor]. pose proof (one_more_same _ _ _ _ Hone E1) as H2.
  destruct ok; cbn [negb]; intros [= <- <-]; by apply one_more_close.
Qed.

(** The descriptors of the attempts that failed stay open. *)
Lemma connect_loop_spec info : forall n fd n', connect_loop info n = (fd, n') ->
  exists leaked, NoDup leaked /\ Forall (fun f => f ∉ fds n) leaked /\ (length leaked <= length info)%nat /\ ctxs n' = ctxs n /\ ssls n' = ssls n /\
    (fd = -1 /\ fds n' = list_to_set leaked ∪ fds n \/ 0 <= fd /\ (fd ∉ fds n) /\ (fd ∉ leaked) /\ fds n' = {[fd]} ∪ (list_to_set leaked ∪ fds n)).
Proof.
  induction info as [|a info IH]; intros n fd n' H; cbn [connect_loop] in H.
  - injection H as <- <-. exists []. split; [constructor|]. split; [done|]. split; [done|]. split; [done|]. split; [done|]. left. split; [done|]. set_solver.
  - destruct (sys_socket n) as [s n1] eqn:E. apply socket_cases in E as Hs. destruct (Z.ltb_spec s 0) as [Hneg|Hpos].
    + destruct Hs as [[_ (Hf & Hc & Hss)]|(H0 & _)]; [|lia]. destruct (IH _ _ _ H) as (lk & H1 & H2 & H3 & H4 & H5 & H6).
      rewrite Hf in *. exists lk. split; [done|]. split; [done|]. split; [simpl; lia|]. split; [congruence|]. split; [congruence|done].
    + destruct Hs as [[H0 _]|Hone]; [lia|]. destruct (sys_connect s a n1) as [ok n2] eqn:E1. apply keeps in E1; [|constructor].
      pose proof (one_more_same _ _ _ _ Hone E1) as (K1 & K2 & K3 & K4 & K5). destruct ok.
      * injection H as <- <-. exists []. split; [constructor|]. split; [done|]. split; [simpl; lia|]. split; [done|]. split; [done|]. right.
        split; [done|]. split; [done|]. split; [by apply not_elem_of_nil|]. rewrite K3. set_solver.
      * destruct (IH _ _ _ H) as (lk & H1 & H2 & H3 & H4 & H5 & H6). rewrite K3 in *. exists (s :: lk).
        assert (Forall (fun f => f <> s /\ f ∉ fds n) lk) as Hlk by (eapply Forall_impl; [exact H2|]; intros f Hf; set_solver).
        split; [constructor; [|done]; intros Hin; rewrite Forall_forall in Hlk; by destruct (Hlk s Hin)|].
        split; [constructor; [done|]; eapply Forall_impl; [exact Hlk|]; tauto|]. split; [simpl; lia|]. split; [congruence|]. split; [congruence|].
        destruct H6 as [[-> H6]|(H6 & H7 & H8 & H9)]; [left | right]; (split; [done|]); [rewrite H6; set_solver|].
        split; [set_solver|]. split; [set_solver|]. rewrite H9. set_solver.
Qed.

Lemma createSSLContext_no_leak n c n' : createSSLContext n = (c, n') ->
  fds n' = fds n /\ ssls n' = ssls n /\ (c = 0 /\ ctxs n' = ctxs n \/ c <> 0 /\ (c ∉ ctxs n) /\ ctxs n' = {[c]} ∪ ctxs n).
Proof.
  unfold createSSLContext. pose proof (ctx_new_law n) as Hn. destruct (ssl_ctx_new n) as [x n1]. destruct Hn as (Hf & Hs & Hx).
  destruct (Z.eqb_spec x 0) as [->|Hne]; [intros [= <- <-]; split; [done|]; split; [done|]; destruct Hx as [[_ Hx]|[Hx _]]; [by left | done]|].
  destruct Hx as [[Hx _]|(_ & Hx & Hc)]; [done|].
  assert (forall m, same_live n1 m -> fds (ssl_ctx_free x m) = fds n /\ ssls (ssl_ctx_free x m) = ssls n /\ ctxs (ssl_ctx_free x m) = ctxs n) as Hfree.
  { intros m (M1 & M2 & M3). destruct (ctx_free_law x m) as (F1 & F2 & F3). split; [congruence|]. split; [congruence|]. rewrite F2, M2, Hc. set_solver. }
  destruct (ssl_ctx_use_certificate x n1) as [ok1 n2] eqn:E1. apply keeps in E1; [|constructor].
  destruct ok1; cbn [negb]; [|intros [= <- <-]; destruct (Hfree n2 E1) as (F1 & F2 & F3); split; [done|]; split; [done|]; by left].
  destruct (ssl_ctx_use_key x n2) as [ok2 n3] eqn:E2. apply keeps in E2; [|constructor]. pose proof (same_live_trans _ _ _ E1 E2) as E12.
  destruct ok2; cbn [negb]; intros [= <- <-].
  - destruct E12 as (M1 & M2 & M3). split; [congruence|]. split; [congruence|]. right. by rewrite M2.
  - destruct (Hfree n3 E12) as (F1 & F2 & F3). split; [done|]. split; [done|]. by left.
Qed.

(** A context of the client demands the certificate of the server. *)
Lemma createClientContext_verifies n c n' : createClientContext n = (c, n') ->
  fds n' = fds n /\ ssls n' = ssls n /\
  (c = 0 /\ ctxs n' = ctxs n \/ c <> 0 /\ (c ∉ ctxs n) /\ ctxs n' = {[c]} ∪ ctxs n /\ (c ∈ verifying n')).
Proof.
  unfold createClientContext. pose proof (ctx_new_law n) as Hn. destruct (ssl_ctx_new n) as [x n1]. destruct Hn as (Hf & Hs & Hx).
  destruct (Z.eqb_spec x 0) as [->|Hne]; [intros [= <- <-]; split; [done|]; split; [done|]; destruct Hx as [[_ Hx]|[Hx _]]; [by left | done]|].
  destruct Hx as [[Hx _]|(_ & Hx & Hc)]; [done|]. intros [= <- <-].
  destruct (setting_law _ n1 (q_verify_paths x)) as (F1 & F2 & F3).
  destruct (setting_law _ (ssl_ctx_set_default_verify_paths x n1) (q_verify x)) as (G1 & G2 & G3).
  split; [congruence|]. split; [congruence|]. right. split; [done|]. split; [done|]. split; [congruence|].
  rewrite verify_law. apply elem_of_union_l. by apply elem_of_singleton.
Qed.

(** A TLS connection that is closed is released once; its descriptor stays open. *)
Lemma ssl_session_leaks_descriptor ctx info n ssl n' :
  ssl_request_connect ctx info n = (true, ssl, n') ->
  ssl <> 0 /\ ssls (ssl_close ssl n').2 = ssls n /\ exists fd, 0 <= fd /\ (fd ∉ fds n) /\ (fd ∈ fds (ssl_close ssl n').2).
Proof.
  unfold ssl_request_connect. destruct (connect_loop info n) as [fd n1] eqn:E. apply connect_loop_spec in E as (lk & _ & _ & _ & _ & Hs1 & Hfd).
  destruct (Z.ltb_spec fd 0); [done|]. destruct Hfd as [[-> _]|(_ & Hnew & _ & Hfds)]; [lia|].
  unfold ssl_setConnectFd_client. pose proof (ssl_new_law ctx n1) as Hn. destruct (ssl_new ctx n1) as [s n2]. destruct Hn as (Hf2 & _ & Hs2).
  destruct (Z.eqb_spec s 0) as [->|Hne]; [intros [=]|]. destruct Hs2 as [[Hs2 _]|(_ & Hsn & Hs2)]; [done|].
  destruct (ssl_set_fd s fd n2) as [ok1 n3] eqn:E1. apply keeps in E1; [|constructor]. destruct ok1; cbn [negb]; [|intros [=]].
  pose proof (setting_law _ n3 (q_tlsext s)) as Et. set (n3' := ssl_set_tlsext_host_name s n3) in *.
  destruct (ssl_set_host s n3') as [ok2 n4] eqn:E2. apply keeps in E2; [|constructor]. destruct ok2; cbn [negb]; [|intros [=]].
  destruct (ssl_connect s n4) as [ok3 n5] eqn:E3. apply keeps in E3; [|constructor]. destruct ok3; [|intros [=]]. intros [= <- <-].
  pose proof (same_live_trans _ _ _ E1 (same_live_trans _ _ _ Et (same_live_trans _ _ _ E2 E3))) as (M1 & M2 & M3).
  split; [done|]. unfold ssl_close. rewrite (proj2 (Z.eqb_neq s 0)) by done. cbn [snd]. destruct (ssl_free_law s n5) as (F1 & F2 & F3).
  split; [rewrite F3, M3, Hs2, Hs1; rewrite Hs1 in Hsn; set_solver|]. exists fd. split; [done|]. split; [done|]. rewrite F1, M1, Hf2, Hfds. set_solver.
Qed.
End Laws.

(** [AptClientHandler::consume] reports whether the whole piece is in the file. *)
Lemma AptClientHandler_saves {W} (sys_write : list Z -> W -> Z * W) (out : W -> list Z) ofd b w :
  write_law sys_write out -> 0 <= ofd ->
  exists ok k w', AptClientHandler_consume (fun bs w => default (0, w) (xwrite sys_write (length bs) 0 bs w)) ofd b w = Done (ok, w') /\
    out w' = out w ++ take k b /\ (ok = true -> take k b = b).
Proof.
  intros Hlaw Ho. destruct (xwrite_writes_prefix sys_write out b w Hlaw) as (r & k & w' & E & Hk & Hout & Hr & _).
  unfold AptClientHandler_consume. rewrite (proj2 (Z.ltb_ge ofd 0)), E by done. cbn [default from_option]. exists (r =? Z.of_nat (length b)), k, w'.
  split; [done|]. split; [done|]. intros Hok. apply Z.eqb_eq in Hok. apply take_ge. destruct Hr as [Hr|[-> Hr]]; lia.
Qed.

(** ** An instance: a process that counts its descriptors *)

Record table_net : Type := MkNet { next : Z; net_fds : gset Z; net_ctxs : gset Z; net_ssls : gset Z; net_verify : gset Z; refuses : Z -> bool }.
Definition net_next (n : table_net) : Z := next n + 1.
Definition count (n : table_net) : table_net := MkNet (net_next n) (net_fds n) (net_ctxs n) (net_ssls n) (net_verify n) (refuses n).

#[export] Instance table_net_ops : NetOps table_net := {
  sys_socket n := if bool_decide (0 <= next n /\ next n ∉ net_fds n)
    then (next n, MkNet (net_next n) ({[next n]} ∪ net_fds n) (net_ctxs n) (net_ssls n) (net_verify n) (refuses n)) else (-1, count n);
  sys_accept _ n := if bool_decide (0 <= next n /\ next n ∉ net_fds n)
    then (next n, MkNet (net_next n) ({[next n]} ∪ net_fds n) (net_ctxs n) (net_ssls n) (net_verify n) (refuses n)) else (-1, count n);
  sys_setsockopt _ n := (true, n); sys_bind _ port n := (negb (refuses n port), n); sys_listen _ n := (true, n);
  sys_connect _ addr n := (negb (refuses n addr), n);
  sys_close fd n := MkNet (next n) (net_fds n ∖ {[fd]}) (net_ctxs n) (net_ssls n) (net_verify n) (refuses n);
  sys_errno _ := 98;
  ssl_ctx_new n := if bool_decide (next n <> 0 /\ next n ∉ net_ctxs n)
    then (next n, MkNet (net_next n) (net_fds n) ({[next n]} ∪ net_ctxs n) (net_ssls n) (net_verify n) (refuses n)) else (0, count n);
  ssl_ctx_use_certificate _ n := (true, n); ssl_ctx_use_key _ n := (true, n);
  ssl_ctx_free c n := MkNet (next n) (net_fds n) (net_ctxs n ∖ {[c]}) (net_ssls n) (net_verify n) (refuses n);
  ssl_ctx_set_default_verify_paths _ n := n;
  ssl_ctx_set_verify c n := MkNet (next n) (net_fds n) (net_ctxs n) (net_ssls n) ({[c]} ∪ net_verify n) (refuses n);
  ssl_set_tlsext_host_name _ n := n;
  ssl_new _ n := if bool_decide (next n <> 0 /\ next n ∉ net_ssls n)
    then (next n, MkNet (net_next n) (net_fds n) (net_ctxs n) ({[next n]} ∪ net_ssls n) (net_verify n) (refuses n)) else (0, count n);
  ssl_set_fd _ _ n := (true, n); ssl_set_host _ n := (true, n); ssl_connect _ n := (true, n); ssl_accept _ n := (true, n);
  ssl_shutdown_free s n := MkNet (next n) (net_fds n) (net_ctxs n) (net_ssls n ∖ {[s]}) (net_verify n) (refuses n) }.

#[export] Program Instance table_net_laws : NetLaws table_net := { fds := net_fds; ctxs := net_ctxs; ssls := net_ssls; verifying := net_verify }.
Next Obligation. intros op n []; done. Qed.
Next Obligation. done. Qed.
Next Obligation. intros n. cbn. case_bool_decide as H; cbn; split_and?; try done; [right | left]; by destruct_and?. Qed.
Next Obligation. intros fd n. cbn. case_bool_decide as H; cbn; split_and?; try done; [right | left]; by destruct_and?. Qed.
Next Obligation. done. Qed.
Next Obligation. intros n. cbn. case_bool_decide as H; cbn; split_and?; try done; [right | left]; by destruct_and?. Qed.
Next Obligation. done. Qed.
Next Obligation. intros ctx n. cbn. case_bool_decide as H; cbn; split_and?; try done; [right | left]; by destruct_and?. Qed.
Next Obligation. done. Qed.
Next Obligation. intros op n []; done. Qed.

(** A host with two addresses of which the first one refuses: its descriptor, 3, stays
    open. *)
Definition demo_net : table_net := MkNet 3 ∅ ∅ ∅ ∅ (fun addr => addr =? 7).
Example connect_leaks : (connect_loop [7; 8] demo_net).1 = 4 /\ bool_decide (3 ∈ net_fds (connect_loop [7; 8] demo_net).2) = true.
Proof. by vm_compute. Qed.
