(* ===== verification/Resources.v ===== *)
(** * Objects that own resources

    The constructors and destructors of [src/apt/libhttpd/httpd.h] and [https-ext.h] (providers,
    head reader, client), the TLS socket, and the helpers of [src/apt]: [buf.h], [defer.h],
    [debug.h].  An object is a value with the effects of its constructor and its
    destructor on the descriptors, TLS objects and mappings of the process. *)
From Stdlib Require Import ZArith Lia.
From stdpp Require Import base tactics list numbers strings gmap.
From S2P Require Import Prelude AptList Apt AptMain Http HttpRead HttpServe HttpTheorems HttpSession HttpKeep HttpNet.
Open Scope Z_scope.

(** ** Providers *)

Section Providers.
Context {N : Type} {net : NetOps N}.

(** The member [sockFd]; [None]: the process ends with [_exit(1)]. *)
Definition InetSocketProvider_new (port : Z) (n : N) : option Z * N :=
  let '(sockFd, n) := createListeningSocket port n in
  if sockFd <? 0 then (None, n) else (Some sockFd, n).
Definition InetSocketProvider_accept (sockFd : Z) (n : N) : Z * N := sys_accept sockFd n.
Definition InetSocketProvider_delete (sockFd : Z) (n : N) : N := sys_close sockFd n.

(** The members [ctx] and [sockFd]. *)
Definition SSLSocketProvider_new (ctx port : Z) (n : N) : option (Z * Z) * N :=
  let '(base, n) := InetSocketProvider_new port n in
  (match base with Some sockFd => Some (ctx, sockFd) | None => None end, n).
(** The body of the destructor; the destructor of the base class runs after it. *)
Definition SSLSocketProvider_body (ctx sockFd : Z) (n : N) : N := sys_close sockFd (ssl_ctx_free ctx n).
Definition SSLSocketProvider_delete (ctx sockFd : Z) (n : N) : N :=
  InetSocketProvider_delete sockFd (SSLSocketProvider_body ctx sockFd n).

(** [sprintf("%d")]. *)
Definition print_int (i : Z) : str := if i <? 0 then 45 :: decimal (- i) else decimal i.

(** [getaddrinfo] gives the addresses of a host; the list is the member [info]. *)
Variable getaddrinfo : str -> str -> option (list Z).
Definition HttpClientProvider_new (host : str) (port : Z) : option (list Z) := getaddrinfo host (print_int port).

(** The members [info], [ctx] and [host]. *)
Record SSLClientProvider : Type := MkSSLClient { scp_info : list Z; scp_ctx : Z; getHost : str }.
Definition SSLClientProvider_new (myHost : str) (port : Z) (n : N) : outcome (option SSLClientProvider * N) :=
  match HttpClientProvider_new myHost port with
  | None => Done (None, n)
  | Some info =>
      let '(ctx, n) := createClientContext n in
      if ctx =? 0 then AssertFail else Done (Some (MkSSLClient info ctx myHost), n)
  end.
Definition SSLClientProvider_delete (p : SSLClientProvider) (n : N) : N := ssl_ctx_free (scp_ctx p) n.

(** [testCreateSSLProvider]; the calls on null pointers at its end do nothing. *)
Definition testCreateSSLProvider (n : N) : outcome N :=
  let '(ctx, n) := createSSLContext n in
  if ctx =? 0 then AssertFail
  else
    let n := ssl_ctx_free ctx n in
    let '(ctx, n) := createClientContext n in
    if ctx =? 0 then AssertFail else Done (ssl_ctx_free ctx n).

(** [testCreateClientProvider]; [None]: [_exit(1)]. *)
Definition check_connect (info : list Z) (n : N) : outcome N :=
  let '(connFd, n) := connect_loop info n in
  if connFd <? 0 then AssertFail else Done (sys_close connFd n).
Definition testCreateClientProvider (n : N) : outcome (option N) :=
  match HttpClientProvider_new (c_str "archive.ubuntu.com") 80 with
  | None => Done None
  | Some info =>
      bind_out (check_connect info n) (fun n =>
      bind_out (SSLClientProvider_new (c_str "bing.com") 443 n) (fun '(p, n) =>
      match p with
      | None => Done None
      | Some p => bind_out (check_connect (scp_info p) n) (fun n => Done (Some (SSLClientProvider_delete p n)))
      end))
  end.
End Providers.

Section ProviderLaws.
Context {N : Type} {net : NetOps N} {laws : NetLaws N}.

(** A listening provider that is made and deleted leaves the descriptors as they were;
    when it cannot listen, the process ends with no new descriptor. *)
Theorem InetSocketProvider_lifecycle port n p n' : InetSocketProvider_new port n = (p, n') ->
  match p with Some fd => one_more fd n n' /\ same_live n (InetSocketProvider_delete fd n') | None => same_live n n' end.
Proof.
  unfold InetSocketProvider_new. destruct (createListeningSocket port n) as [fd n1] eqn:E.
  apply createListeningSocket_no_leak in E.
  destruct (Z.ltb_spec fd 0); intros [= <- <-]; destruct E as [[? H1]|H1]; try done; try lia.
  - destruct H1 as [? _]. lia.
  - split; [done|]. by apply one_more_close.
Qed.

(** The destructor of the TLS provider closes [sockFd] twice.  When another thread opens
    a descriptor in between and the system gives it the same number, the second
    [close] closes that one. *)
Theorem SSLSocketProvider_double_close ctx fd n other n' :
  sys_socket (SSLSocketProvider_body ctx fd n) = (other, n') -> 0 <= other -> other = fd ->
  (other ∈ fds n') /\ (other ∉ fds (InetSocketProvider_delete fd n')).
Proof.
  intros E Ho ->. apply socket_cases in E as [[? _]|(_ & _ & Hf & _)]; [lia|]. rewrite Hf.
  split; [set_solver|]. unfold InetSocketProvider_delete. destruct (close_law fd n') as (-> & _). set_solver.
Qed.

(** A TLS client provider releases its context, which demands a certificate. *)
Theorem SSLClientProvider_lifecycle getaddrinfo host port n p n' :
  SSLClientProvider_new getaddrinfo host port n = Done (Some p, n') ->
  (scp_ctx p ∈ verifying n') /\ (scp_ctx p ∉ ctxs n) /\ (scp_ctx p ∈ ctxs n') /\ same_live n (SSLClientProvider_delete p n').
Proof.
  unfold SSLClientProvider_new. destruct (HttpClientProvider_new _ _ _) as [info|]; [|done].
  destruct (createClientContext n) as [c n1] eqn:E. apply createClientContext_verifies in E as (F1 & F2 & Hc).
  destruct (Z.eqb_spec c 0) as [->|Hne]; [done|]. intros [= <- <-]. destruct Hc as [[? _]|(_ & H1 & H2 & H3)]; [done|].
  cbn [scp_ctx]. split; [done|]. split; [done|]. split; [set_solver|]. unfold SSLClientProvider_delete, same_live. cbn [scp_ctx].
  destruct (ctx_free_law c n1) as (G1 & G2 & G3). split; [congruence|]. split; [|congruence]. rewrite G2, H2. set_solver.
Qed.

(** The first test of the TLS providers leaks nothing. *)
Theorem testCreateSSLProvider_no_leak n n' : testCreateSSLProvider n = Done n' -> same_live n n'.
Proof.
  unfold testCreateSSLProvider. destruct (createSSLContext n) as [c n1] eqn:E. apply createSSLContext_no_leak in E as (F1 & F2 & Hc).
  destruct (Z.eqb_spec c 0); [done|]. destruct Hc as [[? _]|(_ & C1 & C2)]; [done|].
  destruct (ctx_free_law c n1) as (G1 & G2 & G3). set (n2 := ssl_ctx_free c n1) in *.
  destruct (createClientContext n2) as [c' n3] eqn:E. apply createClientContext_verifies in E as (F1' & F2' & Hc').
  destruct (Z.eqb_spec c' 0); [done|]. destruct Hc' as [[? _]|(_ & C1' & C2' & _)]; [done|]. intros [= <-].
  destruct (ctx_free_law c' n3) as (K1 & K2 & K3). split; [congruence|]. split; [|congruence].
  rewrite K2, C2', G2, C2. rewrite G2, C2 in C1'. set_solver.
Qed.
End ProviderLaws.

(** The port of a provider fits the buffer of 24 characters that it is printed into. *)
Lemma decimal_loop_length fuel : forall n acc k, 0 <= n < 10 ^ Z.of_nat k -> (length (decimal_loop fuel n acc) <= k + length acc)%nat.
Proof.
  induction fuel as [|fuel IH]; intros n acc k Hn; cbn [decimal_loop]; [lia|].
  destruct (Z.eqb_spec n 0); [lia|]. destruct k as [|k]; [simpl in Hn; lia|].
  rewrite Nat2Z.inj_succ, Z.pow_succ_r in Hn by lia.
  assert (0 <= n / 10 < 10 ^ Z.of_nat k) as Hd by (split; [apply Z.div_pos; lia | apply Z.div_lt_upper_bound; lia]).
  specialize (IH (n / 10) (48 + n mod 10 :: acc) k Hd). cbn [length] in IH. rewrite Nat.add_succ_r in IH. exact IH.
Qed.

Theorem print_int_fits i : - 2 ^ 31 <= i < 2 ^ 31 -> (length (print_int i) < 24)%nat.
Proof.
  intros Hi. assert (forall n, 0 <= n <= 2 ^ 31 -> (length (decimal n) <= 10)%nat) as H.
  { intros n Hn. unfold decimal. destruct (n =? 0); [simpl; lia|].
    pose proof (decimal_loop_length (Datatypes.S (Z.to_nat (Z.log2 n))) n [] 10 ltac:(lia)) as Hl. change (length (@nil Z)) with 0%nat in Hl. lia. }
  unfold print_int. destruct (Z.ltb_spec i 0); [pose proof (H (- i) ltac:(lia)); simpl; lia|]. pose proof (H i ltac:(lia)). lia.
Qed.

(** ** The client *)

Section Client.
Context {S : Type} {sock : SocketOps S} {laws : SocketLaws S} {H : Type}.
Abbreviation client := (@client S H).

Definition HttpClient_closed (cl : client) : bool := negb (connected cl).
Definition HttpClient_delete (cl : client) : S :=
  if connected cl then sk_close (socket (cl_conn cl)) else socket (cl_conn cl).

(** However a sequence of requests ends, with a connection that is kept or with one that is
    closed, the socket is closed when the client is deleted, and nothing more is sent. *)
Theorem requests_then_delete size (client_consume : list Z -> H -> bool * H) eat connect host fuel d ds (cl : client) (s : S) :
  0 < size ->
  (forall bs h, client_consume bs h = (true, eat bs h)) -> (forall a b h, eat (a ++ b) h = eat b (eat a h)) -> (forall h, eat [] h = h) ->
  Forall (fun d => good_download d fuel) (d :: ds) -> all_kept (d :: ds) ->
  request_socket connect cl = (true, s) -> awaits (d_response <$> d :: ds) s ->
  exists cl' r, run_requests size client_consume connect host fuel (d :: ds) cl = Done (r, cl') /\
    is_closed (HttpClient_delete cl') = true /\ output (HttpClient_delete cl') = output s ++ concat (d_request host <$> d :: ds).
Proof.
  intros Hsize C1 C2 C3 Hg Hk Hr Ha.
  destruct (run_requests_spec size Hsize client_consume eat C1 C2 C3 connect host fuel ds d cl s Hg Hk Hr Ha)
    as (cl' & E & Ho & _ & _ & Hcl). exists cl'. eexists. split; [exact E|]. unfold HttpClient_delete.
  destruct (connected cl'); [|by split; [apply Hcl|]].
  destruct (close_keeps (socket (cl_conn cl'))) as [Hc Hco]. by rewrite Hco.
Qed.
End Client.

(** ** TLS sockets *)

(** An [int] from a [size_t]. *)
Definition s32 (z : Z) : Z := let u := u32 z in if u <? 2 ^ 31 then u else u - 2 ^ 32.

Section Tls.
Context {N : Type} {net : NetOps N}.
(** [SSL_read] and [SSL_write] of a connection; the second number is the argument
    [num]. *)
Context (SSL_read : Z -> Z -> N -> option (list Z) * N) (SSL_write : Z -> list Z -> Z -> N -> Z * N).

(** The state of a socket: the member [ssl], null or not, and the process. *)
Definition SSLSocket_read (len : Z) (s : Z * N) : option (list Z) * (Z * N) :=
  let '(r, n) := SSL_read s.1 (s32 len) s.2 in (r, (s.1, n)).
Definition SSLSocket_write (bs : list Z) (s : Z * N) : Z * (Z * N) :=
  let '(r, n) := SSL_write s.1 bs (s32 (Z.of_nat (length bs))) s.2 in (r, (s.1, n)).
#[local] Instance SSLSocket : SocketOps (Z * N) := {
  sk_read := SSLSocket_read;
  sk_write := SSLSocket_write;
  sk_error s := sys_errno s.2;
  sk_close s := ssl_close s.1 s.2;
}.

(** The length is passed on as it is up to 2 GiB; from there on it is a negative number or a
    shorter one. *)
Theorem SSLSocket_length s bs len :
  (0 <= len < 2 ^ 31 -> sk_read len s = let '(r, n) := SSL_read s.1 len s.2 in (r, (s.1, n))) /\
  (Z.of_nat (length bs) < 2 ^ 31 -> sk_write bs s = let '(r, n) := SSL_write s.1 bs (Z.of_nat (length bs)) s.2 in (r, (s.1, n))) /\
  (2 ^ 31 <= len < 2 ^ 32 -> s32 len < 0).
Proof.
  assert (forall z, 0 <= z < 2 ^ 31 -> s32 z = z) as Hid.
  { intros z Hz. unfold s32. rewrite u32_id by lia. by rewrite (proj2 (Z.ltb_lt _ _)) by lia. }
  cbn [sk_read sk_write SSLSocket]. split; [|split].
  - intros Hl. unfold SSLSocket_read. by rewrite Hid.
  - intros Hl. unfold SSLSocket_write. by rewrite Hid by lia.
  - intros Hl. unfold s32. rewrite u32_id by lia. destruct (Z.ltb_spec len (2 ^ 31)); lia.
Qed.

(** [close] releases the TLS object once, whether it is called once or twice, and never the
    descriptor. *)
Theorem SSLSocket_close_twice {laws : NetLaws N} s :
  sk_close (sk_close s) = sk_close s /\ fds (sk_close s).2 = fds s.2 /\
  ssls (sk_close s).2 = if s.1 =? 0 then ssls s.2 else ssls s.2 ∖ {[s.1]}.
Proof.
  destruct s as [x n]. cbn. unfold ssl_close. destruct (Z.eqb_spec x 0) as [->|Hx]; [done|]. cbn.
  destruct (ssl_free_law x n) as (F1 & _ & F3). by split.
Qed.
End Tls.

(** ** Buffers *)

(** Anonymous private mappings; [-1] is [MAP_FAILED]. *)
Class MapOps (M : Type) : Type := {
  map_anon : Z -> M -> Z * M;
  map_free : Z -> Z -> M -> M;
}.
(** [maps] are the live mappings with their sizes. *)
Class MapLaws (M : Type) {mapping : MapOps M} : Type := {
  maps : M -> gmap Z Z;
  map_anon_law : forall len m, let '(a, m') := map_anon len m in
    a = -1 /\ maps m' = maps m \/ a <> -1 /\ maps m !! a = None /\ maps m' = <[a := len]> (maps m);
  map_free_law : forall a len m, a <> -1 -> maps m !! a = Some len -> maps (map_free a len m) = delete a (maps m);
  map_free_failed : forall len m, maps (map_free (-1) len m) = maps m;
}.

Section Buffers.
Context {M : Type} {mapping : MapOps M}.

(** The members [buffer] and [size] of a reader; [None]: [_exit(1)]. *)
Definition HttpHeadReader_new (pagesize nPages : Z) (m : M) : option (Z * Z) * M :=
  let size := nPages * pagesize in
  let '(buffer, m) := map_anon size m in
  if buffer =? -1 then (None, m) else (Some (buffer, size), m).
Definition HttpHeadReader_delete (r : Z * Z) (m : M) : M := map_free r.1 r.2 m.

Definition BUFSZ : Z := 8192.
(** The members [in_buf_] and [out_buf_]. *)
Definition SharedBuf_new (m : M) : Z * Z * M :=
  let '(in_buf_, m) := map_anon BUFSZ m in
  let '(out_buf_, m) := map_anon BUFSZ m in (in_buf_, out_buf_, m).
Definition SharedBuf_delete (b : Z * Z) (m : M) : M := map_free b.2 BUFSZ (map_free b.1 BUFSZ m).

Context {laws : MapLaws M}.

Lemma map_free_new a len m m' : map_anon len m = (a, m') -> maps (map_free a len m') = maps m.
Proof.
  intros E. pose proof (map_anon_law len m) as H. rewrite E in H. destruct H as [[-> H]|(H1 & H2 & H3)].
  - by rewrite map_free_failed.
  - rewrite map_free_law by (try done; by rewrite H3, lookup_insert_eq). by rewrite H3, delete_insert_id.
Qed.

(** A reader owns a buffer of its size, which is not null, and gives it back. *)
Theorem HttpHeadReader_lifecycle pagesize nPages m r m' : HttpHeadReader_new pagesize nPages m = (r, m') ->
  match r with
  | Some (buffer, size) => maps m' = <[buffer := size]> (maps m) /\ maps m !! buffer = None /\ size = nPages * pagesize /\
      maps (HttpHeadReader_delete (buffer, size) m') = maps m
  | None => maps m' = maps m
  end.
Proof.
  unfold HttpHeadReader_new. destruct (map_anon (nPages * pagesize) m) as [a m1] eqn:E.
  pose proof (map_anon_law (nPages * pagesize) m) as H. rewrite E in H.
  destruct (Z.eqb_spec a (-1)) as [->|Hne]; intros [= <- <-]; destruct H as [[H1 H2]|(H1 & H2 & H3)]; try done.
  split; [done|]. split; [done|]. split; [done|]. by apply (map_free_new a (nPages * pagesize)).
Qed.

(** The two buffers are different when both were mapped; deleting the pair gives back what was
    mapped, also when one or both of the mappings failed. *)
Theorem SharedBuf_lifecycle m a b m' : SharedBuf_new m = (a, b, m') ->
  maps (SharedBuf_delete (a, b) m') = maps m /\ (a <> -1 -> a <> b).
Proof.
  unfold SharedBuf_new, SharedBuf_delete. destruct (map_anon BUFSZ m) as [x m1] eqn:E1. destruct (map_anon BUFSZ m1) as [y m2] eqn:E2.
  intros [= <- <- <-]. cbn [fst snd]. pose proof (map_anon_law BUFSZ m) as H1. pose proof (map_anon_law BUFSZ m1) as H2.
  rewrite E1 in H1. rewrite E2 in H2.
  destruct H1 as [[-> A]|(A1 & A2 & A3)]; destruct H2 as [[-> B]|(B1 & B2 & B3)].
  - rewrite !map_free_failed. split; [congruence|done].
  - rewrite (map_free_law y) by (try done; by rewrite map_free_failed, B3, lookup_insert_eq).
    rewrite map_free_failed, B3, A in *. by rewrite delete_insert_id.
  - rewrite map_free_failed. rewrite (map_free_law x) by (try done; by rewrite B, A3, lookup_insert_eq).
    by rewrite B, A3, delete_insert_id.
  - assert (x <> y) as Hxy by (intros ->; rewrite A3, lookup_insert_eq in B2; done).
    assert (maps (map_free x BUFSZ m2) = <[y := BUFSZ]> (maps m)) as E.
    { rewrite map_free_law by (try done; by rewrite B3, lookup_insert_ne, A3, lookup_insert_eq).
      by rewrite B3, A3, delete_insert_ne, delete_insert_id. }
    split; [|done]. rewrite map_free_law by (try done; by rewrite E, lookup_insert_eq). rewrite E.
    rewrite A3, lookup_insert_ne in B2 by done. by rewrite delete_insert_id.
Qed.
End Buffers.

(** ** [defer.h] *)

(** The statements of a block over a state [W]: [defer(s)] makes an object whose
    destructor runs [s] when the block ends, by its last statement or by [return]. *)
Inductive block_statement (W : Type) : Type := Do (f : W -> W) | Defer (f : W -> W) | Return.
Arguments Do {W}.
Arguments Defer {W}.
Arguments Return {W}.
Fixpoint run_block {W} (b : list (block_statement W)) (w : W) : W :=
  match b with
  | [] => w
  | Do f :: b => run_block b (f w)
  | Defer f :: b => f (run_block b w)
  | Return :: _ => w
  end.

(** The statements that are reached. *)
Fixpoint reached {W} (b : list (block_statement W)) : list (block_statement W) :=
  match b with [] | Return :: _ => [] | s :: b => s :: reached b end.
Definition actions {W} (b : list (block_statement W)) : list (W -> W) :=
  omap (fun s => match s with Do f => Some f | _ => None end) (reached b).
Definition deferred {W} (b : list (block_statement W)) : list (W -> W) :=
  omap (fun s => match s with Defer f => Some f | _ => None end) (reached b).
Definition run_all {W} (fs : list (W -> W)) (w : W) : W := foldl (fun w f => f w) w fs.

(** A block runs its statements in order, up to the [return] that ends it, and then what was
    deferred on the way, once each and the last one first. *)
Theorem run_block_defers {W} (b : list (block_statement W)) w :
  run_block b w = run_all (reverse (deferred b)) (run_all (actions b) w).
Proof.
  revert w. induction b as [|[f|f|] b IH]; intros w; try done; cbn [run_block].
  - by rewrite IH.
  - rewrite IH. unfold deferred, run_all. cbn [reached omap list_omap]. by rewrite reverse_cons, foldl_app.
Qed.

(** ** [debug.h] *)

(** The member [stat_], and what is written to [stderr]. *)
Definition Debug_log (stat_ : bool) (text : str) (stderr : str) : str := if stat_ then stderr ++ text else stderr.
Inductive debug_call : Type := On | Off | Log (text : str).
Definition debug_step (d : bool * str) (c : debug_call) : bool * str :=
  match c with On => (true, d.2) | Off => (false, d.2) | Log t => (d.1, Debug_log d.1 t d.2) end.

(** Until [on] is called, nothing is written. *)
Lemma debug_silent cs : On ∉ cs -> forall err, foldl debug_step (false, err) cs = (false, err).
Proof.
  induction cs as [|c cs IH]; intros Hn err; [done|]. apply not_elem_of_cons in Hn as [Hc Hn].
  destruct c; [done | by apply IH | by apply IH].
Qed.

(** ** Examples *)

Example defer_order : run_block [Defer (fun w => w ++ [1]); Do (fun w => w ++ [2]); Defer (fun w => w ++ [3]); Return; Do (fun w => w ++ [4])] [] = [2; 3; 1].
Proof. done. Qed.

(** The number 3 is given out again between the two calls of [close]. *)
Definition reuse_net : table_net := MkNet 3 {[3]} {[9]} ∅ ∅ (fun _ => false).
Lemma SSLSocketProvider_double_close_witness :
  let '(other, n') := sys_socket (SSLSocketProvider_body 9 3 reuse_net) in
  other = 3 /\ (3 ∉ fds (InetSocketProvider_delete 3 n')).
Proof.
  destruct (sys_socket (SSLSocketProvider_body 9 3 reuse_net)) as [other n'] eqn:E.
  assert (other = 3) as -> by (vm_compute in E; congruence). split; [done|].
  exact (proj2 (SSLSocketProvider_double_close 9 3 reuse_net 3 n' E ltac:(lia) eq_refl)).
Defined.

Example test_providers : exists n, testCreateSSLProvider demo_net = Done n /\ net_ctxs n = ∅.
Proof. eexists. split; [by vm_compute|]. by vm_compute. Qed.
