(* ===== verification/HttpTests.v ===== *)
(** * The tests of the HTTP library: [src/apt/libhttpd/httpd-test.cpp]

    The sockets, readers and handlers of the tests, which follow the laws of the
    interfaces, and the tests that need no network, run on the model. *)
From Stdlib Require Import ZArith Lia.
From stdpp Require Import base tactics list numbers strings gmap.
From S2P Require Import Prelude AptList AptListTheorems Apt AptMain Http HttpRead HttpServe HttpTheorems HttpSession HttpKeep.
Open Scope Z_scope.

(** ** [StringSocket] *)

Record StringSocket : Type := MkString { ss_data : list Z; ss_offset : nat; writtenData : list Z; ss_closed : bool }.

Definition ss_read (len : Z) (s : StringSocket) : option (list Z) * StringSocket :=
  if (length (ss_data s) <=? ss_offset s)%nat then (Some [], s)
  else
    let toRead := Nat.min (Z.to_nat len) (length (ss_data s) - ss_offset s) in
    (Some (take toRead (drop (ss_offset s) (ss_data s))),
     MkString (ss_data s) (ss_offset s + toRead) (writtenData s) (ss_closed s)).
Definition ss_write (bs : list Z) (s : StringSocket) : Z * StringSocket :=
  (Z.of_nat (length bs), MkString (ss_data s) (ss_offset s) (writtenData s ++ bs) (ss_closed s)).
Definition ss_close (s : StringSocket) : StringSocket := MkString (ss_data s) (ss_offset s) (writtenData s) true.
Definition string_socket (data : list Z) : StringSocket := MkString data 0 [] false.

#[export] Instance string_socket_ops : SocketOps StringSocket := {
  sk_read := ss_read; sk_write := ss_write; sk_error _ := 0; sk_close := ss_close }.

(** ** [FakeHttpHeadReader]: the lines that are left *)

Definition FakeHttpHeadReader : Type := list str.
Definition fake_nextLine : cmd FakeHttpHeadReader str := fun lines =>
  match lines with [] => Done ([], []) | line :: lines => Done (line, lines) end.

(** ** Handlers *)

(** [CountingClientHandler]: the state is the sum of the lengths; the counter is that
    sum modulo 2^64. *)
Definition counting_consume (b : list Z) (sum : Z) : bool * Z := (true, sum + Z.of_nat (length b)).
Definition received (sum : Z) : Z := u64 sum.
(** [HelloHandler] *)

Definition hello_text : list Z :=
  c_str "HTTP/1.1 200 OK" ++ crlf ++ c_str "Connection: close" ++ crlf ++ c_str "Content-Type: text/plain" ++ crlf ++
  c_str "Content-Length: 12" ++ crlf ++ crlf ++ c_str "Hello world" ++ [10].
(** Its state are the members [method] and [path] of [HttpHandler]; the connection is
    closed by default. *)
Definition HelloHandler : HttpHandler (HttpMethodType * str) :=
  MkHandler (fun method path _ _ => (method, path)) (fun _ h => (false, h)) (fun h => ([SWrite hello_text], h)) (fun _ => true).

(** ** Tests *)

(** [strncmp] of [n] characters equals 0. *)
Fixpoint strncmp_eq (n : nat) (a b : list Z) : bool :=
  match n with
  | O => true
  | S n => let x := hd 0 a in let y := hd 0 b in (x =? y) && ((x =? 0) || strncmp_eq n (tl a) (tl b))
  end.
(** The data of the vectors that the tests compare is null when the vector is empty. *)
Definition VecEq (vec s : list Z) : bool :=
  match vec with [] => hd 0 s =? 0 | _ :: _ => strncmp_eq (length vec) vec s end.

Definition reader_of (data : list Z) : @conn StringSocket := reset (MkConn (MkReader [] 0 0) (string_socket data)).

(** A test runs until an assertion fails; [abort] counts as a failed assertion. *)
Definition test_line : cmd (@conn StringSocket) str := nextLine 65536 100 [].
Fixpoint expect_lines (check_error : bool) (lines : list str) : cmd (@conn StringSocket) unit :=
  match lines with
  | [] => mret tt
  | l :: lines =>
      line ← test_line;
      c_assert (VecEq line l) ;;
      (if check_error then e ← getLastError; c_assert (e =? 0) else mret tt) ;;
      expect_lines check_error lines
  end.
Definition passes {T A} (test : cmd T A) (t : T) : bool := match test t with Done _ => true | _ => false end.

Definition test_head : list Z :=
  c_str "GET / HTTP/1.1" ++ crlf ++ c_str "Host: fudanyrd.com" ++ crlf ++ c_str "Accept Encoding: */*" ++ crlf.
Definition test_lines : list str := [c_str "GET / HTTP/1.1"; c_str "Host: fudanyrd.com"; c_str "Accept Encoding: */*"].

Definition testHeadValid : bool := passes (expect_lines true (test_lines ++ [[]])) (reader_of (test_head ++ crlf)).
Definition testHeadInvalid : bool :=
  passes (expect_lines false test_lines ;; line ← test_line; e ← getLastError; c_assert (e =? EINVAL)) (reader_of test_head).
Definition testHeadInvalid2 : bool :=
  passes (expect_lines false test_lines ;; line ← test_line; c_assert (bool_decide (line = [])) ;;
          e ← getLastError; c_assert (e =? EINVAL)) (reader_of (test_head ++ c_str "Incomplete")).

Definition parse_lines : list str :=
  [c_str "GET /static/next.js HTTP/1.1"; c_str "Host: fudanyrd.com"; c_str "Accept: */*"; c_str "Connection: close"; c_str "Content-Length: 0"].
Definition testHeadParse : bool :=
  passes (h ← parse_with fake_nextLine 10 empty_table; c_assert (isValid h) ;;
          c_assert (VecEq (h_method h) (c_str "GET")) ;; c_assert (VecEq (h_path h) (c_str "/static/next.js")) ;;
          c_assert (VecEq (get_field (h_table h) CONNECTION) (c_str "close")) ;;
          c_assert (VecEq (get_field (h_table h) CONTENT_LENGTH) (c_str "0"))) parse_lines.
Definition testSocketStream : bool :=
  str_eqb (writtenData (st_socket (flush (foldl (run_op 32) (MkStream [] (string_socket (c_str "ok")))
    [SWrite (c_str "foo "); SWrite (decimal 12345678); SWrite (c_str "bar" ++ [10])]))))
    (c_str "foo 12345678bar" ++ [10]).

(** The request of [testHttpd], and what its server writes. *)
Definition hello_request : list Z := c_str "GET / HTTP/1.1" ++ crlf ++ c_str "Host: localhost" ++ crlf ++ c_str "Accept: */*" ++ crlf ++ crlf.
Definition hello_response : outcome (HttpMethodType * str * StringSocket) :=
  handleRequest 65536 HelloHandler 2 200 (INVALID, []) (reader_of hello_request).

(** The template of the client tests: one request that keeps the connection, and one
    that closes it. *)
Section ClientTest.
Context {S : Type} {sock : SocketOps S} (connect : S -> bool * S) (host : str) (expectedSize : Z) (fuel : nat).
Definition test_request (is_last : bool) (cl : @client S Z) : outcome (@client S Z) :=
  bind_out (request 65536 counting_consume connect host fuel GET [47; 0] is_last cl) (fun '(r, cl) =>
  if r =? 0 then Done cl else AssertFail).
Definition testClientTmpl (cl : @client S Z) : outcome unit :=
  bind_out (test_request false cl) (fun cl =>
  if negb (connected cl) then AssertFail
  else
    let fileSize := received (cl_handler cl) in
    if negb (fileSize =? expectedSize) then AssertFail
    else
      bind_out (test_request true cl) (fun cl =>
      if connected cl then AssertFail
      else if received (cl_handler cl) =? u64 (fileSize * 2) then Done tt else AssertFail)).
End ClientTest.

(** ** The runner: [httpTestResult], [HTTP_RUN_TEST] and [main] *)

(** [fork] fails with an [errno], or the child ends with a status. *)
Inductive forked : Type := ForkFails (errno : Z) | Ends (wstatus : Z).
Definition WIFEXITED (wstatus : Z) : bool := Z.land wstatus 127 =? 0.
Definition httpTestResult (f : forked) : Z :=
  match f with
  | ForkFails errno => errno
  | Ends wstatus => if WIFEXITED wstatus then WEXITSTATUS wstatus else -1
  end.

(** The static variables. *)
Record results : Type := MkResults { numSuccess : nat; numFailure : nat; failedTests : list str }.
Definition httpRecordTestSuccess (r : results) : results := MkResults (S (numSuccess r)) (numFailure r) (failedTests r).
Definition httpRecordTestFailure (name : str) (r : results) : results :=
  MkResults (numSuccess r) (S (numFailure r)) (failedTests r ++ [name]).
Definition run_test (r : results) (t : str * forked) : results :=
  if httpTestResult t.2 =? 0 then httpRecordTestSuccess r else httpRecordTestFailure t.1 r.

(** [main]: the results that it prints, and its exit code. *)
Definition tests_main (tests : list (str * forked)) : results * Z :=
  let r := foldl run_test (MkResults 0 0 []) tests in
  (r, if Nat.eqb (numFailure r) 0 then 0 else 1).

(** ** Theorems *)

#[export] Program Instance string_socket_laws : SocketLaws StringSocket := {
  input s := drop (ss_offset s) (ss_data s); script _ := []; output := writtenData; is_closed := ss_closed }.
Next Obligation.
  intros n [data off out c] Hn Hi. cbn in *. unfold ss_read. cbn [ss_data ss_offset writtenData ss_closed].
  destruct (Nat.leb_spec (length data) off); [exfalso; apply Hi, drop_ge; lia|].
  set (k := Nat.min (Z.to_nat n) (length data - off)). do 2 eexists. split; [done|]. cbn [ss_data ss_offset writtenData ss_closed].
  rewrite length_take, length_drop. split; [|split; [lia|]].
  - intros E. apply (f_equal length) in E. rewrite length_take, length_drop in E. simpl in E. lia.
  - split; [|done]. by rewrite <- drop_drop, take_drop.
Qed.
Next Obligation. done. Qed.
Next Obligation.
  intros n [data off out c] Hi _. cbn in *. unfold ss_read. cbn [ss_data ss_offset writtenData ss_closed].
  apply (f_equal length) in Hi as Hl. rewrite length_drop in Hl. simpl in Hl. rewrite (proj2 (Nat.leb_le _ _)) by lia. by eexists.
Qed.
Next Obligation. intros bs s. by eexists. Qed.
Next Obligation. done. Qed.

(** The tests of the parser and of the stream succeed. *)
Lemma tests_succeed : testHeadValid && testHeadInvalid && testHeadInvalid2 && testHeadParse && testSocketStream = true.
Proof. by vm_compute. Qed.

(** [testHttpd]: the client gets the text, then the end of the connection. *)
Lemma hello_responds : exists h s, hello_response = Done (h, s) /\ h = (GET, [47; 0]) /\ writtenData s = hello_text /\ ss_closed s = true.
Proof. eexists _, _. by vm_compute. Qed.

(** The runner counts every test once, and fails exactly when a test does. *)
Definition failing (t : str * forked) : bool := negb (httpTestResult t.2 =? 0).
Lemma run_tests_spec tests : forall r, foldl run_test r tests =
  MkResults (numSuccess r + length (filter (fun t => failing t = false) tests)) (numFailure r + length (filter (fun t => failing t = true) tests))
    (failedTests r ++ (filter (fun t => failing t = true) tests).*1).
Proof.
  induction tests as [|t tests IH]; intros [a b l]; cbn [foldl].
  - by rewrite !filter_nil, fmap_nil, app_nil_r, !Nat.add_0_r.
  - rewrite IH, !filter_cons. unfold run_test. assert (failing t = negb (httpTestResult t.2 =? 0)) as Hf by done.
    destruct (httpTestResult t.2 =? 0); cbn [negb] in Hf; rewrite Hf; cbn; f_equal; try lia; by rewrite <- ?app_assoc.
Qed.
Theorem tests_main_verdict tests :
  let '(r, code) := tests_main tests in
  (numSuccess r + numFailure r)%nat = length tests /\
  failedTests r = (filter (fun t => failing t = true) tests).*1 /\
  (code = 0 <-> Forall (fun t => httpTestResult t.2 = 0) tests).
Proof.
  unfold tests_main. rewrite run_tests_spec. cbn. split; [|split; [done|]].
  - induction tests as [|t tests IH]; [done|]. rewrite !filter_cons. destruct (failing t); repeat case_decide; try done; simpl; lia.
  - induction tests as [|t tests IH]; [split; constructor|]. rewrite filter_cons, Forall_cons.
    assert (failing t = negb (httpTestResult t.2 =? 0)) as Hf by done.
    destruct (Z.eqb_spec (httpTestResult t.2) 0); rewrite Hf; case_decide; try done; simpl; [tauto|]. split; [done | tauto].
Qed.

(** The template succeeds with a server that answers both requests with a page of the
    expected size, keeps the connection after the first one and leaves it to the client
    to close it after the second one. *)
Lemma testClientTmpl_succeeds {S} {sock : SocketOps S} {laws : SocketLaws S} connect host fuel r d1 d2 (s : S) :
  good_download d1 fuel -> good_download d2 fuel -> length (d_body d1) = length (d_body d2) -> Z.of_nat (length (d_body d1)) < 2 ^ 64 ->
  d_method d1 = GET -> d_path d1 = [47; 0] -> d_last d1 = false -> d_kept d1 = true ->
  d_method d2 = GET -> d_path d2 = [47; 0] -> d_last d2 = true -> d_kept d2 = false ->
  connect s = (true, s) -> awaits [d_response d1; d_response d2] s ->
  testClientTmpl connect host (Z.of_nat (length (d_body d1))) fuel (MkClient false (MkConn r s) 0) = Done tt.
Proof.
  intros G1 G2 Hlen Hb M1 P1 L1 K1 M2 P2 L2 K2 Hcon Ha. pose (eat := fun (bs : list Z) (n : Z) => n + Z.of_nat (length bs)).
  assert (forall a b h, eat (a ++ b) h = eat b (eat a h)) as E2 by (intros a b h; unfold eat; rewrite length_app; lia).
  assert (forall h, eat [] h = h) as E3 by (intros h; unfold eat; simpl; lia).
  destruct (request_next 65536 ltac:(lia) counting_consume eat (fun _ _ => eq_refl) E2 E3 connect host d1 fuel (MkClient false (MkConn r s) 0) s [d_response d2] G1 Hcon Ha)
    as (c1 & Q1 & _ & H1 & C1 & A1 & _).
  assert (request_socket connect c1 = (true, socket (cl_conn c1))) as Hs1 by (unfold request_socket; by rewrite C1, K1).
  destruct (request_next 65536 ltac:(lia) counting_consume eat (fun _ _ => eq_refl) E2 E3 connect host d2 fuel c1 _ [] G2 Hs1 (A1 K1)) as (c2 & Q2 & _ & H2 & C2 & _).
  rewrite M1, P1, L1 in Q1. rewrite M2, P2, L2 in Q2. unfold testClientTmpl, test_request. rewrite Q1. cbn [bind_out Z.eqb]. rewrite C1, K1. cbn [negb].
  cbn [cl_handler] in H1. unfold eat in H1, H2. rewrite H1, Z.add_0_l. unfold received. rewrite u64_id by lia. rewrite Z.eqb_refl. cbn [negb].
  rewrite Q2. cbn [bind_out Z.eqb]. rewrite C2, K2, H2, H1, <- Hlen. replace (0 + _ + _) with (Z.of_nat (length (d_body d1)) * 2) by lia. by rewrite Z.eqb_refl.
Qed.
