(* ===== verification/Node.v ===== *)
(** * Owning pointers: [src/tlibc/node.cc], [mem.cc], [move.h]

    [Node] owns the object behind [value_]; moving a node leaves a null pointer.  An
    object of the heap is one of the types that the program puts into a node; the two
    allocators are the interface [NodeAlloc].  A program over local variables of type
    [Node<Person, allocator_trace>] is a list of the statements of [main]. *)
From Stdlib Require Import ZArith Lia.
From stdpp Require Import base tactics list numbers strings gmap.
From S2P Require Import Prelude.
Open Scope Z_scope.

(** ** Allocators *)

(** [Plain] is [cpp_alloc] and [cpp_free], [Traced] is [malloc] and [free]. *)
Inductive space : Type := Plain | Traced.

Class NodeAlloc (A : Type) : Type := {
  a_malloc : space -> Z -> cmd A Z;
  a_free : space -> Z -> Z -> cmd A unit;
}.

(** ** Objects *)

Inductive gender : Type := Man | Woman.
(** [property_] is the [value_] of a [Node<int>]. *)
Inductive object : Type :=
| OInt (n : Z)
| OPerson (class : gender) (age_ : Z) (gender_ : Z) (property_ : Z).

(** The virtual table, [age_], [gender_] and its padding, [property_]; the derived
    classes add no members. *)
Definition sizeof_int : Z := 4.
Definition sizeof_Person : Z := 8 + 4 + 4 + 8.
Definition sizeof_class (g : gender) : Z := match g with Man | Woman => sizeof_Person end.
Definition gender_char (g : gender) : Z := match g with Man => 77 | Woman => 70 end.

(** Lines of output: [~Man] or [~Woman], [~Person] with the address and the age, and
    the result of [feeling]. *)
Inductive event : Type := Gone (g : gender) | Dies (address age : Z) | Feels (g : gender).

Record node_state (A : Type) : Type := MkNodes {
  objects : gmap Z object; allocs : A; alloc_size : Z; free_size : Z; printed : list event; vars : list Z }.
Arguments MkNodes {A}.
Arguments objects {A}.
Arguments allocs {A}.
Arguments alloc_size {A}.
Arguments free_size {A}.
Arguments printed {A}.
Arguments vars {A}.

Section Nodes.
Context {A : Type} {node_alloc : NodeAlloc A}.
Abbreviation command := (cmd (node_state A)).

Definition on_allocs {T} (c : cmd A T) : command T := fun w =>
  match c (allocs w) with
  | Done (t, a) => Done (t, MkNodes (objects w) a (alloc_size w) (free_size w) (printed w) (vars w))
  | AssertFail => AssertFail | Fault => Fault | Diverged => Diverged
  end.
Definition count_alloc (size : Z) : command unit := fun w =>
  Done (tt, MkNodes (objects w) (allocs w) (u64 (alloc_size w + size)) (free_size w) (printed w) (vars w)).
Definition count_free (size : Z) : command unit := fun w =>
  Done (tt, MkNodes (objects w) (allocs w) (alloc_size w) (u64 (free_size w + size)) (printed w) (vars w)).

(** [allocator::malloc], [allocator_trace::malloc] and the [free] of both. *)
Definition node_malloc (sp : space) (size : Z) : command Z :=
  match sp with Plain => mret tt | Traced => count_alloc size end ;;
  on_allocs (a_malloc sp size).
Definition node_free (sp : space) (p size : Z) : command unit :=
  on_allocs (a_free sp p size) ;;
  match sp with Plain => mret tt | Traced => count_free size end.

Definition set_objects (o : gmap Z object) (w : node_state A) : node_state A :=
  MkNodes o (allocs w) (alloc_size w) (free_size w) (printed w) (vars w).
Definition set_vars (vs : list Z) (w : node_state A) : node_state A :=
  MkNodes (objects w) (allocs w) (alloc_size w) (free_size w) (printed w) vs.

(** Placement [new]; the end of the lifetime of an object; an access to one. *)
Definition construct (p : Z) (o : object) : command unit := fun w =>
  if p =? 0 then Fault else Done (tt, set_objects (<[p := o]> (objects w)) w).
Definition destroy (p : Z) : command unit := fun w => Done (tt, set_objects (delete p (objects w)) w).
Definition access (p : Z) : command object := fun w =>
  if p =? 0 then Fault else match objects w !! p with Some o => Done (o, w) | None => Fault end.
Definition printf (e : event) : command unit := fun w =>
  Done (tt, MkNodes (objects w) (allocs w) (alloc_size w) (free_size w) (printed w ++ [e]) (vars w)).

(** [Node<int>(n)] and [Node<Man, allocator_trace>(age, Node<int>(n))]: the argument
    is moved into [property_]. *)
Definition new_int (n : Z) : command Z :=
  p ← node_malloc Plain sizeof_int;
  construct p (OInt n) ;;
  mret p.
Definition new_person (g : gender) (age n : Z) : command Z :=
  property ← new_int n;
  p ← node_malloc Traced (sizeof_class g);
  construct p (OPerson g age (gender_char g) property) ;;
  mret p.

(** [reset] of a [Node<int>]. *)
Definition reset_int (value : Z) : command unit :=
  if value =? 0 then mret tt
  else
    o ← access value;
    match o with
    | OInt _ => destroy value ;; node_free Plain value sizeof_int
    | OPerson _ _ _ _ => c_fault
    end.

(** The virtual destructor, then the memory: [reset] of a [Node<Person>]. *)
Definition reset_person (value : Z) : command unit :=
  if value =? 0 then mret tt
  else
    o ← access value;
    match o with
    | OPerson g age _ property =>
        printf (Gone g) ;;
        printf (Dies value age) ;;
        reset_int property ;;
        destroy value ;;
        node_free Traced value sizeof_Person
    | OInt _ => c_fault
    end.

(** ** Statements *)

(** The variables are numbered in the order of their declarations. *)
Inductive statement : Type :=
| NewPerson (g : gender) (age n : Z)
| NewMoved (y : nat)
| AssignPerson (x : nat) (g : gender) (age n : Z)
| AssignMoved (x y : nat)
| Drop (x : nat)
| Birthday (x : nat)
| Feeling (x : nat).

Definition get_var (x : nat) : command Z := fun w =>
  match vars w !! x with Some v => Done (v, w) | None => Fault end.
Definition set_var (x : nat) (v : Z) : command unit := fun w => Done (tt, set_vars (<[x := v]> (vars w)) w).
Definition declare (v : Z) : command unit := fun w => Done (tt, set_vars (vars w ++ [v]) w).

Definition reset_var (x : nat) : command unit :=
  v ← get_var x;
  reset_person v ;;
  set_var x 0.

Definition INT_MAX : Z := 2 ^ 31 - 1.

Definition run_statement (st : statement) : command unit :=
  match st with
  | NewPerson g age n => p ← new_person g age n; declare p
  | NewMoved y => v ← get_var y; set_var y 0 ;; declare v
  | AssignPerson x g age n => p ← new_person g age n; reset_var x ;; set_var x p
  | AssignMoved x y => reset_var x ;; v ← get_var y; set_var x v ;; set_var y 0
  | Drop x => reset_var x
  | Birthday x =>
      v ← get_var x;
      o ← access v;
      match o with
      | OPerson g age c p => if age =? INT_MAX then c_fault else construct v (OPerson g (age + 1) c p)
      | OInt _ => c_fault
      end
  | Feeling x =>
      v ← get_var x;
      o ← access v;
      match o with OPerson g _ _ _ => printf (Feels g) | OInt _ => c_fault end
  end.

Fixpoint run_statements (ss : list statement) : command unit :=
  match ss with [] => mret tt | s :: ss => run_statement s ;; run_statements ss end.

(** The variables go out of scope, the last one first. *)
Fixpoint end_scope (n : nat) : command unit :=
  match n with O => mret tt | S n => reset_var n ;; end_scope n end.

Definition leave_scope : command unit := fun w => end_scope (length (vars w)) w.
Definition run_program (ss : list statement) : command unit := run_statements ss ;; leave_scope.
End Nodes.

(** [main] of node.cc. *)
Definition main_program : list statement :=
  [NewPerson Man 12 42; Birthday 0; Feeling 0; AssignPerson 0 Woman 41 42; Feeling 0; NewPerson Man 22 42; AssignMoved 1 0].

(** ** What a program means

    A variable is null or has a person: class, age and property. *)
Definition person : Type := gender * Z * Z.

(** The destructor of a value. *)
Definition dying (v : option person) : list event :=
  match v with Some (g, age, _) => [Gone g; Dies 0 age] | None => [] end.

(** The values and the output; nothing when the program uses a null pointer, or adds
    to the greatest age. *)
Definition statement_spec (st : statement) (vs : list (option person)) : option (list (option person) * list event) :=
  match st with
  | NewPerson g age n => Some (vs ++ [Some (g, age, n)], [])
  | NewMoved y => v ← vs !! y; Some (<[y := None]> vs ++ [v], [])
  | AssignPerson x g age n => v ← vs !! x; Some (<[x := Some (g, age, n)]> vs, dying v)
  | AssignMoved x y => v ← vs !! x; u ← <[x := None]> vs !! y; Some (<[y := None]> (<[x := u]> (<[x := None]> vs)), dying v)
  | Drop x => v ← vs !! x; Some (<[x := None]> vs, dying v)
  | Birthday x => match vs !! x with Some (Some (g, age, n)) => if age =? INT_MAX then None else Some (<[x := Some (g, age + 1, n)]> vs, []) | _ => None end
  | Feeling x => match vs !! x with Some (Some (g, _, _)) => Some (vs, [Feels g]) | _ => None end
  end.

Fixpoint statements_spec (ss : list statement) (vs : list (option person)) : option (list (option person) * list event) :=
  match ss with
  | [] => Some (vs, [])
  | s :: ss =>
      match statement_spec s vs with
      | None => None
      | Some (vs, out) => match statements_spec ss vs with None => None | Some (vs, out') => Some (vs, out ++ out') end
      end
  end.

Definition program_spec (ss : list statement) : option (list event) :=
  match statements_spec ss [] with
  | None => None
  | Some (vs, out) => Some (out ++ concat (dying <$> reverse vs))
  end.

(** Addresses are not specified. *)
Definition erase (e : event) : event := match e with Dies _ age => Dies 0 age | e => e end.
