(* ===== verification/NodeTheorems.v ===== *)
(** * Programs over owning pointers refine programs over values

    [heap_of] says that the heap consists of exactly the objects that the variables
    own; every statement keeps it, so that nothing is freed twice, used after it is
    freed, or lost. *)
From Stdlib Require Import ZArith Lia.
From stdpp Require Import base tactics list numbers strings gmap.
From S2P Require Import Prelude Node.
Open Scope Z_scope.

(** What an allocator promises about the blocks that it has handed out. *)
Class NodeAllocLaws (A : Type) {node_alloc : NodeAlloc A} : Type := {
  blocks : A -> gmap Z (space * Z);
  (** A valid state in which the next [r] allocations of small objects succeed. *)
  a_ok : nat -> A -> Prop;
  malloc_fresh : forall r sp n a, 0 < n <= 1024 -> a_ok (S r) a ->
    exists p a', a_malloc sp n a = Done (p, a') /\ p <> 0 /\ blocks a !! p = None /\ blocks a' = <[p := (sp, n)]> (blocks a) /\ a_ok r a';
  free_block : forall r sp n p a, a_ok r a -> blocks a !! p = Some (sp, n) ->
    exists a', a_free sp p n a = Done (tt, a') /\ blocks a' = delete p (blocks a) /\ a_ok r a';
}.

(** The cells of a person. *)
Definition owns (v property : Z) (pr : person) (m m' : gmap Z object) : Prop :=
  let '(g, age, n) := pr in
  v <> 0 /\ property <> 0 /\ m !! v = None /\ m !! property = None /\ v <> property /\
  m' = <[v := OPerson g age (gender_char g) property]> (<[property := OInt n]> m).

Fixpoint heap_of (vs : list (option person)) (vals : list Z) (m : gmap Z object) : Prop :=
  match vs, vals with
  | [], [] => m = ∅
  | None :: vs, v :: vals => v = 0 /\ heap_of vs vals m
  | Some pr :: vs, v :: vals => exists property m0, owns v property pr m0 m /\ heap_of vs vals m0
  | _, _ => False
  end.

Lemma heap_of_length vs : forall vals m, heap_of vs vals m -> length vals = length vs.
Proof.
  induction vs as [|[pr|] vs IH]; intros [|v vals] m H; simpl in *; try done.
  - destruct H as (p & m0 & _ & H). f_equal. by eapply IH.
  - destruct H as [_ H]. f_equal. by eapply IH.
Qed.

(** Two persons side by side. *)
Lemma owns_swap v p pr m1 w q qr m0 m : owns v p pr m1 m -> owns w q qr m0 m1 ->
  exists m2, owns v p pr m0 m2 /\ owns w q qr m2 m.
Proof.
  destruct pr as [[g a] n], qr as [[g' a'] n']. intros (H1 & H2 & H3 & H4 & H5 & ->) (K1 & K2 & K3 & K4 & K5 & ->).
  apply lookup_insert_None in H3 as [H3 Hvw]. apply lookup_insert_None in H3 as [H3 Hvq].
  apply lookup_insert_None in H4 as [H4 Hpw]. apply lookup_insert_None in H4 as [H4 Hpq].
  eexists. split; [repeat split; eauto|]. repeat split; [done..| | |done|].
  - by rewrite !lookup_insert_ne by done.
  - by rewrite !lookup_insert_ne by done.
  - rewrite (insert_insert_ne _ p w), (insert_insert_ne _ p q) by done. rewrite (insert_insert_ne _ v w), (insert_insert_ne _ v q) by done. done.
Qed.

(** The person of a variable can be taken out of the heap, and put back. *)
Lemma heap_take vs : forall vals m x pr, heap_of vs vals m -> vs !! x = Some (Some pr) ->
  exists v p m0, vals !! x = Some v /\ owns v p pr m0 m /\ heap_of (<[x := None]> vs) (<[x := 0]> vals) m0.
Proof.
  induction vs as [|o vs IH]; intros vals m x pr H Hx; [done|]. destruct vals as [|v vals]; [by destruct o|]. destruct x as [|x].
  - injection Hx as ->. destruct H as (p & m0 & Ho & H). exists v, p, m0. done.
  - simpl in Hx. destruct o as [qr|].
    + destruct H as (q & m1 & Ho & H). destruct (IH vals m1 x pr H Hx) as (v' & p & m0 & Hv & Ho' & H').
      destruct (owns_swap _ _ _ _ _ _ _ _ _ Ho Ho') as (m2 & Hq & Hp). exists v', p, m2. split; [done|]. split; [done|]. simpl. by exists q, m0.
    + destruct H as [-> H]. destruct (IH vals m x pr H Hx) as (v' & p & m0 & Hv & Ho' & H'). by exists v', p, m0.
Qed.

Lemma heap_put vs : forall vals m x pr v p m', heap_of vs vals m -> vs !! x = Some None -> owns v p pr m m' ->
  heap_of (<[x := Some pr]> vs) (<[x := v]> vals) m'.
Proof.
  induction vs as [|o vs IH]; intros vals m x pr v p m' H Hx Ho; [done|]. destruct vals as [|w vals]; [by destruct o|]. destruct x as [|x].
  - injection Hx as ->. destruct H as [-> H]. simpl. by exists p, m.
  - simpl in Hx. destruct o as [qr|].
    + destruct H as (q & m0 & Hq & H). destruct (owns_swap _ _ _ _ _ _ _ _ _ Ho Hq) as (m2 & Ho' & Hq').
      simpl. exists q, m2. split; [done|]. by eapply IH.
    + destruct H as [-> H]. simpl. split; [done|]. by eapply IH.
Qed.

Lemma heap_null vs : forall vals m x, heap_of vs vals m -> vs !! x = Some None -> vals !! x = Some 0.
Proof.
  induction vs as [|o vs IH]; intros vals m x H Hx; [done|]. destruct vals as [|v vals]; [by destruct o|]. destruct x as [|x].
  - injection Hx as ->. by destruct H as [-> _].
  - simpl in Hx |- *. destruct o as [qr|]; [destruct H as (q & m0 & _ & H) | destruct H as [_ H]]; by eapply IH.
Qed.

(** A pointer moves from one variable to a null one. *)
Lemma heap_move vs vals m x y o v : heap_of vs vals m -> vs !! x = Some None -> vs !! y = Some o -> vals !! y = Some v -> x <> y ->
  heap_of (<[y := None]> (<[x := o]> vs)) (<[y := 0]> (<[x := v]> vals)) m.
Proof.
  intros H Hx Hy Hv Hne. destruct o as [pr|].
  - destruct (heap_take _ _ _ _ _ H Hy) as (v' & p & m0 & Hv' & Ho & H'). rewrite Hv in Hv'. injection Hv' as <-.
    rewrite !(list_insert_insert_ne _ y x) by done. eapply heap_put; [exact H'| |exact Ho]. by rewrite list_lookup_insert_ne.
  - pose proof (heap_null _ _ _ _ H Hx) as Hx0. pose proof (heap_null _ _ _ _ H Hy) as Hy0. rewrite Hy0 in Hv. injection Hv as <-.
    by rewrite !(list_insert_id _ x), !(list_insert_id _ y).
Qed.

(** A declaration adds a null variable. *)
Lemma heap_declare vs : forall vals m, heap_of vs vals m -> heap_of (vs ++ [None]) (vals ++ [0]) m.
Proof.
  induction vs as [|o vs IH]; intros [|v vals] m H; simpl in *; [done|done|by destruct o|].
  destruct o as [qr|]; [destruct H as (q & m0 & Ho & H); exists q, m0; auto | destruct H as [-> H]; auto].
Qed.

(** The last variable leaves the scope. *)
Lemma heap_undeclare vs v vals m : heap_of (vs ++ [None]) (vals ++ [v]) m -> heap_of vs vals m.
Proof.
  revert vals m. induction vs as [|o vs IH]; intros [|w vals] m H; simpl in *.
  - by destruct H as [_ ->].
  - destruct H as [_ H]. by destruct vals.
  - destruct o; [destruct H as (? & ? & _ & H) | destruct H as [_ H]]; apply heap_of_length in H; rewrite length_app in H; simpl in H; lia.
  - destruct o as [qr|]; [destruct H as (q & m0 & Ho & H); exists q, m0; auto | destruct H as [-> H]; auto].
Qed.

Section Programs.
Context {A : Type} {node_alloc : NodeAlloc A} {laws : NodeAllocLaws A}.
(** The blocks of the rest of the program. *)
Variable base : gmap Z (space * Z).

Definition block_of (o : object) : space * Z :=
  match o with OInt _ => (Plain, sizeof_int) | OPerson g _ _ _ => (Traced, sizeof_class g) end.

Record mem_ok (r : nat) (w : node_state A) : Prop := {
  mo_blocks : blocks (allocs w) = (block_of <$> objects w) ∪ base;
  mo_base : forall p o, objects w !! p = Some o -> base !! p = None;
  mo_room : a_ok r (allocs w);
}.

Lemma mem_ok_fresh {r} w p : mem_ok r w -> blocks (allocs w) !! p = None -> objects w !! p = None /\ base !! p = None.
Proof.
  intros [Hb _ _] H. rewrite Hb in H. apply lookup_union_None in H as [H1 H2]. rewrite lookup_fmap in H1.
  split; [by destruct (objects w !! p) | done].
Qed.

Lemma mem_ok_new {r' r} w w' p o : mem_ok r' w -> a_ok r (allocs w') -> blocks (allocs w) !! p = None ->
  blocks (allocs w') = <[p := block_of o]> (blocks (allocs w)) -> objects w' = <[p := o]> (objects w) -> mem_ok r w'.
Proof.
  intros Hm Hr Hf Hb Ho. destruct (mem_ok_fresh w p Hm Hf) as [_ Hbase]. destruct Hm as [Hb0 Hd _]. split; [| |done].
  - by rewrite Hb, Ho, fmap_insert, <- insert_union_l, Hb0.
  - intros q u. rewrite Ho. intros [[<- _]|[_ Hq]]%lookup_insert_Some; [done | by eapply Hd].
Qed.

Lemma mem_ok_del {r} w w' p o : mem_ok r w -> a_ok r (allocs w') -> objects w !! p = Some o ->
  blocks (allocs w') = delete p (blocks (allocs w)) -> objects w' = delete p (objects w) -> mem_ok r w'.
Proof.
  intros [Hb0 Hd _] Hr Hp Hb Ho. split; [| |done].
  - rewrite Hb, Ho, Hb0, delete_union, fmap_delete. f_equal. apply delete_id. by eapply Hd.
  - intros q u. rewrite Ho. intros [_ Hq]%lookup_delete_Some. by eapply Hd.
Qed.

(** What a statement leaves alone. *)
Definition same_vars (w w' : node_state A) : Prop := vars w' = vars w /\ printed w' = printed w.

(** *** Construction *)

Lemma node_malloc_spec {r} sp size w : 0 < size <= 1024 -> mem_ok (S r) w -> exists p a, node_malloc sp size w =
    Done (p, MkNodes (objects w) a (match sp with Traced => u64 (alloc_size w + size) | Plain => alloc_size w end) (free_size w) (printed w) (vars w)) /\
  p <> 0 /\ blocks (allocs w) !! p = None /\ blocks a = <[p := (sp, size)]> (blocks (allocs w)) /\ a_ok r a.
Proof.
  intros Hs [_ _ Hr]. destruct (malloc_fresh r sp size (allocs w) Hs Hr) as (p & a & E & H). exists p, a. split; [|done].
  unfold node_malloc. destruct sp; cbn; unfold mbind, cmd_bind, on_allocs; cbn; by rewrite E.
Qed.

Lemma construct_spec p o (w : node_state A) : p <> 0 -> construct p o w = Done (tt, set_objects (<[p := o]> (objects w)) w).
Proof. intros Hp. unfold construct. by rewrite (proj2 (Z.eqb_neq p 0)). Qed.

Lemma new_int_spec {r} n w : mem_ok (S r) w -> exists p w', new_int n w = Done (p, w') /\ mem_ok r w' /\ p <> 0 /\ objects w !! p = None /\
  objects w' = <[p := OInt n]> (objects w) /\ same_vars w w' /\ alloc_size w' = alloc_size w /\ free_size w' = free_size w.
Proof.
  intros Hm. destruct (node_malloc_spec Plain sizeof_int w ltac:(done) Hm) as (p & a & E & Hp & Hf & Hb & Hr).
  unfold new_int. rewrite (bind_done _ _ _ _ _ E), (bind_done _ _ _ _ _ (construct_spec _ _ _ Hp)).
  eexists _, _. split; [done|]. split; [by eapply (mem_ok_new w _ p (OInt n))|]. split; [done|]. split; [by eapply mem_ok_fresh|]. done.
Qed.

Lemma new_person_spec {r} g age n w : mem_ok (S (S r)) w -> exists p q w', new_person g age n w = Done (p, w') /\ mem_ok r w' /\
  owns p q (g, age, n) (objects w) (objects w') /\ same_vars w w' /\
  alloc_size w' = u64 (alloc_size w + sizeof_Person) /\ free_size w' = free_size w.
Proof.
  intros Hm. destruct (new_int_spec n w Hm) as (q & w1 & E1 & Hm1 & Hq & Hqf & Ho1 & [Hv1 Hp1] & Ha1 & Hf1).
  destruct (node_malloc_spec Traced (sizeof_class g) w1 ltac:(by destruct g) Hm1) as (p & a & E & Hp & Hf & Hb & Hr).
  unfold new_person. rewrite (bind_done _ _ _ _ _ E1), (bind_done _ _ _ _ _ E), (bind_done _ _ _ _ _ (construct_spec _ _ _ Hp)).
  pose proof (mem_ok_fresh w1 p Hm1 Hf) as [Hpo _]. rewrite Ho1 in Hpo. apply lookup_insert_None in Hpo as [Hpo Hne].
  eexists p, q, _. split; [done|]. split; [by eapply (mem_ok_new w1 _ p (OPerson g age (gender_char g) q))|].
  split; [by repeat split; cbn; rewrite ?Ho1|]. split; [done|]. cbn. rewrite Ha1. by destruct g.
Qed.

(** *** Destruction *)

Lemma access_spec p o (w : node_state A) : p <> 0 -> objects w !! p = Some o -> access p w = Done (o, w).
Proof. intros Hp Ho. unfold access. by rewrite (proj2 (Z.eqb_neq p 0)), Ho. Qed.

Lemma release_spec {r} sp size p o w : mem_ok r w -> objects w !! p = Some o -> block_of o = (sp, size) ->
  exists w', (destroy p ;; node_free sp p size) w = Done (tt, w') /\ mem_ok r w' /\ objects w' = delete p (objects w) /\ same_vars w w' /\
    alloc_size w' = alloc_size w /\ free_size w' = match sp with Traced => u64 (free_size w + size) | Plain => free_size w end.
Proof.
  intros Hm Ho Hb. assert (blocks (allocs w) !! p = Some (sp, size)) as Hl.
  { destruct Hm as [Hbl _ _]. rewrite Hbl. apply lookup_union_Some_l. by rewrite lookup_fmap, Ho, <- Hb. }
  destruct (free_block r sp size p (allocs w) (mo_room _ _ Hm) Hl) as (a & E & Ha & Hr).
  assert (destroy p w = Done (tt, set_objects (delete p (objects w)) w)) as Ed by done. rewrite (bind_done _ _ _ _ _ Ed).
  
  assert (node_free sp p size (set_objects (delete p (objects w)) w) = Done (tt, MkNodes (delete p (objects w)) a (alloc_size w)
    (match sp with Traced => u64 (free_size w + size) | Plain => free_size w end) (printed w) (vars w))) as En.
  { unfold node_free, on_allocs, mbind, cmd_bind. cbn [set_objects allocs]. rewrite E. by destruct sp. }
  rewrite En. eexists. split; [done|]. split; [by eapply (mem_ok_del w _ p o)|]. by destruct sp.
Qed.

Lemma reset_person_spec {r} v q pr m0 w : mem_ok r w -> owns v q pr m0 (objects w) ->
  exists w', reset_person v w = Done (tt, w') /\ mem_ok r w' /\ objects w' = m0 /\ vars w' = vars w /\
    (erase <$> printed w') = (erase <$> printed w) ++ dying (Some pr) /\
    alloc_size w' = alloc_size w /\ free_size w' = u64 (free_size w + sizeof_Person).
Proof.
  destruct pr as [[g age] n]. intros Hm (Hv & Hq & Hv0 & Hq0 & Hne & Ho).
  assert (objects w !! v = Some (OPerson g age (gender_char g) q)) as Hlv by (by rewrite Ho, lookup_insert_eq).
  assert (objects w !! q = Some (OInt n)) as Hlq by (by rewrite Ho, lookup_insert_ne, lookup_insert_eq).
  unfold reset_person. rewrite (proj2 (Z.eqb_neq v 0)) by done. rewrite (bind_done _ _ _ _ _ (access_spec _ _ _ Hv Hlv)).
  rewrite (bind_done (printf (Gone g)) _ w tt _ eq_refl). rewrite (bind_done (printf (Dies v age)) _ _ tt _ eq_refl). cbn [objects allocs alloc_size free_size printed vars].
  set (w1 := MkNodes _ _ _ _ _ _). assert (mem_ok r w1) as Hm1 by (destruct Hm; by split).
  destruct (release_spec Plain sizeof_int q (OInt n) w1 Hm1 Hlq eq_refl) as (w2 & E2 & Hm2 & Ho2 & [Hv2 Hp2] & Ha2 & Hf2).
  assert (reset_int q w1 = Done (tt, w2)) as Eq.
  { unfold reset_int. rewrite (proj2 (Z.eqb_neq q 0)) by done. by rewrite (bind_done _ _ _ _ _ (access_spec q (OInt n) w1 Hq Hlq)). }
  rewrite (bind_done _ _ _ _ _ Eq).
  assert (objects w2 !! v = Some (OPerson g age (gender_char g) q)) as Hlv2 by (by rewrite Ho2, lookup_delete_ne).
  destruct (release_spec Traced sizeof_Person v _ w2 Hm2 Hlv2) as (w3 & E3 & Hm3 & Ho3 & [Hv3 Hp3] & Ha3 & Hf3); [by destruct g|].
  exists w3. split; [done|]. split; [done|]. split; [|split; [by rewrite Hv3, Hv2|]].
  - rewrite Ho3, Ho2. subst w1. cbn [objects]. rewrite Ho.
    rewrite (delete_insert_ne _ q v) by done. rewrite !delete_insert_eq, (delete_id m0 q) by done. by apply delete_id.
  - split; [|split; [by rewrite Ha3, Ha2 | by rewrite Hf3, Hf2]]. rewrite Hp3, Hp2. subst w1. cbn [printed]. rewrite !fmap_app, <- app_assoc. done.
Qed.

(** *** Statements *)

(** A person and its property. *)
Definition allocations (st : statement) : nat :=
  match st with NewPerson _ _ _ | AssignPerson _ _ _ _ => 2 | _ => 0 end.
Definition needed (ss : list statement) : nat := sum_list_with allocations ss.

Fixpoint persons (vs : list (option person)) : Z :=
  match vs with [] => 0 | Some _ :: vs => 1 + persons vs | None :: vs => persons vs end.
Definition weight (o : option person) : Z := match o with Some _ => 1 | None => 0 end.

Lemma persons_insert vs x o o' : vs !! x = Some o -> persons (<[x := o']> vs) = persons vs - weight o + weight o'.
Proof.
  revert x. induction vs as [|u vs IH]; intros [|x] H; [done|done| |]; simpl in *.
  - injection H as ->. destruct o, o'; simpl; lia.
  - rewrite (IH x H). destruct u; lia.
Qed.
Lemma persons_app vs us : persons (vs ++ us) = persons vs + persons us.
Proof. induction vs as [|[] vs IH]; simpl; lia. Qed.

(** The counters of [allocator_trace] differ by the size of the live persons. *)
Definition ledger (k : Z) (w : node_state A) : Prop :=
  0 <= alloc_size w < 2 ^ 64 /\ 0 <= free_size w < 2 ^ 64 /\ exists z, alloc_size w = free_size w + sizeof_Person * k + 2 ^ 64 * z.

(** The variables, with the temporaries of a statement behind them. *)
Record repr (r : nat) (vs ts : list (option person)) (tvals : list Z) (out : list event) (w : node_state A) : Prop := {
  re_heap : heap_of (vs ++ ts) (vars w ++ tvals) (objects w);
  re_vars : length (vars w) = length vs;
  re_mem : mem_ok r w;
  re_out : erase <$> printed w = out;
  re_ledger : ledger (persons (vs ++ ts)) w;
}.

Lemma u64_sum x : exists z, u64 x = x + 2 ^ 64 * z /\ 0 <= u64 x < 2 ^ 64.
Proof.
  exists (- (x / 2 ^ 64)). unfold u64, wrap. pose proof (Z.div_mod x (2 ^ 64) ltac:(lia)). pose proof (Z.mod_pos_bound x (2 ^ 64) ltac:(lia)). lia.
Qed.

Lemma ledger_alloc k w w' : ledger k w -> alloc_size w' = u64 (alloc_size w + sizeof_Person) -> free_size w' = free_size w -> ledger (k + 1) w'.
Proof.
  intros (H1 & H2 & z & H3) Ha Hf. destruct (u64_sum (alloc_size w + sizeof_Person)) as (y & Hy & Hr). unfold ledger. rewrite Ha, Hf.
  split; [done|]. split; [done|]. exists (z + y). lia.
Qed.
Lemma ledger_free k w w' : ledger k w -> alloc_size w' = alloc_size w -> free_size w' = u64 (free_size w + sizeof_Person) -> ledger (k - 1) w'.
Proof.
  intros (H1 & H2 & z & H3) Ha Hf. destruct (u64_sum (free_size w + sizeof_Person)) as (y & Hy & Hr). unfold ledger. rewrite Ha, Hf.
  split; [done|]. split; [done|]. exists (z - y). lia.
Qed.

Lemma get_var_spec x (w : node_state A) v : vars w !! x = Some v -> get_var x w = Done (v, w).
Proof. intros H. unfold get_var. by rewrite H. Qed.

Lemma repr_lookup {r} vs ts tvals out w x o : repr r vs ts tvals out w -> vs !! x = Some o -> exists v, vars w !! x = Some v /\ (vars w ++ tvals) !! x = Some v.
Proof.
  intros [_ Hl _ _ _] Hx. apply lookup_lt_Some in Hx as Hlt. rewrite <- Hl in Hlt. destruct (lookup_lt_is_Some_2 (vars w) x Hlt) as [v Hv].
  exists v. split; [done|]. by apply lookup_app_l_Some.
Qed.

Lemma reset_var_spec {r} vs ts tvals out w x o : repr r vs ts tvals out w -> vs !! x = Some o ->
  exists w', reset_var x w = Done (tt, w') /\ repr r (<[x := None]> vs) ts tvals (out ++ dying o) w' /\ vars w' = <[x := 0]> (vars w).
Proof.
  intros Hr Hx. destruct (repr_lookup _ _ _ _ _ _ _ Hr Hx) as (v & Hv & Hvt). destruct Hr as [Hh Hl Hm Ho Hg].
  assert ((vs ++ ts) !! x = Some o) as Hxt by (by apply lookup_app_l_Some).
  assert (x < length vs)%nat as Hlt by (by eapply lookup_lt_Some).
  unfold reset_var. rewrite (bind_done _ _ _ _ _ (get_var_spec x w v Hv)). destruct o as [pr|].
  - destruct (heap_take _ _ _ _ _ Hh Hxt) as (v' & q & m0 & Hv' & Hown & Hh'). rewrite Hvt in Hv'. injection Hv' as <-.
    destruct (reset_person_spec v q pr m0 w Hm Hown) as (w1 & E1 & Hm1 & Ho1 & Hv1 & Hp1 & Ha1 & Hf1).
    rewrite (bind_done _ _ _ _ _ E1). eexists. split; [done|]. cbn [set_vars vars]. rewrite Hv1. split; [|done]. split.
    + cbn [set_vars vars objects]. rewrite Ho1. by rewrite <- !insert_app_l by lia.
    + cbn [set_vars vars]. by rewrite !length_insert.
    + by destruct Hm1.
    + cbn [set_vars printed]. by rewrite Hp1, Ho.
    + rewrite <- insert_app_l by done. rewrite (persons_insert _ _ _ _ Hxt). cbn [weight]. rewrite Z.add_0_r. by eapply ledger_free.
  - pose proof (heap_null _ _ _ _ Hh Hxt) as H0. rewrite Hvt in H0. injection H0 as ->.
    eexists. split; [done|]. cbn [set_vars vars dying]. split; [|done]. rewrite (list_insert_id vs x) by done. rewrite app_nil_r.
    split; cbn [set_vars vars objects printed]; rewrite ?(list_insert_id (vars w) x) by done; try done. by destruct Hm.
Qed.

(** The temporary of [x = Node<K>(...)] ends up in the variable [x]. *)
Lemma take_temporary {r} vs pr p out w x : repr r vs [Some pr] [p] out w -> vs !! x = Some None ->
  repr r (<[x := Some pr]> vs) [] [] out (set_vars (<[x := p]> (vars w)) w).
Proof.
  intros Hr Hx. destruct (repr_lookup _ _ _ _ _ _ _ Hr Hx) as (v & Hv & Hvt). destruct Hr as [Hh Hl Hm Ho Hg].
  assert (x < length vs)%nat as Hlt by (by eapply lookup_lt_Some).
  assert ((vs ++ [Some pr]) !! x = Some None) as Hxt by (by apply lookup_app_l_Some).
  pose proof (heap_move _ _ _ x (length vs) (Some pr) p Hh Hxt) as Hmv. rewrite !lookup_app_r in Hmv by lia.
  rewrite Hl, Nat.sub_diag in Hmv. specialize (Hmv eq_refl eq_refl ltac:(lia)).
  rewrite (insert_app_l vs), (insert_app_l (vars w)) in Hmv by lia.
  rewrite (insert_app_r_alt (<[x:=Some pr]> vs)), (insert_app_r_alt (<[x:=p]> (vars w))) in Hmv by (rewrite length_insert; lia).
  rewrite !length_insert, Hl, Nat.sub_diag in Hmv. cbn [insert list_insert] in Hmv. apply heap_undeclare in Hmv.
  split; cbn [set_vars vars objects printed]; rewrite ?app_nil_r; [done|by rewrite !length_insert|by destruct Hm|done|].
  rewrite (persons_insert _ _ _ _ Hx). rewrite persons_app in Hg. cbn [weight persons] in *. by replace (persons vs - 0 + 1) with (persons vs + (1 + 0)) by lia.
Qed.

Lemma new_person_repr {r} vs out w g age n : repr (S (S r)) vs [] [] out w ->
  exists p w', new_person g age n w = Done (p, w') /\ repr r vs [Some (g, age, n)] [p] out w' /\ vars w' = vars w.
Proof.
  intros [Hh Hl Hm Ho Hg]. destruct (new_person_spec g age n w Hm) as (p & q & w' & E & Hm' & Hown & [Hv Hp] & Ha & Hf).
  exists p, w'. split; [done|]. split; [|done]. rewrite !(app_nil_r vs) in Hh, Hg. rewrite (app_nil_r (vars w)) in Hh. split.
  - rewrite Hv. apply heap_declare in Hh. assert ((vs ++ [None]) !! length vs = Some None) as Hx by (by rewrite lookup_app_r, Nat.sub_diag by lia).
    pose proof (heap_put _ _ _ (length vs) _ _ _ _ Hh Hx Hown) as Hput.
    rewrite (insert_app_r_alt vs), (insert_app_r_alt (vars w)), Hl, Nat.sub_diag in Hput by lia. exact Hput.
  - by rewrite Hv.
  - done.
  - by rewrite Hp.
  - rewrite persons_app. cbn [persons]. rewrite Z.add_0_r. by eapply ledger_alloc.
Qed.

(** Moving between two variables, and to a new one. *)
Lemma move_repr {r} vs out w x y o : repr r vs [] [] out w -> vs !! x = Some None -> vs !! y = Some o -> x <> y ->
  exists v, vars w !! y = Some v /\ repr r (<[y := None]> (<[x := o]> vs)) [] [] out (set_vars (<[y := 0]> (<[x := v]> (vars w))) w).
Proof.
  intros Hr Hx Hy Hne. destruct (repr_lookup _ _ _ _ _ _ _ Hr Hy) as (v & Hv & _). destruct Hr as [Hh Hl Hm Ho Hg]. exists v. split; [done|].
  rewrite !(app_nil_r vs) in Hh, Hg. rewrite (app_nil_r (vars w)) in Hh.
  split; cbn [set_vars vars objects printed]; [|by rewrite !length_insert|by destruct Hm|done|].
  - rewrite !app_nil_r. by apply heap_move.
  - rewrite app_nil_r, (persons_insert _ _ o), (persons_insert _ _ _ _ Hx) by (by rewrite list_lookup_insert_ne).
    cbn [weight]. by replace (persons vs - 0 + weight o - weight o + 0) with (persons vs) by lia.
Qed.

Lemma declare_repr {r} vs out w : repr r vs [] [] out w -> repr r (vs ++ [None]) [] [] out (set_vars (vars w ++ [0]) w).
Proof.
  intros [Hh Hl Hm Ho Hg]. rewrite !(app_nil_r vs) in Hh, Hg. rewrite (app_nil_r (vars w)) in Hh.
  split; cbn [set_vars vars objects printed]; [|by rewrite !length_app, Hl|by destruct Hm|done|].
  - rewrite !app_nil_r. by apply heap_declare.
  - rewrite app_nil_r, persons_app. by rewrite Z.add_0_r.
Qed.

Lemma declare_moved {r} vs out w y o : repr r vs [] [] out w -> vs !! y = Some o ->
  exists v, vars w !! y = Some v /\ repr r (<[y := None]> vs ++ [o]) [] [] out (set_vars (<[y := 0]> (vars w) ++ [v]) w).
Proof.
  intros Hr Hy. pose proof (declare_repr _ _ _ Hr) as Hd. pose proof (re_vars _ _ _ _ _ _ Hr) as Hl. apply lookup_lt_Some in Hy as Hlt.
  destruct (move_repr _ _ _ (length vs) y o Hd) as (v & Hv & Hr').
  - by rewrite lookup_app_r, Nat.sub_diag by lia.
  - by rewrite lookup_app_l.
  - lia.
  - cbn [set_vars vars] in Hv, Hr'. rewrite lookup_app_l in Hv by lia. exists v. split; [done|].
    rewrite (insert_app_r_alt vs), Nat.sub_diag in Hr' by lia. rewrite <- Hl in Hr' at 1.
    rewrite (insert_app_r_alt (vars w)), Nat.sub_diag in Hr' by lia. cbn [insert list_insert] in Hr'.
    by rewrite (insert_app_l vs), (insert_app_l (vars w)) in Hr' by lia.
Qed.

(** The person behind a variable. *)
Lemma person_access {r} vs out w x g age n : repr r vs [] [] out w -> vs !! x = Some (Some (g, age, n)) ->
  exists v q m0, vars w !! x = Some v /\ v <> 0 /\ objects w !! v = Some (OPerson g age (gender_char g) q) /\
    owns v q (g, age, n) m0 (objects w) /\ heap_of (<[x := None]> vs) (<[x := 0]> (vars w)) m0.
Proof.
  intros [Hh Hl _ _ _] Hx. rewrite !app_nil_r in Hh. destruct (heap_take _ _ _ _ _ Hh Hx) as (v & q & m0 & Hv & Ho & Hh').
  exists v, q, m0. split; [done|]. split; [apply Ho|]. split; [|done].
  destruct Ho as (_ & _ & _ & _ & _ & ->). by rewrite lookup_insert_eq.
Qed.

Lemma birthday_repr {r} vs out w x g age n : repr r vs [] [] out w -> vs !! x = Some (Some (g, age, n)) -> age <> INT_MAX ->
  exists w', run_statement (Birthday x) w = Done (tt, w') /\ repr r (<[x := Some (g, age + 1, n)]> vs) [] [] out w'.
Proof.
  intros Hr Hx Ha. destruct (person_access _ _ _ _ _ _ _ Hr Hx) as (v & q & m0 & Hv & Hv0 & Hlv & Hown & Hh').
  destruct Hr as [_ Hl Hm Ho Hg]. cbn [run_statement]. rewrite (bind_done _ _ _ _ _ (get_var_spec x w v Hv)), (bind_done _ _ _ _ _ (access_spec _ _ _ Hv0 Hlv)).
  rewrite (proj2 (Z.eqb_neq age INT_MAX)), construct_spec by done. eexists. split; [done|].
  assert (owns v q (g, age + 1, n) m0 (<[v := OPerson g (age + 1) (gender_char g) q]> (objects w))) as Hown'.
  { destruct Hown as (H1 & H2 & H3 & H4 & H5 & ->). repeat split; try done. by rewrite insert_insert_eq. }
  split; cbn [set_objects vars objects printed]; rewrite ?app_nil_r; [|by rewrite length_insert| |done|].
  - assert (heap_of (<[x := Some (g, age + 1, n)]> (<[x := None]> vs)) (<[x := v]> (<[x := 0]> (vars w))) (<[v := OPerson g (age + 1) (gender_char g) q]> (objects w))) as H.
    { eapply heap_put; [exact Hh'| |exact Hown']. apply list_lookup_insert_eq. by eapply lookup_lt_Some. }
    rewrite !list_insert_insert_eq in H. by rewrite (list_insert_id (vars w)) in H.
  - destruct Hm as [Hb Hd Hroom]. split; cbn [set_objects allocs objects]; [| |done].
    + rewrite Hb, fmap_insert. f_equal. symmetry. apply insert_id. by rewrite lookup_fmap, Hlv.
    + intros p o. intros [[<- _]|[_ Hp]]%lookup_insert_Some; by eapply Hd.
  - rewrite (persons_insert _ _ _ _ Hx). rewrite app_nil_r in Hg. cbn [weight]. by replace (persons vs - 1 + 1) with (persons vs) by lia.
Qed.

(** A statement does what its meaning says, when there is room for its allocations. *)
Lemma statement_refines {r} st vs out w vs' ev : repr (allocations st + r) vs [] [] out w -> statement_spec st vs = Some (vs', ev) ->
  exists w', run_statement st w = Done (tt, w') /\ repr r vs' [] [] (out ++ ev) w'.
Proof.
  intros Hr Hs. destruct st as [g age n|y|x g age n|x y|x|x|x]; cbn [statement_spec] in Hs.
  - injection Hs as <- <-. destruct (new_person_repr _ _ _ g age n Hr) as (p & w1 & E & [Hh Hl Hm Ho Hg] & Hv).
    cbn [run_statement]. rewrite (bind_done _ _ _ _ _ E). eexists. split; [done|]. rewrite app_nil_r.
    split; cbn [set_vars vars objects printed]; rewrite ?app_nil_r; try done; [by rewrite !length_app, Hl | by destruct Hm].
  - destruct (vs !! y) as [o|] eqn:Hy; [|done]. injection Hs as <- <-. destruct (declare_moved _ _ _ _ _ Hr Hy) as (v & Hv & Hr').
    cbn [run_statement]. rewrite (bind_done _ _ _ _ _ (get_var_spec y w v Hv)). eexists. split; [done|]. by rewrite app_nil_r.
  - destruct (vs !! x) as [o|] eqn:Hx; [|done]. injection Hs as <- <-. destruct (new_person_repr _ _ _ g age n Hr) as (p & w1 & E & Hr1 & Hv1).
    destruct (reset_var_spec _ _ _ _ _ _ _ Hr1 Hx) as (w2 & E2 & Hr2 & _).
    cbn [run_statement]. rewrite (bind_done _ _ _ _ _ E), (bind_done _ _ _ _ _ E2). eexists. split; [done|].
    pose proof (take_temporary _ _ _ _ _ x Hr2 ltac:(apply list_lookup_insert_eq; by eapply lookup_lt_Some)) as Hr3. by rewrite list_insert_insert_eq in Hr3.
  - destruct (vs !! x) as [o|] eqn:Hx; [|done]. cbn in Hs. destruct (<[x:=None]> vs !! y) as [u|] eqn:Hy; [|done]. injection Hs as <- <-.
    destruct (reset_var_spec _ _ _ _ _ _ _ Hr Hx) as (w2 & E2 & Hr2 & Hv2). assert (x < length vs)%nat as Hlt by (by eapply lookup_lt_Some).
    cbn [run_statement]. rewrite (bind_done _ _ _ _ _ E2). destruct (decide (x = y)) as [->|Hne].
    + rewrite list_lookup_insert_eq in Hy by done. injection Hy as <-. pose proof (re_vars _ _ _ _ _ _ Hr) as Hl.
      assert (vars w2 !! y = Some 0) as Hy0 by (rewrite Hv2; apply list_lookup_insert_eq; lia).
      rewrite (bind_done _ _ _ _ _ (get_var_spec y w2 0 Hy0)). eexists. split; [done|]. cbn [set_vars vars].
      rewrite !list_insert_insert_eq, (list_insert_id (vars w2)) by done. by destruct w2.
    + destruct (move_repr _ _ _ x y u Hr2 ltac:(by apply list_lookup_insert_eq) Hy Hne) as (v & Hv & Hr3).
      rewrite (bind_done _ _ _ _ _ (get_var_spec y w2 v Hv)). eexists. split; [done|]. exact Hr3.
  - destruct (vs !! x) as [o|] eqn:Hx; [|done]. injection Hs as <- <-. destruct (reset_var_spec _ _ _ _ _ _ _ Hr Hx) as (w2 & E2 & Hr2 & _). by exists w2.
  - destruct (vs !! x) as [[[[g age] n]|]|] eqn:Hx; try done. destruct (Z.eqb_spec age INT_MAX); [done|]. injection Hs as <- <-.
    rewrite app_nil_r. by eapply birthday_repr.
  - destruct (vs !! x) as [[[[g age] n]|]|] eqn:Hx; try done. injection Hs as <- <-.
    destruct (person_access _ _ _ _ _ _ _ Hr Hx) as (v & q & m0 & Hv & Hv0 & Hlv & _). destruct Hr as [Hh Hl Hm Ho Hg].
    cbn [run_statement]. rewrite (bind_done _ _ _ _ _ (get_var_spec x w v Hv)), (bind_done _ _ _ _ _ (access_spec _ _ _ Hv0 Hlv)).
    eexists. split; [done|]. split; cbn [vars objects printed]; try done; [by destruct Hm | by rewrite fmap_app, Ho].
Qed.

Lemma statements_refine {r} ss : forall vs out w vs' ev, repr (needed ss + r) vs [] [] out w -> statements_spec ss vs = Some (vs', ev) ->
  exists w', run_statements ss w = Done (tt, w') /\ repr r vs' [] [] (out ++ ev) w'.
Proof.
  induction ss as [|s ss IH]; intros vs out w vs' ev Hr Hs; cbn [statements_spec run_statements] in *.
  - injection Hs as <- <-. exists w. by rewrite app_nil_r.
  - destruct (statement_spec s vs) as [[vs1 ev1]|] eqn:E; [|done]. destruct (statements_spec ss vs1) as [[vs2 ev2]|] eqn:E2; [|done]. injection Hs as <- <-.
    unfold needed in Hr. cbn [sum_list_with] in Hr. rewrite <- Nat.add_assoc in Hr. destruct (statement_refines _ _ _ _ _ _ Hr E) as (w1 & E1 & Hr1). destruct (IH _ _ _ _ _ Hr1 E2) as (w2 & Ew & Hr2).
    exists w2. rewrite (bind_done _ _ _ _ _ E1), app_assoc. done.
Qed.

(** The scope ends: the variables die in the reverse of their order. *)
Lemma end_scope_refines {r} vs : forall us out w, repr r (vs ++ us) [] [] out w -> Forall (fun o => o = None) us ->
  exists w' ks, end_scope (length vs) w = Done (tt, w') /\ repr r ks [] [] (out ++ concat (dying <$> reverse vs)) w' /\ Forall (fun o => o = None) ks.
Proof.
  induction vs as [|o vs IH] using rev_ind; intros us out w Hr Hus.
  - exists w, us. rewrite app_nil_r. done.
  - rewrite length_app, Nat.add_1_r. cbn [end_scope]. rewrite <- app_assoc in Hr.
    destruct (reset_var_spec _ _ _ _ _ (length vs) o Hr) as (w1 & E & Hr1 & _); [by rewrite lookup_app_r, Nat.sub_diag by lia|].
    rewrite (bind_done _ _ _ _ _ E). rewrite insert_app_r_alt, Nat.sub_diag in Hr1 by lia. cbn [app insert list_insert] in Hr1.
    destruct (IH (None :: us) _ w1 Hr1 ltac:(by constructor)) as (w2 & ks & E2 & Hr2 & Hks). exists w2, ks. split; [done|]. split; [|done].
    rewrite reverse_app. cbn [reverse rev_append app fmap list_fmap concat]. by rewrite <- app_assoc in Hr2.
Qed.

Lemma heap_of_null ks : forall vals m, heap_of ks vals m -> Forall (fun o => o = None) ks -> m = ∅.
Proof.
  induction ks as [|o ks IH]; intros [|v vals] m H Hk; simpl in *; [done|done|by destruct o|].
  apply Forall_cons in Hk as [-> Hk]. destruct H as [_ H]. by eapply IH.
Qed.
Lemma null_values ks : forall vals m, heap_of ks vals m -> Forall (fun o => o = None) ks -> vals = replicate (length vals) 0.
Proof.
  induction ks as [|o ks IH]; intros [|v vals] m H Hk; simpl in *; [done|done|by destruct o|].
  apply Forall_cons in Hk as [-> Hk]. destruct H as [-> H]. f_equal. by eapply IH.
Qed.
Lemma persons_null ks : Forall (fun o => o = None) ks -> persons ks = 0.
Proof. induction 1 as [|o ks -> _ IH]; [done | exact IH]. Qed.
End Programs.

(** ** The claim *)

Definition start {A} (a : A) : node_state A := MkNodes ∅ a 0 0 [] [].

Lemma nodes_refine {A} {node_alloc : NodeAlloc A} {laws : NodeAllocLaws A} ss r (a : A) out :
  program_spec ss = Some out -> a_ok (needed ss + r) a ->
  exists w, run_program ss (start a) = Done (tt, w) /\ erase <$> printed w = out /\
    objects w = ∅ /\ vars w = replicate (length (vars w)) 0 /\ blocks (allocs w) = blocks a /\ a_ok r (allocs w) /\ alloc_size w = free_size w.
Proof.
  unfold program_spec. destruct (statements_spec ss []) as [[vs ev]|] eqn:Es; [|done]. intros [= <-] Hroom.
  assert (repr (blocks a) (needed ss + r) [] [] [] [] (start a)) as Hr.
  { split; try done; [split; [by cbn; rewrite fmap_empty, (left_id_L ∅ (∪)) | done | done] | split; [done|]; split; [done|]; by exists 0]. }
  destruct (statements_refine (blocks a) ss _ _ _ _ _ Hr Es) as (w1 & E1 & Hr1). cbn [app] in Hr1.
  pose proof (re_vars _ _ _ _ _ _ _ Hr1) as Hl1. rewrite <- (app_nil_r vs) in Hr1.
  destruct (end_scope_refines (blocks a) vs [] ev w1 Hr1 (Forall_nil_2 _)) as (w2 & ks & E2 & [Hh Hl [Hb _ Hleft] Ho Hg] & Hks).
  exists w2. unfold run_program, leave_scope. rewrite (bind_done _ _ _ _ _ E1), Hl1. split; [done|]. split; [done|].
  rewrite !app_nil_r in Hh, Hg. rewrite (app_nil_r (vars w2)) in Hh.
  pose proof (heap_of_null _ _ _ Hh Hks) as He. rewrite He in Hb. rewrite (persons_null _ Hks) in Hg.
  split; [done|]. split; [by apply (null_values ks _ (objects w2))|]. split; [by rewrite Hb, fmap_empty, (left_id_L ∅ (∪))|]. split; [done|].
  destruct Hg as (H1 & H2 & z & H3). lia.
Qed.

(** A program over owning pointers that never uses a null one runs to its end
    without a double free or an access to a dead object, prints what the program over
    values prints, and leaves no object, no block of either allocator and equal
    counters behind, however it moves, assigns and drops its variables, when there is
    room for two allocations for every person that it makes. *)
Theorem nodes_refine_values {A} {node_alloc : NodeAlloc A} {laws : NodeAllocLaws A} ss r (a : A) out :
  program_spec ss = Some out -> a_ok (needed ss + r) a ->
  exists w, run_program ss (start a) = Done (tt, w) /\ erase <$> printed w = out /\
    objects w = ∅ /\ vars w = replicate (length (vars w)) 0 /\ blocks (allocs w) = blocks a /\ a_ok r (allocs w) /\ alloc_size w = free_size w.
Proof. apply nodes_refine. Qed.

(** An allocator that remembers the blocks it has handed out. *)
Definition table_alloc : Type := gmap Z (space * Z).
#[export] Instance space_eq_dec : EqDecision space.
Proof. solve_decision. Defined.
#[export] Instance table_node_alloc : NodeAlloc table_alloc := {
  a_malloc sp n := fun a => let p := fresh ({[0]} ∪ dom a : gset Z) in Done (p, <[p := (sp, n)]> a);
  a_free sp p n := fun a => if decide (a !! p = Some (sp, n)) then Done (tt, delete p a) else Fault;
}.
#[export] Program Instance table_alloc_laws : NodeAllocLaws table_alloc := { blocks a := a; a_ok _ _ := True }.
Next Obligation.
  intros r sp n a _ _. cbn. do 2 eexists. split; [done|]. pose proof (is_fresh ({[0]} ∪ dom a : gset Z)) as H. apply not_elem_of_union in H as [H0 Hd].
  split; [by apply not_elem_of_singleton in H0|]. split; [by apply not_elem_of_dom | done].
Qed.
Next Obligation. intros r sp n p a _ H. cbn. rewrite decide_True by done. by eexists. Qed.

Lemma nodes_refine_values_witness : exists w,
  run_program main_program (start (∅ : table_alloc)) = Done (tt, w) /\
  erase <$> printed w = [Feels Man; Gone Man; Dies 0 13; Feels Woman; Gone Man; Dies 0 22; Gone Woman; Dies 0 41] /\
  objects w = ∅ /\ allocs w = ∅ /\ alloc_size w = free_size w.
Proof.
  destruct (nodes_refine_values (laws := table_alloc_laws) main_program 0 (∅ : table_alloc) _ eq_refl I) as (w & E & Hp & Ho & _ & Hb & _ & Hc).
  exists w. split; [exact E|]. split; [exact Hp|]. split; [exact Ho|]. split; [exact Hb | exact Hc].
Defined.
