(* ===== verification/NodeMalloc.v ===== *)
(** * Owning pointers over the allocator

    [allocator] and [allocator_trace] of [node.cc] call the functions of [malloc.c], and
    so do the operators of [mem.cc].  The allocator of Malloc.v is an instance of the
    interface that Node.v uses, which composes the two. *)
From Stdlib Require Import ZArith Lia.
From stdpp Require Import base tactics list numbers list_numbers strings gmap.
From S2P Require Import Prelude Memory Malloc MallocRep MallocSpec MallocHeap MallocArena MallocFree MallocTheorems MallocClient MallocClaims MallocRoom Node NodeTheorems.
Open Scope Z_scope.

(** A system that grants a page as long as fewer than [limit] pages are in use. *)
Class PageLimit {os : Os} (foreign : Z -> bool) (limit : nat) : Prop :=
  page_limit : forall mp (used : list Z), (forall q, mp q = true -> foreign q = true \/ q ∈ used) -> (length used < limit)%nat ->
    is_Some (os_mmap mp PGSIZE).

(** The memory, with a note of the blocks that are handed out. *)
Record noted : Type := MkNoted { heap_state : mstate; held : gmap Z (space * Z) }.

Section Instance_.
Context {os : Os}.

(** [allocator] and [allocator_trace]. *)
Definition alloc_call (sp : space) (size : Z) : cmd mstate Z :=
  match sp with Plain => cpp_alloc size | Traced => malloc size end.
Definition free_call (sp : space) (p size : Z) : cmd mstate unit :=
  match sp with Plain => cpp_free p size | Traced => free p end.

Definition noted_malloc (sp : space) (size : Z) : cmd noted Z := fun t =>
  match alloc_call sp size (heap_state t) with
  | Done (p, s) => Done (p, MkNoted s (if p =? 0 then held t else <[p := (sp, size)]> (held t)))
  | AssertFail => AssertFail | Fault => Fault | Diverged => Diverged
  end.
Definition noted_free (sp : space) (p size : Z) : cmd noted unit := fun t =>
  match free_call sp p size (heap_state t) with
  | Done (_, s) => Done (tt, MkNoted s (delete p (held t)))
  | AssertFail => AssertFail | Fault => Fault | Diverged => Diverged
  end.
#[export] Instance malloc_node_alloc : NodeAlloc noted := { a_malloc := noted_malloc; a_free := noted_free }.

(** The operators of [mem.cc]. *)
Definition operator_new (size : Z) : cmd mstate Z := cpp_alloc size.
Definition operator_new_array (size : Z) : cmd mstate Z := cpp_alloc size.
Definition operator_delete (ptr size : Z) : cmd mstate unit := cpp_free ptr size.
Definition operator_delete_array (ptr size : Z) : cmd mstate unit := cpp_free ptr size.

Lemma alloc_call_small sp size : size <= 1024 -> alloc_call sp size = mymalloc size.
Proof. intros H. destruct sp; cbn; [|done]. unfold cpp_alloc. by rewrite (proj2 (Z.ltb_ge 1024 size)). Qed.
Lemma free_call_small sp p size : size <= 1024 -> free_call sp p size = myfree p.
Proof. intros H. destruct sp; cbn; [|done]. unfold cpp_free. by rewrite (proj2 (Z.ltb_ge 1024 size)). Qed.

Section Laws.
Context (foreign : Z -> bool) (limit : nat) {page : PageLimit foreign limit}.

(** The notes are exactly the objects of the heap. *)
Record notes_ok (t : noted) : Prop := {
  no_heap : exists h, heap_ok foreign 0 (heap_state t) h /\
    (forall p b, held t !! p = Some b -> exists k, live h p k /\ freeable k) /\
    (forall p k, live h p k -> is_Some (held t !! p));
  no_small : forall p sp n, held t !! p = Some (sp, n) -> n <= 1024;
}.
Definition has_room (r : nat) (s : mstate) : Prop :=
  exists used, (length used + r <= limit)%nat /\ forall q, mapped s q = true -> foreign q = true \/ q ∈ used.

Lemma room_less n r s s' l : has_room (n + r) s -> (length l <= n)%nat ->
  (forall q, mapped s' q = true -> mapped s q = true \/ q ∈ l) -> has_room r s'.
Proof.
  intros (used & Hu & Hm) Hl H. exists (used ++ l). rewrite length_app. split; [lia|]. intros q Hq. rewrite elem_of_app.
  destruct (H q Hq) as [Hq'|]; [|tauto]. destruct (Hm q Hq'); tauto.
Qed.

Lemma noted_malloc_fresh r sp n t : 0 < n <= 1024 -> notes_ok t /\ has_room (S r) (heap_state t) ->
  exists p t', noted_malloc sp n t = Done (p, t') /\ p <> 0 /\ held t !! p = None /\ held t' = <[p := (sp, n)]> (held t) /\
    notes_ok t' /\ has_room r (heap_state t').
Proof.
  intros Hn [[(h & Hok & Hheld & Hlive) Hsmall] Hroom]. unfold noted_malloc. rewrite alloc_call_small by lia.
  assert (wp (mymalloc n) (fun pt s' => exists h' i, heap_ok foreign 0 s' h' /\ grows h h' pt (Small i)) (heap_state t)) as Hw.
  { apply (wp_small foreign n _ _ h Hok ltac:(lia)); [|by eauto]. intros s' Hnone. destruct Hroom as (used & Hu & Hm).
    destruct (page_limit (mapped (heap_state t)) used Hm ltac:(lia)) as [p Hp]. congruence. }
  apply wp_run in Hw as (pt & s' & E & h' & i & Hok' & Hg). rewrite E.
  pose proof (live_pos foreign 0 s' h' pt (Small i) Hok' (grows_live _ _ _ _ Hg)) as Hpos. destruct Hg as [Hfresh Hg].
  exists pt. rewrite (proj2 (Z.eqb_neq pt 0)) by lia. eexists. split; [done|]. cbn [heap_state held]. split; [lia|].
  split; [|split; [done|split]].
  - destruct (held t !! pt) as [b|] eqn:Eb; [|done]. destruct (Hheld pt b Eb) as (k & Hk & _). destruct Hfresh. by exists k.
  - split; cbn [heap_state held].
    + exists h'. split; [done|]. split.
      * intros p b [[<- _]|[Hne Hb]]%lookup_insert_Some; [exists (Small i); split; [apply Hg; by right | done]|].
        destruct (Hheld p b Hb) as (k & Hk & Hf). exists k. split; [apply Hg; by left | done].
      * intros p k [Hk|[-> ->]]%Hg; [|by rewrite lookup_insert_eq]. destruct (decide (pt = p)) as [->|Hne]; [by rewrite lookup_insert_eq|].
        rewrite lookup_insert_ne by done. by eapply Hlive.
    + intros p sp' n' [[_ [= _ <-]]|[_ Hb]]%lookup_insert_Some; [lia | by eapply Hsmall].
  - destruct (adds_mymalloc n ltac:(lia) _ _ _ E) as (l & Hl & Hm). by apply (room_less 1 r (heap_state t) s' l).
Qed.

Lemma noted_free_block r sp n p t : notes_ok t /\ has_room r (heap_state t) -> held t !! p = Some (sp, n) ->
  exists t', noted_free sp p n t = Done (tt, t') /\ held t' = delete p (held t) /\ notes_ok t' /\ has_room r (heap_state t').
Proof.
  intros [[(h & Hok & Hheld & Hlive) Hsmall] Hroom] Hp. unfold noted_free. rewrite free_call_small by by eapply Hsmall.
  destruct (Hheld p _ Hp) as (k & Hk & Hf).
  assert (wp (myfree p) (fun _ s' => exists h', heap_ok foreign 0 s' h' /\ shrinks h h' p) (heap_state t)) as Hw.
  { apply (wp_myfree foreign p k _ _ h Hok Hk Hf). eauto. }
  apply wp_run in Hw as ([] & s' & E & h' & Hok' & Hsh). rewrite E. eexists. split; [done|]. split; [done|]. cbn [heap_state held]. split.
  - split; cbn [heap_state held].
    + exists h'. split; [done|]. split.
      * intros q b [Hne Hb]%lookup_delete_Some. destruct (Hheld q b Hb) as (k' & Hk' & Hf'). exists k'. split; [apply Hsh; auto | done].
      * intros q k' [Hk' Hne]%Hsh. rewrite lookup_delete_ne by done. by eapply Hlive.
    + intros q sp' n' [_ Hb]%lookup_delete_Some. by eapply Hsmall.
  - destruct (adds_myfree p _ _ _ E) as (l & Hl & Hm). by apply (room_less 0 r (heap_state t) s' l).
Qed.

#[export] Instance malloc_node_laws : NodeAllocLaws noted := {
  blocks := held; a_ok r t := notes_ok t /\ has_room r (heap_state t);
  malloc_fresh := noted_malloc_fresh; free_block := noted_free_block }.
End Laws.
End Instance_.

(** What [operator new] gave, [operator delete] takes back: exactly the objects from
    before are left. *)
Lemma new_delete {os : Os} foreign s h size : heap_ok foreign 0 s h -> 0 <= size < 2 ^ 64 ->
  exists p s', operator_new size s = Done (p, s') /\
    (p = 0 \/ exists s'' h'', operator_delete p size s' = Done (tt, s'') /\ heap_ok foreign 0 s'' h'' /\ forall b k, live h'' b k <-> live h b k).
Proof.
  intros Hok Hs. apply wp_run. apply (wp_cpp_alloc foreign size _ s h Hok Hs). intros p s' [_ [(-> & _)|(h' & k & Hok' & Hg & Hf)]]; [by left | right].
  apply grows_live in Hg as Hl. assert (wp (cpp_free p size) (fun _ s'' => exists h'', heap_ok foreign 0 s'' h'' /\ shrinks h' h'' p) s') as Hw.
  { apply (wp_cpp_free foreign p k size _ s' h' Hok' Hl); [|by eauto]. unfold cpp_fits in Hf. destruct (1024 <? size); apply Hf. }
  apply wp_run in Hw as ([] & s'' & E & h'' & Hok'' & Hsh). exists s'', h''. split; [done|]. split; [done|]. intros b k'. destruct Hg as [Hfr Hg].
  rewrite (Hsh b k'), (Hg b k'). split; [tauto|]. intros Hb. split; [tauto|]. intros ->. apply Hfr. by exists k'.
Qed.


(** ** A system with 64 pages *)

#[export] Instance demo_limit : @PageLimit demo_os no_pages 64.
Proof.
  intros mp used Hm Hu. cbn. unfold demo_mmap. change ((0 <? PGSIZE) && (PGSIZE <=? 2 ^ 30)) with true. cbv iota.
  destruct (list_find _ (seqZ 16 64)) as [[i k]|] eqn:Ef; [by eexists|]. exfalso. apply list_find_None in Ef.
  assert (forall q, q ∈ seqZ 16 64 -> q ∈ used) as Hall.
  { intros q Hq. rewrite Forall_forall in Ef. specialize (Ef q Hq). unfold pages_of in Ef.
    replace (q * PGSIZE / PGSIZE) with q in Ef by (unfold PGSIZE; dlia). replace ((q * PGSIZE + PGSIZE - 1) / PGSIZE) with q in Ef by (unfold PGSIZE; dlia).
    rewrite Z.sub_diag in Ef. assert (seqZ q (0 + 1) = [q]) as Eq1 by (by rewrite seqZ_cons by lia). rewrite Eq1 in Ef. cbn in Ef. destruct (mp q) eqn:Eq; [|by destruct Ef]. destruct (Hm q Eq) as [Hf|]; [discriminate Hf | done]. }
  pose proof (submseteq_length _ _ (NoDup_submseteq _ _ (NoDup_seqZ 16 64) Hall)) as Hlen. rewrite length_seqZ in Hlen. lia.
Qed.

