(* ===== verification/Blockdev.v ===== *)
(** * The size of a block device: [src/gpt/blockdev.c]

    The function that reads [/sys/class/block/<name>/size], and its test program.  The
    files of the system are a parameter. *)
From Stdlib Require Import ZArith Lia.
From stdpp Require Import base tactics list numbers strings.
From S2P Require Import Prelude AptList AptListTheorems AptRecords Apt Http HttpRead HttpServe.
Open Scope Z_scope.

(** The capacity of [buf]. *)
Definition buf_size : nat := 192.
Definition size_path (name : str) : str := c_str "/sys/class/block/" ++ cstr name ++ c_str "/size".

(** [sprintf] writes a terminator too. *)
Definition print_path (name : str) : outcome str :=
  if (length (size_path name) <? buf_size)%nat then Done (size_path name) else Fault.

(** [fscanf] with [%ld]: spaces, a sign and at least one digit.  Without a digit the
    variable keeps no value, and reading it is undefined. *)
Definition isdigit (c : Z) : bool := (48 <=? c) && (c <=? 57).
Definition scan_ld (text : str) : outcome Z :=
  let t := (span isspace text).2 in
  let u := match t with c :: t' => if (c =? 45) || (c =? 43) then t' else t | [] => [] end in
  if isdigit (hd 0 u) then atol text else Fault.

(** [fopen] gives the text of a file; [fscanf] of a null stream is undefined. *)
Definition sizeOfBlockdev (fopen : str -> option str) (name : str) : outcome Z :=
  bind_out (print_path name) (fun buf =>
  match fopen buf with
  | None => Fault
  | Some fobj => bind_out (scan_ld fobj) (fun ret => Done (u64 ret))
  end).

(** [%lx] *)
Definition hex_char (d : Z) : Z := if d <? 10 then 48 + d else 87 + d.
Fixpoint hex_loop (fuel : nat) (n : Z) (acc : str) : str :=
  match fuel with
  | O => acc
  | S fuel' => if n =? 0 then acc else hex_loop fuel' (n / 16) (hex_char (n mod 16) :: acc)
  end.
Definition hex (n : Z) : str := if n =? 0 then [48] else hex_loop 16 n [].

(** [main]: the lines that it prints for its arguments. *)
Fixpoint blockdev_main (fopen : str -> option str) (args : list str) : cmd str Z := fun out =>
  match args with
  | [] => Done (0, out)
  | name :: args =>
      bind_out (sizeOfBlockdev fopen name) (fun size =>
      blockdev_main fopen args (out ++ cstr name ++ c_str ": " ++ hex size ++ [10]))
  end.

(** ** Theorems *)

Lemma scan_ld_decimal n : 0 < n < 2 ^ 63 -> scan_ld (decimal n ++ [10]) = Done n.
Proof.
  intros Hn. unfold scan_ld. rewrite atol_decimal by done.
  destruct (decimal_number n Hn) as (Hd & Hne & _ & _). destruct (decimal n) as [|c ds]; [done|]. pose proof Hd as [Hc _]%Forall_cons.
  destruct (digit_of_range c Hc) as (Hsp & Hm & Hp & _). cbn [span app]. rewrite Hsp. cbn [snd].
  rewrite (proj2 (Z.eqb_neq c 45)), (proj2 (Z.eqb_neq c 43)) by done. cbn [orb hd]. unfold digit in Hc. unfold isdigit.
  by rewrite (proj2 (Z.leb_le 48 c)), (proj2 (Z.leb_le c 57)) by lia.
Qed.

(** The function returns the number in the file of a device whose name has at most 169
    bytes.  The kernel counts sectors of 512 bytes there, whatever the device is. *)
Theorem sizeOfBlockdev_reads fopen name n :
  (length (cstr name) <= 169)%nat -> 0 < n < 2 ^ 63 -> fopen (size_path name) = Some (decimal n ++ [10]) ->
  sizeOfBlockdev fopen name = Done n.
Proof.
  intros Hl Hn Hf. unfold sizeOfBlockdev, print_path.
  assert (length (size_path name) < buf_size)%nat as Hlt by (unfold size_path, buf_size; rewrite !length_app; simpl; lia).
  rewrite (proj2 (Nat.ltb_lt _ _)) by done. cbn [bind_out]. rewrite Hf, scan_ld_decimal by done. cbn [bind_out]. by rewrite u64_id by lia.
Qed.

(** A name of 170 bytes overflows the buffer; a device that is not there is not
    noticed; neither is a file without a number. *)
Lemma sizeOfBlockdev_faults fopen name :
  (170 <= length (cstr name))%nat \/ fopen (size_path name) = None \/ fopen (size_path name) = Some [] ->
  sizeOfBlockdev fopen name = Fault.
Proof.
  intros H. unfold sizeOfBlockdev, print_path. destruct (Nat.ltb_spec (length (size_path name)) buf_size) as [Hlt|Hge]; [|done].
  cbn [bind_out]. destruct H as [H|[->| ->]]; [|done|done]. exfalso. unfold size_path, buf_size in *. rewrite !length_app in Hlt. simpl in Hlt. lia.
Qed.

Example blockdev_run :
  blockdev_main (fun p => if str_eqb p (c_str "/sys/class/block/sda/size") then Some (c_str "1953525168" ++ [10]) else None) [c_str "sda"] [] =
  Done (0, c_str "sda: 74706db0" ++ [10]).
Proof. by vm_compute. Qed.
